(** * TAS (Telegram as Storage): a shallow embedding of the storage engine

    The development follows the JavaScript sources of the repository:
    - [utils/chunker.js]     the 64-byte frame header ([createHeader], [parseHeader]);
    - [crypto/encryption.js] the [Encryptor] (salt | iv | ciphertext | authTag);
    - [db/index.js]          the [FileIndex] over the SQLite tables;
    - [index.js]             the pipeline ([processFile], [retrieveFile]);
    - [fuse/mount.js]        the [TelegramFS] projection with its cache and write buffers;
    - [sync/sync.js]         the [SyncEngine] folder scan.

    Node buffers are lists of bytes, JavaScript strings are lists of code
    points, numbers are integers of [Z]; exceptions are values of [exn]
    carried by a result type, and mutable objects are threaded as explicit
    state. *)

From Stdlib Require Import ZArith Lia List Bool String Ascii Sorted.
From Stdlib Require Import Init.Byte Strings.Byte.
From stdpp Require Import base option list gmap.

Local Open Scope Z_scope.

(* ===================================================================== *)
(** * JavaScript strings *)
(* ===================================================================== *)

(** A string is the list of its code points.  A well-formed string holds
    Unicode scalar values only; an unpaired surrogate shows as a code point
    of the surrogate range. *)
Abbreviation jsstring := (list Z).

(** The code points of an ASCII literal. *)
Definition jsstr (s : string) : jsstring :=
  map (fun a => Z.of_N (N_of_ascii a)) (list_ascii_of_string s).

Definition is_surrogate (c : Z) : bool := (0xD800 <=? c) && (c <=? 0xDFFF).

Definition is_scalar (c : Z) : bool :=
  (0 <=? c) && (c <=? 0x10FFFF) && negb (is_surrogate c).

Definition well_formed (s : jsstring) : Prop := Forall (fun c => is_scalar c = true) s.

(** [s.includes(needle)] *)
Fixpoint is_prefix (p s : jsstring) : bool :=
  match p, s with
  | [], _ => true
  | _ :: _, [] => false
  | x :: p', y :: s' => (x =? y) && is_prefix p' s'
  end.

Fixpoint includes (s needle : jsstring) : bool :=
  is_prefix needle s
  || match s with
     | [] => false
     | _ :: s' => includes s' needle
     end.

(* ===================================================================== *)
(** * Exceptions and results *)
(* ===================================================================== *)

(** The constructor of a thrown JavaScript object. *)
Inductive errclass := ErrorC | RangeErrorC | SqliteErrorC.

(** A thrown exception: its class and its [message]. *)
Record exn := mkExn { exn_class : errclass; message : jsstring }.

Inductive result (A : Type) :=
| Ok (a : A)
| Throw (e : exn).
Arguments Ok {A} a.
Arguments Throw {A} e.

#[global] Instance result_ret : MRet result := fun A a => Ok a.

#[global] Instance result_bind : MBind result := fun A B k r =>
  match r with
  | Ok a => k a
  | Throw e => Throw e
  end.

Definition is_ok {A} (r : result A) : bool :=
  match r with Ok _ => true | Throw _ => false end.

(* ===================================================================== *)
(** * Node buffers *)
(* ===================================================================== *)

Module Buffer.

Abbreviation t := (list byte).

Definition of_Z (z : Z) : byte :=
  match Byte.of_N (Z.to_N (z mod 256)) with
  | Some b => b
  | None => x00
  end.

Definition to_Z (b : byte) : Z := Z.of_N (Byte.to_N b).

#[global] Instance byte_eq_dec : EqDecision byte := Byte.byte_eq_dec.

Definition len (buf : t) : Z := Z.of_nat (length buf).

(** [Buffer.alloc(n)]: [n] zero bytes. *)
Definition alloc (n : Z) : t := replicate (Z.to_nat n) x00.

(** An index argument of [subarray]: negative counts from the end, and
    the result is clamped to the buffer. *)
Definition clampIndex (length i : Z) : Z :=
  if i <? 0 then Z.max 0 (length + i) else Z.min i length.

(** [buf.subarray(start, end)]. *)
Definition subarray (buf : t) (start end_ : Z) : t :=
  let s := clampIndex (len buf) start in
  let e := clampIndex (len buf) end_ in
  take (Z.to_nat (e - s)) (drop (Z.to_nat s) buf).

(** [buf.subarray(start)]: to the end of the buffer. *)
Definition subarray_from (buf : t) (start : Z) : t :=
  subarray buf start (len buf).

(** [buf[i]], [None] standing for [undefined]. *)
Definition get (buf : t) (i : Z) : option byte :=
  if i <? 0 then None else buf !! Z.to_nat i.

(** Overwrite [target] from [pos] on with [bytes]; the caller has checked
    that they fit. *)
Definition blit (bytes target : t) (pos : Z) : t :=
  take (Z.to_nat pos) target ++ bytes
    ++ drop (Z.to_nat pos + length bytes) target.

(** [src.copy(target, targetStart, sourceStart, sourceEnd)], for offsets
    that are not negative: copies what fits in [target] and returns the
    changed target. *)
Definition copy (src target : t) (targetStart sourceStart sourceEnd : Z) : t :=
  let piece := subarray src sourceStart sourceEnd in
  let room := Z.max 0 (len target - targetStart) in
  blit (take (Z.to_nat room) piece) target targetStart.

(** [src.copy(target, targetStart)]. *)
Definition copy_all (src target : t) (targetStart : Z) : t :=
  copy src target targetStart 0 (len src).

(** [Buffer.concat(list)]. *)
Definition concat (l : list t) : t := List.concat l.

Definition out_of_range : exn := mkExn RangeErrorC (jsstr "ERR_OUT_OF_RANGE").
Definition out_of_bounds : exn :=
  mkExn RangeErrorC (jsstr "ERR_BUFFER_OUT_OF_BOUNDS").

(** [boundsError(offset, length)], for an integer offset: [length] is the
    length of the buffer less the bytes wanted. *)
Definition boundsError (length : Z) : exn :=
  if length <? 0 then out_of_bounds else out_of_range.

(** [buf.readUInt16LE(offset)]: the first and the last byte are looked up,
    and a missing one is a bounds error. *)
Definition readUInt16LE (buf : t) (offset : Z) : result Z :=
  match get buf offset, get buf (offset + 1) with
  | Some first, Some last => Ok (to_Z first + to_Z last * 2 ^ 8)
  | _, _ => Throw (boundsError (len buf - 2))
  end.

Definition le_value (bytes : t) : Z :=
  fold_right (fun b acc => to_Z b + 256 * acc) 0 bytes.

(** [buf.readBigUInt64LE(offset)] *)
Definition readBigUInt64LE (buf : t) (offset : Z) : result Z :=
  match get buf offset, get buf (offset + 7) with
  | Some _, Some _ => Ok (le_value (subarray buf offset (offset + 8)))
  | _, _ => Throw (boundsError (len buf - 8))
  end.

(** The [n] little-endian bytes of [v]. *)
Fixpoint le_bytes (n : nat) (v : Z) : t :=
  match n with
  | O => []
  | S n' => of_Z v :: le_bytes n' (v / 256)
  end.

(** [buf.writeUInt16LE(value, offset)]: the value is checked against
    [0, 0xffff], then the offset against the buffer. *)
Definition writeUInt16LE (buf : t) (value offset : Z) : result t :=
  if (value <? 0) || (0xffff <? value) then Throw out_of_range
  else match get buf offset, get buf (offset + 1) with
       | Some _, Some _ => Ok (blit (le_bytes 2 value) buf offset)
       | _, _ => Throw (boundsError (len buf - 2))
       end.

(** [buf.writeBigUInt64LE(value, offset)] *)
Definition writeBigUInt64LE (buf : t) (value offset : Z) : result t :=
  if (value <? 0) || (0xffffffffffffffff <? value) then Throw out_of_range
  else match get buf offset, get buf (offset + 7) with
       | Some _, Some _ => Ok (blit (le_bytes 8 value) buf offset)
       | _, _ => Throw (boundsError (len buf - 8))
       end.

End Buffer.

(* ===================================================================== *)
(** * Numbers *)
(* ===================================================================== *)

Module Number.

(** [Number(b)] for a non-negative BigInt [b]: the nearest double, ties to
    the even significand.  Below [2^53] every integer is a double; above,
    the doubles are the multiples of [2^(log2 b - 52)]. *)
Definition of_BigInt (b : Z) : Z :=
  if b <? 2 ^ 53 then b
  else
    let e := Z.log2 b - 52 in
    let q := b / 2 ^ e in
    let r := b mod 2 ^ e in
    let half := 2 ^ (e - 1) in
    let q' := if r <? half then q
              else if half <? r then q + 1
              else if Z.even q then q else q + 1 in
    q' * 2 ^ e.

(** The non-negative integers that are values of the Number type. *)
Definition is_integer (n : Z) : Prop :=
  0 <= n /\ (n < 2 ^ 53 \/ n mod 2 ^ (Z.log2 n - 52) = 0).

End Number.

(* ===================================================================== *)
(** * UTF-8, as [Buffer.from(s, 'utf-8')] and [buf.toString('utf-8')] *)
(* ===================================================================== *)

Module Utf8.

Definition replacement : Z := 0xFFFD.

(** The bytes of one code point; an unpaired surrogate is written as
    U+FFFD. *)
Definition encode_cp (c : Z) : Buffer.t :=
  if c <? 0x80 then [Buffer.of_Z c]
  else if c <? 0x800 then
    [Buffer.of_Z (0xC0 + c / 64); Buffer.of_Z (0x80 + c mod 64)]
  else if c <? 0x10000 then
    if is_surrogate c then [xef; xbf; xbd]
    else [Buffer.of_Z (0xE0 + c / 4096);
          Buffer.of_Z (0x80 + (c / 64) mod 64);
          Buffer.of_Z (0x80 + c mod 64)]
  else
    [Buffer.of_Z (0xF0 + c / 262144);
     Buffer.of_Z (0x80 + (c / 4096) mod 64);
     Buffer.of_Z (0x80 + (c / 64) mod 64);
     Buffer.of_Z (0x80 + c mod 64)].

Definition encode (s : jsstring) : Buffer.t := flat_map encode_cp s.

(** What a first byte announces: an ASCII character, a sequence of
    [1 + more] bytes whose second byte lies in [lo, hi], or nothing
    valid. *)
Inductive lead :=
| Ascii
| Lead (more : nat) (lo hi : Z)
| Invalid.

Definition classify (x : Z) : lead :=
  if x <? 0x80 then Ascii
  else if x <? 0xC2 then Invalid
  else if x <? 0xE0 then Lead 1 0x80 0xBF
  else if x =? 0xE0 then Lead 2 0xA0 0xBF
  else if x =? 0xED then Lead 2 0x80 0x9F
  else if x <? 0xF0 then Lead 2 0x80 0xBF
  else if x =? 0xF0 then Lead 3 0x90 0xBF
  else if x <? 0xF4 then Lead 3 0x80 0xBF
  else if x =? 0xF4 then Lead 3 0x80 0x8F
  else Invalid.

Definition between (lo hi x : Z) : bool := (lo <=? x) && (x <=? hi).

Definition is_cont (x : Z) : bool := between 0x80 0xBF x.

(** The decoder: an ill-formed or truncated sequence yields U+FFFD and
    decoding resumes at the byte that broke it. *)
Fixpoint decode (bs : Buffer.t) : jsstring :=
  match bs with
  | [] => []
  | b0 :: r0 =>
    let x0 := Buffer.to_Z b0 in
    match classify x0 with
    | Ascii => x0 :: decode r0
    | Invalid => replacement :: decode r0
    | Lead more lo hi =>
      match r0 with
      | [] => [replacement]
      | b1 :: r1 =>
        let x1 := Buffer.to_Z b1 in
        if negb (between lo hi x1) then replacement :: decode r0
        else
          match more with
          | 1%nat => (x0 mod 32 * 64 + x1 mod 64) :: decode r1
          | _ =>
            match r1 with
            | [] => [replacement]
            | b2 :: r2 =>
              let x2 := Buffer.to_Z b2 in
              if negb (is_cont x2) then replacement :: decode r1
              else
                match more with
                | 2%nat =>
                  (x0 mod 16 * 4096 + x1 mod 64 * 64 + x2 mod 64) :: decode r2
                | _ =>
                  match r2 with
                  | [] => [replacement]
                  | b3 :: r3 =>
                    let x3 := Buffer.to_Z b3 in
                    if negb (is_cont x3) then replacement :: decode r2
                    else (x0 mod 8 * 262144 + x1 mod 64 * 4096
                          + x2 mod 64 * 64 + x3 mod 64) :: decode r3
                  end
                end
            end
          end
      end
    end
  end.

End Utf8.

(* ===================================================================== *)
(** * utils/chunker.js: the frame header *)
(* ===================================================================== *)

Module Chunker.

Import Buffer.

Definition HEADER_SIZE : Z := 64.

Record header := mkHeader {
  version : Z;
  flags : Z;
  compressed : bool;
  originalSize : Z;
  chunkIndex : Z;
  totalChunks : Z;
  filename : jsstring
}.

Definition bad_magic : exn :=
  mkExn ErrorC (jsstr "Invalid WAS file: bad magic bytes").

(** The bytes of the magic token "WAS1". *)
Definition magic_bytes : t := [x57; x41; x53; x31].

(** Whether [buffer] starts with the magic token. *)
Definition has_magic (buffer : t) : bool :=
  bool_decide (take 4 buffer = magic_bytes).

(** [header.write(s, offset)]: the UTF-8 bytes of [s], as many as fit. *)
Definition write (buf : t) (s : jsstring) (offset : Z) : t :=
  copy_all (Utf8.encode s) buf offset.

(** [createHeader(filename, originalSize, chunkIndex, totalChunks, flags)] *)
Definition createHeader (filename : jsstring)
    (originalSize chunkIndex totalChunks flags : Z) : result t :=
  let header := alloc 64 in
  let offset := 0 in
  (* Magic bytes "WAS1" *)
  let header := write header (jsstr "WAS1") offset in
  let offset := offset + 4 in
  (* Version (1) *)
  header ← writeUInt16LE header 1 offset;
  let offset := offset + 2 in
  (* Flags (bit 0: compressed) *)
  header ← writeUInt16LE header flags offset;
  let offset := offset + 2 in
  (* Original size (8 bytes) *)
  header ← writeBigUInt64LE header originalSize offset;
  let offset := offset + 8 in
  (* Chunk index *)
  header ← writeUInt16LE header chunkIndex offset;
  let offset := offset + 2 in
  (* Total chunks *)
  header ← writeUInt16LE header totalChunks offset;
  let offset := offset + 2 in
  (* Filename length *)
  let filenameBytes := subarray (Utf8.encode filename) 0 42 in
  header ← writeUInt16LE header (len filenameBytes) offset;
  let offset := offset + 2 in
  (* Filename (max 42 bytes) *)
  Ok (copy_all filenameBytes header offset).

(** [parseHeader(buffer)] *)
Definition parseHeader (buffer : t) : result header :=
  let offset := 0 in
  (* Check magic bytes *)
  let magic := Utf8.decode (subarray buffer 0 4) in
  if negb (bool_decide (magic = jsstr "WAS1")) then Throw bad_magic
  else
    let offset := offset + 4 in
    version ← readUInt16LE buffer offset;
    let offset := offset + 2 in
    flags ← readUInt16LE buffer offset;
    let offset := offset + 2 in
    originalSize ← readBigUInt64LE buffer offset;
    let originalSize := Number.of_BigInt originalSize in
    let offset := offset + 8 in
    chunkIndex ← readUInt16LE buffer offset;
    let offset := offset + 2 in
    totalChunks ← readUInt16LE buffer offset;
    let offset := offset + 2 in
    filenameLength ← readUInt16LE buffer offset;
    let offset := offset + 2 in
    let filename :=
      Utf8.decode (subarray buffer offset (offset + filenameLength)) in
    Ok {| version := version;
          flags := flags;
          compressed := Z.land flags 1 =? 1;
          originalSize := originalSize;
          chunkIndex := chunkIndex;
          totalChunks := totalChunks;
          filename := filename |}.

End Chunker.

(* ===================================================================== *)
(** * crypto/encryption.js *)
(* ===================================================================== *)

(** What the sources take from Node's [crypto] module.  The generator is
    read through its state, a counter; [gcm_seal] is a cipher of
    [createCipheriv('aes-256-gcm', key, iv)] run to [final] and returns the
    ciphertext with the tag of [getAuthTag]; [gcm_open] is the decipher
    given the tag, whose [final] throws when the tag does not verify. *)
Class Crypto := {
  randomBytes : nat -> Z -> Buffer.t;
  pbkdf2Sync : jsstring -> Buffer.t -> Z -> Z -> Buffer.t;
  gcm_seal : Buffer.t -> Buffer.t -> Buffer.t -> Buffer.t * Buffer.t;
  gcm_open : Buffer.t -> Buffer.t -> Buffer.t -> Buffer.t -> result Buffer.t;
  sha256_hex : Buffer.t -> jsstring
}.

Module Encryption.

Import Buffer.

Definition KEY_LENGTH : Z := 32.
Definition IV_LENGTH : Z := 12.
Definition TAG_LENGTH : Z := 16.
Definition SALT_LENGTH : Z := 32.
Definition PBKDF2_ITERATIONS : Z := 100000.

(** The error of [decipher.final()] on a tag that does not verify. *)
Definition auth_failed : exn :=
  mkExn ErrorC (jsstr "Unsupported state or unable to authenticate data").

Section Encryptor.
Context `{Crypto}.
Variable password : jsstring.

(** [deriveKey(salt)] *)
Definition deriveKey (salt : t) : t :=
  pbkdf2Sync password salt PBKDF2_ITERATIONS KEY_LENGTH.

(** [encrypt(data)], with the two [crypto.randomBytes] results as
    arguments. *)
Definition encrypt_with (salt iv data : t) : t :=
  let key := deriveKey salt in
  let '(encrypted, authTag) := gcm_seal key iv data in
  concat [salt; iv; encrypted; authTag].

(** [encrypt(data)] from the generator state [g]: the bytes and the
    next state. *)
Definition encrypt (g : nat) (data : t) : t * nat :=
  let salt := randomBytes g SALT_LENGTH in
  let iv := randomBytes (S g) IV_LENGTH in
  (encrypt_with salt iv data, S (S g)).

(** [decrypt(encryptedData)] *)
Definition decrypt (encryptedData : t) : result t :=
  let salt := subarray encryptedData 0 SALT_LENGTH in
  let iv := subarray encryptedData SALT_LENGTH (SALT_LENGTH + IV_LENGTH) in
  let authTag := subarray_from encryptedData (- TAG_LENGTH) in
  let ciphertext :=
    subarray encryptedData (SALT_LENGTH + IV_LENGTH) (- TAG_LENGTH) in
  let key := deriveKey salt in
  gcm_open key iv ciphertext authTag.

End Encryptor.

(** [hashData(data)]; [hashFile(path)] is the same digest of the file's
    bytes. *)
Definition hashData `{Crypto} (data : t) : jsstring := sha256_hex data.

End Encryption.

(** The contract the sources rely on: [randomBytes] returns as many bytes
    as asked; the tag has [TAG_LENGTH] bytes; opening under the key and iv
    of the sealing returns the plaintext. *)
Class CryptoLaws `{Crypto} := {
  randomBytes_length g n : 0 <= n -> Buffer.len (randomBytes g n) = n;
  tag_length key iv data :
    Buffer.len (snd (gcm_seal key iv data)) = Encryption.TAG_LENGTH;
  gcm_open_seal key iv data :
    gcm_open key iv (fst (gcm_seal key iv data)) (snd (gcm_seal key iv data))
    = Ok data
}.

(** What is known of the two primitives under another password.

    The password is the key of every HMAC that PBKDF2 computes, and HMAC
    pads a key shorter than the block of its hash, 128 bytes for SHA-512,
    with zero bytes up to the block: a password and the same password
    followed by U+0000 derive the same key as long as both fit the block.  A
    code unit takes at most three bytes of UTF-8, hence the bound on the
    length.

    The decipher, given a derived key, an iv of [IV_LENGTH] bytes and a tag
    of [TAG_LENGTH] bytes, has one error: that of [final] on a tag that does
    not verify.  Nothing says that the tag of a sealing fails to verify
    under every other key. *)
Class KeyLaws `{Crypto} := {
  pbkdf2Sync_zero_padded password salt iterations keylen :
    3 * Z.of_nat (length password) < 128 ->
    pbkdf2Sync (password ++ [0]) salt iterations keylen
    = pbkdf2Sync password salt iterations keylen;
  gcm_open_error password salt iv ciphertext authTag e :
    Buffer.len iv = Encryption.IV_LENGTH ->
    Buffer.len authTag = Encryption.TAG_LENGTH ->
    gcm_open (Encryption.deriveKey password salt) iv ciphertext authTag
    = Throw e ->
    e = Encryption.auth_failed
}.

(* ===================================================================== *)
(** * Paths *)
(* ===================================================================== *)

Module Path.

Definition slash : Z := 47.
Definition dot : Z := 46.

Definition is_slash (c : Z) : bool := c =? slash.

Fixpoint drop_while {A} (p : A -> bool) (l : list A) : list A :=
  match l with
  | [] => []
  | x :: l' => if p x then drop_while p l' else l
  end.

Fixpoint take_while {A} (p : A -> bool) (l : list A) : list A :=
  match l with
  | [] => []
  | x :: l' => if p x then x :: take_while p l' else []
  end.

(** [path.basename(p)]: the last segment, trailing separators dropped. *)
Definition basename (p : jsstring) : jsstring :=
  reverse (take_while (fun c => negb (is_slash c))
                      (drop_while is_slash (reverse p))).

(** [path.extname(p)]: from the last dot of the last segment, unless
    that dot opens the segment or there is none. *)
Definition extname (p : jsstring) : jsstring :=
  let b := basename p in
  let rev_ext := take_while (fun c => negb (c =? dot)) (reverse b) in
  if (length rev_ext =? length b)%nat then []
  else if (S (length rev_ext) =? length b)%nat then []
  else if bool_decide (b = [dot; dot]) then []
  else dot :: reverse rev_ext.

(** [String.prototype.toLowerCase], for a result that is compared with
    ASCII texts.  The characters whose image holds an ASCII character are
    those of ASCII itself, of which the capitals A to Z change, U+212A
    KELVIN SIGN, whose image is [k], and U+0130, whose image is [i] followed
    by U+0307.  The image of any other character lies outside ASCII, as the
    character does, and is not computed: the result is an ASCII text exactly
    when that of the engine is, and is then the same text. *)
Definition lower (c : Z) : jsstring :=
  if (65 <=? c) && (c <=? 90) then [c + 32]
  else if c =? 0x212A then [107]
  else if c =? 0x0130 then [105; 0x0307]
  else [c].

Definition toLowerCase (s : jsstring) : jsstring := flat_map lower s.

End Path.

(* ===================================================================== *)
(** * utils/compression.js *)
(* ===================================================================== *)

(** [zlib.gzip(data, { level: 6 })] and [zlib.gunzip(data)]. *)
Class Zlib := {
  gzip : Buffer.t -> result Buffer.t;
  gunzip : Buffer.t -> result Buffer.t
}.

Module Compressor.

Definition SKIP_COMPRESSION : list jsstring :=
  map jsstr
    [".jpg"; ".jpeg"; ".png"; ".gif"; ".webp"; ".avif"; ".heic"; ".heif";
     ".mp4"; ".mkv"; ".avi"; ".mov"; ".webm"; ".m4v";
     ".mp3"; ".aac"; ".m4a"; ".ogg"; ".opus"; ".flac"; ".wma";
     ".zip"; ".rar"; ".7z"; ".gz"; ".bz2"; ".xz"; ".tar.gz"; ".tgz";
     ".pdf"; ".docx"; ".xlsx"; ".pptx"; ".epub";
     ".dmg"; ".iso"; ".apk"; ".ipa"]%string.

Definition shouldSkip (filename : jsstring) : bool :=
  let ext := Path.toLowerCase (Path.extname filename) in
  bool_decide (ext ∈ SKIP_COMPRESSION).

(** [compress(data, filename)]: the pair [{ data, compressed }]. *)
Definition compress `{Zlib} (data : Buffer.t) (filename : jsstring)
    : Buffer.t * bool :=
  if shouldSkip filename then (data, false)
  else
    match gzip data with
    | Ok compressed =>
      if Buffer.len compressed <? Buffer.len data then (compressed, true)
      else (data, false)
    | Throw _ => (data, false)
    end.

(** [decompress(data, wasCompressed)] *)
Definition decompress `{Zlib} (data : Buffer.t) (wasCompressed : bool)
    : result Buffer.t :=
  if negb wasCompressed then Ok data else gunzip data.

End Compressor.

(** The contract the sources rely on: what [gzip] returned, [gunzip]
    restores. *)
Class ZlibLaws `{Zlib} := {
  gunzip_gzip data compressed :
    gzip data = Ok compressed -> gunzip compressed = Ok data
}.

(* ===================================================================== *)
(** * db/index.js: the file index *)
(* ===================================================================== *)

Module Sql.

Definition percent : Z := 37.
Definition underscore : Z := 95.

Definition fold_case (c : Z) : Z :=
  if (65 <=? c) && (c <=? 90) then c + 32 else c.

(** [text LIKE pattern]: [%] stands for any run of characters, [_] for
    any one character, and ASCII letters match without regard to case. *)
Fixpoint like (pattern text : jsstring) {struct pattern} : bool :=
  match pattern with
  | [] => match text with [] => true | _ :: _ => false end
  | p :: ps =>
    if p =? percent then
      (fix star (s : jsstring) : bool :=
         like ps s || match s with [] => false | _ :: s' => star s' end) text
    else
      match text with
      | [] => false
      | c :: cs =>
        ((p =? underscore) || (fold_case p =? fold_case c)) && like ps cs
      end
  end.

(** Rows ordered by an integer column, rows of equal key in their
    previous order. *)
Fixpoint insert_by {A} (key : A -> Z) (x : A) (l : list A) : list A :=
  match l with
  | [] => [x]
  | y :: l' => if key x <? key y then x :: l else y :: insert_by key x l'
  end.

Definition order_by {A} (key : A -> Z) (l : list A) : list A :=
  fold_left (fun acc x => insert_by key x acc) l [].

(** The order of the rows that [order_by] returns. *)
Definition by_key {A} (key : A -> Z) (x y : A) : Prop := key x <= key y.

End Sql.

Module FileIndex.

(** A row of [files]. *)
Record file_row := mkFile {
  id : Z;
  filename : jsstring;
  hash : jsstring;
  original_size : Z;
  stored_size : Z;
  chunks : Z;
  compressed : Z
}.

(** A row of [chunks]; [message_id] is the number whose decimal text the
    column holds. *)
Record chunk_row := mkChunk {
  file_id : Z;
  chunk_index : Z;
  message_id : Z;
  file_telegram_id : option jsstring;
  size : Z
}.

(** A row of [sync_folders]. *)
Record sync_folder_row := mkSyncFolder {
  sync_folder_id : Z;
  local_path : jsstring;
  enabled : bool
}.

(** A row of [sync_state]. *)
Record sync_state_row := mkSyncState {
  folder_id : Z;
  relative_path : jsstring;
  file_hash : jsstring;
  mtime : Z
}.

(** The database: each table in rowid order, and the AUTOINCREMENT
    counter of [files]. *)
Record t := mkDb {
  tbl_files : list file_row;
  tbl_chunks : list chunk_row;
  tbl_sync_folders : list sync_folder_row;
  tbl_sync_state : list sync_state_row;
  seq_files : Z
}.

Definition empty : t := mkDb [] [] [] [] 0.

(** The argument of [addFile]. *)
Record fileData := mkFileData {
  fd_filename : jsstring;
  fd_hash : jsstring;
  fd_originalSize : Z;
  fd_storedSize : Z;
  fd_chunks : Z;
  fd_compressed : bool
}.

Definition unique_hash : exn :=
  mkExn SqliteErrorC (jsstr "UNIQUE constraint failed: files.hash").
Definition unique_chunk : exn :=
  mkExn SqliteErrorC (jsstr "UNIQUE constraint failed: chunks.file_id, chunks.chunk_index").
Definition foreign_key : exn :=
  mkExn SqliteErrorC (jsstr "FOREIGN KEY constraint failed").

(** [exists(hash)]: SELECT 1 FROM files WHERE hash = ? *)
Definition exists_ (db : t) (h : jsstring) : bool :=
  existsb (fun f => bool_decide (hash f = h)) (tbl_files db).

(** [addFile(fileData)]: the INSERT, refused when the hash is taken, and
    [lastInsertRowid]. *)
Definition addFile (db : t) (d : fileData) : result Z * t :=
  if exists_ db (fd_hash d) then (Throw unique_hash, db)
  else
    let rowid := seq_files db + 1 in
    let row := {| id := rowid;
                  filename := fd_filename d;
                  hash := fd_hash d;
                  original_size := fd_originalSize d;
                  stored_size := fd_storedSize d;
                  chunks := fd_chunks d;
                  compressed := if fd_compressed d then 1 else 0 |} in
    (Ok rowid,
     {| tbl_files := tbl_files db ++ [row];
        tbl_chunks := tbl_chunks db;
        tbl_sync_folders := tbl_sync_folders db;
        tbl_sync_state := tbl_sync_state db;
        seq_files := rowid |}).

Definition has_file (db : t) (fileId : Z) : bool :=
  existsb (fun f => id f =? fileId) (tbl_files db).

Definition has_chunk (db : t) (fileId chunkIndex : Z) : bool :=
  existsb (fun c => (file_id c =? fileId) && (chunk_index c =? chunkIndex))
          (tbl_chunks db).

(** [addChunk(fileId, chunkIndex, messageId, size)]: the INSERT, under
    the foreign key to [files] and UNIQUE(file_id, chunk_index). *)
Definition addChunk (db : t) (fileId chunkIndex messageId size_ : Z)
    : result unit * t :=
  if has_chunk db fileId chunkIndex then (Throw unique_chunk, db)
  else if negb (has_file db fileId) then (Throw foreign_key, db)
  else
    let row := {| file_id := fileId;
                  chunk_index := chunkIndex;
                  message_id := messageId;
                  file_telegram_id := None;
                  size := size_ |} in
    (Ok (),
     {| tbl_files := tbl_files db;
        tbl_chunks := tbl_chunks db ++ [row];
        tbl_sync_folders := tbl_sync_folders db;
        tbl_sync_state := tbl_sync_state db;
        seq_files := seq_files db |}).

(** UPDATE chunks SET file_telegram_id = ?
    WHERE file_id = ? AND chunk_index = ? *)
Definition setChunkTelegramId (db : t) (tgFileId : jsstring)
    (fileId chunkIndex : Z) : t :=
  {| tbl_files := tbl_files db;
     tbl_chunks :=
       map (fun c =>
              if (file_id c =? fileId) && (chunk_index c =? chunkIndex)
              then {| file_id := file_id c;
                      chunk_index := chunk_index c;
                      message_id := message_id c;
                      file_telegram_id := Some tgFileId;
                      size := size c |}
              else c)
           (tbl_chunks db);
     tbl_sync_folders := tbl_sync_folders db;
     tbl_sync_state := tbl_sync_state db;
     seq_files := seq_files db |}.

(** [findByHash(hash)]: the first row
    WHERE hash = ? OR hash LIKE ?, with pattern [hash + '%']. *)
Definition findByHash (db : t) (h : jsstring) : option file_row :=
  find (fun f => bool_decide (hash f = h)
                 || Sql.like (h ++ [Sql.percent]) (hash f))
       (tbl_files db).

(** [findByName(filename)]: the first row
    WHERE filename = ? OR filename LIKE ?, with pattern
    ['%' + filename + '%']. *)
Definition findByName (db : t) (name : jsstring) : option file_row :=
  find (fun f => bool_decide (filename f = name)
                 || Sql.like ([Sql.percent] ++ name ++ [Sql.percent])
                             (filename f))
       (tbl_files db).

(** [getChunks(fileId)]:
    SELECT * FROM chunks WHERE file_id = ? ORDER BY chunk_index *)
Definition getChunks (db : t) (fileId : Z) : list chunk_row :=
  Sql.order_by chunk_index
    (List.filter (fun c => file_id c =? fileId) (tbl_chunks db)).

(** [delete(fileId)]: DELETE FROM files WHERE id = ?, the chunk rows
    going with it by the cascade. *)
Definition delete (db : t) (fileId : Z) : t :=
  {| tbl_files := List.filter (fun f => negb (id f =? fileId)) (tbl_files db);
     tbl_chunks :=
       List.filter (fun c => negb (file_id c =? fileId)) (tbl_chunks db);
     tbl_sync_folders := tbl_sync_folders db;
     tbl_sync_state := tbl_sync_state db;
     seq_files := seq_files db |}.

(** UPDATE files SET filename = ? WHERE id = ? *)
Definition setFilename (db : t) (newName : jsstring) (fileId : Z) : t :=
  {| tbl_files :=
       map (fun f =>
              if id f =? fileId
              then {| id := id f;
                      filename := newName;
                      hash := hash f;
                      original_size := original_size f;
                      stored_size := stored_size f;
                      chunks := chunks f;
                      compressed := compressed f |}
              else f)
           (tbl_files db);
     tbl_chunks := tbl_chunks db;
     tbl_sync_folders := tbl_sync_folders db;
     tbl_sync_state := tbl_sync_state db;
     seq_files := seq_files db |}.

(** [getSyncFolderByPath(localPath)] *)
Definition getSyncFolderByPath (db : t) (localPath : jsstring)
    : option sync_folder_row :=
  find (fun r => bool_decide (local_path r = localPath))
       (tbl_sync_folders db).

Definition same_state (folderId : Z) (relativePath : jsstring)
    (r : sync_state_row) : bool :=
  (folder_id r =? folderId) && bool_decide (relative_path r = relativePath).

(** [updateSyncState(folderId, relativePath, fileHash, mtime)]: the
    INSERT ... ON CONFLICT(folder_id, relative_path) DO UPDATE. *)
Definition updateSyncState (db : t) (folderId : Z)
    (relativePath fileHash : jsstring) (mtime_ : Z) : t :=
  let row := {| folder_id := folderId;
                relative_path := relativePath;
                file_hash := fileHash;
                mtime := mtime_ |} in
  {| tbl_files := tbl_files db;
     tbl_chunks := tbl_chunks db;
     tbl_sync_folders := tbl_sync_folders db;
     tbl_sync_state :=
       if existsb (same_state folderId relativePath) (tbl_sync_state db)
       then map (fun r => if same_state folderId relativePath r
                          then row else r)
                (tbl_sync_state db)
       else tbl_sync_state db ++ [row];
     seq_files := seq_files db |}.

(** [getSyncState(folderId, relativePath)] *)
Definition getSyncState (db : t) (folderId : Z) (relativePath : jsstring)
    : option sync_state_row :=
  find (same_state folderId relativePath) (tbl_sync_state db).

(** [getFolderSyncStates(folderId)] *)
Definition getFolderSyncStates (db : t) (folderId : Z)
    : list sync_state_row :=
  List.filter (fun r => folder_id r =? folderId) (tbl_sync_state db).

(** [removeSyncState(folderId, relativePath)] *)
Definition removeSyncState (db : t) (folderId : Z) (relativePath : jsstring)
    : t :=
  {| tbl_files := tbl_files db;
     tbl_chunks := tbl_chunks db;
     tbl_sync_folders := tbl_sync_folders db;
     tbl_sync_state :=
       List.filter (fun r => negb (same_state folderId relativePath r))
                   (tbl_sync_state db);
     seq_files := seq_files db |}.

End FileIndex.

(* ===================================================================== *)
(** * db/index.js: the tags of a file *)
(* ===================================================================== *)

(** [String.prototype.toLowerCase], the case mapping of the engine. *)
Class Casing := {
  lowerCase : jsstring -> jsstring
}.

Module Tags.

(** A row of [tags]. *)
Record tag_row := mkTag {
  file_id : Z;
  tag : jsstring
}.

(** The database with its table of tags, in rowid order. *)
Record t := mkDb {
  index : FileIndex.t;
  tbl_tags : list tag_row
}.

(** The white space and the line terminators that
    [String.prototype.trim] removes. *)
Definition is_space (c : Z) : bool :=
  ((9 <=? c) && (c <=? 13)) || (c =? 32) || (c =? 0xA0) || (c =? 0x1680)
  || ((0x2000 <=? c) && (c <=? 0x200A)) || (c =? 0x2028) || (c =? 0x2029)
  || (c =? 0x202F) || (c =? 0x205F) || (c =? 0x3000) || (c =? 0xFEFF).

(** [s.trim()] *)
Definition trim (s : jsstring) : jsstring :=
  reverse (Path.drop_while is_space
             (reverse (Path.drop_while is_space s))).

(** [tag.toLowerCase().trim()] *)
Definition normalize `{Casing} (tag : jsstring) : jsstring :=
  trim (lowerCase tag).

Definition same_tag (fileId : Z) (tg : jsstring) (r : tag_row) : bool :=
  (file_id r =? fileId) && bool_decide (tag r = tg).

Definition has_tag (db : t) (fileId : Z) (tg : jsstring) : bool :=
  existsb (same_tag fileId tg) (tbl_tags db).

(** [addTag(fileId, tag)]: INSERT OR IGNORE, which leaves the table as it
    is when the file has the tag, under the foreign key to [files]. *)
Definition addTag `{Casing} (db : t) (fileId : Z) (tag : jsstring)
    : result unit * t :=
  let tg := normalize tag in
  if has_tag db fileId tg then (Ok (), db)
  else if negb (FileIndex.has_file (index db) fileId)
       then (Throw FileIndex.foreign_key, db)
       else (Ok (),
             {| index := index db;
                tbl_tags := tbl_tags db ++ [mkTag fileId tg] |}).

(** [removeTag(fileId, tag)] *)
Definition removeTag `{Casing} (db : t) (fileId : Z) (tag : jsstring) : t :=
  {| index := index db;
     tbl_tags :=
       List.filter (fun r => negb (same_tag fileId (normalize tag) r))
                   (tbl_tags db) |}.

(** The order of texts under the BINARY collation. *)
Fixpoint ltb (a b : jsstring) : bool :=
  match a, b with
  | _, [] => false
  | [], _ :: _ => true
  | x :: a', y :: b' => (x <? y) || ((x =? y) && ltb a' b')
  end.

Fixpoint insert_text (x : jsstring) (l : list jsstring) : list jsstring :=
  match l with
  | [] => [x]
  | y :: l' => if ltb x y then x :: l else y :: insert_text x l'
  end.

(** ORDER BY on a text column. *)
Definition order_text (l : list jsstring) : list jsstring :=
  fold_left (fun acc x => insert_text x acc) l [].

(** [getFileTags(fileId)]:
    SELECT tag FROM tags WHERE file_id = ? ORDER BY tag *)
Definition getFileTags (db : t) (fileId : Z) : list jsstring :=
  order_text
    (map tag (List.filter (fun r => file_id r =? fileId) (tbl_tags db))).

(** [delete(fileId)] on this database: the rows of the file in [tags] go
    with it by the cascade, as its rows in [chunks] do. *)
Definition delete (db : t) (fileId : Z) : t :=
  {| index := FileIndex.delete (index db) fileId;
     tbl_tags :=
       List.filter (fun r => negb (file_id r =? fileId)) (tbl_tags db) |}.

End Tags.

(* ===================================================================== *)
(** * The process state and its monad *)
(* ===================================================================== *)

(** The Bot API behind [node-telegram-bot-api].  [chat] is the state of the
    remote side, network included; every call may fail and may change it.
    A sent document comes back with its [message_id] and the [file_id] of
    the document. *)
Class Telegram := {
  chat : Type;
  getMe : jsstring -> chat -> result unit * chat;
  sendDocument : Z -> Buffer.t -> chat -> result (Z * jsstring) * chat;
  getFileStream : option jsstring -> chat -> result Buffer.t * chat;
  bot_deleteMessage : Z -> chat -> result unit * chat
}.

(** The contract of the chat as a store.  [chat_ok] is what every call
    keeps true of the remote side; [stored c fileId file] says that the
    chat [c] holds the document [file] under [fileId].  A document sent is
    stored under the [file_id] returned; what is stored stays so through
    [getMe], [sendDocument] and [getFileStream], failed or not; and a
    [getFileStream] that succeeds returns the stored bytes. *)
Class TelegramLaws `{Telegram} := {
  chat_ok : chat -> Prop;
  stored : chat -> jsstring -> Buffer.t -> Prop;
  getMe_ok token c : chat_ok c -> chat_ok (snd (getMe token c));
  sendDocument_ok chatId file c :
    chat_ok c -> chat_ok (snd (sendDocument chatId file c));
  getFileStream_ok fileId c :
    chat_ok c -> chat_ok (snd (getFileStream fileId c));
  deleteMessage_ok messageId c :
    chat_ok c -> chat_ok (snd (bot_deleteMessage messageId c));
  sendDocument_stored chatId file c messageId fileId c' :
    chat_ok c ->
    sendDocument chatId file c = (Ok (messageId, fileId), c') ->
    stored c' fileId file;
  stored_getMe token c fileId file :
    stored c fileId file -> stored (snd (getMe token c)) fileId file;
  stored_sendDocument chatId sent c fileId file :
    chat_ok c ->
    stored c fileId file ->
    stored (snd (sendDocument chatId sent c)) fileId file;
  stored_getFileStream fileId' c fileId file :
    stored c fileId file ->
    stored (snd (getFileStream fileId' c)) fileId file;
  getFileStream_stored c fileId file file' c' :
    stored c fileId file ->
    getFileStream (Some fileId) c = (Ok file', c') ->
    file' = file
}.

(** The local files outside the data directory: what [fs.readFileSync]
    returns, and the entries a recursive scan of a folder meets. *)
Record scanned := mkScanned {
  sc_path : jsstring;
  sc_relativePath : jsstring;
  sc_mtime : Z;
  sc_size : Z
}.

Record localfs := mkLocalFs {
  readFileSync : jsstring -> result Buffer.t;
  scanDirectory : jsstring -> list scanned
}.

(** [config.json] *)
Record config := mkConfig {
  botToken : jsstring;
  chatId : option Z
}.

Module World.

(** An entry of [fileCache]. *)
Record cache_entry := mkEntry {
  data : Buffer.t;
  timestamp : Z
}.

(** An entry of [writeBuffers]; [wb_data] and [wb_modified] are the
    fields [data] and [modified]. *)
Record write_buffer := mkWb {
  wb_data : Buffer.t;
  wb_modified : bool;
  isNew : bool
}.

(** What a [SyncEngine] emits. *)
Inductive event :=
| sync_start (folder : jsstring)
| file_upload_start (file : jsstring)
| file_upload_complete (file : jsstring)
| file_upload_error (file : jsstring) (error : jsstring)
| sync_complete (folder : jsstring) (uploaded skipped : Z).

Section WithTelegram.
Context `{Telegram}.

(** The state of a process: the database file with, for the proofs,
    the list of the states it went through (latest first); the remote
    chat; the state of the random generator; the module-level
    [fileCache] and the [writeBuffers] of the mounted filesystem; the
    clock read by [Date.now()]; the events emitted so far (latest
    first). *)
Record t := mk {
  db : FileIndex.t;
  history : list FileIndex.t;
  remote : chat;
  rng : nat;
  fileCache : gmap jsstring cache_entry;
  writeBuffers : gmap jsstring write_buffer;
  clock : Z;
  events : list event
}.

Definition set_db (d : FileIndex.t) (w : t) : t :=
  mk d (d :: history w) (remote w) (rng w) (fileCache w)
     (writeBuffers w) (clock w) (events w).

Definition set_remote (r : chat) (w : t) : t :=
  mk (db w) (history w) r (rng w) (fileCache w)
     (writeBuffers w) (clock w) (events w).

Definition set_rng (g : nat) (w : t) : t :=
  mk (db w) (history w) (remote w) g (fileCache w)
     (writeBuffers w) (clock w) (events w).

Definition set_fileCache (c : gmap jsstring cache_entry) (w : t) : t :=
  mk (db w) (history w) (remote w) (rng w) c
     (writeBuffers w) (clock w) (events w).

Definition set_writeBuffers (b : gmap jsstring write_buffer) (w : t) : t :=
  mk (db w) (history w) (remote w) (rng w) (fileCache w)
     b (clock w) (events w).

Definition emit (e : event) (w : t) : t :=
  mk (db w) (history w) (remote w) (rng w) (fileCache w)
     (writeBuffers w) (clock w) (e :: events w).

End WithTelegram.

End World.

(** Computations that read and change a state and may throw; the state
    reached when an exception is thrown is kept. *)
Definition M (S A : Type) : Type := S -> result A * S.

#[global] Instance M_ret {S} : MRet (M S) := fun A a s => (Ok a, s).

#[global] Instance M_bind {S} : MBind (M S) := fun A B k m s =>
  match m s with
  | (Ok a, s') => k a s'
  | (Throw e, s') => (Throw e, s')
  end.

Module Monad.

Definition throw {S A} (e : exn) : M S A := fun s => (Throw e, s).

Definition lift {S A} (r : result A) : M S A := fun s => (r, s).

Definition gets {S A} (f : S -> A) : M S A := fun s => (Ok (f s), s).

Definition modify {S} (f : S -> S) : M S unit := fun s => (Ok (), f s).

(** [try { m } catch (err) { handler(err) }] *)
Definition try_catch {S A} (m : M S A) (handler : exn -> M S A) : M S A :=
  fun s =>
    match m s with
    | (Ok a, s') => (Ok a, s')
    | (Throw e, s') => handler e s'
    end.

(** [for (const x of l) { body(x) }] *)
Fixpoint for_each {S A} (l : list A) (body : A -> M S unit) : M S unit :=
  match l with
  | [] => mret ()
  | x :: l' => body x ;; for_each l' body
  end.

(** The results of [body] over [l], in order. *)
Fixpoint map_each {S A B} (l : list A) (body : A -> M S B) : M S (list B) :=
  match l with
  | [] => mret []
  | x :: l' => y ← body x; ys ← map_each l' body; mret (y :: ys)
  end.

Section WithTelegram.
Context `{Telegram}.

(** A statement on the database that can be refused: when it is, the
    database is as before. *)
Definition db_try {A} (stmt : FileIndex.t -> result A * FileIndex.t)
    : M World.t A :=
  fun w =>
    match stmt (World.db w) with
    | (Ok a, d) => (Ok a, World.set_db d w)
    | (Throw e, _) => (Throw e, w)
    end.

(** A statement that always goes through. *)
Definition db_run (stmt : FileIndex.t -> FileIndex.t) : M World.t unit :=
  fun w => (Ok (), World.set_db (stmt (World.db w)) w).

(** A query. *)
Definition db_get {A} (query : FileIndex.t -> A) : M World.t A :=
  gets (fun w => query (World.db w)).

(** A call of the Bot API. *)
Definition bot {A} (call : chat -> result A * chat) : M World.t A :=
  fun w =>
    let '(r, c) := call (World.remote w) in (r, World.set_remote c w).

End WithTelegram.

End Monad.

(* ===================================================================== *)
(** * telegram/client.js *)
(* ===================================================================== *)

Module TelegramClient.

Import Monad.

Section WithTelegram.
Context `{Telegram}.

(** [initialize(token)] *)
Definition initialize (token : jsstring) : M World.t unit :=
  try_catch (bot (getMe token))
    (fun err =>
       throw (mkExn ErrorC (jsstr "Invalid bot token: " ++ message err))).

Definition no_chat : exn :=
  mkExn ErrorC (jsstr "Chat ID not set. Run init first.").

Record sent := mkSent {
  messageId : Z;
  fileId : jsstring
}.

(** [sendFile(filePath, caption)], given the bytes of the file.  The test
    [!this.chatId] holds of [null] and of the number 0. *)
Definition sendFile (chatId : option Z) (file : Buffer.t)
    : M World.t sent :=
  match chatId with
  | None => throw no_chat
  | Some c =>
    if c =? 0 then throw no_chat
    else
      '(mid, fid) ← bot (sendDocument c file);
      mret {| messageId := mid; fileId := fid |}
  end.

(** [downloadFile(fileId)] *)
Definition downloadFile (fileId : option jsstring) : M World.t Buffer.t :=
  bot (getFileStream fileId).

(** [deleteMessage(messageId)]: whether the message was deleted. *)
Definition deleteMessage (messageId : Z) : M World.t bool :=
  try_catch (bot (bot_deleteMessage messageId) ;; mret true)
    (fun _ => mret false).

End WithTelegram.

End TelegramClient.

(* ===================================================================== *)
(** * index.js: the upload and download pipeline *)
(* ===================================================================== *)

Module Pipeline.

Import Monad.

(** 49 MB, under the 50 MB limit of a bot. *)
Definition TELEGRAM_CHUNK_SIZE : Z := 49 * 1024 * 1024.

(** [Math.ceil(a / b)] on sizes. *)
Definition ceil_div (a b : Z) : Z := (a + b - 1) / b.

Record options := mkOptions {
  password : jsstring;
  customName : option jsstring;
  cfg : config
}.

(** An element of [chunks]. *)
Record chunk := mkChunk {
  index : Z;
  total : Z;
  data : Buffer.t
}.

(** An element of [chunkFiles], with the bytes written at its [path]. *)
Record chunkFile := mkChunkFile {
  cf_index : Z;
  cf_bytes : Buffer.t;
  cf_size : Z
}.

(** What [processFile] returns. *)
Record uploaded := mkUploaded {
  filename : jsstring;
  hash : jsstring;
  originalSize : Z;
  storedSize : Z;
  chunks : Z;
  compressed : bool
}.

Definition duplicate : exn :=
  mkExn ErrorC (jsstr "File already uploaded (duplicate hash)").

Definition no_chunks : exn :=
  mkExn ErrorC (jsstr "No chunk metadata found for this file").

(** The loop that cuts [encryptedData] into [chunks]. *)
Definition split (encryptedData : Buffer.t) : list chunk :=
  let numChunks := ceil_div (Buffer.len encryptedData) TELEGRAM_CHUNK_SIZE in
  map (fun i =>
         let start := i * TELEGRAM_CHUNK_SIZE in
         let end_ := Z.min (start + TELEGRAM_CHUNK_SIZE)
                           (Buffer.len encryptedData) in
         {| index := i;
            total := numChunks;
            data := Buffer.subarray encryptedData start end_ |})
      (seqZ 0 numChunks).

(** The body of the loop that prepares the files with headers. *)
Definition frame (filename : jsstring) (originalSize flags : Z) (c : chunk)
    : result chunkFile :=
  header ← Chunker.createHeader filename originalSize (index c) (total c) flags;
  let chunkData := Buffer.concat [header; data c] in
  mret {| cf_index := index c;
          cf_bytes := chunkData;
          cf_size := Buffer.len chunkData |}.

Fixpoint frames (filename : jsstring) (originalSize flags : Z)
    (l : list chunk) : result (list chunkFile) :=
  match l with
  | [] => mret []
  | c :: l' =>
    f ← frame filename originalSize flags c;
    fs ← frames filename originalSize flags l';
    mret (f :: fs)
  end.

(** An element of [downloadedChunks]. *)
Record downloaded := mkDownloaded {
  dl_index : Z;
  dl_total : Z;
  dl_data : Buffer.t;
  dl_compressed : bool
}.

(** [downloadedChunks.sort((a, b) => a.index - b.index)] followed by
    [Buffer.concat(downloadedChunks.map(c => c.data))]. *)
Definition sort_chunks (l : list downloaded) : list downloaded :=
  Sql.order_by dl_index l.

Definition reassemble (l : list downloaded) : Buffer.t :=
  Buffer.concat (map dl_data (sort_chunks l)).

(** What [retrieveFile] returns, with the bytes written at [path]. *)
Record retrieved := mkRetrieved {
  written : Buffer.t;
  size : Z
}.

Section WithEnv.
Context `{Crypto} `{Zlib} `{Telegram}.

(** [hashFile(filePath)] *)
Definition hashFile (fs : localfs) (filePath : jsstring) : result jsstring :=
  content ← readFileSync fs filePath;
  mret (Encryption.hashData content).

(** [new Encryptor(password).encrypt(data)] *)
Definition encrypt (password : jsstring) (data : Buffer.t)
    : M World.t Buffer.t :=
  fun w =>
    let '(out, g) := Encryption.encrypt password (World.rng w) data in
    (Ok out, World.set_rng g w).

(** The body of the loop that uploads the chunks. *)
Definition uploadChunk (chatId : option Z) (fileId : Z) (c : chunkFile)
    : M World.t unit :=
  result ← TelegramClient.sendFile chatId (cf_bytes c);
  db_try (fun d =>
            FileIndex.addChunk d fileId (cf_index c)
              (TelegramClient.messageId result) (cf_size c)) ;;
  db_run (fun d =>
            FileIndex.setChunkTelegramId d (TelegramClient.fileId result)
              fileId (cf_index c)).

(** [processFile(filePath, options)] *)
Definition processFile (fs : localfs) (filePath : jsstring)
    (opts : options) : M World.t uploaded :=
  (* Read file *)
  let filename :=
    match customName opts with
    | Some (c :: n) => c :: n
    | _ => Path.basename filePath
    end in
  fileData ← lift (readFileSync fs filePath);
  let originalSize := Buffer.len fileData in
  (* Calculate hash *)
  hash ← lift (hashFile fs filePath);
  (* Check if already uploaded *)
  dup ← db_get (fun d => FileIndex.exists_ d hash);
  if dup : bool then throw duplicate
  else
    (* Compress *)
    let '(compressedData, compressed) :=
      Compressor.compress fileData filename in
    (* Encrypt *)
    encryptedData ← encrypt (password opts) compressedData;
    (* Chunk if needed *)
    let chunks := split encryptedData in
    (* Prepare files with headers *)
    let flags := if compressed then 1 else 0 in
    chunkFiles ← lift (frames filename originalSize flags chunks);
    (* Connect to Telegram *)
    TelegramClient.initialize (botToken (cfg opts)) ;;
    (* Upload chunks *)
    fileId ← db_try (fun d =>
      FileIndex.addFile d
        {| FileIndex.fd_filename := filename;
           FileIndex.fd_hash := hash;
           FileIndex.fd_originalSize := originalSize;
           FileIndex.fd_storedSize := Buffer.len encryptedData;
           FileIndex.fd_chunks := Z.of_nat (length chunks);
           FileIndex.fd_compressed := compressed |});
    for_each chunkFiles (uploadChunk (chatId (cfg opts)) fileId) ;;
    mret {| filename := filename;
            hash := hash;
            originalSize := originalSize;
            storedSize := Buffer.len encryptedData;
            chunks := Z.of_nat (length chunks);
            compressed := compressed |}.

(** The body of the loop that downloads the chunks. *)
Definition downloadChunk (c : FileIndex.chunk_row) : M World.t downloaded :=
  data ← TelegramClient.downloadFile (FileIndex.file_telegram_id c);
  (* Parse header *)
  header ← lift (Chunker.parseHeader data);
  let payload := Buffer.subarray_from data Chunker.HEADER_SIZE in
  mret {| dl_index := Chunker.chunkIndex header;
          dl_total := Chunker.totalChunks header;
          dl_data := payload;
          dl_compressed := Chunker.compressed header |}.

(** [downloadedChunks[0].compressed]; reading a field of [undefined]
    is a TypeError, which cannot happen on a list that is not empty. *)
Definition first_compressed (l : list downloaded) : result bool :=
  match l with
  | c :: _ => Ok (dl_compressed c)
  | [] => Throw (mkExn ErrorC (jsstr "TypeError"))
  end.

(** Decrypt, then decompress as the first chunk says. *)
Definition decode (password : jsstring) (downloadedChunks : list downloaded)
    : result Buffer.t :=
  let sorted := sort_chunks downloadedChunks in
  let encryptedData := Buffer.concat (map dl_data sorted) in
  compressedData ← Encryption.decrypt password encryptedData;
  wasCompressed ← first_compressed sorted;
  Compressor.decompress compressedData wasCompressed.

(** [retrieveFile(fileRecord, options)] *)
Definition retrieveFile (fileRecord : FileIndex.file_row) (opts : options)
    : M World.t retrieved :=
  (* Get chunk info *)
  chunks ← db_get (fun d => FileIndex.getChunks d (FileIndex.id fileRecord));
  match chunks with
  | [] => throw no_chunks
  | _ :: _ =>
    (* Connect to Telegram *)
    TelegramClient.initialize (botToken (cfg opts)) ;;
    (* Download all chunks *)
    downloadedChunks ← map_each chunks downloadChunk;
    (* Reassemble, decrypt, decompress *)
    originalData ← lift (decode (password opts) downloadedChunks);
    (* Write to output *)
    mret {| written := originalData; size := Buffer.len originalData |}
  end.

End WithEnv.

End Pipeline.

(* ===================================================================== *)
(** * fuse/mount.js: the mounted filesystem *)
(* ===================================================================== *)

Module TelegramFS.

Import Monad.

(** 5 minutes *)
Definition CACHE_TTL : Z := 5 * 60 * 1000.

Definition ENOENT : Z := -2.
Definition EIO : Z := -5.

Definition not_found : exn := mkExn ErrorC (jsstr "File not found").
Definition no_chunks : exn := mkExn ErrorC (jsstr "No chunks found").

Section WithEnv.
Context `{Crypto} `{Zlib} `{Telegram}.

(** The fields of the instance that stay as the constructor set them. *)
Variable password : jsstring.
Variable cfg : config.

(** [getCached(filename)] *)
Definition getCached (filename : jsstring) : M World.t (option Buffer.t) :=
  fun w =>
    match World.fileCache w !! filename with
    | None => (Ok None, w)
    | Some entry =>
      if CACHE_TTL <? World.clock w - World.timestamp entry
      then (Ok None,
            World.set_fileCache (delete filename (World.fileCache w)) w)
      else (Ok (Some (World.data entry)), w)
    end.

(** [setCache(filename, data)] *)
Definition setCache (filename : jsstring) (data : Buffer.t) : M World.t unit :=
  modify (fun w =>
    World.set_fileCache
      (<[filename := {| World.data := data;
                        World.timestamp := World.clock w |}]>
         (World.fileCache w)) w).

(** [invalidateCache(filename)] *)
Definition invalidateCache (filename : jsstring) : M World.t unit :=
  modify (fun w =>
    World.set_fileCache (delete filename (World.fileCache w)) w).

(** [downloadFile(filename)] *)
Definition downloadFile (filename : jsstring) : M World.t Buffer.t :=
  file ← db_get (fun d => FileIndex.findByName d filename);
  match file with
  | None => throw not_found
  | Some file =>
    chunks ← db_get (fun d => FileIndex.getChunks d (FileIndex.id file));
    match chunks with
    | [] => throw no_chunks
    | _ :: _ =>
      (* Download all chunks *)
      downloadedChunks ← map_each chunks Pipeline.downloadChunk;
      (* Reassemble, decrypt, decompress *)
      lift (Pipeline.decode password downloadedChunks)
    end
  end.

(** The loop of [uploadFile] over the chunks of the old version, each
    [deleteMessage] under its own [try] with an empty [catch]. *)
Definition deleteOld (chunks : list FileIndex.chunk_row) : M World.t unit :=
  for_each chunks (fun chunk =>
    try_catch
      (TelegramClient.deleteMessage (FileIndex.message_id chunk) ;; mret ())
      (fun _ => mret ())).

(** [uploadFile(filename, data)] *)
Definition uploadFile (filename : jsstring) (data : Buffer.t)
    : M World.t unit :=
  let hash := Encryption.hashData data in
  (* Check if already exists by name *)
  existingByName ← db_get (fun d => FileIndex.findByName d filename);
  match existingByName with
   | Some old =>
     (* Delete old version *)
     chunks ← db_get (fun d => FileIndex.getChunks d (FileIndex.id old));
     deleteOld chunks ;;
     db_run (fun d => FileIndex.delete d (FileIndex.id old))
   | None => mret ()
   end ;;
  (* Check if already exists by hash (same content, different name) *)
  existingByHash ← db_get (fun d => FileIndex.findByHash d hash);
  match existingByHash with
  | Some _ =>
    (* Same content already exists, just skip *)
    mret ()
  | None =>
    (* Compress *)
    let '(compressedData, compressed) :=
      Compressor.compress data filename in
    (* Encrypt *)
    encryptedData ← Pipeline.encrypt password compressedData;
    (* Create temp file with header *)
    let flags := if compressed then 1 else 0 in
    header ← lift (Chunker.createHeader filename (Buffer.len data) 0 1 flags);
    let fileData := Buffer.concat [header; encryptedData] in
    (* Upload to Telegram *)
    result ← TelegramClient.sendFile (chatId cfg) fileData;
    (* Add to index *)
    fileId ← db_try (fun d =>
      FileIndex.addFile d
        {| FileIndex.fd_filename := filename;
           FileIndex.fd_hash := hash;
           FileIndex.fd_originalSize := Buffer.len data;
           FileIndex.fd_storedSize := Buffer.len encryptedData;
           FileIndex.fd_chunks := 1;
           FileIndex.fd_compressed := compressed |});
    db_try (fun d =>
      FileIndex.addChunk d fileId 0 (TelegramClient.messageId result)
        (Buffer.len fileData)) ;;
    db_run (fun d =>
      FileIndex.setChunkTelegramId d (TelegramClient.fileId result) fileId 0)
  end.

(** [read(filepath, fd, buffer, length, position, cb)]: the argument of
    the callback and the bytes copied to [buffer]. *)
Definition read (filepath : jsstring) (length position : Z)
    : M World.t (Z * Buffer.t) :=
  let filename := Path.basename filepath in
  try_catch
    ((* Check cache first *)
     cached ← getCached filename;
     data ← match cached with
            | Some data => mret data
            | None =>
              (* Download and decrypt *)
              data ← downloadFile filename;
              setCache filename data ;;
              mret data
            end;
     (* Copy requested portion to buffer *)
     let slice := Buffer.subarray data position (position + length) in
     mret (Buffer.len slice, slice))
    (fun err => mret (EIO, [])).

Definition get_buffer (filename : jsstring)
    : M World.t (option World.write_buffer) :=
  gets (fun w => World.writeBuffers w !! filename).

Definition set_buffer (filename : jsstring) (wb : World.write_buffer)
    : M World.t unit :=
  modify (fun w =>
    World.set_writeBuffers (<[filename := wb]> (World.writeBuffers w)) w).

(** A buffer of [newSize] zero bytes with [old] copied at its start. *)
Definition grow (old : Buffer.t) (newSize : Z) : Buffer.t :=
  Buffer.copy_all old (Buffer.alloc newSize) 0.

(** [write(filepath, fd, buffer, length, position, cb)]: the argument
    of the callback. *)
Definition write (filepath : jsstring) (buffer : Buffer.t)
    (length position : Z) : M World.t Z :=
  let filename := Path.basename filepath in
  (* Get or create write buffer *)
  existing ← get_buffer filename;
  let wb := match existing with
            | Some wb => wb
            | None => {| World.wb_data := Buffer.alloc 0;
                         World.wb_modified := true;
                         World.isNew := false |}
            end in
  (* Expand buffer if needed *)
  let newSize := Z.max (Buffer.len (World.wb_data wb)) (position + length) in
  let data := if Buffer.len (World.wb_data wb) <? newSize
              then grow (World.wb_data wb) newSize
              else World.wb_data wb in
  (* Copy incoming data *)
  let data := Buffer.copy buffer data position 0 length in
  set_buffer filename {| World.wb_data := data;
                         World.wb_modified := true;
                         World.isNew := World.isNew wb |} ;;
  mret length.

(** [create(filepath, mode, cb)] *)
Definition create (filepath : jsstring) : M World.t Z :=
  let filename := Path.basename filepath in
  (* Initialize empty write buffer *)
  set_buffer filename {| World.wb_data := Buffer.alloc 0;
                         World.wb_modified := true;
                         World.isNew := true |} ;;
  mret 0.

(** [release(filepath, fd, cb)] *)
Definition release (filepath : jsstring) : M World.t Z :=
  let filename := Path.basename filepath in
  wb ← get_buffer filename;
  match wb with
  | None => mret 0
  | Some wb =>
    if negb (World.wb_modified wb) then mret 0
    else
      try_catch
        ((* Upload to Telegram *)
         uploadFile filename (World.wb_data wb) ;;
         (* Clear write buffer *)
         modify (fun w =>
           World.set_writeBuffers
             (delete filename (World.writeBuffers w)) w) ;;
         (* Invalidate cache *)
         invalidateCache filename ;;
         mret 0)
        (fun err => mret EIO)
  end.

(** [unlink(filepath, cb)] *)
Definition unlink (filepath : jsstring) : M World.t Z :=
  let filename := Path.basename filepath in
  file ← db_get (fun d => FileIndex.findByName d filename);
  match file with
  | None => mret ENOENT
  | Some file =>
    try_catch
      ((* Delete from Telegram *)
       chunks ← db_get (fun d => FileIndex.getChunks d (FileIndex.id file));
       for_each chunks (fun chunk =>
         TelegramClient.deleteMessage (FileIndex.message_id chunk) ;;
         mret ()) ;;
       (* Remove from index *)
       db_run (fun d => FileIndex.delete d (FileIndex.id file)) ;;
       (* Invalidate cache *)
       invalidateCache filename ;;
       mret 0)
      (fun err => mret EIO)
  end.

(** [rename(src, dest, cb)] *)
Definition rename (src dest : jsstring) : M World.t Z :=
  let oldName := Path.basename src in
  let newName := Path.basename dest in
  file ← db_get (fun d => FileIndex.findByName d oldName);
  match file with
  | None => mret ENOENT
  | Some file =>
    (* Update filename in database *)
    db_run (fun d => FileIndex.setFilename d newName (FileIndex.id file)) ;;
    (* Update cache key *)
    modify (fun w =>
      match World.fileCache w !! oldName with
      | Some cached =>
        World.set_fileCache
          (<[newName := cached]> (delete oldName (World.fileCache w))) w
      | None => w
      end) ;;
    mret 0
  end.

(** [truncate(filepath, size, cb)] *)
Definition truncate (filepath : jsstring) (size : Z) : M World.t Z :=
  let filename := Path.basename filepath in
  (* Get or load into write buffer *)
  existing ← get_buffer filename;
  wb ← match existing with
       | Some wb => mret wb
       | None =>
         cached ← getCached filename;
         mret {| World.wb_data := match cached with
                                  | Some cached => cached
                                  | None => Buffer.alloc 0
                                  end;
                 World.wb_modified := true;
                 World.isNew := false |}
       end;
  let data :=
    if size <? Buffer.len (World.wb_data wb)
    then Buffer.subarray (World.wb_data wb) 0 size
    else if Buffer.len (World.wb_data wb) <? size
         then grow (World.wb_data wb) size
         else World.wb_data wb in
  set_buffer filename {| World.wb_data := data;
                         World.wb_modified := true;
                         World.isNew := World.isNew wb |} ;;
  mret 0.

End WithEnv.

End TelegramFS.

(* ===================================================================== *)
(** * sync/sync.js: the folder scan *)
(* ===================================================================== *)

Module SyncEngine.

Import Monad.

Section WithEnv.
Context `{Crypto} `{Zlib} `{Telegram}.

Variable password : jsstring.
Variable cfg : config.

(** The local files, as the scan and the reads find them. *)
Variable fs : localfs.

Definition not_registered (folderPath : jsstring) : exn :=
  mkExn ErrorC (jsstr "Folder not registered: " ++ folderPath).

(** [new Map(existingStates.map(s => [s.relative_path, s]))] *)
Definition stateMap_of (existingStates : list FileIndex.sync_state_row)
    : gmap jsstring FileIndex.sync_state_row :=
  foldl (fun m s => <[FileIndex.relative_path s := s]> m) ∅ existingStates.

Definition emit (e : World.event) : M World.t unit :=
  modify (World.emit e).

Definition updateSyncState (folderId : Z) (relativePath hash : jsstring)
    (mtime : Z) : M World.t unit :=
  db_run (fun d => FileIndex.updateSyncState d folderId relativePath hash mtime).

(** The body of the loop of [syncFolder] over the scanned files, from
    the counters [uploaded] and [skipped] to their new values. *)
Definition syncFile (folderId : Z)
    (stateMap : gmap jsstring FileIndex.sync_state_row)
    (counters : Z * Z) (file : scanned) : M World.t (Z * Z) :=
  let '(uploaded, skipped) := counters in
  let existing := stateMap !! sc_relativePath file in
  (* Check if file has changed (by mtime) *)
  if match existing with
     | Some existing => sc_mtime file <=? FileIndex.mtime existing
     | None => false
     end
  then mret (uploaded, skipped + 1)
  else
    (* Calculate hash to detect actual changes *)
    hash ← lift (Pipeline.hashFile fs (sc_path file));
    if match existing with
       | Some existing => bool_decide (FileIndex.file_hash existing = hash)
       | None => false
       end
    then
      (* File unchanged, just update mtime *)
      updateSyncState folderId (sc_relativePath file) hash (sc_mtime file) ;;
      mret (uploaded, skipped + 1)
    else
      (* File is new or changed - upload it *)
      try_catch
        (emit (World.file_upload_start (sc_relativePath file)) ;;
         Pipeline.processFile fs (sc_path file)
           {| Pipeline.password := password;
              Pipeline.customName := Some (sc_relativePath file);
              Pipeline.cfg := cfg |} ;;
         (* Update sync state *)
         updateSyncState folderId (sc_relativePath file) hash (sc_mtime file) ;;
         emit (World.file_upload_complete (sc_relativePath file)) ;;
         mret (uploaded + 1, skipped))
        (fun err =>
           (* File might already exist, skip *)
           if includes (message err) (jsstr "duplicate")
           then
             updateSyncState folderId (sc_relativePath file) hash
               (sc_mtime file) ;;
             mret (uploaded, skipped + 1)
           else
             emit (World.file_upload_error (sc_relativePath file)
                     (message err)) ;;
             mret (uploaded, skipped)).

Fixpoint syncFiles (folderId : Z)
    (stateMap : gmap jsstring FileIndex.sync_state_row)
    (counters : Z * Z) (files : list scanned) : M World.t (Z * Z) :=
  match files with
  | [] => mret counters
  | file :: files' =>
    counters' ← syncFile folderId stateMap counters file;
    syncFiles folderId stateMap counters' files'
  end.

(** [syncFolder(folderPath)]: the pair [{ uploaded, skipped }]. *)
Definition syncFolder (folderPath : jsstring) : M World.t (Z * Z) :=
  folder ← db_get (fun d => FileIndex.getSyncFolderByPath d folderPath);
  match folder with
  | None => throw (not_registered folderPath)
  | Some folder =>
    emit (World.sync_start folderPath) ;;
    let files := scanDirectory fs folderPath in
    existingStates ← db_get (fun d =>
      FileIndex.getFolderSyncStates d (FileIndex.sync_folder_id folder));
    let stateMap := stateMap_of existingStates in
    '(uploaded, skipped) ← syncFiles (FileIndex.sync_folder_id folder)
                             stateMap (0, 0) files;
    emit (World.sync_complete folderPath uploaded skipped) ;;
    mret (uploaded, skipped)
  end.

End WithEnv.

End SyncEngine.

(* ===================================================================== *)
(** * A small environment, for running the definitions *)
(* ===================================================================== *)

Module Model.

(** ** A transparent cipher

    The key is the password, without the U+0000 it ends with, written in a
    self-delimiting code; sealing writes the key before the plaintext, each
    key byte behind a mark, and opening checks it. *)

Fixpoint code_pos (p : positive) : Buffer.t :=
  match p with
  | xH => [x02]
  | xO p' => x00 :: code_pos p'
  | xI p' => x01 :: code_pos p'
  end.

Definition code_Z (z : Z) : Buffer.t :=
  match z with
  | Z0 => [x03]
  | Zpos p => x04 :: code_pos p
  | Zneg p => x05 :: code_pos p
  end.

Definition code (s : jsstring) : Buffer.t := flat_map code_Z s.

Definition marked (key : Buffer.t) : Buffer.t :=
  flat_map (fun b => [x01; b]) key ++ [x00].

(** The rest of [ct] behind the marked [key], if it starts with it. *)
Fixpoint unmark (key ct : Buffer.t) : option Buffer.t :=
  match key, ct with
  | [], x00 :: rest => Some rest
  | b :: key', x01 :: b' :: rest =>
    if Byte.eqb b b' then unmark key' rest else None
  | _, _ => None
  end.

Definition tag : Buffer.t := replicate 16 xaa.

(** The password without the U+0000 it ends with: the key of an HMAC
    is padded with zero bytes. *)
Definition unpadded (password : jsstring) : jsstring :=
  reverse (Path.drop_while (fun c => c =? 0) (reverse password)).

#[local] Instance crypto : Crypto := {|
  randomBytes g n := replicate (Z.to_nat n) (Buffer.of_Z (Z.of_nat g));
  pbkdf2Sync password salt iterations keylen := code (unpadded password);
  gcm_seal key iv data := (marked key ++ data, tag);
  gcm_open key iv ciphertext authTag :=
    match unmark key ciphertext with
    | Some data => Ok data
    | None => Throw Encryption.auth_failed
    end;
  sha256_hex data := map Buffer.to_Z data
|}.

(** ** A compressor that drops a run of up to 255 leading zero bytes *)

Fixpoint zeros (data : Buffer.t) : nat :=
  match data with
  | x00 :: data' => S (zeros data')
  | _ => O
  end.

#[local] Instance zlib : Zlib := {|
  gzip data :=
    let n := Nat.min (zeros data) 255 in
    Ok (Buffer.of_Z (Z.of_nat n) :: drop n data);
  gunzip data :=
    match data with
    | n :: rest => Ok (replicate (Z.to_nat (Buffer.to_Z n)) x00 ++ rest)
    | [] => Throw (mkExn ErrorC (jsstr "unexpected end of file"))
    end
|}.

(** ** A chat held in memory

    The documents sent so far, keyed by message id; the [file_id] of a
    document is the one-character string of its message id.  [outages]
    says, call after call, whether the network is down. *)

Record memchat := mkChat {
  documents : list (Z * Buffer.t);
  next_id : Z;
  outages : list bool
}.

Definition network_down : exn := mkExn ErrorC (jsstr "EFATAL: network down").
Definition no_document : exn := mkExn ErrorC (jsstr "ETELEGRAM: 400 Bad Request").

(** One call: down if [outages] says so, else [call]. *)
Definition attempt {A} (call : memchat -> result A * memchat) (c : memchat)
    : result A * memchat :=
  match outages c with
  | true :: later =>
    (Throw network_down, mkChat (documents c) (next_id c) later)
  | false :: later => call (mkChat (documents c) (next_id c) later)
  | [] => call c
  end.

Definition lookup_document (mid : Z) (c : memchat) : option Buffer.t :=
  snd <$> find (fun d => fst d =? mid) (documents c).

#[local] Instance telegram : Telegram := {|
  chat := memchat;
  getMe token := attempt (fun c => (Ok (), c));
  sendDocument chatId file := attempt (fun c =>
    (Ok (next_id c, [next_id c]),
     mkChat (documents c ++ [(next_id c, file)]) (next_id c + 1) (outages c)));
  getFileStream fileId := attempt (fun c =>
    match fileId with
    | Some [mid] =>
      match lookup_document mid c with
      | Some file => (Ok file, c)
      | None => (Throw no_document, c)
      end
    | _ => (Throw no_document, c)
    end);
  bot_deleteMessage mid := attempt (fun c =>
    match lookup_document mid c with
    | Some _ =>
      (Ok (),
       mkChat (List.filter (fun d => negb (fst d =? mid)) (documents c))
              (next_id c) (outages c))
    | None => (Throw no_document, c)
    end)
|}.

(** What holds of a chat that was only sent documents: the ids in use
    are below the next one. *)
Definition fresh_ids (c : memchat) : Prop :=
  Forall (fun d => fst d < next_id c) (documents c).

(** The document kept under a [file_id]. *)
Definition kept (c : memchat) (fileId : jsstring) (file : Buffer.t) : Prop :=
  exists mid, fileId = [mid] /\ lookup_document mid c = Some file.

Definition online : memchat := mkChat [] 1 [].

(** A process that starts on the database [d] and the chat [c]. *)
Definition start (d : FileIndex.t) (c : memchat) : World.t :=
  World.mk d [d] c O ∅ ∅ 0 [].

Definition the_config : config := mkConfig (jsstr "1234:token") (Some 7).

(** Local files, by an association list from path to content. *)
Definition enoent : exn := mkExn ErrorC (jsstr "ENOENT: no such file or directory").

Definition files_of (l : list (jsstring * Buffer.t)) (scan : list scanned)
    : localfs :=
  {| readFileSync path :=
       match find (fun e => bool_decide (fst e = path)) l with
       | Some e => Ok (snd e)
       | None => Throw enoent
       end;
     scanDirectory _ := scan |}.

Definition bytes_of (s : string) : Buffer.t := Utf8.encode (jsstr s).

End Model.

(* ===================================================================== *)
(** * Vocabulary of the statements, and sample inputs *)
(* ===================================================================== *)

Module Spec.

(** ** Frame header *)

(** The format version that [createHeader] writes. *)
Definition FORMAT_VERSION : Z := 1.

(** When parsing would have to fail if the version were checked and the
    whole header required: no magic token, another version declared, or
    fewer than [HEADER_SIZE] bytes. *)
Definition format_error_expected (buffer : Buffer.t) : Prop :=
  Chunker.has_magic buffer = false
  \/ Buffer.readUInt16LE buffer 4 <> Ok FORMAT_VERSION
  \/ Buffer.len buffer < Chunker.HEADER_SIZE.

(** "resume.pdf" with its two accents. *)
Definition resume_pdf : jsstring :=
  [0x72; 0xE9; 0x73; 0x75; 0x6D; 0xE9; 0x2E; 0x70; 0x64; 0x66].

(** A full header that declares version 2. *)
Definition version2_header : Buffer.t :=
  Chunker.magic_bytes ++ Buffer.le_bytes 2 2 ++ Buffer.alloc 58.

(** The 22 bytes of the fixed fields, for an empty name. *)
Definition short_header : Buffer.t :=
  Chunker.magic_bytes ++ Buffer.le_bytes 2 1 ++ Buffer.alloc 16.

(** ** Upload, then download *)

(** What [frames] returns: each chunk behind its header. *)
Definition framed (name : jsstring) (size flags : Z) (c : Pipeline.chunk)
    (bytes : Buffer.t) : Prop :=
  exists h, Chunker.createHeader name size (Pipeline.index c)
              (Pipeline.total c) flags = Ok h
            /\ bytes = h ++ Pipeline.data c.

(** The row of a chunk, pointing at the document that holds its bytes. *)
Definition row_of `{TelegramLaws} (c : chat) (fileId : Z)
    (cf : Pipeline.chunkFile) (row : FileIndex.chunk_row) : Prop :=
  FileIndex.file_id row = fileId
  /\ FileIndex.chunk_index row = Pipeline.cf_index cf
  /\ exists fid, FileIndex.file_telegram_id row = Some fid
                 /\ stored c fid (Pipeline.cf_bytes cf).

(** What [downloadChunk] makes of the frame of a chunk. *)
Definition unframed (flags : Z) (c : Pipeline.chunk) (dl : Pipeline.downloaded)
    : Prop :=
  Pipeline.dl_index dl = Pipeline.index c
  /\ Pipeline.dl_data dl = Pipeline.data c
  /\ Pipeline.dl_compressed dl = Z.odd flags.

(** What a successful upload leaves: the rows of the chunks, in order,
    each pointing at the stored frame of its chunk. *)
Definition uploaded_as `{Crypto} `{Zlib} `{TelegramLaws} (name : jsstring)
    (content : Buffer.t) (password : jsstring) (g : nat) (w1 : World.t)
    (rows : list FileIndex.chunk_row) : Prop :=
  let packed := Compressor.compress content name in
  let encrypted := fst (Encryption.encrypt password g (fst packed)) in
  Forall2 (fun c row =>
             exists fid bytes,
               FileIndex.file_telegram_id row = Some fid
               /\ framed name (Buffer.len content)
                    (if snd packed then 1 else 0) c bytes
               /\ stored (World.remote w1) fid bytes)
          (Pipeline.split encrypted) rows.

(** What a flush leaves for a name: the row that the lookup by name
    returns, with one chunk row that points at the stored frame. *)
Definition flushed `{Crypto} `{Zlib} `{TelegramLaws} (password name : jsstring)
    (data : Buffer.t) (g : nat) (w1 : World.t) : Prop :=
  let packed := Compressor.compress data name in
  let encrypted := fst (Encryption.encrypt password g (fst packed)) in
  exists row chunk fid h,
    FileIndex.findByName (World.db w1) name = Some row
    /\ FileIndex.getChunks (World.db w1) (FileIndex.id row) = [chunk]
    /\ FileIndex.file_telegram_id chunk = Some fid
    /\ Chunker.createHeader name (Buffer.len data) 0 1
         (if snd packed then 1 else 0) = Ok h
    /\ stored (World.remote w1) fid (h ++ encrypted).

(** The rows of [files] and [chunks] are still there, with rows added
    behind them. *)
Definition grown (d d' : FileIndex.t) : Prop :=
  FileIndex.tbl_files d `prefix_of` FileIndex.tbl_files d'
  /\ FileIndex.tbl_chunks d `prefix_of` FileIndex.tbl_chunks d'.

(** Computations that only add rows to [files] and [chunks]. *)
Definition grows `{Telegram} {A} (m : M World.t A) : Prop :=
  forall w, grown (World.db w) (World.db (snd (m w))).

(** ** The index *)

(** A text without the wildcards of LIKE. *)
Definition literal (s : jsstring) : Prop :=
  Forall (fun c => c <> Sql.percent /\ c <> Sql.underscore) s.

(** A text with its ASCII capitals made small, as LIKE compares. *)
Definition folded (s : jsstring) : jsstring := map Sql.fold_case s.

(** The folder has a row in [sync_folders]: what the foreign key of
    [sync_state] asks of a state row. *)
Definition registered_folder (d : FileIndex.t) (folderId : Z) : Prop :=
  exists r, r ∈ FileIndex.tbl_sync_folders d
            /\ FileIndex.sync_folder_id r = folderId.

(** ** Tags *)

(** UNIQUE(file_id, tag) *)
Definition unique_tags (db : Tags.t) : Prop :=
  NoDup (map (fun r => (Tags.file_id r, Tags.tag r)) (Tags.tbl_tags db)).

(** Texts in strictly ascending order. *)
Definition ascending : list jsstring -> Prop :=
  StronglySorted (fun a b => Tags.ltb a b = true).

(** A case mapping for the sample runs, exact on ASCII texts. *)
Definition ascii_casing : Casing := {| lowerCase := Path.toLowerCase |}.

(** The index of [a.txt] with no tag. *)
Definition untagged : Tags.t :=
  {| Tags.index :=
       {| FileIndex.tbl_files :=
            [FileIndex.mkFile 1 (jsstr "test.txt") (jsstr "abc123") 100 80 1 1];
          FileIndex.tbl_chunks := [];
          FileIndex.tbl_sync_folders := [];
          FileIndex.tbl_sync_state := [];
          FileIndex.seq_files := 1 |};
     Tags.tbl_tags := [] |}.

(** The process at a later reading of the clock. *)
Definition at_clock `{Telegram} (now : Z) (w : World.t) : World.t :=
  World.mk (World.db w) (World.history w) (World.remote w) (World.rng w)
    (World.fileCache w) (World.writeBuffers w) now (World.events w).

(** ** Sample runs on the small environment *)

#[local] Existing Instance Model.crypto.
#[local] Existing Instance Model.zlib.
#[local] Existing Instance Model.telegram.

Definition hello : Buffer.t := Model.bytes_of "hello world".

(** Two local files with the same content. *)
Definition two_copies : localfs :=
  Model.files_of
    [(jsstr "/home/u/a.txt", hello); (jsstr "/home/u/b.txt", hello)] [].

Definition options_for (name : option jsstring) : Pipeline.options :=
  {| Pipeline.password := jsstr "pw";
     Pipeline.customName := name;
     Pipeline.cfg := Model.the_config |}.

(** The state after [a.txt] is uploaded to an empty index. *)
Definition after_upload : World.t :=
  snd (Pipeline.processFile two_copies (jsstr "/home/u/a.txt")
         (options_for None) (Model.start FileIndex.empty Model.online)).

(** ** Upload *)

(** The number of rows of [chunks] that belong to a file. *)
Definition chunk_count (d : FileIndex.t) (fileId : Z) : Z :=
  Z.of_nat (length (List.filter (fun c => FileIndex.file_id c =? fileId)
                                (FileIndex.tbl_chunks d))).

(** No row of [files] declares more chunks than it has rows in [chunks]. *)
Definition complete (d : FileIndex.t) : Prop :=
  forall f, f ∈ FileIndex.tbl_files d ->
            FileIndex.chunks f <= chunk_count d (FileIndex.id f).

(** No row of [files] has more rows in [chunks] than it declares. *)
Definition bounded (d : FileIndex.t) : Prop :=
  forall f, f ∈ FileIndex.tbl_files d ->
            chunk_count d (FileIndex.id f) <= FileIndex.chunks f.

(** What the schema keeps true: ids are unique and at most the
    AUTOINCREMENT counter, and every chunk row refers to a file row. *)
Definition consistent (d : FileIndex.t) : Prop :=
  NoDup (map FileIndex.id (FileIndex.tbl_files d))
  /\ (forall f, f ∈ FileIndex.tbl_files d ->
                 FileIndex.id f <= FileIndex.seq_files d)
  /\ (forall c, c ∈ FileIndex.tbl_chunks d ->
                 FileIndex.has_file d (FileIndex.file_id c) = true).

Definition sound (d : FileIndex.t) : Prop := consistent d /\ bounded d.

(** Computations that leave the database file alone. *)
Definition keeps_db `{Telegram} {A} (m : M World.t A) : Prop :=
  forall w, World.db (snd (m w)) = World.db w
            /\ World.history (snd (m w)) = World.history w.

(** The database now and every state it went through. *)
Definition states `{Telegram} (w : World.t) : list FileIndex.t :=
  World.db w :: World.history w.

(** Computations under which every state of the database stays sound. *)
Definition keeps_sound `{Telegram} {A} (m : M World.t A) : Prop :=
  forall w, Forall sound (states w) -> Forall sound (states (snd (m w))).

(** The upload of [a.txt] when the network goes down at the second call,
    the one that sends the chunk. *)
Definition interrupted_upload : World.t :=
  snd (Pipeline.processFile two_copies (jsstr "/home/u/a.txt")
         (options_for None)
         (Model.start FileIndex.empty
            (Model.mkChat [] 1 [false; true]))).

(** The index with the row of [a.txt] and no chunk row. *)
Definition declared_only : FileIndex.t :=
  {| FileIndex.tbl_files :=
       [{| FileIndex.id := 1;
           FileIndex.filename := jsstr "a.txt";
           FileIndex.hash := Encryption.hashData hello;
           FileIndex.original_size := 11;
           FileIndex.stored_size := 104;
           FileIndex.chunks := 1;
           FileIndex.compressed := 0 |}];
     FileIndex.tbl_chunks := [];
     FileIndex.tbl_sync_folders := [];
     FileIndex.tbl_sync_state := [];
     FileIndex.seq_files := 1 |}.

(** ** Download *)

(** The header index parsed from the blob of a chunk row, beside the
    position the row gives it. *)
Definition observed (w : World.t) (c : FileIndex.chunk_row) : Z * option Z :=
  (FileIndex.chunk_index c,
   match fst (Pipeline.downloadChunk c w) with
   | Ok d => Some (Pipeline.dl_index d)
   | Throw _ => None
   end).

Definition encrypted_hello : Buffer.t :=
  fst (Encryption.encrypt (jsstr "pw") 0 hello).

(** A blob: the header of chunk [i] of 2 of [a.txt], then [payload]. *)
Definition blob (i : Z) (payload : Buffer.t) : Buffer.t :=
  match Chunker.createHeader (jsstr "a.txt") 11 i 2 0 with
  | Ok header => header ++ payload
  | Throw _ => []
  end.

Definition a_txt : FileIndex.file_row :=
  {| FileIndex.id := 1;
     FileIndex.filename := jsstr "a.txt";
     FileIndex.hash := Encryption.hashData hello;
     FileIndex.original_size := 11;
     FileIndex.stored_size := Buffer.len encrypted_hello;
     FileIndex.chunks := 2;
     FileIndex.compressed := 0 |}.

(** An index and a chat where the row of position 0 points at the blob
    whose header says 1, and the row of position 1 at the blob whose header
    says 0. *)
Definition swapped : World.t :=
  Model.start
    {| FileIndex.tbl_files := [a_txt];
       FileIndex.tbl_chunks :=
         [FileIndex.mkChunk 1 0 1 (Some [1]) 114;
          FileIndex.mkChunk 1 1 2 (Some [2]) 118];
       FileIndex.tbl_sync_folders := [];
       FileIndex.tbl_sync_state := [];
       FileIndex.seq_files := 1 |}
    {| Model.documents :=
         [(1, blob 1 (drop 50 encrypted_hello));
          (2, blob 0 (take 50 encrypted_hello))];
       Model.next_id := 3;
       Model.outages := [] |}.

(** ** The mounted filesystem *)

Definition old_bytes : Buffer.t := Model.bytes_of "old".
Definition new_bytes : Buffer.t := Model.bytes_of "new".

(** A process whose read cache holds [a] and whose index is empty. *)
Definition cached : World.t :=
  World.mk FileIndex.empty [FileIndex.empty] Model.online 0
    {[ jsstr "a" := World.mkEntry old_bytes 0 ]} ∅ 0 [].

(** The read cache has nothing to serve for [name]: no entry, or one that
    has expired. *)
Definition cache_miss `{Telegram} (w : World.t) (name : jsstring) : Prop :=
  match World.fileCache w !! name with
  | Some entry => TelegramFS.CACHE_TTL < World.clock w - World.timestamp entry
  | None => True
  end.

(** Computations that neither read nor change the write buffers. *)
Definition blind `{Telegram} {A} (m : M World.t A) : Prop :=
  forall b w,
    m (World.set_writeBuffers b w)
    = (fst (m w), World.set_writeBuffers b (snd (m w))).

(** The index once the row that the lookup by name returns for [name], if
    any, is deleted: what [uploadFile] does first. *)
Definition without_found (d : FileIndex.t) (name : jsstring) : FileIndex.t :=
  match FileIndex.findByName d name with
  | Some old => FileIndex.delete d (FileIndex.id old)
  | None => d
  end.

(** The chat once it was asked to delete the messages of the chunks, one
    after the other, whatever it answered. *)
Definition asked_to_delete `{Telegram} (chunks : list FileIndex.chunk_row)
    (c : chat) : chat :=
  fold_left (fun c chunk =>
               snd (bot_deleteMessage (FileIndex.message_id chunk) c))
            chunks c.

(** Every row named [name] is the row that the lookup by name returns. *)
Definition only_found (d : FileIndex.t) (name : jsstring) : Prop :=
  forall f, f ∈ FileIndex.tbl_files d -> FileIndex.filename f = name ->
            exists old, FileIndex.findByName d name = Some old
                        /\ FileIndex.id f = FileIndex.id old.

Definition same_bytes : Buffer.t := Model.bytes_of "same".

Definition row (i : Z) (name : string) (content : Buffer.t)
    : FileIndex.file_row :=
  {| FileIndex.id := i;
     FileIndex.filename := jsstr name;
     FileIndex.hash := Encryption.hashData content;
     FileIndex.original_size := Buffer.len content;
     FileIndex.stored_size := Buffer.len content + 60;
     FileIndex.chunks := 1;
     FileIndex.compressed := 0 |}.

(** A process on an index with the rows [rows], no chunk rows, and one
    modified write buffer that holds [same_bytes] for [name]. *)
Definition flushing (rows : list FileIndex.file_row) (name : string)
    : World.t :=
  let d := {| FileIndex.tbl_files := rows;
              FileIndex.tbl_chunks := [];
              FileIndex.tbl_sync_folders := [];
              FileIndex.tbl_sync_state := [];
              FileIndex.seq_files := Z.of_nat (length rows) |} in
  World.mk d [d] Model.online 0 ∅
    {[ jsstr name := World.mkWb same_bytes true false ]} 0 [].

(** [a.txt] uploaded, then rewritten through the mount with [same_bytes],
    on a network that answers the first call and is down at the second. *)
Definition overwriting : World.t :=
  World.mk (World.db after_upload) (World.history after_upload)
    (Model.mkChat (Model.documents (World.remote after_upload))
       (Model.next_id (World.remote after_upload)) [false; true])
    (World.rng after_upload) ∅
    {[ jsstr "a.txt" := World.mkWb same_bytes true false ]} 0 [].

(** [a.txt] uploaded, a row [m] that holds [same_bytes] added to the index,
    and [a.txt] rewritten through the mount with [same_bytes]. *)
Definition rewriting_stored : World.t :=
  let d := {| FileIndex.tbl_files :=
                FileIndex.tbl_files (World.db after_upload)
                ++ [row 2 "m" same_bytes];
              FileIndex.tbl_chunks := FileIndex.tbl_chunks (World.db after_upload);
              FileIndex.tbl_sync_folders := [];
              FileIndex.tbl_sync_state := [];
              FileIndex.seq_files := 2 |} in
  World.mk d [d] (World.remote after_upload) (World.rng after_upload) ∅
    {[ jsstr "a.txt" := World.mkWb same_bytes true false ]} 0 [].

(** ** Folder sync *)

(** The state that a scan finds persisted for a path: the entry of the
    [stateMap] built from the rows of the folder. *)
Definition persisted (d : FileIndex.t) (folderId : Z) (path : jsstring)
    : option FileIndex.sync_state_row :=
  SyncEngine.stateMap_of (FileIndex.getFolderSyncStates d folderId) !! path.

(** The last row of a list for a path. *)
Fixpoint last_row (l : list FileIndex.sync_state_row) (path : jsstring)
    : option FileIndex.sync_state_row :=
  match l with
  | [] => None
  | r :: l' =>
    match last_row l' path with
    | Some x => Some x
    | None =>
      if bool_decide (FileIndex.relative_path r = path) then Some r else None
    end
  end.

Definition is_upload_error (e : World.event) : bool :=
  match e with
  | World.file_upload_error _ _ => true
  | _ => false
  end.

(** How many [file-upload-error] events were emitted so far. *)
Definition upload_errors `{Telegram} (w : World.t) : nat :=
  length (List.filter is_upload_error (World.events w)).

(** What a scan leaves alone: the tables of the files and their chunks
    aside, the state is the same. *)
Definition keeps_sync `{Telegram} {A} (m : M World.t A) : Prop :=
  forall w,
    FileIndex.tbl_sync_state (World.db (snd (m w)))
    = FileIndex.tbl_sync_state (World.db w)
    /\ FileIndex.tbl_sync_folders (World.db (snd (m w)))
       = FileIndex.tbl_sync_folders (World.db w)
    /\ World.events (snd (m w)) = World.events w.

(** The files of a scan that the time test does not skip: without a
    persisted row, or with one older than the file. *)
Definition stale (stateMap : gmap jsstring FileIndex.sync_state_row)
    (file : scanned) : Prop :=
  forall ex, stateMap !! sc_relativePath file = Some ex ->
             FileIndex.mtime ex < sc_mtime file.

(** The options [syncFolder] uploads a file with. *)
Definition upload_opts (password : jsstring) (cfg : config) (file : scanned)
    : Pipeline.options :=
  {| Pipeline.password := password;
     Pipeline.customName := Some (sc_relativePath file);
     Pipeline.cfg := cfg |}.

Definition docs : jsstring := jsstr "/home/u/docs".

(** A folder with one file, [notes.txt], last modified at 1700000000000. *)
Definition one_note : localfs :=
  Model.files_of [(jsstr "/home/u/docs/notes.txt", hello)]
    [mkScanned (jsstr "/home/u/docs/notes.txt") (jsstr "notes.txt")
       1700000000000 11].

(** A process whose index has the folder registered and nothing else, on a
    chat with the given outages. *)
Definition registered (outages : list bool) : World.t :=
  Model.start
    {| FileIndex.tbl_files := [];
       FileIndex.tbl_chunks := [];
       FileIndex.tbl_sync_folders := [FileIndex.mkSyncFolder 1 docs true];
       FileIndex.tbl_sync_state := [];
       FileIndex.seq_files := 0 |}
    (Model.mkChat [] 1 outages).

Definition sync (w : World.t) : result (Z * Z) * World.t :=
  SyncEngine.syncFolder (jsstr "pw") Model.the_config one_note docs w.

End Spec.

(* ===================================================================== *)
(** * Properties *)
(* ===================================================================== *)

Ltac bool_cases :=
  repeat match goal with
  | |- context [?a <? ?b] => destruct (Z.ltb_spec a b); try lia
  | |- context [?a <=? ?b] => destruct (Z.leb_spec a b); try lia
  | |- context [?a =? ?b] => destruct (Z.eqb_spec a b); try lia
  end.

Ltac zdiv := Z.to_euclidean_division_equations; lia.

(** ** Buffers *)

Section BufferFacts.

Import Buffer.

Lemma to_Z_range b : 0 <= Buffer.to_Z b < 256.
Proof.
unfold Buffer.to_Z. pose proof (Byte.to_N_bounded b). lia.
Qed.

Lemma to_Z_of_Z z : Buffer.to_Z (Buffer.of_Z z) = z mod 256.
Proof.
unfold Buffer.to_Z, Buffer.of_Z.
pose proof (Z.mod_pos_bound z 256 ltac:(lia)) as Hb.
destruct (Byte.of_N (Z.to_N (z mod 256))) as [b|] eqn:E.
- apply Byte.to_of_N in E. rewrite E. lia.
- apply Byte.of_N_None_iff in E. lia.
Qed.

Lemma of_Z_to_Z b : Buffer.of_Z (Buffer.to_Z b) = b.
Proof.
unfold Buffer.to_Z, Buffer.of_Z.
pose proof (Byte.to_N_bounded b).
rewrite Z.mod_small by lia. rewrite N2Z.id, Byte.of_to_N. reflexivity.
Qed.

Lemma to_Z_of_Z_small z : 0 <= z < 256 -> Buffer.to_Z (Buffer.of_Z z) = z.
Proof. intros. rewrite to_Z_of_Z. apply Z.mod_small; lia. Qed.

Lemma len_nonneg (buf : Buffer.t) : 0 <= len buf.
Proof. unfold len. lia. Qed.

Lemma len_app (a b : Buffer.t) : len (a ++ b) = len a + len b.
Proof. unfold len. rewrite length_app. lia. Qed.

Lemma get_Some (buf : Buffer.t) i :
0 <= i < len buf -> exists b, get buf i = Some b.
Proof.
unfold get, len. intros Hi.
destruct (Z.ltb_spec i 0); [lia|].
destruct (lookup_lt_is_Some_2 buf (Z.to_nat i)) as [b Hb]; [lia|].
eauto.
Qed.

Lemma get_None (buf : Buffer.t) i : len buf <= i -> get buf i = None.
Proof.
unfold get, len. intros Hi.
destruct (Z.ltb_spec i 0); [reflexivity|].
apply lookup_ge_None_2. lia.
Qed.

Lemma subarray_nonneg (buf : Buffer.t) s e :
0 <= s -> 0 <= e ->
subarray buf s e = take (Z.to_nat (e - s)) (drop (Z.to_nat s) buf).
Proof.
intros Hs He. unfold subarray, clampIndex.
destruct (Z.ltb_spec s 0); [lia|]. destruct (Z.ltb_spec e 0); [lia|].
pose proof (len_nonneg buf) as Hl. unfold len in *.
destruct (Z.le_gt_cases s (Z.of_nat (length buf))) as [Hsl|Hsl].
- rewrite (Z.min_l s) by lia.
  destruct (Z.le_gt_cases e (Z.of_nat (length buf))) as [Hel|Hel].
  + rewrite Z.min_l by lia. reflexivity.
  + rewrite Z.min_r by lia.
    rewrite !take_ge; [reflexivity | rewrite length_drop; lia ..].
- rewrite (Z.min_r s) by lia.
  rewrite !drop_ge by lia. rewrite !take_nil. reflexivity.
Qed.

Lemma subarray_all (buf : Buffer.t) n :
len buf <= n -> subarray buf 0 n = buf.
Proof.
intros Hn. pose proof (len_nonneg buf).
rewrite subarray_nonneg by lia. unfold len in *.
rewrite drop_0. apply take_ge. lia.
Qed.

Lemma le16_value v :
0 <= v <= 0xffff -> to_Z (of_Z v) + to_Z (of_Z (v / 256)) * 2 ^ 8 = v.
Proof. intros. rewrite !to_Z_of_Z. zdiv. Qed.

Lemma le_value_le_bytes n v :
0 <= v < 256 ^ Z.of_nat n -> le_value (le_bytes n v) = v.
Proof.
revert v. induction n as [|n IH]; intros v Hv.
- simpl in *. lia.
- cbn [le_bytes le_value fold_right]. fold (le_value (le_bytes n (v / 256))).
  rewrite IH, to_Z_of_Z.
  + zdiv.
  + rewrite Nat2Z.inj_succ, Z.pow_succ_r in Hv by lia. zdiv.
Qed.

Lemma readUInt16LE_at (buf : Buffer.t) off v :
0 <= v <= 0xffff -> 0 <= off ->
take 2 (drop (Z.to_nat off) buf) = le_bytes 2 v ->
readUInt16LE buf off = Ok v.
Proof.
intros Hv Hoff Hb. unfold readUInt16LE, get.
destruct (Z.ltb_spec off 0); [lia|]. destruct (Z.ltb_spec (off + 1) 0); [lia|].
assert (buf !! Z.to_nat off = Some (of_Z v)) as ->.
{ rewrite <- (Nat.add_0_r (Z.to_nat off)), <- lookup_drop.
  rewrite <- (lookup_take_lt _ 2) by lia. rewrite Hb. reflexivity. }
assert (buf !! Z.to_nat (off + 1) = Some (of_Z (v / 256))) as ->.
{ replace (Z.to_nat (off + 1)) with (Z.to_nat off + 1)%nat by lia.
  rewrite <- lookup_drop.
  rewrite <- (lookup_take_lt _ 2) by lia. rewrite Hb. reflexivity. }
f_equal. apply le16_value. exact Hv.
Qed.

Lemma readBigUInt64LE_at (buf : Buffer.t) off v :
0 <= v < 2 ^ 64 -> 0 <= off ->
take 8 (drop (Z.to_nat off) buf) = le_bytes 8 v ->
readBigUInt64LE buf off = Ok v.
Proof.
intros Hv Hoff Hb. unfold readBigUInt64LE, get.
destruct (Z.ltb_spec off 0); [lia|]. destruct (Z.ltb_spec (off + 7) 0); [lia|].
assert (buf !! Z.to_nat off = Some (of_Z v)) as ->.
{ rewrite <- (Nat.add_0_r (Z.to_nat off)), <- lookup_drop.
  rewrite <- (lookup_take_lt _ 8) by lia. rewrite Hb. reflexivity. }
assert (is_Some (buf !! Z.to_nat (off + 7))) as [b ->].
{ replace (Z.to_nat (off + 7)) with (Z.to_nat off + 7)%nat by lia.
  rewrite <- lookup_drop.
  rewrite <- (lookup_take_lt _ 8) by lia. rewrite Hb. eexists. reflexivity. }
f_equal. rewrite subarray_nonneg by lia.
replace (Z.to_nat (off + 8 - off)) with 8%nat by lia.
rewrite Hb. apply le_value_le_bytes. exact Hv.
Qed.

(** Writes into the zero bytes that follow what is already written. *)
Lemma blit_at (pre mid post bytes : Buffer.t) :
length mid = length bytes ->
blit bytes (pre ++ mid ++ post) (len pre) = pre ++ bytes ++ post.
Proof.
intros Hm. unfold blit, len. rewrite Nat2Z.id.
rewrite take_app_length. f_equal. f_equal.
rewrite drop_app_add, <- Hm, drop_app_length. reflexivity.
Qed.

Lemma replicate_split (n k : nat) (x : byte) :
(k <= n)%nat -> replicate n x = replicate k x ++ replicate (n - k) x.
Proof. intros. rewrite <- replicate_add. f_equal. lia. Qed.

Lemma len_replicate n (x : byte) : len (replicate n x) = Z.of_nat n.
Proof. unfold len. rewrite length_replicate. reflexivity. Qed.

Lemma writeUInt16LE_at (pre : Buffer.t) n v off :
0 <= v <= 0xffff -> (2 <= n)%nat -> off = len pre ->
writeUInt16LE (pre ++ replicate n x00) v off
= Ok ((pre ++ le_bytes 2 v) ++ replicate (n - 2) x00).
Proof.
intros Hv Hn ->. unfold writeUInt16LE.
destruct (Z.ltb_spec v 0); [lia|]. destruct (Z.ltb_spec 0xffff v); [lia|].
cbn [orb].
pose proof (len_nonneg pre).
destruct (get_Some (pre ++ replicate n x00) (len pre)) as [b0 ->].
{ rewrite len_app, len_replicate. lia. }
destruct (get_Some (pre ++ replicate n x00) (len pre + 1)) as [b1 ->].
{ rewrite len_app, len_replicate. lia. }
f_equal. rewrite (replicate_split n 2) by lia.
rewrite blit_at by reflexivity. rewrite app_assoc. reflexivity.
Qed.

Lemma writeBigUInt64LE_at (pre : Buffer.t) n v off :
0 <= v < 2 ^ 64 -> (8 <= n)%nat -> off = len pre ->
writeBigUInt64LE (pre ++ replicate n x00) v off
= Ok ((pre ++ le_bytes 8 v) ++ replicate (n - 8) x00).
Proof.
intros Hv Hn ->. unfold writeBigUInt64LE.
destruct (Z.ltb_spec v 0); [lia|].
destruct (Z.ltb_spec 0xffffffffffffffff v); [lia|].
cbn [orb].
pose proof (len_nonneg pre).
destruct (get_Some (pre ++ replicate n x00) (len pre)) as [b0 ->].
{ rewrite len_app, len_replicate. lia. }
destruct (get_Some (pre ++ replicate n x00) (len pre + 7)) as [b1 ->].
{ rewrite len_app, len_replicate. lia. }
f_equal. rewrite (replicate_split n 8) by lia.
rewrite blit_at by reflexivity. rewrite app_assoc. reflexivity.
Qed.

Lemma copy_all_at (pre src : Buffer.t) n off :
(length src <= n)%nat -> off = len pre ->
copy_all src (pre ++ replicate n x00) off
= pre ++ src ++ replicate (n - length src) x00.
Proof.
intros Hn ->. unfold copy_all, copy.
rewrite subarray_all by lia.
rewrite len_app, len_replicate.
rewrite take_ge by lia.
rewrite (replicate_split n (length src)) by lia.
apply blit_at. rewrite length_replicate. reflexivity.
Qed.

End BufferFacts.

(** ** Numbers *)

Lemma of_BigInt_id n : Number.is_integer n -> Number.of_BigInt n = n.
Proof.
  intros [Hn [Hs|Hm]]; unfold Number.of_BigInt.
  - destruct (Z.ltb_spec n (2 ^ 53)); [reflexivity | lia].
  - destruct (Z.ltb_spec n (2 ^ 53)) as [|Hbig]; [reflexivity|].
    assert (53 <= Z.log2 n) by (apply Z.log2_le_pow2; lia).
    set (e := Z.log2 n - 52) in *.
    assert (0 < 2 ^ (e - 1)) by (apply Z.pow_pos_nonneg; lia).
    rewrite Hm.
    destruct (Z.ltb_spec 0 (2 ^ (e - 1))); [|lia].
    pose proof (Z.div_mod n (2 ^ e) ltac:(apply Z.pow_nonzero; lia)). lia.
Qed.

(** ** UTF-8 *)

Section Utf8Facts.

Import Buffer.
#[local] Arguments Buffer.of_Z : simpl never.
#[local] Arguments Buffer.to_Z : simpl never.
#[local] Arguments Z.mul : simpl never.
#[local] Arguments Z.add : simpl never.
#[local] Arguments Z.div : simpl never.
#[local] Arguments Z.modulo : simpl never.
#[local] Arguments Z.ltb : simpl never.
#[local] Arguments Z.leb : simpl never.
#[local] Arguments Z.eqb : simpl never.

Ltac unfold_decode := unfold Utf8.classify, Utf8.is_cont, Utf8.between.

Lemma decode1 a rest :
0 <= a < 0x80 ->
Utf8.decode (Buffer.of_Z a :: rest) = a :: Utf8.decode rest.
Proof.
intros. simpl. rewrite to_Z_of_Z_small by lia.
unfold_decode. bool_cases. reflexivity.
Qed.

Lemma decode2 a b rest :
2 <= a < 32 -> 0 <= b < 64 ->
Utf8.decode (Buffer.of_Z (0xC0 + a) :: Buffer.of_Z (0x80 + b) :: rest)
= (a * 64 + b) :: Utf8.decode rest.
Proof.
intros. simpl. rewrite !to_Z_of_Z_small by lia.
unfold_decode. bool_cases. simpl. f_equal. zdiv.
Qed.

Lemma decode3 a b d rest :
0 <= a < 16 -> 0 <= b < 64 -> 0 <= d < 64 ->
(a = 0 -> 32 <= b) -> (a = 13 -> b < 32) ->
Utf8.decode (Buffer.of_Z (0xE0 + a) :: Buffer.of_Z (0x80 + b)
             :: Buffer.of_Z (0x80 + d) :: rest)
= (a * 4096 + b * 64 + d) :: Utf8.decode rest.
Proof.
intros. simpl. rewrite !to_Z_of_Z_small by lia.
unfold_decode. bool_cases; simpl; f_equal; zdiv.
Qed.

Lemma decode4 a b d e rest :
0 <= a < 5 -> 0 <= b < 64 -> 0 <= d < 64 -> 0 <= e < 64 ->
(a = 0 -> 16 <= b) -> (a = 4 -> b < 16) ->
Utf8.decode (Buffer.of_Z (0xF0 + a) :: Buffer.of_Z (0x80 + b)
             :: Buffer.of_Z (0x80 + d) :: Buffer.of_Z (0x80 + e) :: rest)
= (a * 262144 + b * 4096 + d * 64 + e) :: Utf8.decode rest.
Proof.
intros. simpl. rewrite !to_Z_of_Z_small by lia.
unfold_decode. bool_cases; simpl; f_equal; zdiv.
Qed.

Lemma decode_encode_cp c rest :
is_scalar c = true -> Utf8.decode (Utf8.encode_cp c ++ rest) = c :: Utf8.decode rest.
Proof.
unfold is_scalar. intros Hs.
apply andb_prop in Hs as [Hs Hn]. apply andb_prop in Hs as [H0 H1].
apply Z.leb_le in H0, H1. apply negb_true_iff in Hn.
unfold Utf8.encode_cp. rewrite Hn.
unfold is_surrogate in Hn. apply andb_false_iff in Hn.
assert (c < 0xD800 \/ 0xDFFF < c) as Hc.
{ destruct Hn as [Hn|Hn]; apply Z.leb_gt in Hn; lia. }
clear Hn.
destruct (Z.ltb_spec c 0x80); [| destruct (Z.ltb_spec c 0x800);
  [| destruct (Z.ltb_spec c 0x10000)]]; cbn [app].
- apply decode1. lia.
- rewrite decode2 by zdiv. f_equal. zdiv.
- rewrite decode3 by zdiv. f_equal. zdiv.
- rewrite decode4 by zdiv. f_equal. zdiv.
Qed.

Lemma decode_encode s : well_formed s -> Utf8.decode (Utf8.encode s) = s.
Proof.
unfold well_formed, Utf8.encode. induction 1 as [|c s Hc Hs IH]; [reflexivity|].
simpl. rewrite decode_encode_cp by assumption. f_equal. exact IH.
Qed.

Lemma classify_lead x more lo hi :
0 <= x < 256 -> Utf8.classify x = Utf8.Lead more lo hi ->
0x80 <= lo /\ hi <= 0xBF /\
((more = 1%nat /\ 0xC2 <= x < 0xE0)
 \/ (more = 2%nat /\ 0xE0 <= x < 0xF0 /\ (x = 0xE0 -> lo = 0xA0))
 \/ (more = 3%nat /\ 0xF0 <= x <= 0xF4 /\ (x = 0xF0 -> lo = 0x90))).
Proof.
intros Hx. unfold Utf8.classify.
repeat match goal with
| |- context [?a <? ?b] => destruct (Z.ltb_spec a b)
| |- context [?a =? ?b] => destruct (Z.eqb_spec a b)
end; intros [= <- <- <-] || discriminate; lia.
Qed.

Lemma between_true lo hi x : Utf8.between lo hi x = true -> lo <= x <= hi.
Proof. unfold Utf8.between. intros H%andb_prop. lia. Qed.

(** An ASCII character at the head of a decoded string comes from that
  very byte. *)
Lemma decode_ascii_head b r c t :
Utf8.decode (b :: r) = c :: t -> 0 <= c < 0x80 ->
to_Z b = c /\ Utf8.decode r = t.
Proof.
intros Hd Hc. pose proof (to_Z_range b) as Hb.
cbn [Utf8.decode] in Hd.
destruct (Utf8.classify (to_Z b)) as [|more lo hi|] eqn:E.
- injection Hd as <- <-. auto.
- exfalso. apply classify_lead in E as (Hlo & Hhi & E); [|exact Hb].
  unfold Utf8.replacement, Utf8.is_cont in Hd.
  destruct r as [|b1 r1]; [injection Hd as <- _; lia|].
  pose proof (to_Z_range b1).
  destruct (Utf8.between lo hi (to_Z b1)) eqn:B1;
    cbn [negb] in Hd; [|injection Hd as <- _; lia].
  apply between_true in B1.
  destruct E as [[-> E]|[[-> (E & E0)]|[-> (E & E0)]]].
  + injection Hd as <- _. zdiv.
  + destruct r1 as [|b2 r2]; [injection Hd as <- _; lia|].
    destruct (Utf8.between 128 191 (to_Z b2)) eqn:B2;
      cbn [negb] in Hd; [|injection Hd as <- _; lia].
    apply between_true in B2.
    injection Hd as <- _. zdiv.
  + destruct r1 as [|b2 r2]; [injection Hd as <- _; lia|].
    destruct (Utf8.between 128 191 (to_Z b2)) eqn:B2;
      cbn [negb] in Hd; [|injection Hd as <- _; lia].
    apply between_true in B2.
    destruct r2 as [|b3 r3]; [injection Hd as <- _; lia|].
    destruct (Utf8.between 128 191 (to_Z b3)) eqn:B3;
      cbn [negb] in Hd; [|injection Hd as <- _; lia].
    apply between_true in B3.
    injection Hd as <- _. zdiv.
- unfold Utf8.replacement in Hd. injection Hd as <- _. lia.
Qed.

Lemma decode_nil_inv bs : Utf8.decode bs = [] -> bs = [].
Proof.
destruct bs as [|b r]; [reflexivity|]. cbn [Utf8.decode].
destruct (Utf8.classify (to_Z b)); try discriminate.
destruct r; [discriminate|].
destruct (negb _); [discriminate|].
destruct more as [|[|[|?]]]; try discriminate;
  destruct r; try discriminate; destruct (negb _); try discriminate;
  destruct r; try discriminate; destruct (negb _); discriminate.
Qed.

Lemma decode_magic bs :
Utf8.decode bs = jsstr "WAS1" <-> bs = Chunker.magic_bytes.
Proof.
split; [|intros ->; vm_compute; reflexivity].
change (jsstr "WAS1") with [87; 65; 83; 49].
intros Hd.
destruct bs as [|b0 bs]; [discriminate|].
apply decode_ascii_head in Hd as [H0 Hd]; [|lia].
destruct bs as [|b1 bs]; [discriminate|].
apply decode_ascii_head in Hd as [H1 Hd]; [|lia].
destruct bs as [|b2 bs]; [discriminate|].
apply decode_ascii_head in Hd as [H2 Hd]; [|lia].
destruct bs as [|b3 bs]; [discriminate|].
apply decode_ascii_head in Hd as [H3 Hd]; [|lia].
apply decode_nil_inv in Hd as ->.
rewrite <- (of_Z_to_Z b0), <- (of_Z_to_Z b1), <- (of_Z_to_Z b2),
  <- (of_Z_to_Z b3), H0, H1, H2, H3.
reflexivity.
Qed.

End Utf8Facts.

(** ** The frame header *)

Section ChunkerFacts.

Import Buffer Chunker.

Lemma createHeader_layout fn os ci tc fl :
0 <= os < 2 ^ 64 -> 0 <= ci <= 0xffff -> 0 <= tc <= 0xffff ->
0 <= fl <= 0xffff ->
let fb := subarray (Utf8.encode fn) 0 42 in
createHeader fn os ci tc fl =
Ok (((((((magic_bytes ++ le_bytes 2 1) ++ le_bytes 2 fl) ++ le_bytes 8 os)
       ++ le_bytes 2 ci) ++ le_bytes 2 tc) ++ le_bytes 2 (len fb))
    ++ fb ++ replicate (42 - length fb) x00).
Proof.
intros Hos Hci Htc Hfl fb. unfold createHeader. fold fb.
assert (Hfb : (length fb <= 42)%nat).
{ subst fb. rewrite subarray_nonneg by lia. rewrite length_take. lia. }
replace (write (alloc 64) (jsstr "WAS1") 0)
  with (magic_bytes ++ replicate 60 x00) by (vm_compute; reflexivity).
rewrite writeUInt16LE_at by (reflexivity || lia). cbn [mbind result_bind].
rewrite writeUInt16LE_at by (reflexivity || lia). cbn [mbind result_bind].
rewrite writeBigUInt64LE_at by (reflexivity || lia). cbn [mbind result_bind].
rewrite writeUInt16LE_at by (reflexivity || lia). cbn [mbind result_bind].
rewrite writeUInt16LE_at by (reflexivity || lia). cbn [mbind result_bind].
rewrite writeUInt16LE_at by (reflexivity || (unfold len; lia)).
cbn [mbind result_bind].
f_equal. apply copy_all_at; [exact Hfb | reflexivity].
Qed.

Lemma magic_check (buffer : Buffer.t) :
bool_decide (Utf8.decode (subarray buffer 0 4) = jsstr "WAS1")
= has_magic buffer.
Proof.
unfold has_magic. rewrite subarray_nonneg by lia.
change (Z.to_nat (4 - 0)) with 4%nat. change (Z.to_nat 0) with 0%nat.
rewrite drop_0. apply bool_decide_ext, decode_magic.
Qed.

Lemma land1_odd z : (Z.land z 1 =? 1) = Z.odd z.
Proof.
change (Z.land z 1) with (Z.land z (Z.ones 1)).
rewrite Z.land_ones by lia. change (2 ^ 1) with 2.
rewrite <- Z.bit0_mod, Z.bit0_odd. destruct (Z.odd z); reflexivity.
Qed.

(** C5. For a well-formed filename of at most 42 UTF-8 bytes, an original
  size that is an integer Number below 2^64, and a chunk index, chunk
  total and flags of 16 bits, [createHeader] succeeds and [parseHeader]
  of its result gives back the filename, the original size, the chunk
  index, the chunk total and the flags, with [compressed] the bit 0 of
  the flags (and the version 1). *)
Theorem parseHeader_createHeader fn os ci tc fl :
well_formed fn -> len (Utf8.encode fn) <= 42 ->
Number.is_integer os -> os < 2 ^ 64 ->
0 <= ci <= 0xffff -> 0 <= tc <= 0xffff -> 0 <= fl <= 0xffff ->
(createHeader fn os ci tc fl ≫= parseHeader)
= Ok {| version := 1;
        flags := fl;
        compressed := Z.odd fl;
        originalSize := os;
        chunkIndex := ci;
        totalChunks := tc;
        filename := fn |}.
Proof.
intros Hwf Hlen Hnum Hos Hci Htc Hfl.
assert (0 <= os) by apply Hnum.
rewrite createHeader_layout by lia. cbn zeta.
rewrite (subarray_all _ 42) by exact Hlen.
set (fb := Utf8.encode fn) in *.
assert (Hfb : 0 <= len fb <= 0xffff) by (pose proof (len_nonneg fb); lia).
cbn [mbind result_bind]. unfold parseHeader.
rewrite magic_check.
replace (has_magic _) with true by reflexivity. cbn [negb].
rewrite (readUInt16LE_at _ (0 + 4) 1) by (reflexivity || lia).
cbn [mbind result_bind].
rewrite (readUInt16LE_at _ (0 + 4 + 2) fl) by (reflexivity || lia).
cbn [mbind result_bind].
rewrite (readBigUInt64LE_at _ (0 + 4 + 2 + 2) os) by (reflexivity || lia).
cbn [mbind result_bind].
rewrite (readUInt16LE_at _ (0 + 4 + 2 + 2 + 8) ci) by (reflexivity || lia).
cbn [mbind result_bind].
rewrite (readUInt16LE_at _ (0 + 4 + 2 + 2 + 8 + 2) tc)
  by (reflexivity || lia).
cbn [mbind result_bind].
rewrite (readUInt16LE_at _ (0 + 4 + 2 + 2 + 8 + 2 + 2) (len fb))
  by (reflexivity || lia).
cbn [mbind result_bind].
f_equal. f_equal.
- apply land1_odd.
- apply of_BigInt_id. exact Hnum.
- rewrite subarray_nonneg by lia.
  replace (Z.to_nat (0 + 4 + 2 + 2 + 8 + 2 + 2 + 2 + len fb
                     - (0 + 4 + 2 + 2 + 8 + 2 + 2 + 2)))
    with (length fb) by (unfold len; lia).
  change (Utf8.decode (take (length fb)
            (fb ++ replicate (42 - length fb) x00)) = fn).
  rewrite take_app_length. apply decode_encode. exact Hwf.
Qed.

Lemma readUInt16LE_ok (buf : Buffer.t) off :
0 <= off -> off + 2 <= len buf -> exists v, readUInt16LE buf off = Ok v.
Proof.
intros H0 H1. unfold readUInt16LE.
destruct (get_Some buf off) as [a ->]; [lia|].
destruct (get_Some buf (off + 1)) as [b ->]; [lia|]. eauto.
Qed.

Lemma readUInt16LE_short (buf : Buffer.t) off :
len buf < off + 2 ->
readUInt16LE buf off = Throw (boundsError (len buf - 2)).
Proof.
intros H1. unfold readUInt16LE.
rewrite (get_None buf (off + 1)) by lia.
destruct (get buf off); reflexivity.
Qed.

Lemma readBigUInt64LE_ok (buf : Buffer.t) off :
0 <= off -> off + 8 <= len buf -> exists v, readBigUInt64LE buf off = Ok v.
Proof.
intros H0 H1. unfold readBigUInt64LE.
destruct (get_Some buf off) as [a ->]; [lia|].
destruct (get_Some buf (off + 7)) as [b ->]; [lia|]. eauto.
Qed.

Lemma readBigUInt64LE_short (buf : Buffer.t) off :
len buf < off + 8 ->
readBigUInt64LE buf off = Throw (boundsError (len buf - 8)).
Proof.
intros H1. unfold readBigUInt64LE.
rewrite (get_None buf (off + 7)) by lia.
destruct (get buf off); reflexivity.
Qed.

Lemma boundsError_range n : 0 <= n -> boundsError n = out_of_range.
Proof. intros. unfold boundsError. destruct (Z.ltb_spec n 0); [lia|reflexivity]. Qed.

Lemma parseHeader_bad_magic buf :
has_magic buf = false -> parseHeader buf = Throw bad_magic.
Proof. intros Hm. unfold parseHeader. rewrite magic_check, Hm. reflexivity. Qed.

Lemma parseHeader_ok buf :
has_magic buf = true -> 22 <= len buf ->
exists h, parseHeader buf = Ok h /\ readUInt16LE buf 4 = Ok (version h).
Proof.
intros Hm Hl. unfold parseHeader. rewrite magic_check, Hm. cbn [negb].
destruct (readUInt16LE_ok buf (0 + 4)) as [v Hv]; [lia..|].
rewrite Hv. cbn [mbind result_bind].
destruct (readUInt16LE_ok buf (0 + 4 + 2)) as [f ->]; [lia..|].
cbn [mbind result_bind].
destruct (readBigUInt64LE_ok buf (0 + 4 + 2 + 2)) as [o ->]; [lia..|].
cbn [mbind result_bind].
destruct (readUInt16LE_ok buf (0 + 4 + 2 + 2 + 8)) as [c ->]; [lia..|].
cbn [mbind result_bind].
destruct (readUInt16LE_ok buf (0 + 4 + 2 + 2 + 8 + 2)) as [t ->]; [lia..|].
cbn [mbind result_bind].
destruct (readUInt16LE_ok buf (0 + 4 + 2 + 2 + 8 + 2 + 2)) as [n ->];
  [lia..|].
cbn [mbind result_bind].
eexists. split; [reflexivity|]. exact Hv.
Qed.

Lemma has_magic_len buf : has_magic buf = true -> 4 <= len buf.
Proof.
unfold has_magic. intros Hm%bool_decide_eq_true.
apply (f_equal length) in Hm. rewrite length_take in Hm.
change (length magic_bytes) with 4%nat in Hm. unfold len. lia.
Qed.

Lemma parseHeader_short buf :
has_magic buf = true -> len buf < 22 -> parseHeader buf = Throw out_of_range.
Proof.
intros Hm Hl. pose proof (has_magic_len buf Hm) as H4.
unfold parseHeader. rewrite magic_check, Hm. cbn [negb].
destruct (Z.lt_ge_cases (len buf) 6).
{ rewrite (readUInt16LE_short buf (0 + 4)) by lia.
  cbn [mbind result_bind]. apply f_equal, boundsError_range. lia. }
destruct (readUInt16LE_ok buf (0 + 4)) as [v ->]; [lia..|].
cbn [mbind result_bind].
destruct (Z.lt_ge_cases (len buf) 8).
{ rewrite (readUInt16LE_short buf (0 + 4 + 2)) by lia.
  cbn [mbind result_bind]. apply f_equal, boundsError_range. lia. }
destruct (readUInt16LE_ok buf (0 + 4 + 2)) as [f ->]; [lia..|].
cbn [mbind result_bind].
destruct (Z.lt_ge_cases (len buf) 16).
{ rewrite (readBigUInt64LE_short buf (0 + 4 + 2 + 2)) by lia.
  cbn [mbind result_bind]. apply f_equal, boundsError_range. lia. }
destruct (readBigUInt64LE_ok buf (0 + 4 + 2 + 2)) as [o ->]; [lia..|].
cbn [mbind result_bind].
destruct (Z.lt_ge_cases (len buf) 18).
{ rewrite (readUInt16LE_short buf (0 + 4 + 2 + 2 + 8)) by lia.
  cbn [mbind result_bind]. apply f_equal, boundsError_range. lia. }
destruct (readUInt16LE_ok buf (0 + 4 + 2 + 2 + 8)) as [c ->]; [lia..|].
cbn [mbind result_bind].
destruct (Z.lt_ge_cases (len buf) 20).
{ rewrite (readUInt16LE_short buf (0 + 4 + 2 + 2 + 8 + 2)) by lia.
  cbn [mbind result_bind]. apply f_equal, boundsError_range. lia. }
destruct (readUInt16LE_ok buf (0 + 4 + 2 + 2 + 8 + 2)) as [t ->]; [lia..|].
cbn [mbind result_bind].
rewrite (readUInt16LE_short buf (0 + 4 + 2 + 2 + 8 + 2 + 2)) by lia.
cbn [mbind result_bind]. apply f_equal, boundsError_range. lia.
Qed.

(** C6, amended.  [parseHeader] fails exactly when the buffer does not
  start with the magic token (the error of the magic check) or, the token
  being there, is shorter than the 22 bytes of the fixed fields (the range
  error of a read); otherwise it returns a header, whose version is
  whatever bytes 4 and 5 hold. *)
Theorem parseHeader_failure buf :
match parseHeader buf with
| Ok h =>
  has_magic buf = true /\ 22 <= len buf
  /\ readUInt16LE buf 4 = Ok (version h)
| Throw e =>
  (has_magic buf = false /\ e = bad_magic)
  \/ (has_magic buf = true /\ len buf < 22 /\ e = out_of_range)
end.
Proof.
destruct (has_magic buf) eqn:Hm.
- destruct (Z.lt_ge_cases (len buf) 22) as [Hl|Hl].
  + rewrite parseHeader_short by assumption. right. auto.
  + destruct (parseHeader_ok buf Hm Hl) as (h & -> & Hv). auto.
- rewrite parseHeader_bad_magic by assumption. left. auto.
Qed.

End ChunkerFacts.

(** The round trip on an accented name, a size of 2^60, chunk 2 of 3,
    compressed. *)
Lemma parseHeader_createHeader_witness :
  (Chunker.createHeader Spec.resume_pdf (2 ^ 60) 2 3 1 ≫= Chunker.parseHeader)
  = Ok {| Chunker.version := 1;
          Chunker.flags := 1;
          Chunker.compressed := true;
          Chunker.originalSize := 2 ^ 60;
          Chunker.chunkIndex := 2;
          Chunker.totalChunks := 3;
          Chunker.filename := Spec.resume_pdf |}.
Proof.
  apply (parseHeader_createHeader Spec.resume_pdf (2 ^ 60) 2 3 1).
  - repeat constructor.
  - vm_compute. discriminate.
  - split; [lia | right; reflexivity].
  - lia.
  - lia.
  - lia.
  - lia.
Defined.

(** C6, as stated, fails: a 64-byte header declaring version 2 and a
    22-byte header are both parsed without error. *)
Lemma parseHeader_accepts_unexpected :
  (Spec.format_error_expected Spec.version2_header
   /\ Buffer.len Spec.version2_header = 64
   /\ exists h, Chunker.parseHeader Spec.version2_header = Ok h
                /\ Chunker.version h = 2)
  /\ (Spec.format_error_expected Spec.short_header
      /\ Buffer.len Spec.short_header = 22
      /\ exists h, Chunker.parseHeader Spec.short_header = Ok h).
Proof.
  split; split.
  - right. left. vm_compute. discriminate.
  - split; [reflexivity|]. eexists. split; vm_compute; reflexivity.
  - right. right. vm_compute. reflexivity.
  - split; [reflexivity|]. eexists. vm_compute. reflexivity.
Qed.

(** ** The cipher *)

Section EncryptionFacts.

Import Buffer Encryption.

Lemma clampIndex_in length i : 0 <= i <= length -> clampIndex length i = i.
Proof.
  intros. unfold clampIndex. destruct (Z.ltb_spec i 0); lia.
Qed.

Lemma clampIndex_neg length i :
  i < 0 -> 0 <= length + i -> clampIndex length i = length + i.
Proof.
  intros. unfold clampIndex. destruct (Z.ltb_spec i 0); lia.
Qed.

(** The four slices that [decrypt] takes of [salt | iv | ciphertext | tag]. *)
Lemma decrypt_slices (salt iv ct tag : Buffer.t) :
  len salt = SALT_LENGTH -> len iv = IV_LENGTH -> len tag = TAG_LENGTH ->
  let c := concat [salt; iv; ct; tag] in
  subarray c 0 SALT_LENGTH = salt
  /\ subarray c SALT_LENGTH (SALT_LENGTH + IV_LENGTH) = iv
  /\ subarray_from c (- TAG_LENGTH) = tag
  /\ subarray c (SALT_LENGTH + IV_LENGTH) (- TAG_LENGTH) = ct.
Proof.
  intros Hs Hi Ht c. unfold SALT_LENGTH, IV_LENGTH, TAG_LENGTH in *.
  assert (Hc : c = salt ++ iv ++ ct ++ tag).
  { subst c. unfold concat. cbn [List.concat]. rewrite app_nil_r. reflexivity. }
  assert (Hl : len c = 60 + len ct).
  { rewrite Hc, !len_app. lia. }
  pose proof (len_nonneg ct) as Hct.
  unfold subarray_from, subarray. rewrite Hl.
  rewrite !clampIndex_in by lia. rewrite !clampIndex_neg by lia.
  unfold len in *. rewrite Hc.
  repeat split.
  - change (Z.to_nat 0) with 0%nat. rewrite drop_0.
    apply take_app_length'. lia.
  - rewrite drop_app_length' by lia. apply take_app_length'. lia.
  - rewrite !app_assoc. rewrite drop_app_length'.
    + apply take_ge. lia.
    + rewrite !length_app. lia.
  - rewrite (app_assoc salt iv), drop_app_length'.
    + apply take_app_length'. lia.
    + rewrite length_app. lia.
Qed.

(** What [decrypt] makes of what [encrypt] returned: the decipher is run
    under the key derived from the password given and the salt read back,
    with the iv, the ciphertext and the tag of the sealing. *)
Lemma decrypt_sealed_with `{CryptoLaws} (K K' : jsstring) (P : Buffer.t)
    (g : nat) :
  let salt := randomBytes g SALT_LENGTH in
  let iv := randomBytes (S g) IV_LENGTH in
  let sealed := gcm_seal (deriveKey K salt) iv P in
  decrypt K' (fst (encrypt K g P))
  = gcm_open (deriveKey K' salt) iv (fst sealed) (snd sealed)
  /\ len iv = IV_LENGTH /\ len (snd sealed) = TAG_LENGTH.
Proof.
  unfold encrypt, encrypt_with. cbn [fst].
  set (salt := randomBytes g SALT_LENGTH).
  set (iv := randomBytes (S g) IV_LENGTH).
  pose proof (tag_length (deriveKey K salt) iv P) as Ht.
  destruct (gcm_seal (deriveKey K salt) iv P) as [ct tag].
  cbn [fst snd] in *.
  assert (Hiv : len iv = IV_LENGTH)
    by (apply randomBytes_length; unfold IV_LENGTH; lia).
  destruct (decrypt_slices salt iv ct tag) as (Hs & Hi & Hg & Hc).
  { apply randomBytes_length. unfold SALT_LENGTH. lia. }
  { exact Hiv. }
  { exact Ht. }
  unfold decrypt. rewrite Hs, Hi, Hg, Hc. auto.
Qed.

(** A password that derives the key of the sealing opens it. *)
Lemma decrypt_same_key `{CryptoLaws} (K K' : jsstring) (P : Buffer.t)
    (g : nat) :
  deriveKey K' (randomBytes g SALT_LENGTH)
  = deriveKey K (randomBytes g SALT_LENGTH) ->
  decrypt K' (fst (encrypt K g P)) = Ok P.
Proof.
  intros Hkey. destruct (decrypt_sealed_with K K' P g) as [-> _].
  rewrite Hkey. apply gcm_open_seal.
Qed.

(** So does the password of the sealing followed by U+0000. *)
Lemma decrypt_padded_password `{CryptoLaws} `{!KeyLaws} (K : jsstring)
    (P : Buffer.t) (g : nat) :
  3 * Z.of_nat (length K) < 128 ->
  decrypt (K ++ [0]) (fst (encrypt K g P)) = Ok P.
Proof.
  intros Hshort. apply decrypt_same_key. unfold deriveKey.
  apply pbkdf2Sync_zero_padded. exact Hshort.
Qed.


End EncryptionFacts.

(** ** The sample cipher obeys the contract *)

Section ModelFacts.

Import Model.

Lemma unmark_marked key data : unmark key (marked key ++ data) = Some data.
Proof.
  unfold marked. induction key as [|b key IH]; [reflexivity|].
  cbn [flat_map app unmark]. rewrite (Byte.byte_dec_lb eq_refl). exact IH.
Qed.

Lemma model_crypto_laws : @CryptoLaws Model.crypto.
Proof.
  split.
  - intros g n Hn. cbn. unfold Buffer.len. rewrite length_replicate. lia.
  - reflexivity.
  - intros key iv data. cbn. rewrite unmark_marked. reflexivity.
Qed.

Lemma unpadded_zero password : unpadded (password ++ [0]) = unpadded password.
Proof.
  unfold unpadded. rewrite reverse_app. reflexivity.
Qed.

Lemma model_key_laws : @KeyLaws Model.crypto.
Proof.
  split.
  - intros password salt iterations keylen _. cbn.
    rewrite unpadded_zero. reflexivity.
  - intros password salt iv ciphertext authTag e _ _. cbn.
    destruct (unmark _ ciphertext); [discriminate|]. intros [= <-]. reflexivity.
Qed.

End ModelFacts.



(** ** The pipeline: duplicates *)

Section PipelineFacts.

Context `{Crypto} `{Zlib} `{Telegram}.
Import Monad.

(** C3. When the digest of the file read is already in the index,
    [processFile] throws the duplicate error, whatever name is asked for,
    and leaves the whole state as it was: the index unchanged and no call
    made to the remote side. *)
Theorem processFile_duplicate (fs : localfs) (filePath : jsstring)
    (opts : Pipeline.options) (w : World.t) (content : Buffer.t) :
  readFileSync fs filePath = Ok content ->
  FileIndex.exists_ (World.db w) (Encryption.hashData content) = true ->
  Pipeline.processFile fs filePath opts w = (Throw Pipeline.duplicate, w).
Proof.
  intros Hread Hexists.
  unfold Pipeline.processFile, Pipeline.hashFile.
  cbv [mbind M_bind lift db_get gets throw result_bind mret result_ret].
  rewrite Hread, Hexists. reflexivity.
Qed.

End PipelineFacts.

(** ** Ordering rows by an integer column *)

Section OrderFacts.
Context {A : Type} (key : A -> Z).

Local Abbreviation by_key := (Sql.by_key key).

Lemma insert_by_perm x l : Sql.insert_by key x l ≡ₚ x :: l.
Proof.
  induction l as [|y l IH]; cbn [Sql.insert_by]; [reflexivity|].
  destruct (key x <? key y); [reflexivity|].
  rewrite IH. apply Permutation_swap.
Qed.

Lemma insert_by_sorted x l :
  StronglySorted by_key l -> StronglySorted by_key (Sql.insert_by key x l).
Proof.
  induction 1 as [|y l Hl IH Hy]; cbn [Sql.insert_by].
  - repeat constructor.
  - destruct (Z.ltb_spec (key x) (key y)) as [Hlt|Hge].
    + constructor; [constructor; assumption|].
      constructor; [unfold Sql.by_key; lia|].
      eapply Forall_impl; [exact Hy|]. unfold Sql.by_key. intros z Hz. lia.
    + constructor; [exact IH|].
      rewrite insert_by_perm. constructor; [exact Hge | exact Hy].
Qed.

Lemma order_by_acc l acc :
  StronglySorted by_key acc ->
  StronglySorted by_key (fold_left (fun a x => Sql.insert_by key x a) l acc)
  /\ fold_left (fun a x => Sql.insert_by key x a) l acc ≡ₚ acc ++ l.
Proof.
  revert acc. induction l as [|x l IH]; intros acc Hacc; cbn [fold_left].
  - rewrite app_nil_r. auto.
  - destruct (IH (Sql.insert_by key x acc)) as [Hs Hp].
    { apply insert_by_sorted. exact Hacc. }
    split; [exact Hs|]. rewrite Hp, insert_by_perm.
    cbn [app]. apply Permutation_middle.
Qed.

Lemma order_by_sorted l : StronglySorted by_key (Sql.order_by key l).
Proof. apply order_by_acc. constructor. Qed.

Lemma order_by_perm l : Sql.order_by key l ≡ₚ l.
Proof. unfold Sql.order_by. destruct (order_by_acc l []) as [_ Hp]; [constructor|]. exact Hp. Qed.

(** Rows of equal key stay in the order they had: the row inserted goes
    behind the rows of its key. *)
Lemma insert_by_stable x l i :
  StronglySorted by_key l ->
  List.filter (fun y => key y =? i) (Sql.insert_by key x l)
  = List.filter (fun y => key y =? i) l ++ (if key x =? i then [x] else []).
Proof.
  induction 1 as [|y l Hl IH Hy]; cbn [Sql.insert_by List.filter app].
  - reflexivity.
  - destruct (Z.ltb_spec (key x) (key y)) as [Hlt|Hge]; cbn [List.filter].
    + destruct (Z.eqb_spec (key x) i) as [Hx|Hx]; [|rewrite app_nil_r; reflexivity].
      destruct (Z.eqb_spec (key y) i) as [Hyi|_]; [lia|].
      replace (List.filter (fun y0 => key y0 =? i) l) with (@nil A);
        [reflexivity|].
      symmetry. clear IH Hl. induction Hy as [|z l Hz _ IHl]; [reflexivity|].
      cbn [List.filter]. unfold Sql.by_key in Hz.
      destruct (Z.eqb_spec (key z) i); [lia|exact IHl].
    + rewrite IH. destruct (key y =? i); reflexivity.
Qed.

Lemma order_by_acc_stable l i : forall acc,
  StronglySorted by_key acc ->
  List.filter (fun y => key y =? i)
    (fold_left (fun a x => Sql.insert_by key x a) l acc)
  = List.filter (fun y => key y =? i) acc
    ++ List.filter (fun y => key y =? i) l.
Proof.
  induction l as [|x l IH]; intros acc Hacc; cbn [fold_left List.filter].
  - rewrite app_nil_r. reflexivity.
  - rewrite IH by (apply insert_by_sorted; exact Hacc).
    rewrite insert_by_stable by exact Hacc. rewrite <- app_assoc.
    destruct (key x =? i); reflexivity.
Qed.

Lemma order_by_stable l i :
  List.filter (fun y => key y =? i) (Sql.order_by key l)
  = List.filter (fun y => key y =? i) l.
Proof. unfold Sql.order_by. rewrite order_by_acc_stable by constructor. reflexivity. Qed.

(** Rows with distinct keys have one ordering only. *)
Lemma sorted_unique l l' :
  StronglySorted by_key l -> StronglySorted by_key l' ->
  l ≡ₚ l' -> NoDup (map key l) -> l = l'.
Proof.
  intros Hl. revert l'. induction Hl as [|a l Hl IH Ha]; intros l' Hl' Hp Hnd.
  - apply Permutation_nil_l in Hp. congruence.
  - destruct Hl' as [|b l' Hl' Hb].
    { apply Permutation_nil_r in Hp. discriminate. }
    assert (a = b) as <-.
    { assert (Hain : a ∈ b :: l') by (rewrite <- Hp; left).
      assert (Hbin : b ∈ a :: l) by (rewrite Hp; left).
      apply elem_of_cons in Hain as [->|Hain]; [reflexivity|].
      apply elem_of_cons in Hbin as [->|Hbin]; [reflexivity|].
      rewrite Forall_forall in Ha, Hb.
      pose proof (Ha _ Hbin) as H1. pose proof (Hb _ Hain) as H2.
      unfold Sql.by_key in H1, H2.
      cbn [map] in Hnd. apply NoDup_cons in Hnd as [Hnotin _].
      exfalso. apply Hnotin.
      replace (key a) with (key b) by lia.
      apply list_elem_of_In, in_map, list_elem_of_In. exact Hbin. }
    f_equal. apply IH.
    + exact Hl'.
    + eapply Permutation_cons_inv. exact Hp.
    + cbn [map] in Hnd. apply NoDup_cons in Hnd as [_ Hnd]. exact Hnd.
Qed.

Lemma order_by_unique l l' :
  l ≡ₚ l' -> NoDup (map key l) -> Sql.order_by key l = Sql.order_by key l'.
Proof.
  intros Hp Hnd. apply sorted_unique.
  - apply order_by_sorted.
  - apply order_by_sorted.
  - rewrite !order_by_perm. exact Hp.
  - rewrite (Permutation_map key (order_by_perm l)). exact Hnd.
Qed.

End OrderFacts.

Section DownloadFacts.
Context `{Crypto} `{Zlib} `{Telegram}.

(** C4, amended.  The downloaded chunks are put in ascending order of the
    chunk index parsed from their headers, chunks of equal index in the
    order they were fetched in, and their payloads are concatenated in that
    order; when the parsed indexes are distinct, the result, and all that
    follows it, is the same for every order of fetching.  The position that
    the row gives a chunk is not compared with the parsed index: what is
    fetched for a row depends on its blob id alone. *)
Theorem download_order (password : jsstring) (l l' : list Pipeline.downloaded) :
  StronglySorted (Sql.by_key Pipeline.dl_index) (Pipeline.sort_chunks l)
  /\ Pipeline.sort_chunks l ≡ₚ l
  /\ (forall i,
        List.filter (fun c => Pipeline.dl_index c =? i) (Pipeline.sort_chunks l)
        = List.filter (fun c => Pipeline.dl_index c =? i) l)
  /\ Pipeline.reassemble l
     = Buffer.concat (map Pipeline.dl_data (Pipeline.sort_chunks l))
  /\ (l ≡ₚ l' -> NoDup (map Pipeline.dl_index l) ->
      Pipeline.sort_chunks l' = Pipeline.sort_chunks l
      /\ Pipeline.reassemble l' = Pipeline.reassemble l
      /\ Pipeline.decode password l' = Pipeline.decode password l)
  /\ (forall c c' : FileIndex.chunk_row,
        FileIndex.file_telegram_id c = FileIndex.file_telegram_id c' ->
        Pipeline.downloadChunk c = Pipeline.downloadChunk c').
Proof.
  split; [apply order_by_sorted|].
  split; [apply order_by_perm|].
  split; [intros i; apply order_by_stable|].
  split; [reflexivity|].
  split.
  - intros Hp Hnd.
    assert (Hs : Pipeline.sort_chunks l' = Pipeline.sort_chunks l).
    { symmetry. apply order_by_unique; assumption. }
    split; [exact Hs|].
    split; [unfold Pipeline.reassemble; rewrite Hs; reflexivity|].
    unfold Pipeline.decode; rewrite Hs; reflexivity.
  - intros c c' Hc. unfold Pipeline.downloadChunk. rewrite Hc. reflexivity.
Qed.

End DownloadFacts.

(** A second upload of the same bytes under another name, on the sample
    environment. *)
Lemma processFile_duplicate_witness :
  Pipeline.processFile (H := Model.crypto) (H0 := Model.zlib) (H1 := Model.telegram)
    Spec.two_copies (jsstr "/home/u/b.txt")
    (Spec.options_for (Some (jsstr "other-name.txt"))) Spec.after_upload
  = (Throw Pipeline.duplicate, Spec.after_upload).
Proof.
  apply (processFile_duplicate (H := Model.crypto) (H0 := Model.zlib)
           (H1 := Model.telegram) Spec.two_copies (jsstr "/home/u/b.txt")
           (Spec.options_for (Some (jsstr "other-name.txt")))
           Spec.after_upload Spec.hello).
  - reflexivity.
  - vm_compute. reflexivity.
Defined.

(** Two chunks fetched in both orders, and two chunks of one index. *)
Lemma download_order_witness :
  let a := Pipeline.mkDownloaded 0 2 [x01] false in
  let b := Pipeline.mkDownloaded 1 2 [x02] false in
  let b' := Pipeline.mkDownloaded 1 2 [x03] false in
  Pipeline.reassemble [b; a] = Pipeline.reassemble [a; b]
  /\ Pipeline.reassemble [a; b] = [x01; x02]
  /\ Pipeline.reassemble [b'; a; b] = [x01; x03; x02].
Proof.
  intros a b b'.
  destruct (download_order (H := Model.crypto) (H0 := Model.zlib)
              (H1 := Model.telegram) [] [a; b] [b; a])
    as (_ & _ & _ & _ & Hsame & _).
  destruct Hsame as (_ & Hre & _).
  - apply Permutation_swap.
  - repeat constructor; rewrite ?elem_of_cons, ?elem_of_nil; intuition discriminate.
  - split; [exact Hre|]. split; reflexivity.
Defined.

(** C4, as stated, fails: each of the two rows fetches a blob whose header
    index is not the row's position, and [retrieveFile] returns the file
    without any error. *)
Lemma retrieveFile_accepts_swapped :
  map (Spec.observed Spec.swapped)
      (FileIndex.getChunks (World.db Spec.swapped) 1) = [(0, Some 1); (1, Some 0)]
  /\ fst (Pipeline.retrieveFile (H := Model.crypto) (H0 := Model.zlib)
            (H1 := Model.telegram) Spec.a_txt (Spec.options_for None) Spec.swapped)
     = Ok {| Pipeline.written := Spec.hello; Pipeline.size := 11 |}.
Proof. split; vm_compute; reflexivity. Qed.

(** ** The index: rows of files and chunks *)

Section IndexFacts.
Import FileIndex Spec.

Lemma has_file_true d fileId :
  has_file d fileId = true <-> exists f, f ∈ tbl_files d /\ id f = fileId.
Proof.
  unfold has_file. rewrite existsb_exists. split.
  - intros (f & Hin & Heq). exists f. rewrite list_elem_of_In. split; [exact Hin|lia].
  - intros (f & Hin & Heq). exists f. rewrite <- list_elem_of_In. split; [exact Hin|lia].
Qed.

Lemma chunk_count_nonneg d fileId : 0 <= chunk_count d fileId.
Proof. unfold chunk_count. lia. Qed.

(** A file id that no row of [files] has owns no chunk row. *)
Lemma chunk_count_fresh d fileId :
  consistent d -> seq_files d < fileId -> chunk_count d fileId = 0.
Proof.
  intros (_ & Hseq & Hfk) Hfresh. unfold chunk_count.
  replace (List.filter _ _) with (@nil chunk_row); [reflexivity|].
  symmetry. induction (tbl_chunks d) as [|c l IH]; [reflexivity|].
  cbn [List.filter].
  assert (Hc : has_file d (file_id c) = true) by (apply Hfk; left).
  apply has_file_true in Hc as (f & Hf & Hid). apply Hseq in Hf.
  destruct (Z.eqb_spec (file_id c) fileId); [lia|].
  apply IH. intros c' Hc'. apply Hfk. right. exact Hc'.
Qed.

Lemma addFile_sound d fd fileId d' :
  sound d -> 0 <= fd_chunks fd ->
  addFile d fd = (Ok fileId, d') ->
  sound d'
  /\ tbl_chunks d' = tbl_chunks d
  /\ chunk_count d' fileId = 0
  /\ (exists f, f ∈ tbl_files d' /\ id f = fileId /\ hash f = fd_hash fd
                /\ chunks f = fd_chunks fd).
Proof.
  intros [Hc Hb] Hn. unfold addFile.
  destruct (exists_ d (fd_hash fd)); [discriminate|].
  intros [= <- <-].
  pose proof Hc as (Hnd & Hseq & Hfk).
  assert (Hcount : forall i, chunk_count
            {| tbl_files := tbl_files d ++
                 [{| id := seq_files d + 1; filename := fd_filename fd;
                     hash := fd_hash fd; original_size := fd_originalSize fd;
                     stored_size := fd_storedSize fd; chunks := fd_chunks fd;
                     compressed := if fd_compressed fd then 1 else 0 |}];
               tbl_chunks := tbl_chunks d;
               tbl_sync_folders := tbl_sync_folders d;
               tbl_sync_state := tbl_sync_state d;
               seq_files := seq_files d + 1 |} i = chunk_count d i)
    by reflexivity.
  assert (Hfresh : chunk_count d (seq_files d + 1) = 0)
    by (apply chunk_count_fresh; [exact Hc | lia]).
  repeat split; cbn [tbl_files tbl_chunks seq_files].
  - rewrite map_app. cbn [map]. apply NoDup_app. split; [exact Hnd|].
    split; [|repeat constructor; set_solver].
    intros i Hi Hi'. apply list_elem_of_In, in_map_iff in Hi as (f & <- & Hf).
    apply list_elem_of_In, Hseq in Hf.
    apply list_elem_of_singleton in Hi'. cbn [id] in Hi'. lia.
  - intros f [Hf|Hf]%elem_of_app.
    + apply Hseq in Hf. lia.
    + apply list_elem_of_singleton in Hf as ->. cbn. lia.
  - intros c Hcin. apply has_file_true.
    apply Hfk, has_file_true in Hcin as (f & Hf & Hid).
    exists f. split; [|exact Hid]. cbn [tbl_files]. apply elem_of_app. left. exact Hf.
  - intros f [Hf|Hf]%elem_of_app; rewrite Hcount.
    + apply Hb. exact Hf.
    + apply list_elem_of_singleton in Hf as ->. cbn [id chunks]. lia.
  - rewrite Hcount. exact Hfresh.
  - eexists. split; [apply elem_of_app; right; apply list_elem_of_singleton; reflexivity|].
    auto.
Qed.

Lemma same_id d f g :
  consistent d -> f ∈ tbl_files d -> g ∈ tbl_files d -> id f = id g -> f = g.
Proof.
  intros (Hnd & _ & _). induction (tbl_files d) as [|h l IH]; [set_solver|].
  cbn [map] in Hnd. apply NoDup_cons in Hnd as [Hh Hnd].
  intros [->|Hf]%elem_of_cons [->|Hg]%elem_of_cons Heq; auto.
  - exfalso. apply Hh. rewrite Heq. apply list_elem_of_In, in_map, list_elem_of_In, Hg.
  - exfalso. apply Hh. rewrite <- Heq. apply list_elem_of_In, in_map, list_elem_of_In, Hf.
Qed.

Lemma addChunk_sound d f i m s d' :
  sound d -> f ∈ tbl_files d -> chunk_count d (id f) < chunks f ->
  addChunk d (id f) i m s = (Ok (), d') ->
  sound d'
  /\ tbl_files d' = tbl_files d
  /\ chunk_count d' (id f) = chunk_count d (id f) + 1.
Proof.
  intros [Hc Hb] Hf Hlt. unfold addChunk.
  destruct (has_chunk d (id f) i); [discriminate|].
  destruct (has_file d (id f)) eqn:Hhas; [|discriminate]. cbn [negb].
  intros [= <-].
  set (row := {| file_id := id f; chunk_index := i; message_id := m;
                 file_telegram_id := None; size := s |}).
  assert (Hcount : forall j,
    chunk_count {| tbl_files := tbl_files d; tbl_chunks := tbl_chunks d ++ [row];
                   tbl_sync_folders := tbl_sync_folders d;
                   tbl_sync_state := tbl_sync_state d;
                   seq_files := seq_files d |} j
    = chunk_count d j + (if id f =? j then 1 else 0)).
  { intros j. unfold chunk_count. cbn [tbl_chunks].
    rewrite List.filter_app, length_app. cbn [List.filter file_id row].
    destruct (id f =? j); cbn [length]; lia. }
  pose proof Hc as (Hnd & Hseq & Hfk).
  repeat split; cbn [tbl_files tbl_chunks seq_files]; try assumption.
  - intros c [Hcin|Hcin]%elem_of_app.
    + apply Hfk in Hcin. exact Hcin.
    + apply list_elem_of_singleton in Hcin as ->. exact Hhas.
  - intros g Hg. rewrite Hcount.
    destruct (Z.eqb_spec (id f) (id g)) as [Heq|Hne].
    + assert (f = g) as <- by (eapply same_id; eassumption). lia.
    + pose proof (Hb g Hg). lia.
  - rewrite Hcount, Z.eqb_refl. reflexivity.
Qed.

Lemma setChunkTelegramId_sound d tg fileId i :
  sound d ->
  sound (setChunkTelegramId d tg fileId i)
  /\ tbl_files (setChunkTelegramId d tg fileId i) = tbl_files d
  /\ forall j, chunk_count (setChunkTelegramId d tg fileId i) j = chunk_count d j.
Proof.
  intros [Hc Hb].
  assert (Hcount : forall j,
    chunk_count (setChunkTelegramId d tg fileId i) j = chunk_count d j).
  { intros j. unfold chunk_count, setChunkTelegramId. cbn [tbl_chunks].
    f_equal. induction (tbl_chunks d) as [|c l IH]; [reflexivity|].
    cbn [map List.filter].
    destruct ((file_id c =? fileId) && (chunk_index c =? i)); cbn [file_id];
      destruct (file_id c =? j); cbn [length]; rewrite IH; reflexivity. }
  destruct Hc as (Hnd & Hseq & Hfk).
  repeat split; try assumption.
  - cbn [setChunkTelegramId tbl_chunks]. intros c Hcin.
    apply list_elem_of_In, in_map_iff in Hcin as (c0 & <- & Hc0).
    apply list_elem_of_In, Hfk in Hc0.
    destruct ((file_id c0 =? fileId) && (chunk_index c0 =? i)); exact Hc0.
  - intros g Hg. rewrite Hcount. apply Hb. exact Hg.
Qed.

End IndexFacts.

(** ** The pipeline: the rows written by an upload *)

Section UploadFacts.
Context `{Crypto} `{Zlib} `{Telegram}.
Import Monad Spec.

Lemma keeps_db_states {A} (m : M World.t A) w :
  Spec.keeps_db m -> states (snd (m w)) = states w.
Proof. intros Hk. unfold states. destruct (Hk w) as [-> ->]. reflexivity. Qed.

Lemma bot_keeps_db {A} (call : chat -> result A * chat) : Spec.keeps_db (bot call).
Proof. intros w. unfold bot. destruct (call (World.remote w)). auto. Qed.

Lemma sendFile_keeps_db chatId file :
  Spec.keeps_db (TelegramClient.sendFile chatId file).
Proof.
  intros w. unfold TelegramClient.sendFile.
  destruct chatId as [c|]; [|auto].
  destruct (c =? 0); [auto|].
  cbv [mbind M_bind]. pose proof (bot_keeps_db (sendDocument c file) w) as Hb.
  destruct (bot (sendDocument c file) w) as [[[mid fid]|e] w']; exact Hb.
Qed.

Lemma initialize_keeps_db token : Spec.keeps_db (TelegramClient.initialize token).
Proof.
  intros w. unfold TelegramClient.initialize, try_catch.
  pose proof (bot_keeps_db (getMe token) w) as Hb.
  destruct (bot (getMe token) w) as [[[]|e] w']; exact Hb.
Qed.

Lemma encrypt_keeps_db password data : Spec.keeps_db (Pipeline.encrypt password data).
Proof.
  intros w. unfold Pipeline.encrypt.
  destruct (Encryption.encrypt password (World.rng w) data). auto.
Qed.

Lemma frames_length name size flags l fs :
  Pipeline.frames name size flags l = Ok fs -> length fs = length l.
Proof.
  revert fs. induction l as [|c l IH]; intros fs; cbn [Pipeline.frames].
  - intros [= <-]. reflexivity.
  - cbv [mbind result_bind mret result_ret].
    destruct (Pipeline.frame name size flags c); [|discriminate].
    destruct (Pipeline.frames name size flags l) as [fs'|]; [|discriminate].
    intros [= <-]. cbn [length]. f_equal. apply IH. reflexivity.
Qed.

(** One turn of the loop: the chunk is sent, then its row is written. *)
Lemma uploadChunk_sound chatId f c w :
  Forall sound (states w) -> f ∈ FileIndex.tbl_files (World.db w) ->
  chunk_count (World.db w) (FileIndex.id f) < FileIndex.chunks f ->
  let '(r, w') := Pipeline.uploadChunk chatId (FileIndex.id f) c w in
  Forall sound (states w')
  /\ FileIndex.tbl_files (World.db w') = FileIndex.tbl_files (World.db w)
  /\ (r = Ok () ->
      chunk_count (World.db w') (FileIndex.id f)
      = chunk_count (World.db w) (FileIndex.id f) + 1).
Proof.
  intros Hs Hf Hlt. unfold Pipeline.uploadChunk.
  cbv [mbind M_bind].
  pose proof (keeps_db_states (TelegramClient.sendFile chatId (Pipeline.cf_bytes c)) w
                (sendFile_keeps_db _ _)) as Hst.
  pose proof (sendFile_keeps_db chatId (Pipeline.cf_bytes c) w) as [Hdb _].
  destruct (TelegramClient.sendFile chatId (Pipeline.cf_bytes c) w) as [[sent|e] w1];
    cbn [snd] in *.
  2:{ rewrite Hst, Hdb. split; [exact Hs|]. split; [reflexivity|discriminate]. }
  unfold db_try, db_run.
  destruct (FileIndex.addChunk (World.db w1) (FileIndex.id f) (Pipeline.cf_index c)
              (TelegramClient.messageId sent) (Pipeline.cf_size c))
    as [[[]|e] d1] eqn:Hadd.
  2:{ rewrite Hst, Hdb. split; [exact Hs|]. split; [reflexivity|discriminate]. }
  rewrite <- Hst in Hs. rewrite <- Hdb in Hf, Hlt.
  assert (Hw1 : sound (World.db w1)) by (inversion Hs; assumption).
  destruct (addChunk_sound _ _ _ _ _ _ Hw1 Hf Hlt Hadd) as (Hs1 & Hfiles1 & Hc1).
  destruct (setChunkTelegramId_sound d1 (TelegramClient.fileId sent)
              (FileIndex.id f) (Pipeline.cf_index c) Hs1) as (Hs2 & Hfiles2 & Hc2).
  split; [|split].
  - unfold states. cbn [World.set_db World.db World.history].
    apply Forall_cons in Hs as [_ Hs].
    repeat (constructor; [assumption|]). exact Hs.
  - cbn [World.set_db World.db]. rewrite Hfiles2, Hfiles1, Hdb. reflexivity.
  - intros _. cbn [World.set_db World.db]. rewrite Hc2, Hc1, Hdb. reflexivity.
Qed.

(** The loop over the chunk files. *)
Lemma uploadChunks_sound chatId f l : forall w,
  Forall sound (states w) -> f ∈ FileIndex.tbl_files (World.db w) ->
  chunk_count (World.db w) (FileIndex.id f) + Z.of_nat (length l)
    <= FileIndex.chunks f ->
  let '(r, w') := for_each l (Pipeline.uploadChunk chatId (FileIndex.id f)) w in
  Forall sound (states w')
  /\ FileIndex.tbl_files (World.db w') = FileIndex.tbl_files (World.db w)
  /\ (r = Ok () ->
      chunk_count (World.db w') (FileIndex.id f)
      = chunk_count (World.db w) (FileIndex.id f) + Z.of_nat (length l)).
Proof.
  induction l as [|c l IH]; intros w Hs Hf Hle.
  - cbn. split; [exact Hs|]. split; [reflexivity|]. intros _. lia.
  - cbn [for_each length] in *. cbv [mbind M_bind].
    pose proof (uploadChunk_sound chatId f c w Hs Hf ltac:(lia)) as Hstep.
    destruct (Pipeline.uploadChunk chatId (FileIndex.id f) c w) as [[[]|e] w1].
    2:{ destruct Hstep as (Hs1 & Hf1 & _). split; [exact Hs1|].
        split; [exact Hf1|discriminate]. }
    destruct Hstep as (Hs1 & Hf1 & Hc1). specialize (Hc1 eq_refl).
    specialize (IH w1 Hs1). rewrite Hf1, Hc1 in IH.
    specialize (IH Hf ltac:(lia)).
    destruct (for_each l (Pipeline.uploadChunk chatId (FileIndex.id f)) w1)
      as [r w2].
    destruct IH as (Hs2 & Hf2 & Hc2). split; [exact Hs2|].
    split; [exact Hf2|].
    intros Hr. rewrite (Hc2 Hr). lia.
Qed.

(** X28.  The index during [processFile].  From a database whose states
    so far are all sound (consistent ids and references, and no file with
    more chunk rows than it declares), every state the database goes through
    during [processFile], up to the last one, a failed upload included, is
    sound: no row of a file ever has more chunk rows than it declares.  When
    [processFile] returns, the row of the file has exactly as many chunk
    rows as it declares. *)
Theorem processFile_rows (fs : localfs) (filePath : jsstring)
    (opts : Pipeline.options) (w : World.t) :
  Forall sound (states w) ->
  let '(r, w') := Pipeline.processFile fs filePath opts w in
  Forall sound (states w')
  /\ (forall u, r = Ok u ->
        exists f, f ∈ FileIndex.tbl_files (World.db w')
                  /\ FileIndex.hash f = Pipeline.hash u
                  /\ FileIndex.chunks f = Pipeline.chunks u
                  /\ chunk_count (World.db w') (FileIndex.id f)
                     = FileIndex.chunks f).
Proof.
  intros Hs. unfold Pipeline.processFile.
  set (name := match Pipeline.customName opts with
               | Some (c :: n) => c :: n
               | _ => Path.basename filePath
               end).
  cbv [mbind M_bind lift db_get gets throw].
  destruct (readFileSync fs filePath) as [fileData|e]; [|split; [exact Hs|discriminate]].
  destruct (Pipeline.hashFile fs filePath) as [hash|e]; [|split; [exact Hs|discriminate]].
  destruct (FileIndex.exists_ (World.db w) hash); [split; [exact Hs|discriminate]|].
  destruct (Compressor.compress fileData name) as [compressedData compressed].
  pose proof (keeps_db_states _ w (encrypt_keeps_db (Pipeline.password opts) compressedData)) as Hst1.
  destruct (Pipeline.encrypt (Pipeline.password opts) compressedData w)
    as [[encryptedData|e] w1] eqn:Henc; cbn [snd] in Hst1;
    [|rewrite Hst1; split; [exact Hs|discriminate]].
  destruct (Pipeline.frames name (Buffer.len fileData)
              (if compressed then 1 else 0) (Pipeline.split encryptedData))
    as [chunkFiles|e] eqn:Hframes;
    [|rewrite Hst1; split; [exact Hs|discriminate]].
  apply frames_length in Hframes.
  pose proof (keeps_db_states _ w1 (initialize_keeps_db (botToken (Pipeline.cfg opts)))) as Hst2.
  destruct (TelegramClient.initialize (botToken (Pipeline.cfg opts)) w1)
    as [[[]|e] w2]; cbn [snd] in Hst2;
    [|rewrite Hst2, Hst1; split; [exact Hs|discriminate]].
  rewrite <- Hst1, <- Hst2 in Hs.
  unfold db_try.
  destruct (FileIndex.addFile (World.db w2) _) as [[fileId|e] d3] eqn:Hadd;
    [|split; [exact Hs|discriminate]].
  assert (Hw2 : sound (World.db w2)) by (apply Forall_cons in Hs as [Hw2 _]; exact Hw2).
  apply addFile_sound in Hadd as (Hs3 & _ & Hc3 & f & Hf & <- & Hh & Hn);
    [|exact Hw2|cbn [FileIndex.fd_chunks]; lia].
  cbn [FileIndex.fd_hash FileIndex.fd_chunks] in Hh, Hn.
  pose proof (uploadChunks_sound (chatId (Pipeline.cfg opts)) f chunkFiles
                (World.set_db d3 w2)) as Hloop.
  cbn [World.set_db World.db] in Hloop.
  destruct (for_each chunkFiles
              (Pipeline.uploadChunk (chatId (Pipeline.cfg opts)) (FileIndex.id f))
              (World.set_db d3 w2)) as [[[]|e] w4].
  - destruct Hloop as (Hs4 & Hf4 & Hc4).
    + unfold states. cbn [World.set_db World.db World.history].
      apply Forall_cons in Hs as [_ Hs]. repeat (constructor; [assumption|]). exact Hs.
    + exact Hf.
    + rewrite Hc3, Hn, Hframes. lia.
    + split; [exact Hs4|]. intros u [= <-]. exists f.
      cbn [Pipeline.hash Pipeline.chunks].
      split; [rewrite Hf4; exact Hf|]. split; [exact Hh|]. split; [exact Hn|].
      rewrite (Hc4 eq_refl), Hc3, Hn, Hframes. lia.
  - destruct Hloop as (Hs4 & _).
    + unfold states. cbn [World.set_db World.db World.history].
      apply Forall_cons in Hs as [_ Hs]. repeat (constructor; [assumption|]). exact Hs.
    + exact Hf.
    + rewrite Hc3, Hn, Hframes. lia.
    + split; [exact Hs4|discriminate].
Qed.

End UploadFacts.

Lemma sound_empty : Spec.sound FileIndex.empty.
Proof.
  split; [split; [constructor|split]|]; intros x Hx; inversion Hx.
Qed.

(** The upload of [a.txt] to an empty index. *)
Lemma processFile_rows_witness :
  let '(r, w') :=
    Pipeline.processFile (H := Model.crypto) (H0 := Model.zlib)
      (H1 := Model.telegram) Spec.two_copies (jsstr "/home/u/a.txt")
      (Spec.options_for None) (Model.start FileIndex.empty Model.online) in
  Forall Spec.sound (Spec.states w')
  /\ (forall u, r = Ok u ->
        exists f, f ∈ FileIndex.tbl_files (World.db w')
                  /\ FileIndex.hash f = Pipeline.hash u
                  /\ FileIndex.chunks f = Pipeline.chunks u
                  /\ Spec.chunk_count (World.db w') (FileIndex.id f)
                     = FileIndex.chunks f).
Proof.
  apply (processFile_rows (H := Model.crypto) (H0 := Model.zlib)
           (H1 := Model.telegram) Spec.two_copies (jsstr "/home/u/a.txt")
           (Spec.options_for None) (Model.start FileIndex.empty Model.online)).
  repeat constructor; apply sound_empty.
Defined.

(** C1, on the code: [processFile] writes the row of the file before it
    sends a chunk.  The upload of [a.txt] succeeds and goes through a state
    where the row of the file declares one chunk and has no chunk row; when
    the transmission fails instead, that state is the last, and the upload
    tried again is refused as a duplicate. *)
Lemma upload_passes_incomplete_state :
  is_ok (fst (Pipeline.processFile (H := Model.crypto) (H0 := Model.zlib)
                (H1 := Model.telegram) Spec.two_copies (jsstr "/home/u/a.txt")
                (Spec.options_for None)
                (Model.start FileIndex.empty Model.online))) = true
  /\ Spec.declared_only ∈ World.history Spec.after_upload
  /\ World.db Spec.interrupted_upload = Spec.declared_only
  /\ fst (Pipeline.processFile (H := Model.crypto) (H0 := Model.zlib)
            (H1 := Model.telegram) Spec.two_copies (jsstr "/home/u/a.txt")
            (Spec.options_for None) Spec.interrupted_upload)
     = Throw Pipeline.duplicate
  /\ ~ Spec.complete Spec.declared_only.
Proof.
  split; [vm_compute; reflexivity|].
  split; [apply list_elem_of_In; vm_compute; tauto|].
  split; [vm_compute; reflexivity|].
  split; [vm_compute; reflexivity|].
  intros Hc.
  assert (Hin : FileIndex.mkFile 1 (jsstr "a.txt") (Encryption.hashData
                  (H := Model.crypto) Spec.hello) 11 104 1 0
                ∈ FileIndex.tbl_files Spec.declared_only) by (left; reflexivity).
  specialize (Hc _ Hin). vm_compute in Hc. apply Hc. reflexivity.
Qed.

(** ** The mounted filesystem: the read cache *)

Section CacheFacts.
Context `{Crypto} `{Zlib} `{Telegram}.
Import Monad.

(** [deleteMessage] returns, and changes the remote side only. *)
Lemma deleteMessage_run messageId w :
  exists b c,
    TelegramClient.deleteMessage messageId w = (Ok b, World.set_remote c w).
Proof.
  unfold TelegramClient.deleteMessage, try_catch, bot.
  cbv [mbind M_bind mret M_ret].
  destruct (bot_deleteMessage messageId (World.remote w)) as [[[]|e] c];
    eexists _, _; reflexivity.
Qed.

(** The loop of [unlink] over the chunks does the same. *)
Lemma unlink_loop_run (chunks : list FileIndex.chunk_row) : forall w,
  exists c,
    for_each chunks (fun chunk =>
      TelegramClient.deleteMessage (FileIndex.message_id chunk) ;; mret ()) w
    = (Ok (), World.set_remote c w).
Proof.
  induction chunks as [|ch l IH]; intros w; cbn [for_each].
  - exists (World.remote w). destruct w; reflexivity.
  - cbv [mbind M_bind mret M_ret].
    destruct (deleteMessage_run (FileIndex.message_id ch) w) as (b & c1 & ->).
    destruct (IH (World.set_remote c1 w)) as (c2 & Hrun).
    cbv [mbind M_bind mret M_ret] in Hrun. rewrite Hrun.
    exists c2. reflexivity.
Qed.

(** And so does the loop of [uploadFile] over the chunks of the old
    version. *)
Lemma deleteOld_run (chunks : list FileIndex.chunk_row) : forall w,
  exists c, TelegramFS.deleteOld chunks w = (Ok (), World.set_remote c w).
Proof.
  unfold TelegramFS.deleteOld.
  induction chunks as [|ch l IH]; intros w; cbn [for_each].
  - exists (World.remote w). destruct w; reflexivity.
  - cbv [mbind M_bind mret M_ret try_catch].
    destruct (deleteMessage_run (FileIndex.message_id ch) w) as (b & c1 & ->).
    destruct (IH (World.set_remote c1 w)) as (c2 & Hrun).
    cbv [mbind M_bind mret M_ret try_catch] in Hrun. rewrite Hrun.
    exists c2. reflexivity.
Qed.

(** What the loop of [uploadFile] leaves of the chat. *)
Lemma deleteOld_remote (chunks : list FileIndex.chunk_row) : forall w,
  TelegramFS.deleteOld chunks w
  = (Ok (), World.set_remote (Spec.asked_to_delete chunks (World.remote w)) w).
Proof.
  unfold TelegramFS.deleteOld, Spec.asked_to_delete.
  induction chunks as [|ch l IH]; intros w; cbn [for_each fold_left].
  - destruct w; reflexivity.
  - cbv [mbind M_bind mret M_ret try_catch TelegramClient.deleteMessage bot].
    destruct (bot_deleteMessage (FileIndex.message_id ch) (World.remote w))
      as [[[]|e] c1]; cbn [snd];
      cbv [mbind M_bind mret M_ret try_catch] in IH; rewrite IH; reflexivity.
Qed.

(** C7, amended.  [write] leaves the read cache as it is.  A successful
    [unlink] of a name removes the cache entry of that name; so does a
    successful [release] of a modified write buffer of that name, which is
    where a written name is invalidated.  A successful [rename] to another
    name removes the entry of the old name and, if there was one, files it
    under the new name. *)
Theorem cache_invalidation (password : jsstring) (cfg : config) (w : World.t) :
  (forall filepath buffer length position,
     World.fileCache (snd (TelegramFS.write filepath buffer length position w))
     = World.fileCache w)
  /\ (forall filepath,
        fst (TelegramFS.unlink filepath w) = Ok 0 ->
        World.fileCache (snd (TelegramFS.unlink filepath w))
          !! Path.basename filepath = None)
  /\ (forall src dest,
        fst (TelegramFS.rename src dest w) = Ok 0 ->
        Path.basename src <> Path.basename dest ->
        World.fileCache (snd (TelegramFS.rename src dest w))
          !! Path.basename src = None
        /\ (forall entry,
              World.fileCache w !! Path.basename src = Some entry ->
              World.fileCache (snd (TelegramFS.rename src dest w))
                !! Path.basename dest = Some entry))
  /\ (forall filepath,
        fst (TelegramFS.release password cfg filepath w) = Ok 0 ->
        (exists wb, World.writeBuffers w !! Path.basename filepath = Some wb
                    /\ World.wb_modified wb = true) ->
        World.fileCache (snd (TelegramFS.release password cfg filepath w))
          !! Path.basename filepath = None).
Proof.
  split; [|split; [|split]].
  - intros filepath buffer length position. unfold TelegramFS.write.
    cbv [mbind M_bind mret M_ret TelegramFS.get_buffer TelegramFS.set_buffer
         gets modify]. reflexivity.
  - intros filepath. unfold TelegramFS.unlink.
    cbv [mbind M_bind mret M_ret db_get gets].
    destruct (FileIndex.findByName (World.db w) (Path.basename filepath))
      as [file|]; [|discriminate].
    unfold try_catch. cbv [mbind M_bind mret M_ret db_get gets].
    destruct (unlink_loop_run
                (FileIndex.getChunks (World.db w) (FileIndex.id file)) w)
      as (c & Hrun).
    cbv [mbind M_bind mret M_ret] in Hrun. rewrite Hrun.
    intros _. cbn. apply lookup_delete_eq.
  - intros src dest. unfold TelegramFS.rename.
    cbv [mbind M_bind mret M_ret db_get gets db_run modify].
    destruct (FileIndex.findByName (World.db w) (Path.basename src))
      as [file|]; [|discriminate].
    intros _ Hne. cbn [snd World.set_db World.fileCache].
    destruct (World.fileCache w !! Path.basename src) as [cached|] eqn:Hc.
    + cbn [World.set_fileCache World.fileCache]. split.
      * rewrite lookup_insert_ne by congruence. apply lookup_delete_eq.
      * intros entry [= <-]. apply lookup_insert_eq.
    + cbn [World.fileCache]. split; [exact Hc|discriminate].
  - intros filepath Hok (wb & Hwb & Hmod). revert Hok.
    unfold TelegramFS.release.
    cbv [mbind M_bind mret M_ret TelegramFS.get_buffer gets].
    rewrite Hwb, Hmod. cbn [negb]. unfold try_catch.
    cbv [mbind M_bind mret M_ret].
    destruct (TelegramFS.uploadFile password cfg (Path.basename filepath)
                (World.wb_data wb) w) as [[[]|e] w1].
    + intros _. cbn. apply lookup_delete_eq.
    + cbn. discriminate.
Qed.

End CacheFacts.

(** ** The mounted filesystem: reads and the write buffers *)

Section ReadFacts.
Context `{Crypto} `{Zlib} `{Telegram}.
Import Monad.

Lemma blind_ret {A} (a : A) : Spec.blind (mret a).
Proof. intros b w. reflexivity. Qed.

Lemma blind_throw {A} (e : exn) : Spec.blind (throw (A := A) e).
Proof. intros b w. reflexivity. Qed.

Lemma blind_lift {A} (r : result A) : Spec.blind (lift r).
Proof. intros b w. reflexivity. Qed.

Lemma blind_bind {A B} (m : M World.t A) (k : A -> M World.t B) :
  Spec.blind m -> (forall a, Spec.blind (k a)) -> Spec.blind (m ≫= k).
Proof.
  intros Hm Hk b w. cbv [mbind M_bind]. rewrite Hm.
  destruct (m w) as [[a|e] w1]; cbn [fst snd]; [apply Hk|reflexivity].
Qed.

Lemma blind_try_catch {A} (m : M World.t A) (h : exn -> M World.t A) :
  Spec.blind m -> (forall e, Spec.blind (h e)) -> Spec.blind (try_catch m h).
Proof.
  intros Hm Hh b w. unfold try_catch. rewrite Hm.
  destruct (m w) as [[a|e] w1]; cbn [fst snd]; [reflexivity|apply Hh].
Qed.

Lemma blind_db_get {A} (q : FileIndex.t -> A) : Spec.blind (db_get q).
Proof. intros b w. reflexivity. Qed.

Lemma blind_bot {A} (call : chat -> result A * chat) : Spec.blind (bot call).
Proof.
  intros b w. unfold bot. cbn [World.set_writeBuffers World.remote].
  destruct (call (World.remote w)) as [r c]. reflexivity.
Qed.

Lemma blind_map_each {A B} (l : list A) (body : A -> M World.t B) :
  (forall a, Spec.blind (body a)) -> Spec.blind (map_each l body).
Proof.
  intros Hb. induction l as [|a l IH]; cbn [map_each].
  - apply blind_ret.
  - apply blind_bind; [apply Hb|]. intros y.
    apply blind_bind; [exact IH|]. intros ys. apply blind_ret.
Qed.

Lemma blind_downloadChunk c : Spec.blind (Pipeline.downloadChunk c).
Proof.
  unfold Pipeline.downloadChunk, TelegramClient.downloadFile.
  apply blind_bind; [apply blind_bot|]. intros data.
  apply blind_bind; [apply blind_lift|]. intros header. apply blind_ret.
Qed.

Lemma blind_downloadFile password filename :
  Spec.blind (TelegramFS.downloadFile password filename).
Proof.
  unfold TelegramFS.downloadFile.
  apply blind_bind; [apply blind_db_get|]. intros [file|]; [|apply blind_throw].
  apply blind_bind; [apply blind_db_get|]. intros [|c chunks]; [apply blind_throw|].
  apply blind_bind; [apply blind_map_each, blind_downloadChunk|].
  intros downloaded. apply blind_lift.
Qed.

Lemma blind_getCached filename : Spec.blind (TelegramFS.getCached filename).
Proof.
  intros b w. unfold TelegramFS.getCached.
  cbn [World.set_writeBuffers World.fileCache World.clock].
  destruct (World.fileCache w !! filename) as [entry|]; [|reflexivity].
  destruct (TelegramFS.CACHE_TTL <? World.clock w - World.timestamp entry);
    reflexivity.
Qed.

Lemma blind_setCache filename data : Spec.blind (TelegramFS.setCache filename data).
Proof. intros b w. reflexivity. Qed.

(** [read] neither reads nor changes the write buffers. *)
Lemma blind_read (password filepath : jsstring) (length position : Z) :
  Spec.blind (TelegramFS.read password filepath length position).
Proof.
  unfold TelegramFS.read.
  apply blind_try_catch; [|intros e; apply blind_ret].
  apply blind_bind; [apply blind_getCached|]. intros cached.
  apply blind_bind; [|intros data; apply blind_ret].
  destruct cached as [data|]; [apply blind_ret|].
  apply blind_bind; [apply blind_downloadFile|]. intros data.
  apply blind_bind; [apply blind_setCache|]. intros _. apply blind_ret.
Qed.

(** A [read] of a name whose cache entry has not expired. *)
Lemma read_hit (password filepath : jsstring) (w : World.t) entry
    (length position : Z) :
  World.fileCache w !! Path.basename filepath = Some entry ->
  World.clock w - World.timestamp entry <= TelegramFS.CACHE_TTL ->
  TelegramFS.read password filepath length position w
  = (Ok (Buffer.len (Buffer.subarray (World.data entry) position
                       (position + length)),
         Buffer.subarray (World.data entry) position (position + length)),
     w).
Proof.
  intros Hentry Hlive. unfold TelegramFS.read, try_catch, TelegramFS.getCached.
  cbv [mbind M_bind mret M_ret]. rewrite Hentry.
  destruct (Z.ltb_spec TelegramFS.CACHE_TTL
              (World.clock w - World.timestamp entry)); [lia|].
  reflexivity.
Qed.

End ReadFacts.

(** C7, as stated, fails for [write]: after a write to [a] the cache entry
    of [a] is still there, and a read is served the old bytes from it. *)
Lemma write_leaves_cache_entry :
  let w := snd (TelegramFS.write (H1 := Model.telegram) (jsstr "/a")
                  Spec.new_bytes 3 0 Spec.cached) in
  World.writeBuffers w !! jsstr "a"
  = Some {| World.wb_data := Spec.new_bytes;
            World.wb_modified := true;
            World.isNew := false |}
  /\ World.fileCache w !! jsstr "a" = Some (World.mkEntry Spec.old_bytes 0)
  /\ fst (TelegramFS.read (H := Model.crypto) (H0 := Model.zlib)
            (H1 := Model.telegram) (jsstr "pw") (jsstr "/a") 3 0 w)
     = Ok (3, Spec.old_bytes).
Proof. repeat split; vm_compute; reflexivity. Qed.

Section FlushFacts.
Context `{Crypto} `{Zlib} `{Telegram}.
Import Monad.


End FlushFacts.



(** ** Folder synchronisation *)

Section SyncStateFacts.
Import FileIndex Spec.

Lemma stateMap_acc l : forall (acc : gmap jsstring sync_state_row) path,
  foldl (fun m s => <[relative_path s := s]> m) acc l !! path
  = match last_row l path with
    | Some x => Some x
    | None => acc !! path
    end.
Proof.
  induction l as [|r l IH]; intros acc path; cbn [foldl last_row]; [reflexivity|].
  rewrite IH. destruct (last_row l path); [reflexivity|].
  rewrite lookup_insert. 
  destruct (decide (relative_path r = path)) as [Heq|Hne].
  - rewrite bool_decide_eq_true_2 by exact Heq. reflexivity.
  - rewrite bool_decide_eq_false_2 by exact Hne. reflexivity.
Qed.

Lemma persisted_last_row d folderId path :
  persisted d folderId path
  = last_row (getFolderSyncStates d folderId) path.
Proof.
  unfold persisted, SyncEngine.stateMap_of. rewrite stateMap_acc.
  destruct (last_row _ _); [reflexivity|]. apply lookup_empty.
Qed.

Lemma last_row_app l r path :
  last_row (l ++ [r]) path
  = if bool_decide (relative_path r = path) then Some r else last_row l path.
Proof.
  induction l as [|x l IH]; cbn [app last_row].
  - destruct (bool_decide _); reflexivity.
  - rewrite IH. destruct (bool_decide (relative_path r = path)); reflexivity.
Qed.

(** Replacing the rows of a path by one row for that path. *)
Lemma last_row_replace l row p path :
  relative_path row = p ->
  last_row (map (fun r => if bool_decide (relative_path r = p)
                          then row else r) l) path
  = if bool_decide (p = path)
    then match last_row l p with Some _ => Some row | None => None end
    else last_row l path.
Proof.
  intros Hrow. induction l as [|x l IH]; cbn [map last_row].
  - destruct (bool_decide _); reflexivity.
  - rewrite IH. clear IH.
    destruct (decide (p = path)) as [<-|Hne].
    + rewrite (bool_decide_eq_true_2 (p = p)) by reflexivity.
      destruct (last_row l p); [reflexivity|].
      destruct (decide (relative_path x = p)) as [Hx|Hx].
      * rewrite (bool_decide_eq_true_2 _ Hx).
        rewrite (bool_decide_eq_true_2 _ Hrow). reflexivity.
      * rewrite (bool_decide_eq_false_2 _ Hx).
        rewrite (bool_decide_eq_false_2 _ Hx). reflexivity.
    + rewrite (bool_decide_eq_false_2 (p = path)) by exact Hne.
      destruct (last_row l path); [reflexivity|].
      destruct (decide (relative_path x = p)) as [Hx|Hx].
      * rewrite (bool_decide_eq_true_2 _ Hx).
        rewrite (bool_decide_eq_false_2 (relative_path row = path)) by congruence.
        rewrite (bool_decide_eq_false_2 (relative_path x = path)) by congruence.
        reflexivity.
      * rewrite (bool_decide_eq_false_2 _ Hx). reflexivity.
Qed.

Lemma last_row_Some l p :
  existsb (fun r => bool_decide (relative_path r = p)) l = true ->
  exists x, last_row l p = Some x.
Proof.
  induction l as [|r l IH]; cbn [existsb last_row]; [discriminate|].
  intros [Hr|Hl]%orb_prop.
  - rewrite Hr. destruct (last_row l p); eauto.
  - destruct (IH Hl) as [x ->]. eauto.
Qed.

(** The rows of a folder after [updateSyncState]. *)
Lemma getFolderSyncStates_update d folderId p h m :
  let row := mkSyncState folderId p h m in
  let l := getFolderSyncStates d folderId in
  getFolderSyncStates (updateSyncState d folderId p h m) folderId
  = if existsb (fun r => bool_decide (relative_path r = p)) l
    then map (fun r => if bool_decide (relative_path r = p) then row else r) l
    else l ++ [row].
Proof.
  intros row l. subst l. unfold getFolderSyncStates, updateSyncState.
  cbn [tbl_sync_state].
  assert (Hex : existsb (same_state folderId p) (tbl_sync_state d)
    = existsb (fun r => bool_decide (relative_path r = p))
        (List.filter (fun r => folder_id r =? folderId) (tbl_sync_state d))).
  { induction (tbl_sync_state d) as [|r l IH]; [reflexivity|].
    cbn [existsb List.filter]. unfold same_state at 1.
    destruct (folder_id r =? folderId); cbn [existsb andb]; rewrite IH; reflexivity. }
  rewrite Hex. fold row.
  destruct (existsb _ (List.filter _ _)).
  - clear Hex. unfold same_state.
    induction (tbl_sync_state d) as [|r l IH]; [reflexivity|].
    cbn [map List.filter].
    destruct (Z.eqb_spec (folder_id r) folderId) as [Hf|Hf]; cbn [andb map].
    + destruct (bool_decide (relative_path r = p)); cbn [List.filter folder_id row];
        [rewrite Z.eqb_refl|rewrite (proj2 (Z.eqb_eq _ _) Hf)];
        rewrite IH; reflexivity.
    + cbn [List.filter]. rewrite (proj2 (Z.eqb_neq _ _) Hf). exact IH.
  - rewrite List.filter_app. cbn [List.filter folder_id row].
    rewrite Z.eqb_refl. reflexivity.
Qed.

(** What a scan finds persisted after [updateSyncState]. *)
Lemma persisted_update d folderId p h m path :
  persisted (updateSyncState d folderId p h m) folderId path
  = if bool_decide (p = path) then Some (mkSyncState folderId p h m)
    else persisted d folderId path.
Proof.
  rewrite !persisted_last_row, getFolderSyncStates_update. cbn zeta.
  destruct (existsb _ _) eqn:Hex.
  - rewrite last_row_replace by reflexivity.
    destruct (bool_decide (p = path)); [|reflexivity].
    destruct (last_row_Some _ _ Hex) as [x ->]. reflexivity.
  - rewrite last_row_app. cbn [relative_path]. reflexivity.
Qed.

End SyncStateFacts.

(** ** Folder sync: what an upload leaves alone *)

Section KeepsSyncFacts.
Context `{Crypto} `{Zlib} `{Telegram}.
Import Monad Spec.

Lemma keeps_sync_ret {A} (a : A) : keeps_sync (mret a).
Proof. intros w. auto. Qed.

Lemma keeps_sync_throw {A} (e : exn) : keeps_sync (throw (A := A) e).
Proof. intros w. auto. Qed.

Lemma keeps_sync_lift {A} (r : result A) : keeps_sync (lift r).
Proof. intros w. auto. Qed.

Lemma keeps_sync_db_get {A} (q : FileIndex.t -> A) : keeps_sync (db_get q).
Proof. intros w. auto. Qed.

Lemma keeps_sync_bind {A B} (m : M World.t A) (k : A -> M World.t B) :
  keeps_sync m -> (forall a, keeps_sync (k a)) -> keeps_sync (m ≫= k).
Proof.
  intros Hm Hk w. cbv [mbind M_bind]. specialize (Hm w).
  destruct (m w) as [[a|e] w1]; cbn [snd] in *; [|exact Hm].
  destruct (Hk a w1) as (-> & -> & ->). exact Hm.
Qed.

Lemma keeps_sync_try_catch {A} (m : M World.t A) (h : exn -> M World.t A) :
  keeps_sync m -> (forall e, keeps_sync (h e)) -> keeps_sync (try_catch m h).
Proof.
  intros Hm Hh w. unfold try_catch. specialize (Hm w).
  destruct (m w) as [[a|e] w1]; cbn [snd] in *; [exact Hm|].
  destruct (Hh e w1) as (-> & -> & ->). exact Hm.
Qed.

Lemma keeps_sync_bot {A} (call : chat -> result A * chat) : keeps_sync (bot call).
Proof. intros w. unfold bot. destruct (call (World.remote w)). auto. Qed.

Lemma keeps_sync_for_each {A} (l : list A) (body : A -> M World.t ()) :
  (forall a, keeps_sync (body a)) -> keeps_sync (for_each l body).
Proof.
  intros Hb. induction l as [|a l IH]; cbn [for_each].
  - apply keeps_sync_ret.
  - apply keeps_sync_bind; [apply Hb|]. intros _. exact IH.
Qed.

Lemma keeps_sync_db_try {A} (stmt : FileIndex.t -> result A * FileIndex.t) :
  (forall d, FileIndex.tbl_sync_state (snd (stmt d)) = FileIndex.tbl_sync_state d
             /\ FileIndex.tbl_sync_folders (snd (stmt d))
                = FileIndex.tbl_sync_folders d) ->
  keeps_sync (db_try stmt).
Proof.
  intros Hs w. unfold db_try. specialize (Hs (World.db w)).
  destruct (stmt (World.db w)) as [[a|e] d]; cbn [snd] in *; [|auto].
  destruct Hs as [Hs1 Hs2]. cbn [World.set_db World.db World.events]. auto.
Qed.

Lemma keeps_sync_sendFile chatId file :
  keeps_sync (TelegramClient.sendFile chatId file).
Proof.
  unfold TelegramClient.sendFile. destruct chatId as [c|]; [|apply keeps_sync_throw].
  destruct (c =? 0); [apply keeps_sync_throw|].
  apply keeps_sync_bind; [apply keeps_sync_bot|].
  intros [mid fid]. apply keeps_sync_ret.
Qed.

Lemma keeps_sync_initialize token : keeps_sync (TelegramClient.initialize token).
Proof.
  unfold TelegramClient.initialize.
  apply keeps_sync_try_catch; [apply keeps_sync_bot|].
  intros e. apply keeps_sync_throw.
Qed.

Lemma keeps_sync_uploadChunk chatId fileId c :
  keeps_sync (Pipeline.uploadChunk chatId fileId c).
Proof.
  unfold Pipeline.uploadChunk.
  apply keeps_sync_bind; [apply keeps_sync_sendFile|]. intros sent.
  apply keeps_sync_bind.
  - apply keeps_sync_db_try. intros d. unfold FileIndex.addChunk.
    destruct (FileIndex.has_chunk _ _ _); [auto|].
    destruct (negb _); auto.
  - intros _ w. auto.
Qed.

Lemma keeps_sync_processFile fs filePath opts :
  keeps_sync (Pipeline.processFile fs filePath opts).
Proof.
  unfold Pipeline.processFile.
  apply keeps_sync_bind; [apply keeps_sync_lift|]. intros fileData.
  apply keeps_sync_bind; [apply keeps_sync_lift|]. intros hash.
  apply keeps_sync_bind; [apply keeps_sync_db_get|].
  intros [|]; [apply keeps_sync_throw|].
  destruct (Compressor.compress _ _) as [compressedData compressed].
  apply keeps_sync_bind.
  { intros w. unfold Pipeline.encrypt.
    destruct (Encryption.encrypt _ _ _). auto. }
  intros encryptedData.
  apply keeps_sync_bind; [apply keeps_sync_lift|]. intros chunkFiles.
  apply keeps_sync_bind; [apply keeps_sync_initialize|]. intros _.
  apply keeps_sync_bind.
  { apply keeps_sync_db_try. intros d. unfold FileIndex.addFile.
    destruct (FileIndex.exists_ _ _); auto. }
  intros fileId.
  apply keeps_sync_bind; [|intros _; apply keeps_sync_ret].
  apply keeps_sync_for_each. intros c. apply keeps_sync_uploadChunk.
Qed.

End KeepsSyncFacts.

(** ** Folder sync: the decision for one file *)

Section SyncFacts.
Context `{Crypto} `{Zlib} `{Telegram}.
Variables (password : jsstring) (cfg : config) (fs : localfs).
Import Monad Spec.

#[local] Abbreviation syncFile := (SyncEngine.syncFile password cfg fs).
#[local] Abbreviation syncFiles := (SyncEngine.syncFiles password cfg fs).
#[local] Abbreviation syncFolder := (SyncEngine.syncFolder password cfg fs).

#[local] Abbreviation upload_opts := (Spec.upload_opts password cfg).

Lemma persisted_ext d d' folderId path :
  FileIndex.tbl_sync_state d = FileIndex.tbl_sync_state d' ->
  persisted d folderId path = persisted d' folderId path.
Proof.
  intros Heq. unfold persisted, FileIndex.getFolderSyncStates. rewrite Heq.
  reflexivity.
Qed.

Lemma includes_duplicate :
  includes (message Pipeline.duplicate) (jsstr "duplicate") = true.
Proof. vm_compute. reflexivity. Qed.

(** Skipped on the modification time: nothing is read or changed. *)
Lemma syncFile_skip folderId stateMap u s file w ex :
  stateMap !! sc_relativePath file = Some ex ->
  sc_mtime file <= FileIndex.mtime ex ->
  syncFile folderId stateMap (u, s) file w = (Ok (u, s + 1), w).
Proof.
  intros Hex Hm. unfold SyncEngine.syncFile. rewrite Hex.
  destruct (Z.leb_spec (sc_mtime file) (FileIndex.mtime ex)); [reflexivity|lia].
Qed.

Lemma stale_test stateMap file :
  stale stateMap file ->
  match stateMap !! sc_relativePath file with
  | Some existing => sc_mtime file <=? FileIndex.mtime existing
  | None => false
  end = false.
Proof.
  intros Hst. destruct (stateMap !! sc_relativePath file) as [ex|] eqn:E;
    [|reflexivity].
  specialize (Hst ex E). apply Z.leb_gt. exact Hst.
Qed.

(** Same digest as persisted: only the state row is written. *)
Lemma syncFile_touch folderId stateMap u s file w content ex :
  stale stateMap file ->
  readFileSync fs (sc_path file) = Ok content ->
  stateMap !! sc_relativePath file = Some ex ->
  FileIndex.file_hash ex = Encryption.hashData content ->
  syncFile folderId stateMap (u, s) file w
  = (Ok (u, s + 1),
     World.set_db
       (FileIndex.updateSyncState (World.db w) folderId (sc_relativePath file)
          (Encryption.hashData content) (sc_mtime file)) w).
Proof.
  intros Hst Hread Hex Hh. unfold SyncEngine.syncFile.
  rewrite (stale_test _ _ Hst). unfold Pipeline.hashFile. rewrite Hread.
  cbv [mbind M_bind result_bind mret result_ret lift].
  rewrite Hex, (bool_decide_eq_true_2 _ Hh). reflexivity.
Qed.

(** Another digest, or none persisted: the file is uploaded. *)
Lemma syncFile_upload folderId stateMap u s file w content :
  stale stateMap file ->
  readFileSync fs (sc_path file) = Ok content ->
  (forall ex, stateMap !! sc_relativePath file = Some ex ->
              FileIndex.file_hash ex <> Encryption.hashData content) ->
  let hash := Encryption.hashData content in
  let persist w1 :=
    World.set_db
      (FileIndex.updateSyncState (World.db w1) folderId (sc_relativePath file)
         hash (sc_mtime file)) w1 in
  let '(r, w1) :=
    Pipeline.processFile fs (sc_path file) (upload_opts file)
      (World.emit (World.file_upload_start (sc_relativePath file)) w) in
  syncFile folderId stateMap (u, s) file w
  = match r with
    | Ok _ =>
      (Ok (u + 1, s),
       World.emit (World.file_upload_complete (sc_relativePath file))
         (persist w1))
    | Throw err =>
      if includes (message err) (jsstr "duplicate")
      then (Ok (u, s + 1), persist w1)
      else (Ok (u, s),
            World.emit (World.file_upload_error (sc_relativePath file)
                          (message err)) w1)
    end.
Proof.
  intros Hst Hread Hne hash persist. unfold SyncEngine.syncFile.
  rewrite (stale_test _ _ Hst). unfold Pipeline.hashFile. rewrite Hread.
  cbv [mbind M_bind result_bind mret result_ret lift]. fold hash.
  replace (match stateMap !! sc_relativePath file with
           | Some existing => bool_decide (FileIndex.file_hash existing = hash)
           | None => false
           end) with false.
  2:{ destruct (stateMap !! sc_relativePath file) as [ex|] eqn:E; [|reflexivity].
      symmetry. apply bool_decide_eq_false_2, Hne. reflexivity. }
  unfold try_catch. cbv [mbind M_bind SyncEngine.emit modify].
  unfold upload_opts.
  destruct (Pipeline.processFile fs (sc_path file) _ _) as [[up|err] w1].
  - reflexivity.
  - destruct (includes (message err) (jsstr "duplicate")); reflexivity.
Qed.

Lemma syncFile_unreadable folderId stateMap c file w e :
  stale stateMap file ->
  readFileSync fs (sc_path file) = Throw e ->
  syncFile folderId stateMap c file w = (Throw e, w).
Proof.
  intros Hst Hread. destruct c as [u s]. unfold SyncEngine.syncFile.
  rewrite (stale_test _ _ Hst). unfold Pipeline.hashFile. rewrite Hread.
  reflexivity.
Qed.

Lemma stale_or_fresh stateMap file :
  (exists ex, stateMap !! sc_relativePath file = Some ex
              /\ sc_mtime file <= FileIndex.mtime ex)
  \/ stale stateMap file.
Proof.
  unfold stale. destruct (stateMap !! sc_relativePath file) as [ex|].
  - destruct (Z.le_gt_cases (sc_mtime file) (FileIndex.mtime ex)).
    + left. eauto.
    + right. intros ex' [= <-]. lia.
  - right. intros ex' [=].
Qed.

(** What one turn of the loop of [syncFolder] does to the persisted
    states. *)
Lemma syncFile_step folderId stateMap c file w c' w' :
  syncFile folderId stateMap c file w = (Ok c', w') ->
  FileIndex.tbl_sync_folders (World.db w')
  = FileIndex.tbl_sync_folders (World.db w)
  /\ (forall q, q <> sc_relativePath file ->
                persisted (World.db w') folderId q
                = persisted (World.db w) folderId q)
  /\ (upload_errors w <= upload_errors w')%nat
  /\ (upload_errors w' = upload_errors w ->
      stateMap !! sc_relativePath file
      = persisted (World.db w) folderId (sc_relativePath file) ->
      exists ex, persisted (World.db w') folderId (sc_relativePath file) = Some ex
                 /\ sc_mtime file <= FileIndex.mtime ex).
Proof.
  destruct c as [u s].
  assert (Hupd : forall w1 h,
    FileIndex.tbl_sync_state (World.db w1) = FileIndex.tbl_sync_state (World.db w) ->
    (forall q, q <> sc_relativePath file ->
       persisted (FileIndex.updateSyncState (World.db w1) folderId
                    (sc_relativePath file) h (sc_mtime file)) folderId q
       = persisted (World.db w) folderId q)
    /\ exists ex,
         persisted (FileIndex.updateSyncState (World.db w1) folderId
                      (sc_relativePath file) h (sc_mtime file)) folderId
           (sc_relativePath file) = Some ex
         /\ sc_mtime file <= FileIndex.mtime ex).
  { intros w1 h Hst1. split.
    - intros q Hq. rewrite persisted_update.
      rewrite bool_decide_eq_false_2 by congruence.
      apply persisted_ext. exact Hst1.
    - rewrite persisted_update. rewrite bool_decide_eq_true_2 by reflexivity.
      eexists. split; [reflexivity|]. cbn [FileIndex.mtime]. lia. }
  destruct (stale_or_fresh stateMap file) as [(ex & Hex & Hm)|Hst].
  { rewrite (syncFile_skip _ _ _ _ _ _ ex Hex Hm). intros [= <- <-].
    split; [reflexivity|]. split; [reflexivity|]. split; [lia|].
    intros _ Hsame. exists ex. rewrite <- Hsame. auto. }
  destruct (readFileSync fs (sc_path file)) as [content|e] eqn:Hread.
  2:{ rewrite (syncFile_unreadable _ _ _ _ _ e Hst Hread). discriminate. }
  destruct (stateMap !! sc_relativePath file) as [ex|] eqn:Hex.
  - destruct (decide (FileIndex.file_hash ex = Encryption.hashData content))
      as [Hh|Hh].
    + rewrite (syncFile_touch _ _ _ _ _ _ content ex Hst Hread Hex Hh).
      intros [= <- <-]. destruct (Hupd w (Encryption.hashData content) eq_refl)
        as [Hothers Hthis].
      cbn [World.set_db World.db]. split; [reflexivity|].
      split; [exact Hothers|]. split; [unfold upload_errors; cbn; lia|].
      intros _ _. exact Hthis.
    + pose proof (syncFile_upload folderId stateMap u s file w content Hst Hread)
        as Hup.
      rewrite Hex in Hup. specialize (Hup ltac:(intros ex' [= <-]; exact Hh)).
      cbn zeta in Hup. revert Hup.
      pose proof (keeps_sync_processFile fs (sc_path file) (upload_opts file)
                    (World.emit (World.file_upload_start (sc_relativePath file)) w))
        as (Hst1 & Hfo1 & Hev1).
      destruct (Pipeline.processFile fs (sc_path file) (upload_opts file) _)
        as [[up|err] w1]; cbn [snd World.emit World.db World.events] in *;
        intros ->.
      * intros [= <- <-].
        destruct (Hupd w1 (Encryption.hashData content) Hst1) as [Hothers Hthis].
        cbn [World.set_db World.emit World.db]. split; [exact Hfo1|].
        split; [exact Hothers|].
        split; [unfold upload_errors; cbn; rewrite Hev1; cbn; lia|].
        intros _ _. exact Hthis.
      * destruct (includes (message err) (jsstr "duplicate")); intros [= <- <-].
        -- destruct (Hupd w1 (Encryption.hashData content) Hst1)
             as [Hothers Hthis].
           cbn [World.set_db World.emit World.db]. split; [exact Hfo1|].
           split; [exact Hothers|].
           split; [unfold upload_errors; cbn; rewrite Hev1; cbn; lia|].
           intros _ _. exact Hthis.
        -- cbn [World.set_db World.emit World.db]. split; [exact Hfo1|].
           split; [intros q _; apply persisted_ext; exact Hst1|].
           unfold upload_errors. cbn. rewrite Hev1. cbn.
           split; [lia|]. intros Habs. lia.
  - pose proof (syncFile_upload folderId stateMap u s file w content Hst Hread)
      as Hup.
    rewrite Hex in Hup. specialize (Hup ltac:(intros ex' [=])).
    cbn zeta in Hup. revert Hup.
    pose proof (keeps_sync_processFile fs (sc_path file) (upload_opts file)
                  (World.emit (World.file_upload_start (sc_relativePath file)) w))
      as (Hst1 & Hfo1 & Hev1).
    destruct (Pipeline.processFile fs (sc_path file) (upload_opts file) _)
      as [[up|err] w1]; cbn [snd World.emit World.db World.events] in *;
      intros ->.
    + intros [= <- <-].
      destruct (Hupd w1 (Encryption.hashData content) Hst1) as [Hothers Hthis].
      cbn [World.set_db World.emit World.db]. split; [exact Hfo1|].
      split; [exact Hothers|].
      split; [unfold upload_errors; cbn; rewrite Hev1; cbn; lia|].
      intros _ _. exact Hthis.
    + destruct (includes (message err) (jsstr "duplicate")); intros [= <- <-].
      * destruct (Hupd w1 (Encryption.hashData content) Hst1)
          as [Hothers Hthis].
        cbn [World.set_db World.emit World.db]. split; [exact Hfo1|].
        split; [exact Hothers|].
        split; [unfold upload_errors; cbn; rewrite Hev1; cbn; lia|].
        intros _ _. exact Hthis.
      * cbn [World.set_db World.emit World.db]. split; [exact Hfo1|].
        split; [intros q _; apply persisted_ext; exact Hst1|].
        unfold upload_errors. cbn. rewrite Hev1. cbn.
        split; [lia|]. intros Habs. lia.
Qed.

(** The loop over the scanned files. *)
Lemma syncFiles_run folderId stateMap files : forall c w c' w',
  NoDup (map sc_relativePath files) ->
  (forall f, f ∈ files ->
     stateMap !! sc_relativePath f
     = persisted (World.db w) folderId (sc_relativePath f)) ->
  syncFiles folderId stateMap c files w = (Ok c', w') ->
  FileIndex.tbl_sync_folders (World.db w')
  = FileIndex.tbl_sync_folders (World.db w)
  /\ (forall q, q ∉ map sc_relativePath files ->
                persisted (World.db w') folderId q
                = persisted (World.db w) folderId q)
  /\ (upload_errors w <= upload_errors w')%nat
  /\ (upload_errors w' = upload_errors w ->
      forall f, f ∈ files ->
        exists ex, persisted (World.db w') folderId (sc_relativePath f) = Some ex
                   /\ sc_mtime f <= FileIndex.mtime ex).
Proof.
  induction files as [|file files IH]; intros c w c' w' Hnd Hmap;
    cbn [SyncEngine.syncFiles].
  - intros [= <- <-]. split; [reflexivity|]. split; [reflexivity|].
    split; [lia|]. intros _ f Hf. inversion Hf.
  - cbv [mbind M_bind].
    destruct (syncFile folderId stateMap c file w) as [[c1|e] w1] eqn:Hstep;
      [|discriminate].
    intros Hrest.
    apply syncFile_step in Hstep as (Hfo1 & Hoth1 & Herr1 & Hthis1).
    cbn [map] in Hnd. apply NoDup_cons in Hnd as [Hfresh Hnd].
    assert (Hne : forall f, f ∈ files -> sc_relativePath f <> sc_relativePath file).
    { intros f Hf Heq. apply Hfresh. rewrite <- Heq.
      apply list_elem_of_In, in_map, list_elem_of_In, Hf. }
    apply IH in Hrest as (Hfo2 & Hoth2 & Herr2 & Hthis2); [|exact Hnd|].
    2:{ intros f Hf. rewrite Hoth1 by (apply Hne; exact Hf).
        apply Hmap. right. exact Hf. }
    split; [congruence|].
    split.
    { intros q Hq. cbn [map] in Hq. apply not_elem_of_cons in Hq as [Hq1 Hq2].
      rewrite Hoth2 by exact Hq2. apply Hoth1. exact Hq1. }
    split; [lia|].
    intros Hsame f [->|Hf]%elem_of_cons.
    + rewrite Hoth2 by exact Hfresh. apply Hthis1; [lia|].
      apply Hmap. left.
    + apply Hthis2; [lia|exact Hf].
Qed.

(** A scan where every file has a persisted time at least its own. *)
Lemma syncFiles_all_skipped folderId stateMap files : forall u s w,
  (forall f, f ∈ files ->
     exists ex, stateMap !! sc_relativePath f = Some ex
                /\ sc_mtime f <= FileIndex.mtime ex) ->
  syncFiles folderId stateMap (u, s) files w
  = (Ok (u, s + Z.of_nat (length files)), w).
Proof.
  induction files as [|file files IH]; intros u s w Hall;
    cbn [SyncEngine.syncFiles length].
  - replace (s + Z.of_nat 0) with s by lia. reflexivity.
  - cbv [mbind M_bind].
    destruct (Hall file ltac:(left)) as (ex & Hex & Hm).
    rewrite (syncFile_skip _ _ _ _ _ _ ex Hex Hm).
    rewrite IH by (intros f Hf; apply Hall; right; exact Hf).
    replace (s + 1 + Z.of_nat (length files))
      with (s + Z.of_nat (S (length files))) by lia.
    reflexivity.
Qed.

Lemma upload_errors_emit e (w : World.t) :
  is_upload_error e = false ->
  upload_errors (World.emit e w) = upload_errors w.
Proof. intros He. unfold upload_errors. cbn. rewrite He. reflexivity. Qed.

(** A second scan after a scan without upload errors. *)
Lemma syncFolder_again folderPath w0 w1 u1 s1 w2 :
  NoDup (map sc_relativePath (scanDirectory fs folderPath)) ->
  syncFolder folderPath w0 = (Ok (u1, s1), w1) ->
  upload_errors w1 = upload_errors w0 ->
  World.db w2 = World.db w1 ->
  syncFolder folderPath w2
  = (Ok (0, Z.of_nat (length (scanDirectory fs folderPath))),
     World.emit
       (World.sync_complete folderPath 0
          (Z.of_nat (length (scanDirectory fs folderPath))))
       (World.emit (World.sync_start folderPath) w2)).
Proof.
  intros Hnd Hfirst Herr Hdb. revert Hfirst. unfold SyncEngine.syncFolder.
  cbv [mbind M_bind db_get gets SyncEngine.emit modify].
  destruct (FileIndex.getSyncFolderByPath (World.db w0) folderPath)
    as [folder|] eqn:Hfolder; [|discriminate].
  cbn [World.emit World.db].
  set (folderId := FileIndex.sync_folder_id folder).
  set (files := scanDirectory fs folderPath) in *.
  set (w0' := World.emit (World.sync_start folderPath) w0).
  destruct (syncFiles folderId _ (0, 0) files w0') as [[[u s]|e] wa] eqn:Hrun;
    [|discriminate].
  intros [= -> -> <-].
  apply syncFiles_run in Hrun as (Hfo & _ & Hmono & Hall); [|exact Hnd|].
  2:{ intros f _. reflexivity. }
  rewrite upload_errors_emit in Herr by reflexivity.
  unfold w0' in Hmono, Hall. rewrite upload_errors_emit in Hmono, Hall by reflexivity.
  specialize (Hall Herr).
  cbn [World.emit World.db] in Hdb, Hfo.
  assert (Hfolder2 : FileIndex.getSyncFolderByPath (World.db w2) folderPath
                     = Some folder).
  { unfold FileIndex.getSyncFolderByPath in *. rewrite Hdb, Hfo. exact Hfolder. }
  rewrite Hfolder2. fold folderId.
  rewrite syncFiles_all_skipped.
  - cbn [World.emit]. reflexivity.
  - intros f Hf. cbn [World.emit World.db]. rewrite Hdb. apply Hall. exact Hf.
Qed.

(** C8, amended.  For every file of a scan, with the counters [(u, s)] of
    the files uploaded and skipped so far: (1) when the persisted
    modification time is at least the current one, the file is skipped and
    nothing is read or changed; (2) otherwise the digest of the content is
    computed, and when it equals the persisted one the state row is written
    again with that digest and the current modification time, and the file
    is skipped; (3) otherwise the file is uploaded under its path relative
    to the folder: on success the digest and the modification time are
    persisted and the file counts as uploaded; on an error whose message
    contains the word duplicate they are persisted too and the file counts
    as skipped; on any other error nothing is persisted, the error is
    reported as an event and the file counts as neither; (4) the duplicate
    error of the upload is one of the errors of the second kind.
    Consequently (5), when a scan of a folder whose files have distinct
    relative paths returns without having reported an upload error, a
    second scan of the unchanged folder, from any state with the index the
    first one left, uploads no file, skips every file and leaves the index
    as it is. *)
Theorem sync_policy (folderPath : jsstring) :
  (forall folderId stateMap u s file w ex,
     stateMap !! sc_relativePath file = Some ex ->
     sc_mtime file <= FileIndex.mtime ex ->
     syncFile folderId stateMap (u, s) file w = (Ok (u, s + 1), w))
  /\ (forall folderId stateMap u s file w content ex,
        stale stateMap file ->
        readFileSync fs (sc_path file) = Ok content ->
        stateMap !! sc_relativePath file = Some ex ->
        FileIndex.file_hash ex = Encryption.hashData content ->
        syncFile folderId stateMap (u, s) file w
        = (Ok (u, s + 1),
           World.set_db
             (FileIndex.updateSyncState (World.db w) folderId
                (sc_relativePath file) (Encryption.hashData content)
                (sc_mtime file)) w))
  /\ (forall folderId stateMap u s file w content,
        stale stateMap file ->
        readFileSync fs (sc_path file) = Ok content ->
        (forall ex, stateMap !! sc_relativePath file = Some ex ->
                    FileIndex.file_hash ex <> Encryption.hashData content) ->
        let persist w1 :=
          World.set_db
            (FileIndex.updateSyncState (World.db w1) folderId
               (sc_relativePath file) (Encryption.hashData content)
               (sc_mtime file)) w1 in
        let '(r, w1) :=
          Pipeline.processFile fs (sc_path file) (upload_opts file)
            (World.emit (World.file_upload_start (sc_relativePath file)) w) in
        syncFile folderId stateMap (u, s) file w
        = match r with
          | Ok _ =>
            (Ok (u + 1, s),
             World.emit (World.file_upload_complete (sc_relativePath file))
               (persist w1))
          | Throw err =>
            if includes (message err) (jsstr "duplicate")
            then (Ok (u, s + 1), persist w1)
            else (Ok (u, s),
                  World.emit (World.file_upload_error (sc_relativePath file)
                                (message err)) w1)
          end)
  /\ includes (message Pipeline.duplicate) (jsstr "duplicate") = true
  /\ (forall w0 w1 u1 s1 w2,
        NoDup (map sc_relativePath (scanDirectory fs folderPath)) ->
        syncFolder folderPath w0 = (Ok (u1, s1), w1) ->
        upload_errors w1 = upload_errors w0 ->
        World.db w2 = World.db w1 ->
        syncFolder folderPath w2
        = (Ok (0, Z.of_nat (length (scanDirectory fs folderPath))),
           World.emit
             (World.sync_complete folderPath 0
                (Z.of_nat (length (scanDirectory fs folderPath))))
             (World.emit (World.sync_start folderPath) w2))).
Proof.
  split; [intros; eapply syncFile_skip; eassumption|].
  split; [intros; eapply syncFile_touch; eassumption|].
  split; [intros folderId stateMap u s file w content Hst Hread Hne;
          exact (syncFile_upload folderId stateMap u s file w content
                   Hst Hread Hne)|].
  split; [exact includes_duplicate|].
  intros w0 w1 u1 s1 w2. apply syncFolder_again.
Qed.

End SyncFacts.

Lemma sync_policy_witness :
  fst (Spec.sync (Spec.registered [])) = Ok (1, 0)
  /\ Spec.sync (snd (Spec.sync (Spec.registered [])))
     = (Ok (0, 1),
        World.emit (World.sync_complete Spec.docs 0 1)
          (World.emit (World.sync_start Spec.docs)
             (snd (Spec.sync (Spec.registered []))))).
Proof.
  split; [vm_compute; reflexivity|].
  pose proof (sync_policy (H := Model.crypto) (H0 := Model.zlib)
                (H1 := Model.telegram) (jsstr "pw") Model.the_config
                Spec.one_note Spec.docs) as (_ & _ & _ & _ & Hagain).
  apply (Hagain (Spec.registered []) (snd (Spec.sync (Spec.registered [])))
           1 0 (snd (Spec.sync (Spec.registered [])))).
  - apply NoDup_singleton.
  - vm_compute. reflexivity.
  - vm_compute. reflexivity.
  - reflexivity.
Defined.

(** C8, as stated, fails in its last part: when the upload of the only file
    of the folder fails in the first scan for an outage of the network, the
    scan returns with nothing uploaded and nothing skipped, and the second
    scan of the unchanged folder uploads the file. *)
Lemma second_scan_uploads_after_error :
  let first := Spec.sync (Spec.registered [true]) in
  fst first = Ok (0, 0)
  /\ Spec.upload_errors (H := Model.telegram) (snd first) = 1%nat
  /\ fst (Spec.sync (snd first)) = Ok (1, 0).
Proof. vm_compute. repeat split; reflexivity. Qed.

(** ** Compression *)

Section CompressorFacts.
Context `{Zlib}.

Import Buffer Compressor.

Lemma compress_cases data filename :
  (compress data filename = (data, false))
  \/ (exists out, compress data filename = (out, true)
                  /\ shouldSkip filename = false
                  /\ gzip data = Ok out /\ len out < len data).
Proof.
  unfold compress. destruct (shouldSkip filename); [left; reflexivity|].
  destruct (gzip data) as [out|e]; [|left; reflexivity].
  destruct (Z.ltb_spec (len out) (len data)); [|left; reflexivity].
  right. exists out. auto.
Qed.

(** X7.  [compress] never returns more than it was given: either the
    flag is unset and the data are returned as they are, or the flag is set
    and the result is what gzip made of the data, strictly shorter than
    them.  A name whose extension, in small letters, is in the skip list,
    and empty data, are never compressed. *)
Theorem compress_never_grows data filename :
  let '(out, compressed) := compress data filename in
  (if compressed then gzip data = Ok out /\ len out < len data
   else out = data)
  /\ ((shouldSkip filename = true \/ data = []) -> compressed = false).
Proof.
  destruct (compress_cases data filename) as [-> | (out & -> & Hs & Hg & Hl)].
  - split; [reflexivity|]. intros _. reflexivity.
  - split; [auto|]. intros [Hskip | ->]; [congruence|].
    unfold len in Hl. cbn in Hl. lia.
Qed.

(** The extensions are compared in small letters: capitals, and the
    KELVIN SIGN for a [k]. *)
Lemma shouldSkip_letters :
  shouldSkip (jsstr "clip.MKV") = true
  /\ shouldSkip (jsstr "clip.M" ++ [0x212A] ++ jsstr "V") = true
  /\ shouldSkip (jsstr "notes.txt") = false.
Proof. repeat split; vm_compute; reflexivity. Qed.

Lemma decompress_compressed `{!ZlibLaws} data filename :
  decompress (fst (compress data filename)) (snd (compress data filename))
  = Ok data.
Proof.
  destruct (compress_cases data filename) as [-> | (out & -> & _ & Hg & _)].
  - reflexivity.
  - cbn. apply gunzip_gzip. exact Hg.
Qed.

(** X8.  Under the contract of zlib, [decompress] of what [compress]
    returned, with the flag it returned, gives the data back, for every name
    and every data. *)
Theorem decompress_compress `{!ZlibLaws} data filename :
  decompress (fst (compress data filename)) (snd (compress data filename))
  = Ok data.
Proof. apply decompress_compressed. Qed.

End CompressorFacts.

Section ModelZlib.

Lemma zeros_take data n :
  (n <= Model.zeros data)%nat -> take n data = replicate n x00.
Proof.
  revert data. induction n as [|n IH]; intros data Hn; [reflexivity|].
  destruct data as [|b data]; [cbn in Hn; lia|].
  destruct b; cbn in Hn; try lia.
  cbn. f_equal. apply IH. lia.
Qed.

Lemma model_zlib_laws : ZlibLaws (H := Model.zlib).
Proof.
  constructor. intros data compressed. cbn. intros [= <-].
  f_equal.
  set (n := Nat.min (Model.zeros data) 255).
  rewrite to_Z_of_Z_small by lia. rewrite Nat2Z.id.
  rewrite <- (zeros_take data n) by lia. apply take_drop.
Qed.

End ModelZlib.

(** ** Cutting into chunks *)

Section SplitFacts.

Import Buffer Pipeline.

Lemma ceil_div_bounds a k :
  0 <= a -> 0 < k -> (ceil_div a k - 1) * k < a <= ceil_div a k * k
                     \/ (a = 0 /\ ceil_div a k = 0).
Proof. intros Ha Hk. unfold ceil_div. zdiv. Qed.

Lemma ceil_div_nonneg a k : 0 <= a -> 0 < k -> 0 <= ceil_div a k.
Proof. intros Ha Hk. unfold ceil_div. zdiv. Qed.

(** The bytes of the chunk of index [i]. *)
#[local] Abbreviation piece b i :=
  (subarray b (i * TELEGRAM_CHUNK_SIZE)
     (Z.min (i * TELEGRAM_CHUNK_SIZE + TELEGRAM_CHUNK_SIZE) (len b))).

Lemma split_data b :
  map data (split b)
  = map (fun i => piece b i)
        (seqZ 0 (ceil_div (len b) TELEGRAM_CHUNK_SIZE)).
Proof. unfold split. rewrite map_map. reflexivity. Qed.

Lemma piece_take b i :
  0 <= i -> i * TELEGRAM_CHUNK_SIZE <= len b ->
  piece b i
  = take (Z.to_nat (Z.min TELEGRAM_CHUNK_SIZE (len b - i * TELEGRAM_CHUNK_SIZE)))
         (drop (Z.to_nat (i * TELEGRAM_CHUNK_SIZE)) b).
Proof.
  intros Hi Hle. assert (0 < TELEGRAM_CHUNK_SIZE) by reflexivity.
  rewrite subarray_nonneg by nia. f_equal. lia.
Qed.

Lemma pieces_prefix b (m : nat) :
  Z.of_nat m <= ceil_div (len b) TELEGRAM_CHUNK_SIZE ->
  List.concat (map (fun i => piece b i) (seqZ 0 (Z.of_nat m)))
  = take (Z.to_nat (Z.min (Z.of_nat m * TELEGRAM_CHUNK_SIZE) (len b))) b.
Proof.
  assert (Hk : 0 < TELEGRAM_CHUNK_SIZE) by reflexivity.
  pose proof (len_nonneg b) as Hb.
  induction m as [|m IH]; intros Hm.
  { change (Z.of_nat 0) with 0. rewrite Z.mul_0_l, Z.min_l by lia.
    reflexivity. }
  rewrite Nat2Z.inj_succ, <- Z.add_1_r.
  rewrite seqZ_app by lia. rewrite map_app, concat_app, IH by lia.
  change (seqZ (0 + Z.of_nat m) 1) with [0 + Z.of_nat m]. cbn [map List.concat].
  rewrite Z.add_0_l, app_nil_r.
  destruct (ceil_div_bounds (len b) TELEGRAM_CHUNK_SIZE Hb Hk) as [Hc|[_ Hc]];
    [|lia].
  assert (Z.of_nat m * TELEGRAM_CHUNK_SIZE < len b) by nia.
  rewrite piece_take by lia.
  replace (Z.to_nat (Z.min (Z.of_nat m * TELEGRAM_CHUNK_SIZE) (len b)))
    with (Z.to_nat (Z.of_nat m * TELEGRAM_CHUNK_SIZE)) by lia.
  rewrite take_take_drop. f_equal. lia.
Qed.

Lemma concat_split b : Buffer.concat (map data (split b)) = b.
Proof.
  assert (Hk : 0 < TELEGRAM_CHUNK_SIZE) by reflexivity.
  pose proof (len_nonneg b) as Hb.
  pose proof (ceil_div_nonneg (len b) _ Hb Hk) as Hn.
  unfold Buffer.concat. rewrite split_data.
  rewrite <- (Z2Nat.id (ceil_div _ _)) by exact Hn.
  rewrite pieces_prefix by lia. rewrite Z2Nat.id by exact Hn.
  apply take_ge.
  destruct (ceil_div_bounds (len b) TELEGRAM_CHUNK_SIZE Hb Hk) as [Hc|[Hc _]];
    unfold len in *; lia.
Qed.

Lemma length_split b :
  Z.of_nat (length (split b)) = ceil_div (len b) TELEGRAM_CHUNK_SIZE.
Proof.
  unfold split. rewrite length_map, length_seqZ.
  apply Z2Nat.id, ceil_div_nonneg; [apply len_nonneg | reflexivity].
Qed.

Lemma index_split b :
  map index (split b) = seqZ 0 (Z.of_nat (length (split b))).
Proof.
  rewrite length_split. unfold split. rewrite map_map. cbn [index].
  apply map_id.
Qed.

(** X4.  The chunks that [processFile] cuts: their payloads concatenated
    give the encrypted data back; there are [ceil(length / 49 MB)] of them,
    numbered from 0 in order, each with the count of all as its total, and
    each holds at least one byte and at most 49 MB. *)
Theorem split_covers b :
  Buffer.concat (map data (split b)) = b
  /\ Z.of_nat (length (split b)) = ceil_div (len b) TELEGRAM_CHUNK_SIZE
  /\ map index (split b) = seqZ 0 (Z.of_nat (length (split b)))
  /\ Forall (fun c => total c = Z.of_nat (length (split b))
                      /\ 0 < len (data c) <= TELEGRAM_CHUNK_SIZE)
            (split b).
Proof.
  split; [apply concat_split|]. split; [apply length_split|].
  split; [apply index_split|].
  rewrite length_split. unfold split. apply Forall_forall. intros c Hc.
  apply list_elem_of_In, in_map_iff in Hc as (i & <- & Hi). cbn [total data].
  split; [reflexivity|].
  apply list_elem_of_In, elem_of_seqZ in Hi.
  assert (Hk : 0 < TELEGRAM_CHUNK_SIZE) by reflexivity.
  pose proof (len_nonneg b) as Hb.
  destruct (ceil_div_bounds (len b) TELEGRAM_CHUNK_SIZE Hb Hk) as [Hc|[_ Hc]];
    [|lia].
  assert (i * TELEGRAM_CHUNK_SIZE < len b) by nia.
  rewrite piece_take by lia. unfold len in *.
  rewrite length_take, length_drop. lia.
Qed.

End SplitFacts.

(** ** Frames: a header followed by a payload *)

Section FrameFacts.

Import Buffer Chunker.

Lemma writeUInt16LE_range buf v off :
  ~ 0 <= v <= 0xffff -> writeUInt16LE buf v off = Throw out_of_range.
Proof.
  intros Hv. unfold writeUInt16LE.
  destruct (Z.ltb_spec v 0); [reflexivity|].
  destruct (Z.ltb_spec 0xffff v); [reflexivity|]. lia.
Qed.

Lemma writeBigUInt64LE_range buf v off :
  ~ 0 <= v < 2 ^ 64 -> writeBigUInt64LE buf v off = Throw out_of_range.
Proof.
  intros Hv. unfold writeBigUInt64LE.
  destruct (Z.ltb_spec v 0); [reflexivity|].
  destruct (Z.ltb_spec 0xffffffffffffffff v); [reflexivity|]. lia.
Qed.

Lemma createHeader_throws fn os ci tc fl :
  ~ (0 <= fl <= 0xffff /\ 0 <= os < 2 ^ 64
     /\ 0 <= ci <= 0xffff /\ 0 <= tc <= 0xffff) ->
  createHeader fn os ci tc fl = Throw out_of_range.
Proof.
  intros Hout. unfold createHeader.
  replace (write (alloc 64) (jsstr "WAS1") 0)
    with (magic_bytes ++ replicate 60 x00) by (vm_compute; reflexivity).
  rewrite writeUInt16LE_at by (reflexivity || lia). cbn [mbind result_bind].
  destruct (decide (0 <= fl <= 0xffff)) as [Hfl|Hfl];
    [|rewrite writeUInt16LE_range by exact Hfl; reflexivity].
  rewrite writeUInt16LE_at by (reflexivity || lia). cbn [mbind result_bind].
  destruct (decide (0 <= os < 2 ^ 64)) as [Hos|Hos];
    [|rewrite writeBigUInt64LE_range by exact Hos; reflexivity].
  rewrite writeBigUInt64LE_at by (reflexivity || lia). cbn [mbind result_bind].
  destruct (decide (0 <= ci <= 0xffff)) as [Hci|Hci];
    [|rewrite writeUInt16LE_range by exact Hci; reflexivity].
  rewrite writeUInt16LE_at by (reflexivity || lia). cbn [mbind result_bind].
  destruct (decide (0 <= tc <= 0xffff)) as [Htc|Htc];
    [|rewrite writeUInt16LE_range by exact Htc; reflexivity].
  tauto.
Qed.

Lemma createHeader_Ok_inv fn os ci tc fl h :
  createHeader fn os ci tc fl = Ok h ->
  0 <= fl <= 0xffff /\ 0 <= os < 2 ^ 64
  /\ 0 <= ci <= 0xffff /\ 0 <= tc <= 0xffff.
Proof.
  intros Hok.
  destruct (decide (0 <= fl <= 0xffff /\ 0 <= os < 2 ^ 64
                    /\ 0 <= ci <= 0xffff /\ 0 <= tc <= 0xffff)) as [Hin|Hout];
    [exact Hin|].
  rewrite createHeader_throws in Hok by exact Hout. discriminate.
Qed.

Lemma length_name_bytes fn : (length (subarray (Utf8.encode fn) 0 42) <= 42)%nat.
Proof. rewrite subarray_nonneg by lia. rewrite length_take. lia. Qed.

Lemma createHeader_in_range fn os ci tc fl :
  0 <= fl <= 0xffff /\ 0 <= os < 2 ^ 64
  /\ 0 <= ci <= 0xffff /\ 0 <= tc <= 0xffff ->
  exists h, createHeader fn os ci tc fl = Ok h /\ len h = HEADER_SIZE.
Proof.
  intros (Hfl & Hos & Hci & Htc).
  rewrite createHeader_layout by assumption. cbn zeta.
  eexists. split; [reflexivity|].
  pose proof (length_name_bytes fn) as Hfb.
  unfold len, HEADER_SIZE in *.
  rewrite !length_app, length_replicate. cbn [le_bytes length magic_bytes].
  lia.
Qed.

(** X5.  When [createHeader] fails.  With the flags, the chunk index and
    the chunk total in [0, 65535] and the original size in [0, 2^64) it
    returns a header of exactly [HEADER_SIZE] bytes, whatever the name;
    otherwise it throws the range error of the write that refuses its
    value. *)
Theorem createHeader_outcome fn os ci tc fl :
  (0 <= fl <= 0xffff /\ 0 <= os < 2 ^ 64
   /\ 0 <= ci <= 0xffff /\ 0 <= tc <= 0xffff ->
   exists h, createHeader fn os ci tc fl = Ok h /\ len h = HEADER_SIZE)
  /\ (~ (0 <= fl <= 0xffff /\ 0 <= os < 2 ^ 64
         /\ 0 <= ci <= 0xffff /\ 0 <= tc <= 0xffff) ->
      createHeader fn os ci tc fl = Throw out_of_range).
Proof.
  split; [apply createHeader_in_range|apply createHeader_throws].
Qed.

Lemma parseHeader_framed fn os ci tc fl h payload :
  createHeader fn os ci tc fl = Ok h ->
  parseHeader (h ++ payload)
  = Ok {| version := 1;
          flags := fl;
          compressed := Z.odd fl;
          originalSize := Number.of_BigInt os;
          chunkIndex := ci;
          totalChunks := tc;
          filename := Utf8.decode (subarray (Utf8.encode fn) 0 42) |}
  /\ subarray_from (h ++ payload) HEADER_SIZE = payload.
Proof.
  intros Hok.
  pose proof (createHeader_Ok_inv _ _ _ _ _ _ Hok) as (Hfl & Hos & Hci & Htc).
  assert (Hpayload : subarray_from (h ++ payload) HEADER_SIZE = payload).
  { destruct (createHeader_in_range fn os ci tc fl) as (h' & Hh' & Hlen);
      [tauto|].
    assert (h' = h) as -> by congruence.
    unfold subarray_from, HEADER_SIZE in *.
    rewrite subarray_nonneg by (apply len_nonneg || lia).
    replace (Z.to_nat 64) with (length h) by (unfold len in Hlen; lia).
    rewrite drop_app_length. apply take_ge. unfold len in *.
    rewrite length_app. lia. }
  rewrite createHeader_layout in Hok by assumption. cbn zeta in Hok.
  injection Hok as <-.
  set (fb := subarray (Utf8.encode fn) 0 42) in *.
  pose proof (length_name_bytes fn) as Hlen. fold fb in Hlen.
  assert (Hfb : 0 <= len fb <= 0xffff) by (unfold len; lia).
  split.
  - unfold parseHeader. rewrite magic_check.
    replace (has_magic _) with true by reflexivity. cbn [negb].
    rewrite (readUInt16LE_at _ (0 + 4) 1) by (reflexivity || lia).
    cbn [mbind result_bind].
    rewrite (readUInt16LE_at _ (0 + 4 + 2) fl) by (reflexivity || lia).
    cbn [mbind result_bind].
    rewrite (readBigUInt64LE_at _ (0 + 4 + 2 + 2) os) by (reflexivity || lia).
    cbn [mbind result_bind].
    rewrite (readUInt16LE_at _ (0 + 4 + 2 + 2 + 8) ci) by (reflexivity || lia).
    cbn [mbind result_bind].
    rewrite (readUInt16LE_at _ (0 + 4 + 2 + 2 + 8 + 2) tc)
      by (reflexivity || lia).
    cbn [mbind result_bind].
    rewrite (readUInt16LE_at _ (0 + 4 + 2 + 2 + 8 + 2 + 2) (len fb))
      by (reflexivity || lia).
    cbn [mbind result_bind].
    f_equal. f_equal.
    + apply land1_odd.
    + f_equal. rewrite subarray_nonneg by lia.
      replace (Z.to_nat (0 + 4 + 2 + 2 + 8 + 2 + 2 + 2 + len fb
                         - (0 + 4 + 2 + 2 + 8 + 2 + 2 + 2)))
        with (length fb) by (unfold len; lia).
      change (take (length fb)
                ((fb ++ replicate (42 - length fb) x00) ++ payload) = fb).
      rewrite <- app_assoc. apply take_app_length.
  - exact Hpayload.
Qed.

(** X6.  A header in front of a payload.  For every header that
    [createHeader] returned and every payload behind it, [parseHeader]
    returns version 1, the flags with [compressed] their bit 0, the chunk
    index and total, the original size as the Number nearest to it, and as
    name the decoding of the first 42 bytes of the UTF-8 encoding of the name
    given; the bytes from [HEADER_SIZE] on are the payload. *)
Theorem parseHeader_frame fn os ci tc fl h payload :
  createHeader fn os ci tc fl = Ok h ->
  parseHeader (h ++ payload)
  = Ok {| version := 1;
          flags := fl;
          compressed := Z.odd fl;
          originalSize := Number.of_BigInt os;
          chunkIndex := ci;
          totalChunks := tc;
          filename := Utf8.decode (subarray (Utf8.encode fn) 0 42) |}
  /\ subarray_from (h ++ payload) HEADER_SIZE = payload.
Proof. apply parseHeader_framed. Qed.

End FrameFacts.

(** ** Upload, then download *)

Section SortedFacts.
Context {A : Type} (key : A -> Z).

Lemma seqZ_keys_sorted (l : list A) : forall a n,
  map key l = seqZ a n -> StronglySorted (Sql.by_key key) l.
Proof.
  induction l as [|x l IH]; intros a n Hl; [constructor|].
  destruct (Z.le_gt_cases n 0) as [Hn|Hn].
  { rewrite seqZ_nil in Hl by exact Hn. discriminate. }
  rewrite seqZ_cons in Hl by exact Hn. cbn [map] in Hl.
  injection Hl as Hx Hl. constructor; [eapply IH; exact Hl|].
  apply Forall_forall. intros y Hy. unfold Sql.by_key.
  assert (Hk : key y ∈ seqZ (Z.succ a) (Z.pred n)).
  { rewrite <- Hl. apply list_elem_of_In, in_map, list_elem_of_In, Hy. }
  apply elem_of_seqZ in Hk. lia.
Qed.

Lemma order_by_seqZ (l : list A) a n :
  map key l = seqZ a n -> Sql.order_by key l = l.
Proof.
  intros Hl. apply (sorted_unique key).
  - apply order_by_sorted.
  - eapply seqZ_keys_sorted, Hl.
  - apply order_by_perm.
  - rewrite (Permutation_map key (order_by_perm key l)), Hl. apply NoDup_seqZ.
Qed.

End SortedFacts.

Section RoundTrip.
Context `{CryptoLaws} `{ZlibLaws} `{TelegramLaws}.
Import Monad Spec.

Lemma decrypt_sealed (K : jsstring) (P : Buffer.t) (g : nat) :
  Encryption.decrypt K (fst (Encryption.encrypt K g P)) = Ok P.
Proof.
  unfold Encryption.encrypt, Encryption.encrypt_with. cbn [fst].
  set (salt := randomBytes g Encryption.SALT_LENGTH).
  set (iv := randomBytes (S g) Encryption.IV_LENGTH).
  pose proof (tag_length (Encryption.deriveKey K salt) iv P) as Ht.
  pose proof (gcm_open_seal (Encryption.deriveKey K salt) iv P) as Hopen.
  destruct (gcm_seal (Encryption.deriveKey K salt) iv P) as [ct tag].
  cbn [fst snd] in *.
  destruct (decrypt_slices salt iv ct tag) as (Hs & Hi & Hg & Hc).
  { apply randomBytes_length. unfold Encryption.SALT_LENGTH. lia. }
  { apply randomBytes_length. unfold Encryption.IV_LENGTH. lia. }
  { exact Ht. }
  unfold Encryption.decrypt. rewrite Hs, Hi, Hg, Hc. exact Hopen.
Qed.

Lemma frames_inv name size flags cs : forall cfs,
  Pipeline.frames name size flags cs = Ok cfs ->
  Forall2 (fun c cf => framed name size flags c (Pipeline.cf_bytes cf)
                       /\ Pipeline.cf_index cf = Pipeline.index c) cs cfs.
Proof.
  induction cs as [|c cs IH]; intros cfs; cbn [Pipeline.frames].
  - intros [= <-]. constructor.
  - unfold Pipeline.frame. cbv [mbind result_bind mret result_ret].
    destruct (Chunker.createHeader name size (Pipeline.index c)
                (Pipeline.total c) flags) as [h|e] eqn:Hh; [|discriminate].
    destruct (Pipeline.frames name size flags cs) as [cfs'|e] eqn:Hcs;
      [|discriminate].
    intros [= <-]. constructor; [|apply IH; reflexivity].
    cbn. split; [|reflexivity]. exists h. split; [exact Hh|].
    rewrite app_nil_r. reflexivity.
Qed.

Lemma setChunkTelegramId_absent d tg fileId i :
  FileIndex.has_chunk d fileId i = false ->
  map (fun c =>
         if (FileIndex.file_id c =? fileId) && (FileIndex.chunk_index c =? i)
         then {| FileIndex.file_id := FileIndex.file_id c;
                 FileIndex.chunk_index := FileIndex.chunk_index c;
                 FileIndex.message_id := FileIndex.message_id c;
                 FileIndex.file_telegram_id := Some tg;
                 FileIndex.size := FileIndex.size c |}
         else c) (FileIndex.tbl_chunks d)
  = FileIndex.tbl_chunks d.
Proof.
  unfold FileIndex.has_chunk. induction (FileIndex.tbl_chunks d) as [|c l IH];
    [reflexivity|].
  cbn [existsb map]. intros Hex. apply orb_false_iff in Hex as [Hc Hl].
  rewrite Hc. f_equal. apply IH, Hl.
Qed.

Lemma uploadChunk_ok chatId fileId cf w w' :
  chat_ok (World.remote w) ->
  Pipeline.uploadChunk chatId fileId cf w = (Ok (), w') ->
  chat_ok (World.remote w')
  /\ (forall fid b, stored (World.remote w) fid b ->
                    stored (World.remote w') fid b)
  /\ FileIndex.tbl_files (World.db w') = FileIndex.tbl_files (World.db w)
  /\ exists row, row_of (World.remote w') fileId cf row
                 /\ FileIndex.tbl_chunks (World.db w')
                    = FileIndex.tbl_chunks (World.db w) ++ [row].
Proof.
  intros Hok. unfold Pipeline.uploadChunk, TelegramClient.sendFile.
  destruct chatId as [cid|]; [|discriminate].
  destruct (cid =? 0); [discriminate|].
  cbv [mbind M_bind mret M_ret bot db_try db_run].
  pose proof (sendDocument_ok cid (Pipeline.cf_bytes cf) _ Hok) as Hok'.
  pose proof (fun fid b => stored_sendDocument cid (Pipeline.cf_bytes cf)
                             (World.remote w) fid b Hok) as Hkeep.
  pose proof (sendDocument_stored cid (Pipeline.cf_bytes cf) (World.remote w))
    as Hnew.
  destruct (sendDocument cid (Pipeline.cf_bytes cf) (World.remote w))
    as [[[mid fid]|e] c'] eqn:Hsend; [|discriminate].
  cbn [snd] in Hok', Hkeep. specialize (Hnew mid fid c' Hok eq_refl).
  cbn [World.set_remote World.db TelegramClient.messageId
       TelegramClient.fileId].
  unfold FileIndex.addChunk.
  destruct (FileIndex.has_chunk (World.db w) fileId (Pipeline.cf_index cf))
    eqn:Hhas; [discriminate|].
  destruct (FileIndex.has_file (World.db w) fileId); [|discriminate].
  cbn [negb]. intros [= <-].
  cbn [World.set_db World.db World.remote FileIndex.setChunkTelegramId
       FileIndex.tbl_files FileIndex.tbl_chunks].
  split; [exact Hok'|]. split; [exact Hkeep|]. split; [reflexivity|].
  rewrite map_app, setChunkTelegramId_absent by exact Hhas.
  cbn [map FileIndex.file_id FileIndex.chunk_index].
  rewrite !Z.eqb_refl. cbn [andb].
  eexists. split; [|reflexivity].
  split; [reflexivity|]. split; [reflexivity|].
  exists fid. split; [reflexivity|exact Hnew].
Qed.

Lemma uploadChunks_ok chatId fileId cfs : forall w w',
  chat_ok (World.remote w) ->
  for_each cfs (Pipeline.uploadChunk chatId fileId) w = (Ok (), w') ->
  chat_ok (World.remote w')
  /\ (forall fid b, stored (World.remote w) fid b ->
                    stored (World.remote w') fid b)
  /\ FileIndex.tbl_files (World.db w') = FileIndex.tbl_files (World.db w)
  /\ exists rows, Forall2 (row_of (World.remote w') fileId) cfs rows
                  /\ FileIndex.tbl_chunks (World.db w')
                     = FileIndex.tbl_chunks (World.db w) ++ rows.
Proof.
  induction cfs as [|cf cfs IH]; intros w w' Hok; cbn [for_each].
  - intros [= <-]. repeat split; auto. exists []. split; [constructor|].
    rewrite app_nil_r. reflexivity.
  - cbv [mbind M_bind].
    destruct (Pipeline.uploadChunk chatId fileId cf w) as [[[]|e] w1] eqn:Hone;
      [|discriminate].
    intros Hrest.
    apply uploadChunk_ok in Hone as (Hok1 & Hkeep1 & Hfiles1 & row & Hrow & Hch1);
      [|exact Hok].
    apply IH in Hrest as (Hok2 & Hkeep2 & Hfiles2 & rows & Hrows & Hch2);
      [|exact Hok1].
    split; [exact Hok2|]. split; [auto|]. split; [congruence|].
    exists (row :: rows). split.
    + constructor; [|exact Hrows].
      destruct Hrow as (Hf & Hi & fid & Hfid & Hst).
      split; [exact Hf|]. split; [exact Hi|]. exists fid. auto.
    + rewrite Hch2, Hch1, <- app_assoc. reflexivity.
Qed.

Lemma initialize_run token w :
  exists r, TelegramClient.initialize token w
            = (r, World.set_remote (snd (getMe token (World.remote w))) w).
Proof.
  unfold TelegramClient.initialize, try_catch, bot, throw.
  destruct (getMe token (World.remote w)) as [[[]|e] c]; eexists; reflexivity.
Qed.

Lemma downloadChunks_ok name size flags cs : forall rows w dls w',
  Forall2 (fun c row =>
             exists fid bytes,
               FileIndex.file_telegram_id row = Some fid
               /\ framed name size flags c bytes
               /\ stored (World.remote w) fid bytes) cs rows ->
  map_each rows Pipeline.downloadChunk w = (Ok dls, w') ->
  Forall2 (unframed flags) cs dls.
Proof.
  induction cs as [|c cs IH]; intros rows w dls w' Hrows;
    inversion Hrows as [|? row ? rows' Hrow Hrows']; subst; cbn [map_each].
  - intros [= <- <-]. constructor.
  - destruct Hrow as (fid & bytes & Hfid & (h & Hh & ->) & Hst).
    cbv [mbind M_bind mret M_ret].
    unfold Pipeline.downloadChunk at 1, TelegramClient.downloadFile, bot.
    cbv [mbind M_bind mret M_ret lift]. rewrite Hfid.
    pose proof (getFileStream_stored (World.remote w) fid
                  (h ++ Pipeline.data c)) as Hget.
    pose proof (fun fid' b =>
                  stored_getFileStream (Some fid) (World.remote w) fid' b)
      as Hkeep.
    destruct (getFileStream (Some fid) (World.remote w)) as [[file|e] c1] eqn:Hs;
      [|discriminate].
    specialize (Hget file c1 Hst eq_refl). subst file. cbn [snd] in Hkeep.
    destruct (parseHeader_framed _ _ _ _ _ _ (Pipeline.data c) Hh) as [Hparse Hpay].
    rewrite Hparse, Hpay.
    destruct (map_each rows' Pipeline.downloadChunk (World.set_remote c1 w))
      as [[dls'|e] w1] eqn:Hrest; [|discriminate].
    intros [= <- <-]. constructor.
    + repeat split.
    + eapply IH; [|exact Hrest].
      eapply Forall2_impl; [exact Hrows'|].
      cbn. intros c' row' (fid' & b' & ? & ? & ?).
      exists fid', b'. auto.
Qed.

Lemma first_of_unframed flags cs dls :
  Forall2 (unframed flags) cs dls -> cs <> [] ->
  Pipeline.first_compressed dls = Ok (Z.odd flags).
Proof.
  intros [|c dl ? ? (_ & _ & Hc) _]; [congruence|]. intros _. cbn. congruence.
Qed.

Lemma unframed_maps flags cs dls :
  Forall2 (unframed flags) cs dls ->
  map Pipeline.dl_index dls = map Pipeline.index cs
  /\ map Pipeline.dl_data dls = map Pipeline.data cs.
Proof.
  induction 1 as [|c dl cs dls (Hi & Hd & _) _ [IHi IHd]]; [auto|].
  cbn [map]. split; congruence.
Qed.

(** Decoding the downloaded chunks of an encrypted, compressed content. *)
Lemma decode_unframed password content name g dls :
  let packed := Compressor.compress content name in
  let encrypted := fst (Encryption.encrypt password g (fst packed)) in
  Forall2 (unframed (if snd packed then 1 else 0)) (Pipeline.split encrypted)
          dls ->
  Pipeline.split encrypted <> [] ->
  Pipeline.decode password dls = Ok content.
Proof.
  intros packed encrypted Hdls Hne.
  destruct (unframed_maps _ _ _ Hdls) as [Hi Hd].
  unfold Pipeline.decode, Pipeline.sort_chunks.
  rewrite (order_by_seqZ Pipeline.dl_index dls 0
             (Z.of_nat (length (Pipeline.split encrypted))))
    by (rewrite Hi; apply index_split).
  rewrite Hd. rewrite concat_split.
  subst encrypted. rewrite decrypt_sealed. cbn [mbind result_bind].
  rewrite (first_of_unframed _ _ _ Hdls Hne). cbn [mbind result_bind].
  replace (Z.odd (if snd packed then 1 else 0)) with (snd packed)
    by (destruct (snd packed); reflexivity).
  apply decompress_compressed.
Qed.

Lemma filter_fresh d fileId :
  Spec.consistent d -> FileIndex.seq_files d < fileId ->
  List.filter (fun c => FileIndex.file_id c =? fileId) (FileIndex.tbl_chunks d)
  = [].
Proof.
  intros Hc Hlt. pose proof (chunk_count_fresh d fileId Hc Hlt) as Hn.
  unfold Spec.chunk_count in Hn. apply length_zero_iff_nil. lia.
Qed.

Lemma filter_all {A} (p : A -> bool) (l : list A) :
  Forall (fun x => p x = true) l -> List.filter p l = l.
Proof.
  induction 1 as [|x l Hx _ IH]; [reflexivity|]. cbn. rewrite Hx, IH.
  reflexivity.
Qed.

Lemma processFile_Ok fs path opts w u w1 :
  Spec.consistent (World.db w) -> chat_ok (World.remote w) ->
  Pipeline.processFile fs path opts w = (Ok u, w1) ->
  exists content name rows,
    readFileSync fs path = Ok content
    /\ Pipeline.hash u = Encryption.hashData content
    /\ Pipeline.originalSize u = Buffer.len content
    /\ uploaded_as name content (Pipeline.password opts) (World.rng w) w1 rows
    /\ (forall row, row ∈ FileIndex.tbl_files (World.db w1) ->
                    FileIndex.hash row = Encryption.hashData content ->
                    FileIndex.getChunks (World.db w1) (FileIndex.id row) = rows).
Proof.
  intros Hcons Hok. unfold Pipeline.processFile.
  set (name := match Pipeline.customName opts with
               | Some (c :: n) => c :: n
               | _ => Path.basename path
               end).
  cbv [mbind M_bind lift db_get gets throw].
  destruct (readFileSync fs path) as [content|e] eqn:Hread; [|discriminate].
  unfold Pipeline.hashFile. rewrite Hread.
  cbv [mbind result_bind mret result_ret].
  destruct (FileIndex.exists_ (World.db w) (Encryption.hashData content))
    eqn:Hdup; [discriminate|].
  destruct (Compressor.compress content name) as [cd flag] eqn:Hcomp.
  unfold Pipeline.encrypt.
  destruct (Encryption.encrypt (Pipeline.password opts) (World.rng w) cd)
    as [enc g] eqn:Henc.
  destruct (Pipeline.frames name (Buffer.len content) (if flag then 1 else 0)
              (Pipeline.split enc)) as [cfs|e] eqn:Hframes; [|discriminate].
  apply frames_inv in Hframes.
  destruct (initialize_run (botToken (Pipeline.cfg opts)) (World.set_rng g w))
    as [r Hinit].
  rewrite Hinit. destruct r as [[]|e]; [|discriminate].
  set (wa := World.set_remote _ (World.set_rng g w)).
  assert (Hoka : chat_ok (World.remote wa)) by (apply getMe_ok, Hok).
  unfold db_try. unfold FileIndex.addFile at 1.
  cbn [FileIndex.fd_hash FileIndex.fd_filename FileIndex.fd_originalSize
       FileIndex.fd_storedSize FileIndex.fd_chunks FileIndex.fd_compressed].
  assert (Hdbwa : World.db wa = World.db w) by reflexivity.
  rewrite Hdbwa, Hdup.
  set (fileId := FileIndex.seq_files (World.db w) + 1).
  set (newrow := FileIndex.mkFile fileId _ _ _ _ _ _).
  set (d' := FileIndex.mkDb _ _ _ _ _).
  destruct (for_each cfs _ (World.set_db d' wa)) as [[[]|e] wb] eqn:Hloop;
    [|discriminate].
  intros [= <- <-].
  apply uploadChunks_ok in Hloop as (Hokb & Hkeep & Hfiles & rows & Hrows & Hch);
    [|exact Hoka].
  cbn [World.set_db World.db d' FileIndex.tbl_files FileIndex.tbl_chunks]
    in Hfiles, Hch.
  exists content, name, rows. unfold uploaded_as.
  cbv zeta. rewrite Hcomp. cbn [fst snd]. rewrite Henc.
  cbn [Pipeline.hash Pipeline.originalSize fst snd].
  split; [reflexivity|]. split; [reflexivity|]. split; [reflexivity|].
  assert (Hframed :
    Forall2 (fun c row =>
               FileIndex.file_id row = fileId
               /\ FileIndex.chunk_index row = Pipeline.index c
               /\ exists fid bytes,
                    FileIndex.file_telegram_id row = Some fid
                    /\ framed name (Buffer.len content)
                         (if flag then 1 else 0) c bytes
                    /\ stored (World.remote wb) fid bytes)
            (Pipeline.split enc) rows).
  { clear -Hframes Hrows. revert rows Hrows.
    induction Hframes as [|c cf cs cfs [Hfr Hidx] _ IH]; intros rows Hrows;
      inversion Hrows as [|? row ? rows' (Hf & Hi & fid & Hfid & Hst) Hrows'];
      subst; constructor; [|apply IH, Hrows'].
    split; [exact Hf|]. split; [congruence|].
    exists fid, (Pipeline.cf_bytes cf). auto. }
  split.
  { eapply Forall2_impl; [exact Hframed|]. cbn. intros c row (_ & _ & Hx).
    exact Hx. }
  intros row Hrow Hhash.
  assert (Hid : FileIndex.id row = fileId).
  { rewrite Hfiles in Hrow. apply elem_of_app in Hrow as [Hold|Hnew].
    - exfalso. apply not_true_iff_false in Hdup. apply Hdup.
      unfold FileIndex.exists_. apply existsb_exists. exists row.
      split; [apply list_elem_of_In, Hold|]. apply bool_decide_eq_true, Hhash.
    - apply list_elem_of_singleton in Hnew. subst row. reflexivity. }
  rewrite Hid. unfold FileIndex.getChunks. rewrite Hch, List.filter_app.
  rewrite filter_fresh by (exact Hcons || (unfold fileId; lia)).
  cbn [app]. rewrite filter_all.
  - apply (order_by_seqZ _ _ 0 (Z.of_nat (length (Pipeline.split enc)))).
    rewrite <- index_split. clear -Hframed.
    induction Hframed as [|c row cs rows (_ & Hi & _) _ IH]; [reflexivity|].
    cbn [map]. congruence.
  - clear -Hframed.
    induction Hframed as [|c row cs rows (Hf & _) _ IH]; constructor; [|exact IH].
    apply Z.eqb_eq, Hf.
Qed.

(** X1.  Upload, then download.  Under the contracts of the cipher, of zlib
    and of the chat: when [processFile] has returned on a consistent index,
    and [retrieveFile] then returns for the row of the uploaded digest, run
    with the same password from any state that has the index the upload left
    and a chat that still stores its documents, the bytes it writes are the
    bytes of the file that was uploaded, and the size it reports is the
    original size, for any number of chunks. *)
Theorem retrieveFile_processFile fs path opts w u w1 row opts' w1' r w2 :
  Spec.consistent (World.db w) -> chat_ok (World.remote w) ->
  Pipeline.processFile fs path opts w = (Ok u, w1) ->
  row ∈ FileIndex.tbl_files (World.db w1) ->
  FileIndex.hash row = Pipeline.hash u ->
  World.db w1' = World.db w1 ->
  (forall fid b, stored (World.remote w1) fid b ->
                 stored (World.remote w1') fid b) ->
  Pipeline.password opts' = Pipeline.password opts ->
  Pipeline.retrieveFile row opts' w1' = (Ok r, w2) ->
  readFileSync fs path = Ok (Pipeline.written r)
  /\ Pipeline.size r = Pipeline.originalSize u.
Proof.
  intros Hcons Hok Hup Hrow Hhash Hdb Hlater Hpw.
  apply processFile_Ok in Hup
    as (content & name & rows & Hread & Hh & Hsize & Hrows & Hget);
    [|exact Hcons|exact Hok].
  rewrite Hh in Hhash. specialize (Hget row Hrow Hhash).
  unfold Pipeline.retrieveFile. cbv [mbind M_bind db_get gets lift throw].
  rewrite Hdb, Hget.
  destruct rows as [|row0 rows]; [discriminate|].
  destruct (initialize_run (botToken (Pipeline.cfg opts')) w1') as [ri Hinit].
  rewrite Hinit. destruct ri as [[]|e]; [|discriminate].
  set (wa := World.set_remote _ w1').
  destruct (map_each (row0 :: rows) Pipeline.downloadChunk wa)
    as [[dls|e] wb] eqn:Hdl; [|discriminate].
  unfold uploaded_as in Hrows. cbv zeta in Hrows.
  eapply downloadChunks_ok in Hdl.
  2:{ eapply Forall2_impl; [exact Hrows|]. cbn.
      intros c row' (fid & b & Hf & Hfr & Hst). exists fid, b.
      split; [exact Hf|]. split; [exact Hfr|].
      apply stored_getMe, Hlater, Hst. }
  rewrite Hpw.
  erewrite decode_unframed; [|exact Hdl|].
  2:{ intros Hnil. rewrite Hnil in Hrows. inversion Hrows. }
  cbv [mret M_ret]. intros [= <- <-]. cbn [Pipeline.written Pipeline.size].
  split; [exact Hread|]. symmetry. exact Hsize.
Qed.

Lemma encrypt_length (K : jsstring) (P : Buffer.t) (g : nat) :
  60 <= Buffer.len (fst (Encryption.encrypt K g P)).
Proof.
  unfold Encryption.encrypt, Encryption.encrypt_with. cbn [fst].
  pose proof (randomBytes_length g Encryption.SALT_LENGTH) as Hs.
  pose proof (randomBytes_length (S g) Encryption.IV_LENGTH) as Hi.
  pose proof (tag_length (Encryption.deriveKey K
                            (randomBytes g Encryption.SALT_LENGTH))
                (randomBytes (S g) Encryption.IV_LENGTH) P) as Ht.
  destruct (gcm_seal _ _ _) as [ct tag]. cbn [snd] in Ht.
  unfold Encryption.SALT_LENGTH, Encryption.IV_LENGTH,
    Encryption.TAG_LENGTH in *.
  unfold Buffer.concat. cbn [List.concat]. rewrite !len_app.
  pose proof (len_nonneg ct). change (Buffer.len []) with 0. lia.
Qed.

Lemma split_nonempty b : 0 < Buffer.len b -> Pipeline.split b <> [].
Proof.
  intros Hb Hnil. pose proof (length_split b) as Hlen.
  rewrite Hnil in Hlen. cbn in Hlen.
  destruct (ceil_div_bounds (Buffer.len b) Pipeline.TELEGRAM_CHUNK_SIZE)
    as [Hc|[Hc _]]; [lia|reflexivity| |]; lia.
Qed.

Lemma split_encrypt_nonempty (K : jsstring) (P : Buffer.t) (g : nat) :
  Pipeline.split (fst (Encryption.encrypt K g P)) <> [].
Proof. apply split_nonempty. pose proof (encrypt_length K P g). lia. Qed.

Lemma decode_undecryptable password password' content name g dls e :
  let packed := Compressor.compress content name in
  let encrypted := fst (Encryption.encrypt password g (fst packed)) in
  Forall2 (unframed (if snd packed then 1 else 0)) (Pipeline.split encrypted)
          dls ->
  Encryption.decrypt password' encrypted = Throw e ->
  Pipeline.decode password' dls = Throw e.
Proof.
  intros packed encrypted Hdls Hdec.
  destruct (unframed_maps _ _ _ Hdls) as [Hi Hd].
  unfold Pipeline.decode, Pipeline.sort_chunks.
  rewrite (order_by_seqZ Pipeline.dl_index dls 0
             (Z.of_nat (length (Pipeline.split encrypted))))
    by (rewrite Hi; apply index_split).
  rewrite Hd. rewrite concat_split. rewrite Hdec. reflexivity.
Qed.

(** X2.  Download under a password that does not decrypt.  In the
    situation of X1, when the decipher under the password given to
    [retrieveFile] rejects what was sealed under the password of the upload,
    [retrieveFile] throws and writes nothing; when the connection and every
    download of a chunk succeed, what it throws is the error of the
    decipher: the bytes put together again are what [encrypt] returned, and
    no part of them is returned undecrypted. *)
Theorem retrieveFile_other_password fs path opts w u w1 row opts' w1' e0 :
  Spec.consistent (World.db w) -> chat_ok (World.remote w) ->
  Pipeline.processFile fs path opts w = (Ok u, w1) ->
  row ∈ FileIndex.tbl_files (World.db w1) ->
  FileIndex.hash row = Pipeline.hash u ->
  World.db w1' = World.db w1 ->
  (forall fid b, stored (World.remote w1) fid b ->
                 stored (World.remote w1') fid b) ->
  (forall P,
     Encryption.decrypt (Pipeline.password opts')
       (fst (Encryption.encrypt (Pipeline.password opts) (World.rng w) P))
     = Throw e0) ->
  exists e, fst (Pipeline.retrieveFile row opts' w1') = Throw e
            /\ (is_ok (fst (TelegramClient.initialize
                              (botToken (Pipeline.cfg opts')) w1')) = true ->
                is_ok (fst (map_each
                              (FileIndex.getChunks (World.db w1')
                                 (FileIndex.id row))
                              Pipeline.downloadChunk
                              (snd (TelegramClient.initialize
                                      (botToken (Pipeline.cfg opts')) w1'))))
                = true ->
                e = e0).
Proof.
  intros Hcons Hok Hup Hrow Hhash Hdb Hlater Hpw.
  apply processFile_Ok in Hup
    as (content & name & rows & Hread & Hh & Hsize & Hrows & Hget);
    [|exact Hcons|exact Hok].
  rewrite Hh in Hhash. specialize (Hget row Hrow Hhash).
  unfold Pipeline.retrieveFile. cbv [mbind M_bind db_get gets lift throw].
  rewrite Hdb, Hget.
  destruct rows as [|row0 rows].
  { unfold uploaded_as in Hrows. cbv zeta in Hrows. exfalso.
    inversion Hrows as [Hnil|]. symmetry in Hnil. revert Hnil.
    apply split_encrypt_nonempty. }
  destruct (initialize_run (botToken (Pipeline.cfg opts')) w1') as [ri Hinit].
  rewrite Hinit. cbn [fst snd].
  destruct ri as [[]|e]; [|exists e; split; [reflexivity|discriminate]].
  set (wa := World.set_remote _ w1').
  destruct (map_each (row0 :: rows) Pipeline.downloadChunk wa)
    as [[dls|e] wb] eqn:Hdl; cbn [fst];
    [|exists e; split; [reflexivity|discriminate]].
  unfold uploaded_as in Hrows. cbv zeta in Hrows.
  eapply downloadChunks_ok in Hdl.
  2:{ eapply Forall2_impl; [exact Hrows|]. cbn.
      intros c row' (fid & b & Hf & Hfr & Hst). exists fid, b.
      split; [exact Hf|]. split; [exact Hfr|].
      apply stored_getMe, Hlater, Hst. }
  erewrite decode_undecryptable; [|exact Hdl|apply Hpw].
  exists e0. split; reflexivity.
Qed.

End RoundTrip.

(** ** The sample chat obeys the contract *)

Section ModelChat.

Import Model.

Lemma attempt_cases {A} (call : memchat -> result A * memchat) c :
  (exists later, attempt call c
                 = (Throw network_down, mkChat (documents c) (next_id c) later))
  \/ (exists later, attempt call c
                    = call (mkChat (documents c) (next_id c) later)).
Proof.
  unfold attempt. destruct c as [docs next outs]. cbn.
  destruct outs as [|[] later].
  - right. exists []. reflexivity.
  - left. exists later. reflexivity.
  - right. exists later. reflexivity.
Qed.

Lemma find_app_l {A} (p : A -> bool) (l l' : list A) x :
  find p l = Some x -> find p (l ++ l') = Some x.
Proof.
  induction l as [|y l IH]; [discriminate|]. cbn.
  destruct (p y); [auto|]. exact IH.
Qed.

Lemma find_app_r {A} (p : A -> bool) (l l' : list A) :
  Forall (fun x => p x = false) l -> find p (l ++ l') = find p l'.
Proof.
  induction 1 as [|y l Hy _ IH]; [reflexivity|]. cbn. rewrite Hy. exact IH.
Qed.

#[local] Existing Instance Model.telegram.

Ltac attempt_cases_in c on_down :=
  match goal with
  | |- context [attempt ?f c] =>
    destruct (attempt_cases f c) as [[? ->]|[? ->]]; [on_down|]
  end.

Lemma model_getMe_ok token c : fresh_ids c -> fresh_ids (snd (getMe token c)).
Proof.
  intros Hc. cbn. attempt_cases_in c ltac:(exact Hc). exact Hc.
Qed.

Lemma model_sendDocument_ok chatId file c :
  fresh_ids c -> fresh_ids (snd (sendDocument chatId file c)).
Proof.
  intros Hc. cbn. attempt_cases_in c ltac:(exact Hc).
  cbn. unfold fresh_ids in *. cbn. apply Forall_app. split.
  - eapply Forall_impl; [exact Hc|]. cbn. intros; lia.
  - constructor; [cbn; lia|constructor].
Qed.

Lemma model_getFileStream_ok fileId c :
  fresh_ids c -> fresh_ids (snd (getFileStream fileId c)).
Proof.
  intros Hc. cbn. attempt_cases_in c ltac:(exact Hc).
  repeat case_match; exact Hc.
Qed.

Lemma model_deleteMessage_ok messageId c :
  fresh_ids c -> fresh_ids (snd (bot_deleteMessage messageId c)).
Proof.
  intros Hc. cbn. attempt_cases_in c ltac:(exact Hc).
  case_match; [|exact Hc].
  cbn. unfold fresh_ids in *. cbn.
  apply Forall_forall. intros d Hd.
  apply list_elem_of_In, filter_In in Hd as [Hd _].
  rewrite Forall_forall in Hc. apply Hc, list_elem_of_In, Hd.
Qed.

Lemma model_sendDocument_stored chatId file c messageId fileId c' :
  fresh_ids c ->
  sendDocument chatId file c = (Ok (messageId, fileId), c') ->
  kept c' fileId file.
Proof.
  intros Hc. cbn. attempt_cases_in c ltac:(discriminate).
  cbn. intros [= <- <- <-]. exists (next_id c). split; [reflexivity|].
  unfold lookup_document. cbn. rewrite find_app_r.
  - cbn. rewrite Z.eqb_refl. reflexivity.
  - eapply Forall_impl; [exact Hc|]. cbn. intros d Hd.
    apply Z.eqb_neq. lia.
Qed.

Lemma model_stored_getMe token c fileId file :
  kept c fileId file -> kept (snd (getMe token c)) fileId file.
Proof.
  intros Hst. cbn. attempt_cases_in c ltac:(exact Hst). exact Hst.
Qed.

Lemma model_stored_sendDocument chatId sent c fileId file :
  fresh_ids c -> kept c fileId file ->
  kept (snd (sendDocument chatId sent c)) fileId file.
Proof.
  intros Hc Hst. cbn. attempt_cases_in c ltac:(exact Hst).
  cbn. destruct Hst as (mid & -> & Hl). exists mid. split; [reflexivity|].
  unfold lookup_document in *. cbn.
  destruct (find _ (documents c)) as [d|] eqn:Hf; [|discriminate].
  erewrite find_app_l by exact Hf. exact Hl.
Qed.

Lemma model_stored_getFileStream fileId' c fileId file :
  kept c fileId file -> kept (snd (getFileStream fileId' c)) fileId file.
Proof.
  intros Hst. cbn. attempt_cases_in c ltac:(exact Hst).
  repeat case_match; exact Hst.
Qed.

Lemma model_getFileStream_stored c fileId file file' c' :
  kept c fileId file ->
  getFileStream (Some fileId) c = (Ok file', c') ->
  file' = file.
Proof.
  intros (mid & -> & Hl). cbn. attempt_cases_in c ltac:(discriminate).
  cbv beta.
  match goal with |- context [lookup_document mid ?c'] =>
    change (lookup_document mid c') with (lookup_document mid c) end.
  rewrite Hl. intros [= <- <-]. reflexivity.
Qed.

Lemma model_telegram_laws : TelegramLaws (H := Model.telegram).
Proof.
  exact {| chat_ok := fresh_ids;
           stored := kept;
           getMe_ok := model_getMe_ok;
           sendDocument_ok := model_sendDocument_ok;
           getFileStream_ok := model_getFileStream_ok;
           deleteMessage_ok := model_deleteMessage_ok;
           sendDocument_stored := model_sendDocument_stored;
           stored_getMe := model_stored_getMe;
           stored_sendDocument := model_stored_sendDocument;
           stored_getFileStream := model_stored_getFileStream;
           getFileStream_stored := model_getFileStream_stored |}.
Defined.

End ModelChat.

(** The upload of [a.txt] to an empty index and its download. *)
Lemma retrieveFile_processFile_witness :
  let opts := Spec.options_for None in
  let w := Model.start FileIndex.empty Model.online in
  let u := {| Pipeline.filename := jsstr "a.txt";
              Pipeline.hash := Encryption.hashData (H := Model.crypto) Spec.hello;
              Pipeline.originalSize := 11;
              Pipeline.storedSize := 104;
              Pipeline.chunks := 1;
              Pipeline.compressed := false |} in
  let r := {| Pipeline.written := Spec.hello; Pipeline.size := 11 |} in
  fst (Pipeline.processFile (H := Model.crypto) (H0 := Model.zlib)
         (H1 := Model.telegram) Spec.two_copies (jsstr "/home/u/a.txt") opts w)
  = Ok u
  /\ fst (Pipeline.retrieveFile (H := Model.crypto) (H0 := Model.zlib)
            (H1 := Model.telegram)
            (FileIndex.mkFile 1 (jsstr "a.txt")
               (Encryption.hashData (H := Model.crypto) Spec.hello) 11 104 1 0)
            opts Spec.after_upload)
     = Ok r
  /\ readFileSync Spec.two_copies (jsstr "/home/u/a.txt")
     = Ok (Pipeline.written r)
  /\ Pipeline.size r = Pipeline.originalSize u.
Proof.
  intros opts w u r.
  split; [vm_compute; reflexivity|]. split; [vm_compute; reflexivity|].
  apply (retrieveFile_processFile (H0 := model_crypto_laws)
           (H2 := model_zlib_laws) (H4 := model_telegram_laws)
           Spec.two_copies (jsstr "/home/u/a.txt") opts w u Spec.after_upload
           (FileIndex.mkFile 1 (jsstr "a.txt")
              (Encryption.hashData (H := Model.crypto) Spec.hello) 11 104 1 0)
           opts Spec.after_upload r
           (snd (Pipeline.retrieveFile (H := Model.crypto) (H0 := Model.zlib)
                   (H1 := Model.telegram)
                   (FileIndex.mkFile 1 (jsstr "a.txt")
                      (Encryption.hashData (H := Model.crypto) Spec.hello)
                      11 104 1 0)
                   opts Spec.after_upload))).
  - split; [constructor|]. split; [intros f Hf; inversion Hf|].
    intros c Hc; inversion Hc.
  - constructor.
  - vm_compute. reflexivity.
  - apply list_elem_of_In. left. vm_compute. reflexivity.
  - reflexivity.
  - reflexivity.
  - auto.
  - reflexivity.
  - vm_compute. reflexivity.
Defined.

(** ** An upload that fails half-way *)

Section FailedUpload.
Context `{Crypto} `{Zlib} `{Telegram}.
Import Monad.

Lemma uploadChunk_files chatId fileId cf w :
  FileIndex.tbl_files (World.db (snd (Pipeline.uploadChunk chatId fileId cf w)))
  = FileIndex.tbl_files (World.db w).
Proof.
  unfold Pipeline.uploadChunk, TelegramClient.sendFile.
  destruct chatId as [cid|]; [|reflexivity].
  destruct (cid =? 0); [reflexivity|].
  cbv [mbind M_bind mret M_ret bot db_try db_run].
  destruct (sendDocument cid (Pipeline.cf_bytes cf) (World.remote w))
    as [[[mid fid]|e] c']; [|reflexivity].
  cbn [World.set_remote World.db]. unfold FileIndex.addChunk.
  destruct (FileIndex.has_chunk _ _ _); [reflexivity|].
  destruct (FileIndex.has_file _ _); reflexivity.
Qed.

Lemma uploadChunks_files chatId fileId cfs : forall w,
  FileIndex.tbl_files
    (World.db (snd (for_each cfs (Pipeline.uploadChunk chatId fileId) w)))
  = FileIndex.tbl_files (World.db w).
Proof.
  induction cfs as [|cf cfs IH]; intros w; cbn [for_each]; [reflexivity|].
  cbv [mbind M_bind].
  pose proof (uploadChunk_files chatId fileId cf w) as Hone.
  destruct (Pipeline.uploadChunk chatId fileId cf w) as [[[]|e] w1];
    cbn [snd] in *; [|exact Hone].
  rewrite IH. exact Hone.
Qed.

(** X3.  A failed upload blocks the retry.  When [processFile] throws after
    it has inserted the row of the file (the connection was made and a chunk
    could not be sent or recorded), the row stays, and every later
    [processFile] of the same file, with any options, throws the duplicate
    error and changes nothing. *)
Theorem processFile_retry fs path opts w e w1 :
  Pipeline.processFile fs path opts w = (Throw e, w1) ->
  FileIndex.tbl_files (World.db w1) <> FileIndex.tbl_files (World.db w) ->
  forall opts' w',
    FileIndex.tbl_files (World.db w') = FileIndex.tbl_files (World.db w1) ->
    Pipeline.processFile fs path opts' w' = (Throw Pipeline.duplicate, w').
Proof.
  unfold Pipeline.processFile at 1.
  set (name := match Pipeline.customName opts with
               | Some (c :: n) => c :: n
               | _ => Path.basename path
               end).
  cbv [mbind M_bind lift db_get gets throw].
  destruct (readFileSync fs path) as [content|e0] eqn:Hread;
    [|intros [= <- <-]; congruence].
  unfold Pipeline.hashFile at 1. rewrite Hread.
  cbv [mbind result_bind mret result_ret].
  destruct (FileIndex.exists_ (World.db w) (Encryption.hashData content))
    eqn:Hdup; [intros [= <- <-]; congruence|].
  destruct (Compressor.compress content name) as [cd flag].
  unfold Pipeline.encrypt.
  destruct (Encryption.encrypt (Pipeline.password opts) (World.rng w) cd)
    as [enc g].
  destruct (Pipeline.frames name (Buffer.len content) (if flag then 1 else 0)
              (Pipeline.split enc)) as [cfs|e0];
    [|intros [= <- <-]; cbn; congruence].
  destruct (initialize_run (botToken (Pipeline.cfg opts)) (World.set_rng g w))
    as [r Hinit].
  rewrite Hinit. destruct r as [[]|e0]; [|intros [= <- <-]; cbn; congruence].
  set (wa := World.set_remote _ (World.set_rng g w)).
  unfold db_try. unfold FileIndex.addFile at 1.
  cbn [FileIndex.fd_hash FileIndex.fd_filename FileIndex.fd_originalSize
       FileIndex.fd_storedSize FileIndex.fd_chunks FileIndex.fd_compressed].
  assert (Hdbwa : World.db wa = World.db w) by reflexivity.
  rewrite Hdbwa, Hdup.
  set (newrow := FileIndex.mkFile _ _ _ _ _ _ _).
  set (d' := FileIndex.mkDb _ _ _ _ _).
  pose proof (uploadChunks_files (chatId (Pipeline.cfg opts))
                (FileIndex.seq_files (World.db w) + 1) cfs
                (World.set_db d' wa)) as Hfiles.
  destruct (for_each cfs _ (World.set_db d' wa)) as [[[]|e0] wb];
    [discriminate|].
  intros [= <- <-] _ opts' w' Hw'. cbn [snd] in Hfiles.
  cbn [World.set_db World.db d' FileIndex.tbl_files] in Hfiles.
  unfold Pipeline.processFile. cbv [mbind M_bind lift db_get gets throw].
  rewrite Hread. unfold Pipeline.hashFile. rewrite Hread.
  cbv [mbind result_bind mret result_ret].
  replace (FileIndex.exists_ (World.db w') (Encryption.hashData content))
    with true; [reflexivity|].
  symmetry. unfold FileIndex.exists_. rewrite Hw', Hfiles.
  rewrite existsb_app. cbn [existsb newrow FileIndex.hash].
  rewrite bool_decide_eq_true_2 by reflexivity.
  rewrite orb_true_r. reflexivity.
Qed.

End FailedUpload.

Lemma processFile_retry_witness :
  Pipeline.processFile (H := Model.crypto) (H0 := Model.zlib)
    (H1 := Model.telegram) Spec.two_copies (jsstr "/home/u/a.txt")
    (Spec.options_for None) Spec.interrupted_upload
  = (Throw Pipeline.duplicate, Spec.interrupted_upload).
Proof.
  apply (processFile_retry (H := Model.crypto) (H0 := Model.zlib)
           (H1 := Model.telegram) Spec.two_copies (jsstr "/home/u/a.txt")
           (Spec.options_for None)
           (Model.start FileIndex.empty (Model.mkChat [] 1 [false; true]))
           Model.network_down Spec.interrupted_upload).
  - vm_compute. reflexivity.
  - vm_compute. discriminate.
  - reflexivity.
Defined.

(** ** The mounted filesystem: flush, then read *)

Section FlushRead.
Context `{CryptoLaws} `{ZlibLaws} `{TelegramLaws}.
Variables (password : jsstring) (cfg : config).
Import Monad Spec.

#[local] Abbreviation uploadFile := (TelegramFS.uploadFile password cfg).
#[local] Abbreviation downloadFile := (TelegramFS.downloadFile password).
#[local] Abbreviation release := (TelegramFS.release password cfg).
#[local] Abbreviation read := (TelegramFS.read password).

#[local] Abbreviation flushed := (Spec.flushed password).

Lemma find_app_none {A} (p : A -> bool) (l l' : list A) :
  find p l = None -> find p (l ++ l') = find p l'.
Proof.
  induction l as [|y l IH]; [reflexivity|]. cbn.
  destruct (p y); [discriminate|]. exact IH.
Qed.

Lemma uploadFile_fresh name data w w1 :
  consistent (World.db w) -> chat_ok (World.remote w) ->
  FileIndex.findByName (World.db w) name = None ->
  FileIndex.findByHash (World.db w) (Encryption.hashData data) = None ->
  uploadFile name data w = (Ok (), w1) ->
  flushed name data (World.rng w) w1
  /\ World.fileCache w1 = World.fileCache w
  /\ World.writeBuffers w1 = World.writeBuffers w.
Proof.
  intros Hcons Hok Hname Hhash.
  unfold TelegramFS.uploadFile, Spec.flushed, TelegramClient.sendFile.
  cbv [mbind M_bind mret M_ret lift db_get gets throw].
  rewrite Hname, Hhash.
  destruct (Compressor.compress data name) as [cd flag] eqn:Hcomp.
  unfold Pipeline.encrypt.
  destruct (Encryption.encrypt password (World.rng w) cd) as [enc g] eqn:Henc.
  destruct (Chunker.createHeader name (Buffer.len data) 0 1
              (if flag then 1 else 0)) as [h|e] eqn:Hh; [|discriminate].
  destruct (chatId cfg) as [cid|]; [|intros [=]].
  destruct (cid =? 0); [intros [=]|].
  cbv [mbind M_bind mret M_ret bot db_try db_run].
  cbn [World.set_rng World.remote].
  pose proof (sendDocument_stored cid (Buffer.concat [h; enc]) (World.remote w))
    as Hnew.
  destruct (sendDocument cid (Buffer.concat [h; enc]) (World.remote w))
    as [[[mid fid]|e] c'] eqn:Hsend; [|discriminate].
  specialize (Hnew mid fid c' Hok eq_refl).
  cbn [World.set_remote World.set_rng World.db TelegramClient.messageId
       TelegramClient.fileId].
  unfold FileIndex.addFile.
  cbn [FileIndex.fd_hash FileIndex.fd_filename FileIndex.fd_originalSize
       FileIndex.fd_storedSize FileIndex.fd_chunks FileIndex.fd_compressed].
  destruct (FileIndex.exists_ (World.db w) (Encryption.hashData data));
    cbv beta iota zeta; [discriminate|].
  cbn [FileIndex.fd_hash FileIndex.fd_filename FileIndex.fd_originalSize
       FileIndex.fd_storedSize FileIndex.fd_chunks FileIndex.fd_compressed].
  set (fileId := FileIndex.seq_files (World.db w) + 1).
  set (newrow := FileIndex.mkFile fileId _ _ _ _ _ _).
  cbn [World.set_db World.db].
  unfold FileIndex.addChunk.
  destruct (FileIndex.has_chunk _ fileId 0) eqn:Hhas;
    cbv beta iota zeta; [discriminate|].
  destruct (FileIndex.has_file _ fileId); cbv beta iota zeta; [|discriminate].
  cbn [negb World.set_db World.db]. intros [= <-].
  cbn [World.fileCache World.writeBuffers World.db World.remote
       World.set_db World.set_remote World.set_rng
       FileIndex.setChunkTelegramId FileIndex.tbl_files FileIndex.tbl_chunks].
  split; [|split; reflexivity].
  unfold FileIndex.setChunkTelegramId.
  cbn [fst snd FileIndex.tbl_files FileIndex.tbl_chunks].
  exists newrow. eexists. exists fid, h.
  split.
  { unfold FileIndex.findByName in *. cbn [FileIndex.tbl_files].
    rewrite find_app_none by exact Hname. cbn [find newrow FileIndex.filename].
    rewrite bool_decide_eq_true_2 by reflexivity. reflexivity. }
  split.
  { unfold FileIndex.getChunks. cbn [FileIndex.tbl_chunks newrow FileIndex.id].
    rewrite map_app.
    rewrite (setChunkTelegramId_absent
               (FileIndex.mkDb _ (FileIndex.tbl_chunks (World.db w)) _ _ _))
      by exact Hhas.
    cbn [FileIndex.tbl_chunks]. rewrite List.filter_app.
    rewrite filter_fresh by (exact Hcons || (unfold fileId; lia)).
    cbn [app map FileIndex.file_id FileIndex.chunk_index List.filter].
    change (0 =? 0) with true. rewrite (Z.eqb_refl fileId).
    cbn [andb FileIndex.file_id List.filter].
    rewrite (Z.eqb_refl fileId). reflexivity. }
  split; [reflexivity|]. split; [exact Hh|].
  rewrite Henc. cbn [fst].
  unfold Buffer.concat in Hnew. cbn [List.concat] in Hnew.
  rewrite app_nil_r in Hnew. exact Hnew.
Qed.

Lemma deleteMessage_remote messageId w :
  exists b,
    TelegramClient.deleteMessage messageId w
    = (Ok b, World.set_remote
               (snd (bot_deleteMessage messageId (World.remote w))) w).
Proof.
  unfold TelegramClient.deleteMessage, try_catch, bot.
  cbv [mbind M_bind mret M_ret].
  destruct (bot_deleteMessage messageId (World.remote w)) as [[[]|e] c];
    eexists; reflexivity.
Qed.

Lemma deleteOld_ok (chunks : list FileIndex.chunk_row) : forall w,
  chat_ok (World.remote w) ->
  exists c, TelegramFS.deleteOld chunks w = (Ok (), World.set_remote c w)
            /\ chat_ok c.
Proof.
  unfold TelegramFS.deleteOld.
  induction chunks as [|ch l IH]; intros w Hok; cbn [for_each].
  - exists (World.remote w). split; [destruct w; reflexivity|exact Hok].
  - cbv [mbind M_bind mret M_ret try_catch].
    destruct (deleteMessage_remote (FileIndex.message_id ch) w) as (b & ->).
    destruct (IH (World.set_remote
                    (snd (bot_deleteMessage (FileIndex.message_id ch)
                            (World.remote w))) w)) as (c2 & Hrun & Hok2).
    { apply deleteMessage_ok, Hok. }
    cbv [mbind M_bind mret M_ret try_catch] in Hrun. rewrite Hrun.
    exists c2. split; [reflexivity|exact Hok2].
Qed.

Lemma NoDup_map_filter {A B} (f : A -> B) (p : A -> bool) (l : list A) :
  NoDup (map f l) -> NoDup (map f (List.filter p l)).
Proof.
  induction l as [|x l IH]; [auto|]. cbn [map List.filter].
  intros Hnd. apply NoDup_cons in Hnd as [Hx Hnd].
  destruct (p x); [|auto]. cbn [map]. apply NoDup_cons. split; [|auto].
  intros Hin. apply Hx.
  apply list_elem_of_In, in_map_iff in Hin as (y & Hy & Hin).
  apply filter_In in Hin as [Hin _].
  apply list_elem_of_In, in_map_iff. exists y. auto.
Qed.

Lemma delete_consistent d fileId :
  consistent d -> consistent (FileIndex.delete d fileId).
Proof.
  intros (Hnd & Hseq & Hfk). unfold consistent, FileIndex.delete.
  cbn [FileIndex.tbl_files FileIndex.tbl_chunks FileIndex.seq_files].
  split; [apply NoDup_map_filter, Hnd|]. split.
  - intros f Hf. apply list_elem_of_In, filter_In in Hf as [Hf _].
    apply Hseq, list_elem_of_In, Hf.
  - intros c Hc. apply list_elem_of_In, filter_In in Hc as [Hc Hne].
    specialize (Hfk c (proj2 (list_elem_of_In _ _) Hc)).
    apply has_file_true in Hfk as (f & Hf & Hid).
    apply has_file_true. exists f. split; [|exact Hid].
    apply list_elem_of_In, filter_In. split; [apply list_elem_of_In, Hf|].
    rewrite Hid. exact Hne.
Qed.

Lemma uploadFile_Ok name data w w1 :
  consistent (World.db w) -> chat_ok (World.remote w) ->
  FileIndex.findByName (without_found (World.db w) name) name = None ->
  FileIndex.findByHash (without_found (World.db w) name)
    (Encryption.hashData data) = None ->
  uploadFile name data w = (Ok (), w1) ->
  flushed name data (World.rng w) w1
  /\ World.fileCache w1 = World.fileCache w
  /\ World.writeBuffers w1 = World.writeBuffers w.
Proof.
  intros Hcons Hok. unfold without_found.
  destruct (FileIndex.findByName (World.db w) name) as [old|] eqn:Hfind.
  - intros Hname Hhash.
    destruct (deleteOld_ok (FileIndex.getChunks (World.db w) (FileIndex.id old))
                w Hok) as (c & Hdel & Hokc).
    set (w0 := World.set_db (FileIndex.delete (World.db w) (FileIndex.id old))
                 (World.set_remote c w)).
    assert (Hsame : uploadFile name data w = uploadFile name data w0).
    { unfold TelegramFS.uploadFile.
      cbv [mbind M_bind mret M_ret db_get gets db_run].
      rewrite Hfind, Hdel.
      cbn [World.db World.set_remote World.set_db w0]. rewrite Hname.
      reflexivity. }
    rewrite Hsame. intros Hup.
    apply uploadFile_fresh in Hup; [exact Hup| | | |].
    + apply delete_consistent, Hcons.
    + exact Hokc.
    + exact Hname.
    + exact Hhash.
  - apply uploadFile_fresh; assumption.
Qed.

Lemma downloadFile_flushed name data g w1 r w2 :
  flushed name data g w1 ->
  downloadFile name w1 = (Ok r, w2) -> r = data.
Proof.
  intros (row & chunk & fid & h & Hfind & Hchunks & Hfid & Hh & Hst).
  unfold TelegramFS.downloadFile.
  cbv [mbind M_bind mret M_ret db_get gets lift throw].
  rewrite Hfind, Hchunks. cbn [map_each].
  cbv [mbind M_bind mret M_ret].
  unfold Pipeline.downloadChunk, TelegramClient.downloadFile, bot.
  cbv [mbind M_bind mret M_ret lift]. rewrite Hfid.
  pose proof (fun file' c' =>
    getFileStream_stored (World.remote w1) fid _ file' c' Hst) as Hget.
  destruct (getFileStream (Some fid) (World.remote w1)) as [[file|e] c1];
    [|discriminate].
  specialize (Hget file c1 eq_refl). subst file.
  destruct (parseHeader_framed _ _ _ _ _ _
              (fst (Encryption.encrypt password g
                      (fst (Compressor.compress data name)))) Hh)
    as [Hparse Hpay].
  rewrite Hparse, Hpay. cbn [Chunker.chunkIndex Chunker.totalChunks
                             Chunker.compressed].
  unfold Pipeline.decode, Pipeline.sort_chunks, Sql.order_by.
  cbn [fold_left Sql.insert_by map Pipeline.dl_data Buffer.concat List.concat].
  unfold Buffer.concat. cbn [List.concat map Pipeline.dl_data].
  rewrite app_nil_r, decrypt_sealed.
  cbn [mbind result_bind Pipeline.first_compressed Pipeline.dl_compressed].
  replace (Z.odd (if snd (Compressor.compress data name) then 1 else 0))
    with (snd (Compressor.compress data name))
    by (destruct (snd (Compressor.compress data name)); reflexivity).
  rewrite decompress_compressed. intros [= <- <-]. reflexivity.
Qed.

Lemma read_miss filepath w length position :
  cache_miss w (Path.basename filepath) ->
  exists w0,
    World.db w0 = World.db w /\ World.remote w0 = World.remote w
    /\ fst (read filepath length position w)
       = match fst (downloadFile (Path.basename filepath) w0) with
         | Ok data =>
           Ok (Buffer.len (Buffer.subarray data position (position + length)),
               Buffer.subarray data position (position + length))
         | Throw _ => Ok (TelegramFS.EIO, [])
         end.
Proof.
  unfold cache_miss, TelegramFS.read, try_catch, TelegramFS.getCached.
  cbv [mbind M_bind mret M_ret].
  destruct (World.fileCache w !! Path.basename filepath) as [entry|].
  - intros Hold.
    destruct (Z.ltb_spec TelegramFS.CACHE_TTL
                (World.clock w - World.timestamp entry)); [|lia].
    set (w0 := World.set_fileCache _ w). exists w0.
    split; [reflexivity|]. split; [reflexivity|].
    destruct (downloadFile (Path.basename filepath) w0) as [[data|e] wd];
      reflexivity.
  - intros _. exists w. split; [reflexivity|]. split; [reflexivity|].
    destruct (downloadFile (Path.basename filepath) w) as [[data|e] wd];
      reflexivity.
Qed.


(** X10.  Flush, then read.  Under the three contracts, on a consistent
    index: when [release] has flushed the modified write buffer of a name
    without error, where, the row found for the name aside, no row matches
    the name and none has the digest of the buffer, the write buffer of the
    name is gone and a [read] of the name that returns gives either the I/O
    error, or the requested slice of the bytes that were in the buffer. *)
Theorem read_after_release filepath w wb w1 length position r w2 :
  consistent (World.db w) -> chat_ok (World.remote w) ->
  World.writeBuffers w !! Path.basename filepath = Some wb ->
  World.wb_modified wb = true ->
  FileIndex.findByName (without_found (World.db w) (Path.basename filepath))
    (Path.basename filepath) = None ->
  FileIndex.findByHash (without_found (World.db w) (Path.basename filepath))
    (Encryption.hashData (World.wb_data wb)) = None ->
  release filepath w = (Ok 0, w1) ->
  read filepath length position w1 = (Ok r, w2) ->
  World.writeBuffers w1 !! Path.basename filepath = None
  /\ (r = (TelegramFS.EIO, [])
      \/ r = (Buffer.len (Buffer.subarray (World.wb_data wb) position
                            (position + length)),
              Buffer.subarray (World.wb_data wb) position
                (position + length))).
Proof.
  intros Hcons Hok Hwb Hmod Hname Hhash.
  unfold TelegramFS.release, TelegramFS.get_buffer.
  cbv [mbind M_bind mret M_ret gets]. rewrite Hwb, Hmod. cbn [negb].
  unfold try_catch.
  cbv [mbind M_bind mret M_ret modify TelegramFS.invalidateCache].
  destruct (uploadFile (Path.basename filepath) (World.wb_data wb) w)
    as [[[]|e] wu] eqn:Hup; [|discriminate].
  apply uploadFile_Ok in Hup as (Hfl & Hcache & Hbufs); try assumption.
  intros [= <-] Hread.
  split.
  { cbn [World.set_fileCache World.set_writeBuffers World.writeBuffers].
    apply lookup_delete_eq. }
  revert Hread. revert Hfl. generalize (World.rng w). intros g Hfl.
  unfold TelegramFS.read, try_catch, TelegramFS.getCached.
  cbv [mbind M_bind mret M_ret].
  cbn [World.set_fileCache World.set_writeBuffers World.fileCache].
  rewrite lookup_delete_eq.
  match goal with
  | |- context [TelegramFS.downloadFile _ _ ?x] => set (w1 := x)
  end.
  assert (Hfl1 : flushed (Path.basename filepath) (World.wb_data wb) g w1).
  { exact Hfl. }
  destruct (downloadFile (Path.basename filepath) w1) as [[data|e] wd] eqn:Hdl.
  - apply (downloadFile_flushed _ _ _ _ _ _ Hfl1) in Hdl. subst data.
    unfold TelegramFS.setCache, modify. intros [= <- <-]. right. reflexivity.
  - intros [= <- <-]. left. reflexivity.
Qed.

End FlushRead.

(** A file written under a fresh name, flushed and read back. *)
Lemma read_after_release_witness :
  let w := Spec.flushing [] "a.txt" in
  let w1 := snd (TelegramFS.release (H := Model.crypto) (H0 := Model.zlib)
                   (H1 := Model.telegram) (jsstr "pw") Model.the_config
                   (jsstr "/a.txt") w) in
  fst (TelegramFS.release (H := Model.crypto) (H0 := Model.zlib)
         (H1 := Model.telegram) (jsstr "pw") Model.the_config
         (jsstr "/a.txt") w) = Ok 0
  /\ fst (TelegramFS.read (H := Model.crypto) (H0 := Model.zlib)
            (H1 := Model.telegram) (jsstr "pw") (jsstr "/a.txt") 100 0 w1)
     = Ok (4, Spec.same_bytes)
  /\ World.writeBuffers w1 !! Path.basename (jsstr "/a.txt") = None
  /\ ((4, Spec.same_bytes) = (TelegramFS.EIO, [])
      \/ (4, Spec.same_bytes)
         = (Buffer.len (Buffer.subarray Spec.same_bytes 0 (0 + 100)),
            Buffer.subarray Spec.same_bytes 0 (0 + 100))).
Proof.
  intros w w1.
  split; [vm_compute; reflexivity|]. split; [vm_compute; reflexivity|].
  apply (read_after_release (H0 := model_crypto_laws) (H2 := model_zlib_laws)
           (H4 := model_telegram_laws) (jsstr "pw") Model.the_config
           (jsstr "/a.txt") w (World.mkWb Spec.same_bytes true false) w1 100 0
           (4, Spec.same_bytes)
           (snd (TelegramFS.read (H := Model.crypto) (H0 := Model.zlib)
                   (H1 := Model.telegram) (jsstr "pw") (jsstr "/a.txt")
                   100 0 w1))).
  - split; [constructor|]. split; [intros f Hf; inversion Hf|].
    intros c Hc; inversion Hc.
  - constructor.
  - vm_compute. reflexivity.
  - reflexivity.
  - vm_compute. reflexivity.
  - vm_compute. reflexivity.
  - vm_compute. reflexivity.
  - vm_compute. reflexivity.
Defined.

(** ** The mounted filesystem: the write buffers *)

Section WriteBuffers.
Context `{Telegram}.
Import Monad Buffer.

Lemma grow_zeros (old : Buffer.t) n :
  len old <= n ->
  TelegramFS.grow old n = old ++ replicate (Z.to_nat (n - len old)) x00.
Proof.
  intros Hn. unfold TelegramFS.grow, alloc.
  change (replicate (Z.to_nat n) x00) with ([] ++ replicate (Z.to_nat n) x00).
  rewrite (copy_all_at [] old (Z.to_nat n) 0);
    [|unfold len in Hn; lia|reflexivity].
  cbn [app]. do 2 f_equal. unfold len. lia.
Qed.

Lemma copy_window (src target : Buffer.t) position length :
  0 <= position -> 0 <= length <= len src ->
  position + length <= len target ->
  copy src target position 0 length
  = take (Z.to_nat position) target ++ take (Z.to_nat length) src
    ++ drop (Z.to_nat (position + length)) target.
Proof.
  intros Hp Hl Hfit. unfold copy.
  rewrite subarray_nonneg by lia. rewrite drop_0, Z.sub_0_r.
  rewrite (take_ge (take _ src)).
  2:{ rewrite length_take. unfold len in *. lia. }
  unfold blit. rewrite length_take. do 3 f_equal. unfold len in *. lia.
Qed.



End WriteBuffers.

(** ** The mounted filesystem: removing and renaming *)

Section Names.
Context `{Crypto} `{Zlib} `{Telegram}.
Import Monad.

(** What the loop of [unlink] leaves of the chat. *)
Lemma unlink_loop_remote (chunks : list FileIndex.chunk_row) : forall w,
  for_each chunks (fun chunk =>
    TelegramClient.deleteMessage (FileIndex.message_id chunk) ;; mret ()) w
  = (Ok (), World.set_remote (Spec.asked_to_delete chunks (World.remote w)) w).
Proof.
  unfold Spec.asked_to_delete.
  induction chunks as [|ch l IH]; intros w; cbn [for_each fold_left].
  - destruct w; reflexivity.
  - cbv [mbind M_bind mret M_ret try_catch TelegramClient.deleteMessage bot].
    destruct (bot_deleteMessage (FileIndex.message_id ch) (World.remote w))
      as [[[]|e] c1]; cbn [snd];
      cbv [mbind M_bind mret M_ret] in IH; rewrite IH; reflexivity.
Qed.

(** X14.  What the chat answers does not decide the outcome of [unlink].
    When the lookup by name finds nothing it returns ENOENT and changes
    nothing.  Otherwise the chat is asked to delete the message of each
    chunk of the row found, in the order of the chunk indexes, a refusal or
    a failure of the network being no error ([deleteMessage] answers false);
    then, the statements on the index going through, as every statement of
    this model does, the row found is deleted with its chunk rows, so that
    the index holds neither the file nor a chunk of it, the entry of the
    name in the read cache is dropped, and the result is 0. *)
Theorem unlink_outcome filepath w :
  let name := Path.basename filepath in
  match FileIndex.findByName (World.db w) name with
  | None => TelegramFS.unlink filepath w = (Ok TelegramFS.ENOENT, w)
  | Some file =>
    TelegramFS.unlink filepath w
    = (Ok 0,
       World.set_fileCache (delete name (World.fileCache w))
         (World.set_db (FileIndex.delete (World.db w) (FileIndex.id file))
            (World.set_remote
               (Spec.asked_to_delete
                  (FileIndex.getChunks (World.db w) (FileIndex.id file))
                  (World.remote w)) w)))
    /\ FileIndex.has_file (FileIndex.delete (World.db w) (FileIndex.id file))
         (FileIndex.id file) = false
    /\ FileIndex.getChunks
         (FileIndex.delete (World.db w) (FileIndex.id file))
         (FileIndex.id file) = []
  end.
Proof.
  intros name. unfold TelegramFS.unlink. fold name.
  cbv [mbind M_bind mret M_ret db_get gets].
  destruct (FileIndex.findByName (World.db w) name) as [file|];
    [|reflexivity].
  pose proof (unlink_loop_remote
                (FileIndex.getChunks (World.db w) (FileIndex.id file)) w)
    as Hrun.
  split; [|split].
  - unfold try_catch. cbv [mbind M_bind mret M_ret db_get gets db_run modify
                           TelegramFS.invalidateCache].
    cbv [mbind M_bind mret M_ret] in Hrun. rewrite Hrun. reflexivity.
  - unfold FileIndex.has_file, FileIndex.delete. cbn [FileIndex.tbl_files].
    apply not_true_iff_false. intros Hex.
    apply existsb_exists in Hex as (f & Hf & Hid).
    apply filter_In in Hf as [_ Hne]. rewrite Hid in Hne. discriminate.
  - unfold FileIndex.getChunks, FileIndex.delete. cbn [FileIndex.tbl_chunks].
    replace (List.filter _ (List.filter _ _)) with (@nil FileIndex.chunk_row);
      [reflexivity|].
    symmetry. induction (FileIndex.tbl_chunks (World.db w)) as [|ch l IH];
      [reflexivity|].
    cbn [List.filter].
    destruct (FileIndex.file_id ch =? FileIndex.id file) eqn:E; cbn [negb];
      [exact IH|].
    cbn [List.filter]. rewrite E. exact IH.
Qed.

Lemma find_exists {A} (p : A -> bool) (l : list A) x :
  In x l -> p x = true -> find p l <> None.
Proof.
  intros Hin Hp Hnone. eapply find_none in Hnone; [|exact Hin]. congruence.
Qed.

(** X15.  [rename] changes the name in the index only.  When the lookup
    by the old name finds nothing it returns ENOENT and changes nothing;
    otherwise it returns 0 without looking at the new name: the chat, the
    chunk rows and the write buffers are as before, the rows keep their ids
    and digests, the rows with the id of the row found have the new name and
    the others their old one, and the lookup by the new name finds a
    row. *)
Theorem rename_outcome src dest w :
  let oldName := Path.basename src in
  let newName := Path.basename dest in
  match FileIndex.findByName (World.db w) oldName with
  | None => TelegramFS.rename src dest w = (Ok TelegramFS.ENOENT, w)
  | Some file =>
    exists w',
      TelegramFS.rename src dest w = (Ok 0, w')
      /\ World.remote w' = World.remote w
      /\ World.writeBuffers w' = World.writeBuffers w
      /\ FileIndex.tbl_chunks (World.db w') = FileIndex.tbl_chunks (World.db w)
      /\ map (fun f => (FileIndex.id f, FileIndex.hash f))
             (FileIndex.tbl_files (World.db w'))
         = map (fun f => (FileIndex.id f, FileIndex.hash f))
               (FileIndex.tbl_files (World.db w))
      /\ (forall f, f ∈ FileIndex.tbl_files (World.db w') ->
                    FileIndex.filename f
                    = if FileIndex.id f =? FileIndex.id file then newName
                      else FileIndex.filename f)
      /\ (forall f, f ∈ FileIndex.tbl_files (World.db w) ->
                    FileIndex.id f <> FileIndex.id file ->
                    f ∈ FileIndex.tbl_files (World.db w'))
      /\ FileIndex.findByName (World.db w') newName <> None
  end.
Proof.
  intros oldName newName. unfold TelegramFS.rename. fold oldName newName.
  cbv [mbind M_bind mret M_ret db_get gets db_run modify].
  destruct (FileIndex.findByName (World.db w) oldName) as [file|] eqn:Hfind;
    [|reflexivity].
  eexists. split; [reflexivity|].
  set (upd := fun f : FileIndex.file_row =>
                if FileIndex.id f =? FileIndex.id file
                then FileIndex.mkFile (FileIndex.id f) newName (FileIndex.hash f)
                       (FileIndex.original_size f) (FileIndex.stored_size f)
                       (FileIndex.chunks f) (FileIndex.compressed f)
                else f).
  assert (Hfiles : forall w0 : World.t,
    FileIndex.tbl_files
      (World.db (match World.fileCache
                         (World.set_db
                            (FileIndex.setFilename (World.db w) newName
                               (FileIndex.id file)) w) !! oldName with
                 | Some cached =>
                   World.set_fileCache
                     (<[newName := cached]>
                        (delete oldName
                           (World.fileCache
                              (World.set_db
                                 (FileIndex.setFilename (World.db w) newName
                                    (FileIndex.id file)) w))))
                     (World.set_db
                        (FileIndex.setFilename (World.db w) newName
                           (FileIndex.id file)) w)
                 | None =>
                   World.set_db
                     (FileIndex.setFilename (World.db w) newName
                        (FileIndex.id file)) w
                 end))
    = map upd (FileIndex.tbl_files (World.db w))).
  { intros _. destruct (_ !! oldName); reflexivity. }
  specialize (Hfiles w).
  split; [destruct (_ !! oldName); reflexivity|].
  split; [destruct (_ !! oldName); reflexivity|].
  split; [destruct (_ !! oldName); reflexivity|].
  unfold FileIndex.findByName in *. rewrite Hfiles.
  split.
  { rewrite map_map. apply map_ext. intros f. unfold upd.
    destruct (FileIndex.id f =? FileIndex.id file); reflexivity. }
  split.
  { intros f Hf. apply list_elem_of_In, in_map_iff in Hf as (f0 & <- & _).
    unfold upd. destruct (FileIndex.id f0 =? FileIndex.id file) eqn:E;
      cbn [FileIndex.id FileIndex.filename]; rewrite E; reflexivity. }
  split.
  { intros f Hf Hne. apply list_elem_of_In, in_map_iff. exists f.
    split; [|apply list_elem_of_In, Hf].
    unfold upd. destruct (Z.eqb_spec (FileIndex.id f) (FileIndex.id file));
      [contradiction|reflexivity]. }
  apply find_some in Hfind as [Hin _].
  apply (find_exists _ _ (upd file)).
  - apply in_map, Hin.
  - unfold upd. rewrite Z.eqb_refl. cbn [FileIndex.filename].
    rewrite bool_decide_eq_true_2 by reflexivity. reflexivity.
Qed.

End Names.

(** ** Folder synchronisation: what a scan adds up to *)

Section OnlyAdds.
Context `{Crypto} `{Zlib} `{Telegram}.
Import Monad Spec.

Lemma grown_refl d : grown d d.
Proof. split; reflexivity. Qed.

Lemma grown_trans d1 d2 d3 : grown d1 d2 -> grown d2 d3 -> grown d1 d3.
Proof. intros [? ?] [? ?]. split; etrans; eassumption. Qed.

Lemma grows_ret {A} (a : A) : grows (mret a).
Proof. intros w. apply grown_refl. Qed.

Lemma grows_throw {A} (e : exn) : grows (throw (A := A) e).
Proof. intros w. apply grown_refl. Qed.

Lemma grows_lift {A} (r : result A) : grows (lift r).
Proof. intros w. apply grown_refl. Qed.

Lemma grows_db_get {A} (q : FileIndex.t -> A) : grows (db_get q).
Proof. intros w. apply grown_refl. Qed.

Lemma grows_modify_emit e : grows (modify (World.emit e)).
Proof. intros w. apply grown_refl. Qed.

Lemma grows_bot {A} (call : chat -> result A * chat) : grows (bot call).
Proof.
  intros w. unfold bot. destruct (call (World.remote w)). apply grown_refl.
Qed.

Lemma grows_bind {A B} (m : M World.t A) (k : A -> M World.t B) :
  grows m -> (forall a, grows (k a)) -> grows (m ≫= k).
Proof.
  intros Hm Hk w. cbv [mbind M_bind]. specialize (Hm w).
  destruct (m w) as [[a|e] w1]; cbn [snd] in *; [|exact Hm].
  eapply grown_trans; [exact Hm|apply Hk].
Qed.

Lemma grows_try_catch {A} (m : M World.t A) (h : exn -> M World.t A) :
  grows m -> (forall e, grows (h e)) -> grows (try_catch m h).
Proof.
  intros Hm Hh w. unfold try_catch. specialize (Hm w).
  destruct (m w) as [[a|e] w1]; cbn [snd] in *; [exact Hm|].
  eapply grown_trans; [exact Hm|apply Hh].
Qed.

Lemma grows_for_each {A} (l : list A) (body : A -> M World.t ()) :
  (forall x, grows (body x)) -> grows (for_each l body).
Proof.
  intros Hb. induction l as [|x l IH]; cbn [for_each]; [apply grows_ret|].
  apply grows_bind; [apply Hb|]. intros _. exact IH.
Qed.

Lemma grows_initialize token : grows (TelegramClient.initialize token).
Proof.
  apply grows_try_catch; [apply grows_bot|]. intros e. apply grows_throw.
Qed.

Lemma grows_sendFile chatId file : grows (TelegramClient.sendFile chatId file).
Proof.
  unfold TelegramClient.sendFile. destruct chatId as [c|]; [|apply grows_throw].
  destruct (c =? 0); [apply grows_throw|].
  apply grows_bind; [apply grows_bot|]. intros [mid fid]. apply grows_ret.
Qed.

Lemma grows_uploadChunk chatId fileId cf :
  grows (Pipeline.uploadChunk chatId fileId cf).
Proof.
  intros w. unfold Pipeline.uploadChunk.
  cbv [mbind M_bind mret M_ret db_try db_run].
  pose proof (grows_sendFile chatId (Pipeline.cf_bytes cf) w) as Hs.
  destruct (TelegramClient.sendFile chatId (Pipeline.cf_bytes cf) w)
    as [[sent|e] w1]; cbn [snd] in *; [|exact Hs].
  eapply grown_trans; [exact Hs|]. unfold FileIndex.addChunk.
  destruct (FileIndex.has_chunk _ _ _) eqn:Hhas; cbv beta iota zeta;
    [apply grown_refl|].
  destruct (FileIndex.has_file _ _); cbv beta iota zeta; [|apply grown_refl].
  cbn [negb snd World.set_db World.db]. unfold FileIndex.setChunkTelegramId.
  split; cbn [FileIndex.tbl_files FileIndex.tbl_chunks]; [reflexivity|].
  rewrite map_app, setChunkTelegramId_absent by exact Hhas.
  apply prefix_app_r. reflexivity.
Qed.

Lemma grows_processFile fs filePath opts :
  grows (Pipeline.processFile fs filePath opts).
Proof.
  unfold Pipeline.processFile.
  apply grows_bind; [apply grows_lift|]. intros fileData.
  apply grows_bind; [apply grows_lift|]. intros hash.
  apply grows_bind; [apply grows_db_get|].
  intros [|]; [apply grows_throw|].
  destruct (Compressor.compress _ _) as [compressedData compressed].
  apply grows_bind.
  { intros w. unfold Pipeline.encrypt.
    destruct (Encryption.encrypt _ _ _). apply grown_refl. }
  intros encryptedData.
  apply grows_bind; [apply grows_lift|]. intros chunkFiles.
  apply grows_bind; [apply grows_initialize|]. intros _.
  apply grows_bind.
  { intros w. unfold db_try, FileIndex.addFile.
    destruct (FileIndex.exists_ _ _); cbv beta iota zeta; [apply grown_refl|].
    split; cbn; [apply prefix_app_r|]; reflexivity. }
  intros fileId.
  apply grows_bind; [|intros _; apply grows_ret].
  apply grows_for_each. intros cf. apply grows_uploadChunk.
Qed.

Lemma grows_updateSyncState folderId path hash mtime :
  grows (SyncEngine.updateSyncState folderId path hash mtime).
Proof. intros w. split; reflexivity. Qed.

Section Scan.
Variables (password : jsstring) (cfg : config) (fs : localfs).

#[local] Abbreviation syncFile := (SyncEngine.syncFile password cfg fs).
#[local] Abbreviation syncFiles := (SyncEngine.syncFiles password cfg fs).
#[local] Abbreviation syncFolder := (SyncEngine.syncFolder password cfg fs).

Lemma grows_syncFile folderId stateMap c file :
  grows (syncFile folderId stateMap c file).
Proof.
  destruct c as [u s]. unfold SyncEngine.syncFile.
  destruct (match stateMap !! sc_relativePath file with
            | Some existing => sc_mtime file <=? FileIndex.mtime existing
            | None => false
            end); [apply grows_ret|].
  apply grows_bind; [apply grows_lift|]. intros hash.
  destruct (match stateMap !! sc_relativePath file with
            | Some existing => bool_decide (FileIndex.file_hash existing = hash)
            | None => false
            end).
  { apply grows_bind; [apply grows_updateSyncState|]. intros _.
    apply grows_ret. }
  apply grows_try_catch.
  - apply grows_bind; [apply grows_modify_emit|]. intros _.
    apply grows_bind; [apply grows_processFile|]. intros _.
    apply grows_bind; [apply grows_updateSyncState|]. intros _.
    apply grows_bind; [apply grows_modify_emit|]. intros _. apply grows_ret.
  - intros err. destruct (includes _ _).
    + apply grows_bind; [apply grows_updateSyncState|]. intros _.
      apply grows_ret.
    + apply grows_bind; [apply grows_modify_emit|]. intros _. apply grows_ret.
Qed.

Lemma grows_syncFiles folderId stateMap files : forall c,
  grows (syncFiles folderId stateMap c files).
Proof.
  induction files as [|file files IH]; intros c; cbn [SyncEngine.syncFiles];
    [apply grows_ret|].
  apply grows_bind; [apply grows_syncFile|]. intros c'. apply IH.
Qed.

(** X17.  A scan only adds.  Whatever [syncFolder] returns or throws,
    the rows that [files] and [chunks] held before are still there, unchanged
    and in the same order, with the rows of the uploads behind them: no scan
    deletes or rewrites an uploaded file, whatever became of the local
    one. *)
Theorem syncFolder_only_adds folderPath (w : World.t) :
  let w' := snd (syncFolder folderPath w) in
  FileIndex.tbl_files (World.db w)
    `prefix_of` FileIndex.tbl_files (World.db w')
  /\ FileIndex.tbl_chunks (World.db w)
       `prefix_of` FileIndex.tbl_chunks (World.db w').
Proof.
  assert (Hg : grows (syncFolder folderPath)).
  { unfold SyncEngine.syncFolder.
    apply grows_bind; [apply grows_db_get|]. intros [folder|];
      [|apply grows_throw].
    apply grows_bind; [apply grows_modify_emit|]. intros _.
    apply grows_bind; [apply grows_db_get|]. intros states.
    cbv zeta.
    apply grows_bind; [apply grows_syncFiles|]. intros [u s].
    apply grows_bind; [apply grows_modify_emit|]. intros _. apply grows_ret. }
  exact (Hg w).
Qed.

Lemma upload_errors_set_db d (w : World.t) :
  Spec.upload_errors (World.set_db d w) = Spec.upload_errors w.
Proof. reflexivity. Qed.

Lemma syncFile_count folderId stateMap u s file w u' s' w' :
  syncFile folderId stateMap (u, s) file w = (Ok (u', s'), w') ->
  u <= u' /\ s <= s'
  /\ (Spec.upload_errors w <= Spec.upload_errors w')%nat
  /\ u' + s' + Z.of_nat (Spec.upload_errors w')
     = u + s + Z.of_nat (Spec.upload_errors w) + 1.
Proof.
  destruct (stale_or_fresh stateMap file) as [(ex & Hex & Hm)|Hst].
  { rewrite (syncFile_skip password cfg fs _ _ _ _ _ _ _ Hex Hm).
    intros [= <- <- <-]. lia. }
  destruct (readFileSync fs (sc_path file)) as [content|e] eqn:Hread.
  2:{ rewrite (syncFile_unreadable password cfg fs _ _ _ _ _ _ Hst Hread).
      discriminate. }
  destruct (stateMap !! sc_relativePath file) as [ex|] eqn:Hex.
  - destruct (decide (FileIndex.file_hash ex = Encryption.hashData content))
      as [Heq|Hne].
    + rewrite (syncFile_touch password cfg fs _ _ _ _ _ _ _ _ Hst Hread Hex Heq).
      intros [= <- <- <-]. rewrite upload_errors_set_db. lia.
    + pose proof (syncFile_upload password cfg fs folderId stateMap u s file w
                    content Hst Hread) as Hup.
      rewrite Hex in Hup. specialize (Hup ltac:(intros ? [= <-]; exact Hne)).
      cbv zeta in Hup.
      pose proof (keeps_sync_processFile fs (sc_path file)
                    (Spec.upload_opts password cfg file)
                    (World.emit (World.file_upload_start (sc_relativePath file))
                       w)) as (_ & _ & Hev).
      destruct (Pipeline.processFile fs (sc_path file) _ _) as [r w1].
      cbn [snd] in Hev. rewrite Hup. clear Hup.
      assert (He1 : Spec.upload_errors w1 = Spec.upload_errors w).
      { unfold Spec.upload_errors. rewrite Hev. reflexivity. }
      destruct r as [up|err].
      * intros [= <- <- <-]. unfold Spec.upload_errors in *. cbn in *.
        rewrite He1. lia.
      * destruct (includes (message err) (jsstr "duplicate")).
        -- intros [= <- <- <-]. rewrite upload_errors_set_db, He1. lia.
        -- intros [= <- <- <-]. unfold Spec.upload_errors in *. cbn in *.
           rewrite He1. lia.
  - pose proof (syncFile_upload password cfg fs folderId stateMap u s file w
                  content Hst Hread) as Hup.
    rewrite Hex in Hup. specialize (Hup ltac:(intros ? [=])).
    cbv zeta in Hup.
    pose proof (keeps_sync_processFile fs (sc_path file)
                  (Spec.upload_opts password cfg file)
                  (World.emit (World.file_upload_start (sc_relativePath file))
                     w)) as (_ & _ & Hev).
    destruct (Pipeline.processFile fs (sc_path file) _ _) as [r w1].
    cbn [snd] in Hev. rewrite Hup. clear Hup.
    assert (He1 : Spec.upload_errors w1 = Spec.upload_errors w).
    { unfold Spec.upload_errors. rewrite Hev. reflexivity. }
    destruct r as [up|err].
    + intros [= <- <- <-]. unfold Spec.upload_errors in *. cbn in *.
      rewrite He1. lia.
    + destruct (includes (message err) (jsstr "duplicate")).
      * intros [= <- <- <-]. rewrite upload_errors_set_db, He1. lia.
      * intros [= <- <- <-]. unfold Spec.upload_errors in *. cbn in *.
        rewrite He1. lia.
Qed.

Lemma syncFiles_count folderId stateMap files : forall u s w u' s' w',
  syncFiles folderId stateMap (u, s) files w = (Ok (u', s'), w') ->
  u <= u' /\ s <= s'
  /\ (Spec.upload_errors w <= Spec.upload_errors w')%nat
  /\ u' + s' + Z.of_nat (Spec.upload_errors w')
     = u + s + Z.of_nat (Spec.upload_errors w) + Z.of_nat (length files).
Proof.
  induction files as [|file files IH]; intros u s w u' s' w';
    cbn [SyncEngine.syncFiles].
  - intros [= <- <- <-]. cbn. lia.
  - cbv [mbind M_bind].
    destruct (syncFile folderId stateMap (u, s) file w) as [[[u1 s1]|e] w1]
      eqn:Hone; [|discriminate].
    intros Hrest. apply syncFile_count in Hone. apply IH in Hrest.
    cbn [length]. lia.
Qed.

(** X16.  A scan accounts for every file once.  When [syncFolder]
    returns, the numbers of files uploaded and skipped are not negative and,
    with the number of upload errors reported during the scan, add up to the
    number of files scanned. *)
Theorem syncFolder_counts folderPath (w : World.t) uploaded skipped w' :
  syncFolder folderPath w = (Ok (uploaded, skipped), w') ->
  0 <= uploaded /\ 0 <= skipped
  /\ (Spec.upload_errors w <= Spec.upload_errors w')%nat
  /\ uploaded + skipped
     + Z.of_nat (Spec.upload_errors w' - Spec.upload_errors w)
     = Z.of_nat (length (scanDirectory fs folderPath)).
Proof.
  unfold SyncEngine.syncFolder.
  cbv [mbind M_bind db_get gets SyncEngine.emit modify mret M_ret throw].
  destruct (FileIndex.getSyncFolderByPath (World.db w) folderPath)
    as [folder|]; [|discriminate].
  cbv zeta.
  destruct (syncFiles _ _ (0, 0) (scanDirectory fs folderPath) _)
    as [[[u s]|e] w1] eqn:Hrun; [|discriminate].
  intros [= <- <- <-]. apply syncFiles_count in Hrun.
  unfold Spec.upload_errors in *. cbn in *. lia.
Qed.

End Scan.

End OnlyAdds.

(** The scan of the sample folder when the network is down: nothing
    uploaded, nothing skipped, one error reported for the one file. *)
Lemma syncFolder_counts_witness :
  fst (Spec.sync (Spec.registered [true])) = Ok (0, 0)
  /\ 0 <= 0 /\ 0 <= 0
  /\ (Spec.upload_errors (H := Model.telegram) (Spec.registered [true])
      <= Spec.upload_errors (H := Model.telegram)
           (snd (Spec.sync (Spec.registered [true]))))%nat
  /\ 0 + 0
     + Z.of_nat (Spec.upload_errors (H := Model.telegram)
                   (snd (Spec.sync (Spec.registered [true])))
                 - Spec.upload_errors (H := Model.telegram)
                     (Spec.registered [true]))
     = Z.of_nat (length (scanDirectory Spec.one_note Spec.docs)).
Proof.
  split; [vm_compute; reflexivity|].
  apply (syncFolder_counts (H := Model.crypto) (H0 := Model.zlib)
           (H1 := Model.telegram) (jsstr "pw") Model.the_config Spec.one_note
           Spec.docs (Spec.registered [true]) 0 0
           (snd (Spec.sync (Spec.registered [true])))).
  vm_compute. reflexivity.
Defined.

(** ** The index: lookups *)

Section Lookups.
Import FileIndex Spec.

Lemma like_literal_cons p ps c cs :
  p <> Sql.percent -> p <> Sql.underscore ->
  Sql.like (p :: ps) (c :: cs)
  = (Sql.fold_case p =? Sql.fold_case c) && Sql.like ps cs.
Proof.
  intros Hp Hu. cbn [Sql.like].
  destruct (Z.eqb_spec p Sql.percent); [contradiction|].
  destruct (Z.eqb_spec p Sql.underscore); [contradiction|]. reflexivity.
Qed.

Lemma like_star ps text :
  Sql.like (Sql.percent :: ps) text
  = Sql.like ps text
    || match text with
       | [] => false
       | _ :: s' => Sql.like (Sql.percent :: ps) s'
       end.
Proof. destruct text; reflexivity. Qed.

Lemma like_prefix p : forall text,
  literal p ->
  Sql.like (p ++ [Sql.percent]) text = is_prefix (folded p) (folded text).
Proof.
  induction p as [|c p IH]; intros text Hlit.
  - cbn [app folded map is_prefix]. induction text as [|x text IHt].
    + reflexivity.
    + rewrite like_star, IHt. cbn. reflexivity.
  - apply Forall_cons in Hlit as [[Hc Hu] Hlit].
    destruct text as [|x text].
    + cbn. destruct (Z.eqb_spec c Sql.percent); [contradiction|]. reflexivity.
    + cbn [app]. rewrite like_literal_cons by assumption.
      rewrite IH by exact Hlit. reflexivity.
Qed.

Lemma like_contains p : forall text,
  literal p ->
  Sql.like ([Sql.percent] ++ p ++ [Sql.percent]) text
  = includes (folded text) (folded p).
Proof.
  intros text Hlit. cbn [app].
  induction text as [|x text IH].
  - rewrite like_star, like_prefix by exact Hlit. cbn [folded map includes].
    rewrite orb_false_r. reflexivity.
  - rewrite like_star, like_prefix, IH by exact Hlit. reflexivity.
Qed.

Lemma is_prefix_refl s : is_prefix s s = true.
Proof.
  induction s as [|c s IH]; [reflexivity|]. cbn. rewrite Z.eqb_refl. exact IH.
Qed.

Lemma includes_refl s : includes s s = true.
Proof. destruct s; cbn; [reflexivity|]. rewrite Z.eqb_refl, is_prefix_refl. reflexivity. Qed.

Lemma find_ext {A} (p q : A -> bool) (l : list A) :
  (forall x, p x = q x) -> find p l = find q l.
Proof.
  intros Hpq. induction l as [|x l IH]; [reflexivity|]. cbn.
  rewrite Hpq, IH. reflexivity.
Qed.

(** X18.  The lookups search.  For a text without % and _, [findByName]
    returns the first row, in rowid order, whose name contains the text, and
    [findByHash] the first row whose digest starts with it, both without
    regard to the case of ASCII letters. *)
Theorem lookups_search (d : FileIndex.t) (q : jsstring) :
  literal q ->
  findByName d q
  = find (fun f => includes (folded (filename f)) (folded q)) (tbl_files d)
  /\ findByHash d q
     = find (fun f => is_prefix (folded q) (folded (hash f))) (tbl_files d).
Proof.
  intros Hlit. unfold findByName, findByHash. split; apply find_ext; intros f.
  - rewrite like_contains by exact Hlit.
    destruct (bool_decide_reflect (filename f = q)) as [->|_]; [|reflexivity].
    rewrite includes_refl. reflexivity.
  - rewrite like_prefix by exact Hlit.
    destruct (bool_decide_reflect (hash f = q)) as [->|_]; [|reflexivity].
    rewrite is_prefix_refl. reflexivity.
Qed.

End Lookups.

(** ** The index: the state of a synchronised file *)

Section SyncStateRows.
Import FileIndex Spec.

Lemma find_map_replace {A} (p : A -> bool) (row : A) (l : list A) :
  p row = true -> existsb p l = true ->
  find p (map (fun r => if p r then row else r) l) = Some row.
Proof.
  intros Hrow. induction l as [|x l IH]; [discriminate|].
  cbn [existsb map find]. destruct (p x) eqn:Hx.
  - rewrite Hrow. reflexivity.
  - rewrite Hx. cbn [orb]. exact IH.
Qed.

Lemma find_map_other {A} (p q : A -> bool) (row : A) (l : list A) :
  q row = false -> (forall x, p x = true -> q x = false) ->
  find q (map (fun r => if p r then row else r) l) = find q l.
Proof.
  intros Hrow Hpq. induction l as [|x l IH]; [reflexivity|].
  cbn [map find]. destruct (p x) eqn:Hx.
  - rewrite Hrow, (Hpq x Hx). exact IH.
  - destruct (q x); [reflexivity|exact IH].
Qed.

Lemma find_app {A} (p : A -> bool) (l l' : list A) :
  find p (l ++ l')
  = match find p l with Some x => Some x | None => find p l' end.
Proof.
  induction l as [|x l IH]; [reflexivity|]. cbn.
  destruct (p x); [reflexivity|exact IH].
Qed.

Lemma find_existsb_false {A} (p : A -> bool) (l : list A) :
  existsb p l = false -> find p l = None.
Proof.
  induction l as [|x l IH]; [reflexivity|]. cbn.
  destruct (p x); [discriminate|exact IH].
Qed.

Lemma same_state_other folderId path folderId' path' r :
  (folderId', path') <> (folderId, path) ->
  same_state folderId path r = true -> same_state folderId' path' r = false.
Proof.
  unfold same_state. intros Hne Hr.
  apply andb_true_iff in Hr as [Hf Hp].
  apply Z.eqb_eq in Hf. apply bool_decide_eq_true in Hp.
  apply andb_false_iff.
  destruct (Z.eqb_spec (folder_id r) folderId'); [|left; reflexivity].
  right. apply bool_decide_eq_false. congruence.
Qed.

Lemma find_filter_out {A} (p q : A -> bool) (l : list A) :
  (forall x, q x = true -> p x = true) ->
  find q (List.filter p l) = find q l.
Proof.
  intros Hqp. induction l as [|x l IH]; [reflexivity|].
  cbn [List.filter find]. destruct (p x) eqn:Hx.
  - cbn [find]. destruct (q x); [reflexivity|exact IH].
  - destruct (q x) eqn:Hq; [|exact IH].
    rewrite (Hqp x Hq) in Hx. discriminate.
Qed.

(** X19.  The state of a synchronised file, written and read back.  For
    a registered folder, after [updateSyncState] of a path, [getSyncState]
    returns the digest and the time written for that path of that folder and
    what it returned before for every other; the table has one row more if
    the path had no state and as many as before if it had one; after
    [removeSyncState] of the path its state is gone and the others are as
    they were. *)
Theorem syncState_round_trip (d : FileIndex.t) folderId path hash mtime_ :
  registered_folder d folderId ->
  let d' := updateSyncState d folderId path hash mtime_ in
  getSyncState d' folderId path
  = Some (mkSyncState folderId path hash mtime_)
  /\ (forall folderId' path',
        (folderId', path') <> (folderId, path) ->
        getSyncState d' folderId' path' = getSyncState d folderId' path')
  /\ length (tbl_sync_state d')
     = match getSyncState d folderId path with
       | Some _ => length (tbl_sync_state d)
       | None => S (length (tbl_sync_state d))
       end
  /\ getSyncState (removeSyncState d' folderId path) folderId path = None
  /\ (forall folderId' path',
        (folderId', path') <> (folderId, path) ->
        getSyncState (removeSyncState d' folderId path) folderId' path'
        = getSyncState d folderId' path').
Proof.
  intros _ d'.
  set (row := mkSyncState folderId path hash mtime_).
  assert (Hrow : same_state folderId path row = true).
  { unfold same_state. cbn. rewrite Z.eqb_refl.
    rewrite bool_decide_eq_true_2 by reflexivity. reflexivity. }
  assert (Hother : forall folderId' path',
    (folderId', path') <> (folderId, path) ->
    getSyncState d' folderId' path' = getSyncState d folderId' path').
  { intros folderId' path' Hne. unfold getSyncState, d', updateSyncState.
    cbn [tbl_sync_state]. fold row.
    destruct (existsb _ (tbl_sync_state d)) eqn:Hex.
    - apply find_map_other.
      + apply (same_state_other folderId path); assumption.
      + intros r. apply same_state_other. exact Hne.
    - rewrite find_app. destruct (find _ (tbl_sync_state d)); [reflexivity|].
      cbn [find]. rewrite (same_state_other folderId path) by assumption.
      reflexivity. }
  split; [|split; [exact Hother|split; [|split]]].
  - unfold getSyncState, d', updateSyncState. cbn [tbl_sync_state]. fold row.
    destruct (existsb _ (tbl_sync_state d)) eqn:Hex.
    + apply find_map_replace; assumption.
    + rewrite find_app, (find_existsb_false _ _ Hex). cbn [find].
      rewrite Hrow. reflexivity.
  - unfold getSyncState, d', updateSyncState. cbn [tbl_sync_state].
    destruct (existsb _ (tbl_sync_state d)) eqn:Hex.
    + apply existsb_exists in Hex as (r & Hr & Hs).
      destruct (find _ (tbl_sync_state d)) eqn:Hfind.
      * apply length_map.
      * eapply find_none in Hfind; [|exact Hr]. congruence.
    + rewrite (find_existsb_false _ _ Hex), length_app. cbn. lia.
  - unfold getSyncState, removeSyncState. cbn [tbl_sync_state].
    apply find_existsb_false. apply not_true_iff_false. intros Hex.
    apply existsb_exists in Hex as (r & Hr & Hs).
    apply filter_In in Hr as [_ Hn]. rewrite Hs in Hn. discriminate.
  - intros folderId' path' Hne. rewrite <- (Hother folderId' path' Hne).
    unfold getSyncState, removeSyncState. cbn [tbl_sync_state].
    apply find_filter_out. intros r Hr. apply negb_true_iff.
    destruct (same_state folderId path r) eqn:Hs; [|reflexivity].
    rewrite (same_state_other _ _ _ _ _ Hne Hs) in Hr. discriminate.
Qed.

End SyncStateRows.

(** ** The index: adding and deleting a file *)

Section AddDelete.
Import FileIndex Spec.

Lemma filter_none {A} (p : A -> bool) (l : list A) :
  Forall (fun x => p x = false) l -> List.filter p l = [].
Proof.
  induction 1 as [|x l Hx _ IH]; [reflexivity|]. cbn. rewrite Hx. exact IH.
Qed.

(** X20.  Adding a file and deleting it.  On a consistent index, when
    [addFile] returns an id: the id is the successor of the counter, the
    digest was not in the index and now is, the file has no chunk row, and
    [delete] of the id gives back the tables as they were, the counter
    staying at the id; so the next file added gets the next id, never the
    one deleted. *)
Theorem delete_addFile (d : FileIndex.t) fd fileId d' :
  consistent d ->
  addFile d fd = (Ok fileId, d') ->
  fileId = seq_files d + 1
  /\ exists_ d (fd_hash fd) = false
  /\ exists_ d' (fd_hash fd) = true
  /\ has_file d' fileId = true
  /\ getChunks d' fileId = []
  /\ delete d' fileId
     = {| tbl_files := tbl_files d;
          tbl_chunks := tbl_chunks d;
          tbl_sync_folders := tbl_sync_folders d;
          tbl_sync_state := tbl_sync_state d;
          seq_files := fileId |}
  /\ (forall fd2 fileId2 d2,
        addFile (delete d' fileId) fd2 = (Ok fileId2, d2) ->
        fileId2 = fileId + 1).
Proof.
  intros (Hnd & Hseq & Hfk). unfold addFile.
  destruct (exists_ d (fd_hash fd)) eqn:Hdup; [discriminate|].
  intros [= <- <-].
  assert (Hfiles : List.filter (fun f => negb (id f =? seq_files d + 1))
                     (tbl_files d) = tbl_files d).
  { apply filter_all, Forall_forall. intros f Hf. apply negb_true_iff, Z.eqb_neq.
    specialize (Hseq f Hf). lia. }
  assert (Hchunks : forall l, (forall c, c ∈ l -> c ∈ tbl_chunks d) ->
            List.filter (fun c => negb (file_id c =? seq_files d + 1)) l = l).
  { intros l Hl. apply filter_all, Forall_forall. intros c Hc.
    apply negb_true_iff, Z.eqb_neq. specialize (Hfk c (Hl c Hc)).
    apply has_file_true in Hfk as (f & Hf & Hid). specialize (Hseq f Hf). lia. }
  split; [reflexivity|]. split; [reflexivity|]. split.
  { unfold exists_. cbn [tbl_files]. rewrite existsb_app. cbn.
    rewrite bool_decide_eq_true_2 by reflexivity. apply orb_true_r. }
  split.
  { unfold has_file. cbn [tbl_files]. rewrite existsb_app. cbn.
    rewrite Z.eqb_refl. apply orb_true_r. }
  split.
  { unfold getChunks. cbn [tbl_chunks]. rewrite filter_none; [reflexivity|].
    apply Forall_forall. intros c Hc. apply Z.eqb_neq. specialize (Hfk c Hc).
    apply has_file_true in Hfk as (f & Hf & Hid). specialize (Hseq f Hf). lia. }
  assert (Hdel : delete
            {| tbl_files := tbl_files d ++
                 [{| id := seq_files d + 1;
                     filename := fd_filename fd;
                     hash := fd_hash fd;
                     original_size := fd_originalSize fd;
                     stored_size := fd_storedSize fd;
                     chunks := fd_chunks fd;
                     compressed := if fd_compressed fd then 1 else 0 |}];
               tbl_chunks := tbl_chunks d;
               tbl_sync_folders := tbl_sync_folders d;
               tbl_sync_state := tbl_sync_state d;
               seq_files := seq_files d + 1 |} (seq_files d + 1)
          = {| tbl_files := tbl_files d;
               tbl_chunks := tbl_chunks d;
               tbl_sync_folders := tbl_sync_folders d;
               tbl_sync_state := tbl_sync_state d;
               seq_files := seq_files d + 1 |}).
  { unfold delete. cbn [tbl_files tbl_chunks tbl_sync_folders tbl_sync_state
                        seq_files].
    rewrite List.filter_app, Hfiles. cbn [List.filter id].
    rewrite Z.eqb_refl. cbn [negb]. rewrite app_nil_r.
    rewrite Hchunks by auto. reflexivity. }
  split; [exact Hdel|].
  intros fd2 fileId2 d2. rewrite Hdel. cbv beta iota zeta.
  set (dd := mkDb _ _ _ _ _). destruct (exists_ dd (fd_hash fd2));
    [discriminate|].
  intros [= <- _]. reflexivity.
Qed.

End AddDelete.

(** ** The layout of what [encrypt] returns *)

Section Layout.
Context `{CryptoLaws}.
Import Buffer Encryption.

(** X9.  The layout of an encrypted payload.  Under the contract of the
    cipher, [encrypt] draws twice from the generator; its result is the 32
    bytes of the salt, the 12 bytes of the iv, the ciphertext and the 16
    bytes of the tag, in this order, which are the four slices that
    [decrypt] takes; it is 60 bytes longer than the ciphertext. *)
Theorem encrypt_layout (K : jsstring) (P : Buffer.t) (g : nat) :
  let out := fst (encrypt K g P) in
  let salt := randomBytes g SALT_LENGTH in
  let iv := randomBytes (S g) IV_LENGTH in
  let sealed := gcm_seal (deriveKey K salt) iv P in
  snd (encrypt K g P) = S (S g)
  /\ subarray out 0 32 = salt /\ len salt = 32
  /\ subarray out 32 44 = iv /\ len iv = 12
  /\ subarray out 44 (-16) = fst sealed
  /\ subarray_from out (-16) = snd sealed /\ len (snd sealed) = 16
  /\ len out = 60 + len (fst sealed).
Proof.
  intros out salt iv sealed. subst out. unfold encrypt, encrypt_with.
  cbn [fst snd]. fold salt iv. fold sealed.
  pose proof (tag_length (deriveKey K salt) iv P) as Ht. fold sealed in Ht.
  assert (Hs : len salt = SALT_LENGTH)
    by (apply randomBytes_length; unfold SALT_LENGTH; lia).
  assert (Hi : len iv = IV_LENGTH)
    by (apply randomBytes_length; unfold IV_LENGTH; lia).
  destruct sealed as [ct tag]. cbn [fst snd] in *.
  destruct (decrypt_slices salt iv ct tag Hs Hi Ht) as (H1 & H2 & H3 & H4).
  unfold SALT_LENGTH, IV_LENGTH, TAG_LENGTH in *.
  repeat split; try assumption.
  unfold concat. cbn [List.concat]. rewrite !len_app.
  change (len []) with 0. lia.
Qed.

End Layout.

Lemma encrypt_layout_witness :
  Buffer.len (fst (Encryption.encrypt (H := Model.crypto) (jsstr "pw") 0
                     Spec.hello)) = 104.
Proof.
  pose proof (encrypt_layout (H0 := model_crypto_laws) (jsstr "pw") Spec.hello 0)
    as (_ & _ & _ & _ & _ & _ & _ & _ & Hlen).
  rewrite Hlen. vm_compute. reflexivity.
Defined.

Lemma decompress_compress_witness :
  Compressor.decompress (H := Model.zlib)
    (fst (Compressor.compress (H := Model.zlib) (Buffer.alloc 300)
            (jsstr "zeros.bin")))
    (snd (Compressor.compress (H := Model.zlib) (Buffer.alloc 300)
            (jsstr "zeros.bin")))
  = Ok (Buffer.alloc 300).
Proof.
  exact (decompress_compress (H0 := model_zlib_laws) (Buffer.alloc 300)
           (jsstr "zeros.bin")).
Defined.

(** The header of the third of five chunks, under a name of 50 bytes, in
    front of a payload: the name comes back cut at 42 bytes. *)
Lemma parseHeader_frame_witness :
  let name := jsstr "0123456789012345678901234567890123456789012345.txt" in
  exists h,
    Chunker.createHeader name 1000 2 5 1 = Ok h
    /\ Chunker.parseHeader (h ++ [x01; x02])
       = Ok {| Chunker.version := 1;
               Chunker.flags := 1;
               Chunker.compressed := true;
               Chunker.originalSize := 1000;
               Chunker.chunkIndex := 2;
               Chunker.totalChunks := 5;
               Chunker.filename :=
                 jsstr "012345678901234567890123456789012345678901" |}
    /\ Buffer.subarray_from (h ++ [x01; x02]) Chunker.HEADER_SIZE
       = [x01; x02].
Proof.
  intros name.
  destruct (Chunker.createHeader name 1000 2 5 1) as [h|e] eqn:Hh;
    [|vm_compute in Hh; discriminate].
  exists h. split; [reflexivity|].
  destruct (parseHeader_frame name 1000 2 5 1 h [x01; x02] Hh) as [Hp Hs].
  split; [|exact Hs]. rewrite Hp. vm_compute. reflexivity.
Defined.

(** The download of [a.txt] under another password. *)
Lemma retrieveFile_other_password_witness :
  fst (Pipeline.retrieveFile (H := Model.crypto) (H0 := Model.zlib)
         (H1 := Model.telegram)
         (FileIndex.mkFile 1 (jsstr "a.txt")
            (Encryption.hashData (H := Model.crypto) Spec.hello) 11 104 1 0)
         {| Pipeline.password := jsstr "other";
            Pipeline.customName := None;
            Pipeline.cfg := Model.the_config |} Spec.after_upload)
  = Throw Encryption.auth_failed.
Proof.
  set (row := FileIndex.mkFile 1 (jsstr "a.txt")
                (Encryption.hashData (H := Model.crypto) Spec.hello)
                11 104 1 0).
  set (opts' := {| Pipeline.password := jsstr "other";
                   Pipeline.customName := None;
                   Pipeline.cfg := Model.the_config |}).
  destruct (retrieveFile_other_password (H0 := model_crypto_laws)
              (H1 := Model.zlib) (H4 := model_telegram_laws)
              Spec.two_copies (jsstr "/home/u/a.txt") (Spec.options_for None)
              (Model.start FileIndex.empty Model.online)
              {| Pipeline.filename := jsstr "a.txt";
                 Pipeline.hash :=
                   Encryption.hashData (H := Model.crypto) Spec.hello;
                 Pipeline.originalSize := 11;
                 Pipeline.storedSize := 104;
                 Pipeline.chunks := 1;
                 Pipeline.compressed := false |}
              Spec.after_upload row opts' Spec.after_upload
              Encryption.auth_failed)
    as (e & He & Hauth).
  - split; [constructor|]. split; [intros f Hf; inversion Hf|].
    intros c Hc; inversion Hc.
  - constructor.
  - vm_compute. reflexivity.
  - apply list_elem_of_In. left. vm_compute. reflexivity.
  - reflexivity.
  - reflexivity.
  - auto.
  - intros P.
    change (@Encryption.decrypt Model.crypto (jsstr "other")
              (fst (@Encryption.encrypt Model.crypto (jsstr "pw") 0 P))
            = Throw Encryption.auth_failed).
    destruct (@decrypt_sealed_with Model.crypto model_crypto_laws
                (jsstr "pw") (jsstr "other") P 0) as [-> _].
    vm_compute. reflexivity.
  - rewrite He. f_equal. apply Hauth; vm_compute; reflexivity.
Defined.




(** The lookup by name for a part of a name, in capitals; the lookup by
    hash finds nothing under that text. *)
Lemma lookups_search_witness :
  FileIndex.findByName Spec.declared_only (jsstr "A.TX")
  = Some (FileIndex.mkFile 1 (jsstr "a.txt")
            (Encryption.hashData (H := Model.crypto) Spec.hello) 11 104 1 0)
  /\ FileIndex.findByHash Spec.declared_only (jsstr "A.TX") = None.
Proof.
  destruct (lookups_search Spec.declared_only (jsstr "A.TX")) as [Hn Hh].
  - repeat constructor; discriminate.
  - rewrite Hn, Hh. split; vm_compute; reflexivity.
Defined.

(** The state of a file of the sample folder, written, read, removed. *)
Lemma syncState_round_trip_witness :
  let d := World.db (Spec.registered []) in
  let d' := FileIndex.updateSyncState d 1 (jsstr "notes.txt") (jsstr "abc") 5 in
  FileIndex.getSyncState d' 1 (jsstr "notes.txt")
  = Some (FileIndex.mkSyncState 1 (jsstr "notes.txt") (jsstr "abc") 5)
  /\ FileIndex.getSyncState
       (FileIndex.removeSyncState d' 1 (jsstr "notes.txt")) 1
       (jsstr "notes.txt") = None.
Proof.
  intros d d'.
  destruct (syncState_round_trip d 1 (jsstr "notes.txt") (jsstr "abc") 5)
    as (Hget & _ & _ & Hrm & _).
  - exists (FileIndex.mkSyncFolder 1 Spec.docs true).
    split; [apply list_elem_of_In; left|]; reflexivity.
  - split; [exact Hget|exact Hrm].
Defined.

(** A file added to the index of [a.txt] and deleted again. *)
Lemma delete_addFile_witness :
  let fd := FileIndex.mkFileData (jsstr "b.txt") (jsstr "beef") 4 64 1 false in
  exists d',
    FileIndex.addFile Spec.declared_only fd = (Ok 2, d')
    /\ FileIndex.tbl_files (FileIndex.delete d' 2)
       = FileIndex.tbl_files Spec.declared_only
    /\ FileIndex.seq_files (FileIndex.delete d' 2) = 2.
Proof.
  intros fd.
  destruct (FileIndex.addFile Spec.declared_only fd) as [r d'] eqn:Hadd.
  assert (Hr : r = Ok 2) by (vm_compute in Hadd; congruence). subst r.
  exists d'. split; [reflexivity|].
  destruct (delete_addFile Spec.declared_only fd 2 d') as (_ & _ & _ & _ & _ & Hdel & _).
  - split; [repeat constructor; set_solver|]. split.
    + intros f Hf. apply list_elem_of_singleton in Hf. subst f. cbn. lia.
    + intros c Hc. inversion Hc.
  - exact Hadd.
  - rewrite Hdel. split; reflexivity.
Defined.

(** ** The tags of a file *)

Section TextOrder.
Import Tags Spec.

Lemma ltb_irrefl a : ltb a a = false.
Proof.
  induction a as [|x a IH]; [reflexivity|]. cbn.
  rewrite Z.ltb_irrefl, Z.eqb_refl, IH. reflexivity.
Qed.

Lemma ltb_trichotomy a : forall b,
  ltb a b = true \/ a = b \/ ltb b a = true.
Proof.
  induction a as [|x a IH]; intros [|y b]; cbn; auto.
  destruct (Z.lt_trichotomy x y) as [Hlt|[->|Hgt]].
  - left. apply orb_true_iff. left. apply Z.ltb_lt, Hlt.
  - rewrite Z.ltb_irrefl, Z.eqb_refl. cbn.
    destruct (IH b) as [?|[->|?]]; auto.
  - right. right. apply orb_true_iff. left. apply Z.ltb_lt. lia.
Qed.

Lemma ltb_trans a : forall b c,
  ltb a b = true -> ltb b c = true -> ltb a c = true.
Proof.
  induction a as [|x a IH]; intros [|y b] [|z c]; cbn; try discriminate; auto.
  intros Hab Hbc.
  apply orb_true_iff in Hab as [Hab|Hab]; apply orb_true_iff in Hbc as [Hbc|Hbc];
    apply orb_true_iff.
  - left. apply Z.ltb_lt in Hab, Hbc. apply Z.ltb_lt. lia.
  - apply andb_true_iff in Hbc as [Hyz _]. apply Z.eqb_eq in Hyz. subst z.
    left. exact Hab.
  - apply andb_true_iff in Hab as [Hxy _]. apply Z.eqb_eq in Hxy. subst y.
    left. exact Hbc.
  - apply andb_true_iff in Hab as [Hxy Hab].
    apply andb_true_iff in Hbc as [Hyz Hbc].
    apply Z.eqb_eq in Hxy, Hyz. subst y z. right.
    rewrite Z.eqb_refl. cbn. eapply IH; eassumption.
Qed.

Lemma ltb_asym a b : ltb a b = true -> ltb b a = false.
Proof.
  intros Hab. apply not_true_iff_false. intros Hba.
  pose proof (ltb_trans _ _ _ Hab Hba) as Haa. rewrite ltb_irrefl in Haa.
  discriminate.
Qed.

Lemma insert_text_perm x l : insert_text x l ≡ₚ x :: l.
Proof.
  induction l as [|y l IH]; [reflexivity|]. cbn [insert_text].
  destruct (ltb x y); [reflexivity|]. rewrite IH. apply perm_swap.
Qed.

Lemma insert_text_ascending x l :
  ascending l -> x ∉ l -> ascending (insert_text x l).
Proof.
  unfold ascending. induction l as [|y l IH]; intros Hs Hx; cbn [insert_text].
  - repeat constructor.
  - apply StronglySorted_inv in Hs as [Hs Hy].
    destruct (ltb x y) eqn:Hxy.
    + constructor; [constructor; assumption|].
      constructor; [exact Hxy|].
      eapply Forall_impl; [exact Hy|]. cbn. intros z Hz.
      eapply ltb_trans; eassumption.
    + assert (Hyx : ltb y x = true).
      { destruct (ltb_trichotomy x y) as [H|[->|H]]; [congruence| |exact H].
        exfalso. apply Hx. left. }
      constructor.
      * apply IH; [exact Hs|]. intros Hin. apply Hx. right. exact Hin.
      * rewrite (insert_text_perm x l). constructor; assumption.
Qed.

Lemma order_text_acc l : forall acc,
  ascending acc -> NoDup (acc ++ l) ->
  ascending (fold_left (fun a x => insert_text x a) l acc)
  /\ fold_left (fun a x => insert_text x a) l acc ≡ₚ acc ++ l.
Proof.
  induction l as [|x l IH]; intros acc Hs Hnd; cbn [fold_left].
  - rewrite app_nil_r. split; [exact Hs|reflexivity].
  - assert (Hx : x ∉ acc).
    { apply NoDup_app in Hnd as (_ & Hdisj & _). intros Hin.
      apply (Hdisj x Hin). left. }
    destruct (IH (insert_text x acc)) as [Hs' Hp'].
    + apply insert_text_ascending; assumption.
    + rewrite (insert_text_perm x acc).
      rewrite <- Permutation_middle in Hnd. exact Hnd.
    + split; [exact Hs'|]. rewrite Hp', (insert_text_perm x acc).
      apply Permutation_middle.
Qed.

Lemma order_text_sorted l :
  NoDup l -> ascending (order_text l) /\ order_text l ≡ₚ l.
Proof.
  intros Hnd. unfold order_text. apply (order_text_acc l []);
    [constructor|exact Hnd].
Qed.

End TextOrder.

Section TagFacts.
Context `{Casing}.
Import Tags Spec.

Lemma has_tag_app db fileId tg rows :
  existsb (same_tag fileId tg) (tbl_tags db ++ rows)
  = has_tag db fileId tg || existsb (same_tag fileId tg) rows.
Proof. unfold has_tag. apply existsb_app. Qed.

Lemma same_tag_true fileId tg r :
  same_tag fileId tg r = true <-> file_id r = fileId /\ tag r = tg.
Proof.
  unfold same_tag. rewrite andb_true_iff, Z.eqb_eq, bool_decide_eq_true.
  reflexivity.
Qed.

Lemma has_tag_true db fileId tg :
  has_tag db fileId tg = true
  <-> (fileId, tg) ∈ map (fun r => (file_id r, tag r)) (tbl_tags db).
Proof.
  unfold has_tag. rewrite existsb_exists. split.
  - intros (r & Hr & Hs). apply same_tag_true in Hs as [<- <-].
    apply list_elem_of_In, in_map_iff. exists r. auto.
  - intros Hin. apply list_elem_of_In, in_map_iff in Hin as (r & [= <- <-] & Hr).
    exists r. split; [exact Hr|]. apply same_tag_true. auto.
Qed.

(** X21.  Tags are kept normalised.  For a file of the index, [addTag]
    returns and the file then has the tag in lower case and trimmed; adding
    a tag with the same normal form again changes nothing; the uniqueness of
    (file, tag) is kept; and after [removeTag] of a tag the file has the
    first tag exactly when the normal forms of the two differ. *)
Theorem addTag_normalised (db : Tags.t) (fileId : Z) (t1 t2 : jsstring) :
  FileIndex.has_file (index db) fileId = true ->
  let db1 := snd (addTag db fileId t1) in
  fst (addTag db fileId t1) = Ok ()
  /\ has_tag db1 fileId (normalize t1) = true
  /\ (normalize t2 = normalize t1 -> addTag db1 fileId t2 = (Ok (), db1))
  /\ (unique_tags db -> unique_tags db1)
  /\ has_tag (removeTag db1 fileId t2) fileId (normalize t1)
     = negb (bool_decide (normalize t2 = normalize t1)).
Proof.
  intros Hfile db1.
  assert (Hself : same_tag fileId (normalize t1) (mkTag fileId (normalize t1))
                  = true).
  { apply same_tag_true. auto. }
  assert (Hhas : has_tag db1 fileId (normalize t1) = true).
  { subst db1. unfold addTag.
    destruct (has_tag db fileId (normalize t1)) eqn:Hh; [exact Hh|].
    rewrite Hfile. cbn [negb snd]. unfold has_tag. cbn [tbl_tags].
    rewrite existsb_app. cbn [existsb]. rewrite Hself.
    rewrite orb_true_r. reflexivity. }
  split.
  { unfold addTag. destruct (has_tag db fileId (normalize t1)); [reflexivity|].
    rewrite Hfile. reflexivity. }
  split; [exact Hhas|]. split.
  { intros Hn. unfold addTag at 1. rewrite Hn, Hhas. reflexivity. }
  split.
  { unfold unique_tags. subst db1. unfold addTag.
    destruct (has_tag db fileId (normalize t1)) eqn:Hh; [auto|].
    rewrite Hfile. cbn [negb snd tbl_tags]. intros Hnd.
    rewrite map_app. cbn [map file_id tag]. apply NoDup_app.
    split; [exact Hnd|]. split; [|apply NoDup_singleton].
    intros x Hx Hx'. apply list_elem_of_singleton in Hx'. subst x.
    apply has_tag_true in Hx. congruence. }
  unfold has_tag at 1, removeTag. cbn [tbl_tags].
  destruct (bool_decide_reflect (normalize t2 = normalize t1)) as [Heq|Hne];
    cbn [negb].
  - apply not_true_iff_false. intros Hex.
    apply existsb_exists in Hex as (r & Hr & Hs).
    apply filter_In in Hr as [_ Hn]. rewrite Heq, Hs in Hn. discriminate.
  - unfold has_tag in Hhas. apply existsb_exists in Hhas as (r & Hr & Hs).
    apply existsb_exists. exists r. split; [|exact Hs].
    apply filter_In. split; [exact Hr|]. apply negb_true_iff.
    apply not_true_iff_false. intros Hs2.
    apply same_tag_true in Hs as [_ Ht1]. apply same_tag_true in Hs2 as [_ Ht2].
    congruence.
Qed.

Lemma NoDup_tags_of db fileId :
  unique_tags db ->
  NoDup (map tag (List.filter (fun r => file_id r =? fileId) (tbl_tags db))).
Proof.
  unfold unique_tags. induction (tbl_tags db) as [|r l IH]; [constructor|].
  cbn [map List.filter]. intros Hnd. apply NoDup_cons in Hnd as [Hr Hnd].
  destruct (Z.eqb_spec (file_id r) fileId) as [Heq|Hne]; [|auto].
  cbn [map]. apply NoDup_cons. split; [|auto].
  intros Hin. apply Hr.
  apply list_elem_of_In, in_map_iff in Hin as (r' & Ht & Hr').
  apply filter_In in Hr' as [Hr' Hf]. apply Z.eqb_eq in Hf.
  apply list_elem_of_In, in_map_iff. exists r'. split; [|exact Hr'].
  congruence.
Qed.

(** X22.  The list of the tags of a file.  With (file, tag) unique,
    [getFileTags] returns the tags of the rows of the file, each once, in
    strictly ascending order; after [delete] of the file it returns nothing
    for it, and for every other file what it returned before. *)
Theorem getFileTags_sorted (db : Tags.t) (fileId : Z) :
  unique_tags db ->
  ascending (getFileTags db fileId)
  /\ (forall tg, tg ∈ getFileTags db fileId <-> has_tag db fileId tg = true)
  /\ getFileTags (Tags.delete db fileId) fileId = []
  /\ (forall other, other <> fileId ->
        getFileTags (Tags.delete db fileId) other = getFileTags db other).
Proof.
  intros Hu. unfold getFileTags.
  destruct (order_text_sorted _ (NoDup_tags_of db fileId Hu)) as [Hs Hp].
  split; [exact Hs|]. split; [|clear Hs Hp; split].
  - intros tg. rewrite Hp. unfold has_tag. rewrite existsb_exists. split.
    + intros Hin. apply list_elem_of_In, in_map_iff in Hin as (r & <- & Hr).
      apply filter_In in Hr as [Hr Hf]. exists r. split; [exact Hr|].
      apply same_tag_true. apply Z.eqb_eq in Hf. auto.
    + intros (r & Hr & Hsame). apply same_tag_true in Hsame as [Hf <-].
      apply list_elem_of_In, in_map_iff. exists r. split; [reflexivity|].
      apply filter_In. split; [exact Hr|]. apply Z.eqb_eq, Hf.
  - unfold Tags.delete. cbn [tbl_tags].
    replace (List.filter _ (List.filter _ _)) with (@nil tag_row);
      [reflexivity|].
    symmetry. induction (tbl_tags db) as [|r l IH]; [reflexivity|].
    cbn [List.filter]. destruct (file_id r =? fileId) eqn:E; cbn [negb];
      [exact IH|].
    cbn [List.filter]. rewrite E. exact IH.
  - intros other Hne. unfold Tags.delete. cbn [tbl_tags]. do 2 f_equal.
    induction (tbl_tags db) as [|r l IH]; [reflexivity|].
    cbn [List.filter].
    destruct (Z.eqb_spec (file_id r) fileId) as [Hf|Hf]; cbn [negb].
    + rewrite IH. destruct (Z.eqb_spec (file_id r) other); [congruence|].
      reflexivity.
    + cbn [List.filter]. rewrite IH. reflexivity.
Qed.

End TagFacts.

(** The tag written with a capital and spaces, then in capitals: one tag;
    with a second tag, the list in ascending order. *)
Lemma addTag_normalised_witness :
  let work := [32; 87; 111; 114; 107; 32] in
  let db1 := snd (Tags.addTag (H := Spec.ascii_casing) Spec.untagged 1 work) in
  Tags.addTag (H := Spec.ascii_casing) db1 1 (jsstr "WORK") = (Ok (), db1)
  /\ Tags.getFileTags db1 1 = [jsstr "work"].
Proof.
  intros work db1.
  destruct (addTag_normalised (H := Spec.ascii_casing) Spec.untagged 1 work
              (jsstr "WORK")) as (_ & _ & Hagain & _).
  - reflexivity.
  - split; [apply Hagain|]; vm_compute; reflexivity.
Defined.

Lemma getFileTags_sorted_witness :
  let db1 := snd (Tags.addTag (H := Spec.ascii_casing) Spec.untagged 1
                    (jsstr "work")) in
  let db2 := snd (Tags.addTag (H := Spec.ascii_casing) db1 1
                    (jsstr "important")) in
  Tags.getFileTags db2 1 = [jsstr "important"; jsstr "work"]
  /\ Spec.ascending (Tags.getFileTags db2 1)
  /\ Tags.getFileTags (Tags.delete db2 1) 1 = [].
Proof.
  intros db1 db2.
  destruct (getFileTags_sorted db2 1) as (Hs & _ & Hdel & _).
  - unfold Spec.unique_tags. vm_compute.
    apply NoDup_cons. split; [|apply NoDup_singleton].
    intros Hin. apply list_elem_of_singleton in Hin. discriminate.
  - split; [vm_compute; reflexivity|]. split; [exact Hs|exact Hdel].
Defined.

(** ** Upload by the pipeline, read through the mount *)

Section PushThenMount.
Context `{CryptoLaws} `{ZlibLaws} `{TelegramLaws}.
Import Monad Spec.

(** The row of [files] that a successful upload appends. *)
Lemma processFile_row fs path opts w u w1 :
  Pipeline.processFile fs path opts w = (Ok u, w1) ->
  exists content newrow,
    readFileSync fs path = Ok content
    /\ FileIndex.tbl_files (World.db w1)
       = FileIndex.tbl_files (World.db w) ++ [newrow]
    /\ FileIndex.filename newrow = Pipeline.filename u
    /\ FileIndex.hash newrow = Encryption.hashData content
    /\ Pipeline.hash u = Encryption.hashData content
    /\ World.fileCache w1 = World.fileCache w.
Proof.
  unfold Pipeline.processFile.
  set (name := match Pipeline.customName opts with
               | Some (c :: n) => c :: n
               | _ => Path.basename path
               end).
  cbv [mbind M_bind lift db_get gets throw].
  destruct (readFileSync fs path) as [content|e0] eqn:Hread; [|discriminate].
  unfold Pipeline.hashFile. rewrite Hread.
  cbv [mbind result_bind mret result_ret].
  destruct (FileIndex.exists_ (World.db w) (Encryption.hashData content))
    eqn:Hdup; [discriminate|].
  destruct (Compressor.compress content name) as [cd flag].
  unfold Pipeline.encrypt.
  destruct (Encryption.encrypt (Pipeline.password opts) (World.rng w) cd)
    as [enc g].
  destruct (Pipeline.frames name (Buffer.len content) (if flag then 1 else 0)
              (Pipeline.split enc)) as [cfs|e0]; [|discriminate].
  destruct (initialize_run (botToken (Pipeline.cfg opts)) (World.set_rng g w))
    as [r Hinit].
  rewrite Hinit. destruct r as [[]|e0]; [|discriminate].
  set (wa := World.set_remote _ (World.set_rng g w)).
  unfold db_try. unfold FileIndex.addFile at 1.
  cbn [FileIndex.fd_hash FileIndex.fd_filename FileIndex.fd_originalSize
       FileIndex.fd_storedSize FileIndex.fd_chunks FileIndex.fd_compressed].
  assert (Hdbwa : World.db wa = World.db w) by reflexivity.
  rewrite Hdbwa, Hdup.
  set (newrow := FileIndex.mkFile _ _ _ _ _ _ _).
  set (d' := FileIndex.mkDb _ _ _ _ _).
  pose proof (uploadChunks_files (chatId (Pipeline.cfg opts))
                (FileIndex.seq_files (World.db w) + 1) cfs
                (World.set_db d' wa)) as Hfiles.
  assert (Hcache : forall l w0,
    World.fileCache
      (snd (for_each l (Pipeline.uploadChunk (chatId (Pipeline.cfg opts))
                          (FileIndex.seq_files (World.db w) + 1)) w0))
    = World.fileCache w0).
  { induction l as [|cf l IH]; intros w0; cbn [for_each]; [reflexivity|].
    cbv [mbind M_bind].
    assert (Hone : World.fileCache
              (snd (Pipeline.uploadChunk (chatId (Pipeline.cfg opts))
                      (FileIndex.seq_files (World.db w) + 1) cf w0))
            = World.fileCache w0).
    { unfold Pipeline.uploadChunk, TelegramClient.sendFile.
      destruct (chatId (Pipeline.cfg opts)) as [cid|]; [|reflexivity].
      destruct (cid =? 0); [reflexivity|].
      cbv [mbind M_bind mret M_ret bot db_try db_run].
      destruct (sendDocument cid (Pipeline.cf_bytes cf) (World.remote w0))
        as [[[mid fid]|e] c']; [|reflexivity].
      cbn [World.set_remote World.db]. unfold FileIndex.addChunk.
      destruct (FileIndex.has_chunk _ _ _); [reflexivity|].
      destruct (FileIndex.has_file _ _); reflexivity. }
    destruct (Pipeline.uploadChunk _ _ cf w0) as [[[]|e] w1'];
      cbn [snd] in *; [|exact Hone].
    rewrite IH. exact Hone. }
  specialize (Hcache cfs (World.set_db d' wa)).
  destruct (for_each cfs _ (World.set_db d' wa)) as [[[]|e0] wb];
    [|discriminate].
  intros [= <- <-]. cbn [snd] in Hfiles, Hcache.
  exists content, newrow. split; [reflexivity|].
  split; [exact Hfiles|]. split; [reflexivity|]. split; [reflexivity|].
  split; [reflexivity|]. exact Hcache.
Qed.

(** X11.  Upload by the pipeline, read through the mount.  Under the
    three contracts: after [processFile] has returned on a consistent index
    where no row matched the name of the file and the read cache had no
    entry for it, a [read] of that name through a filesystem mounted with
    the same password gives either the I/O error, or the requested slice of
    the content of the file that was uploaded. *)
Theorem read_after_processFile fs path opts w u w1 filepath length position
    r w2 :
  consistent (World.db w) -> chat_ok (World.remote w) ->
  Pipeline.processFile fs path opts w = (Ok u, w1) ->
  Path.basename filepath = Pipeline.filename u ->
  FileIndex.findByName (World.db w) (Pipeline.filename u) = None ->
  World.fileCache w !! Pipeline.filename u = None ->
  TelegramFS.read (Pipeline.password opts) filepath length position w1
  = (Ok r, w2) ->
  r = (TelegramFS.EIO, [])
  \/ exists content,
       readFileSync fs path = Ok content
       /\ r = (Buffer.len (Buffer.subarray content position
                             (position + length)),
               Buffer.subarray content position (position + length)).
Proof.
  intros Hcons Hok Hup Hbase Hname Hmiss.
  destruct (processFile_row _ _ _ _ _ _ Hup)
    as (content & newrow & Hread & Hfiles & Hfn & Hhash & Hu & Hcache).
  apply processFile_Ok in Hup
    as (content' & name & rows & Hread' & _ & _ & Hrows & Hget);
    [|exact Hcons|exact Hok].
  assert (content' = content) as -> by congruence.
  assert (Hfind : FileIndex.findByName (World.db w1) (Pipeline.filename u)
                  = Some newrow).
  { unfold FileIndex.findByName in *. rewrite Hfiles.
    rewrite find_app_none by exact Hname. cbn [find]. rewrite Hfn.
    rewrite bool_decide_eq_true_2 by reflexivity. reflexivity. }
  specialize (Hget newrow).
  rewrite Hfiles in Hget.
  specialize (Hget ltac:(apply elem_of_app; right; apply list_elem_of_singleton;
                         reflexivity) Hhash).
  unfold TelegramFS.read, try_catch, TelegramFS.getCached.
  cbv [mbind M_bind mret M_ret]. rewrite Hbase, Hcache, Hmiss.
  unfold TelegramFS.downloadFile.
  cbv [mbind M_bind mret M_ret db_get gets lift throw].
  rewrite Hfind, Hget.
  unfold uploaded_as in Hrows. cbv zeta in Hrows.
  destruct rows as [|row0 rows].
  { exfalso. inversion Hrows as [Hnil|]. symmetry in Hnil. revert Hnil.
    apply split_encrypt_nonempty. }
  destruct (map_each (row0 :: rows) Pipeline.downloadChunk w1)
    as [[dls|e] wb] eqn:Hdl.
  - eapply downloadChunks_ok in Hdl; [|exact Hrows].
    erewrite decode_unframed; [|exact Hdl|apply split_encrypt_nonempty].
    unfold TelegramFS.setCache, modify. intros [= <- <-].
    right. exists content. split; [exact Hread|reflexivity].
  - intros [= <- <-]. left. reflexivity.
Qed.

End PushThenMount.

(** [a.txt], uploaded to an empty index, read through the mount. *)
Lemma read_after_processFile_witness :
  fst (TelegramFS.read (H := Model.crypto) (H0 := Model.zlib)
         (H1 := Model.telegram) (jsstr "pw") (jsstr "/a.txt") 5 6
         Spec.after_upload)
  = Ok (5, Model.bytes_of "world")
  /\ ((5, Model.bytes_of "world") = (TelegramFS.EIO, [])
      \/ exists content,
           readFileSync Spec.two_copies (jsstr "/home/u/a.txt") = Ok content
           /\ (5, Model.bytes_of "world")
              = (Buffer.len (Buffer.subarray content 6 (6 + 5)),
                 Buffer.subarray content 6 (6 + 5))).
Proof.
  split; [vm_compute; reflexivity|].
  apply (read_after_processFile (H0 := model_crypto_laws)
           (H2 := model_zlib_laws) (H4 := model_telegram_laws)
           Spec.two_copies (jsstr "/home/u/a.txt") (Spec.options_for None)
           (Model.start FileIndex.empty Model.online)
           {| Pipeline.filename := jsstr "a.txt";
              Pipeline.hash :=
                Encryption.hashData (H := Model.crypto) Spec.hello;
              Pipeline.originalSize := 11;
              Pipeline.storedSize := 104;
              Pipeline.chunks := 1;
              Pipeline.compressed := false |}
           Spec.after_upload (jsstr "/a.txt") 5 6
           (5, Model.bytes_of "world")
           (snd (TelegramFS.read (H := Model.crypto) (H0 := Model.zlib)
                   (H1 := Model.telegram) (jsstr "pw") (jsstr "/a.txt") 5 6
                   Spec.after_upload))).
  - split; [constructor|]. split; [intros f Hf; inversion Hf|].
    intros c Hc; inversion Hc.
  - constructor.
  - vm_compute. reflexivity.
  - vm_compute. reflexivity.
  - reflexivity.
  - reflexivity.
  - vm_compute. reflexivity.
Defined.

(** ** The mounted filesystem: the read cache *)

Section ReadCache.
Context `{Crypto} `{Zlib} `{Telegram}.
Variable password : jsstring.
Import Monad Spec.

#[local] Abbreviation read := (TelegramFS.read password).

(** X23.  The read cache.  When [read] has returned bytes and not the I/O
    error, the name has an entry in the cache, stamped no later than the
    clock, and the bytes returned are the requested slice of its data; and
    as long as the clock is within the five minutes of [CACHE_TTL] of that
    stamp, every further [read] of the name, at whatever position and
    length, returns the slice of the same data and changes nothing: it
    consults neither the index nor the chat. *)
Theorem read_then_read filepath length position (w : World.t) r w1 :
  read filepath length position w = (Ok r, w1) ->
  fst r <> TelegramFS.EIO ->
  exists entry,
    World.fileCache w1 !! Path.basename filepath = Some entry
    /\ World.clock w1 - World.timestamp entry <= TelegramFS.CACHE_TTL
    /\ r = (Buffer.len (Buffer.subarray (World.data entry) position
                          (position + length)),
            Buffer.subarray (World.data entry) position (position + length))
    /\ forall now length' position',
         now - World.timestamp entry <= TelegramFS.CACHE_TTL ->
         read filepath length' position' (at_clock now w1)
         = (Ok (Buffer.len (Buffer.subarray (World.data entry) position'
                              (position' + length')),
                Buffer.subarray (World.data entry) position'
                  (position' + length')),
            at_clock now w1).
Proof.
  unfold TelegramFS.read at 1, try_catch, TelegramFS.getCached.
  cbv [mbind M_bind mret M_ret].
  assert (Hagain : forall (w1 : World.t) entry,
    World.fileCache w1 !! Path.basename filepath = Some entry ->
    forall now length' position',
      now - World.timestamp entry <= TelegramFS.CACHE_TTL ->
      read filepath length' position' (at_clock now w1)
      = (Ok (Buffer.len (Buffer.subarray (World.data entry) position'
                           (position' + length')),
             Buffer.subarray (World.data entry) position'
               (position' + length')),
         at_clock now w1)).
  { intros w' entry Hentry now length' position' Hlive.
    apply read_hit; [exact Hentry|exact Hlive]. }
  destruct (World.fileCache w !! Path.basename filepath) as [entry|] eqn:Hentry.
  - destruct (Z.ltb_spec TelegramFS.CACHE_TTL
                (World.clock w - World.timestamp entry)) as [Hold|Hlive].
    + set (w0 := World.set_fileCache _ w).
      destruct (TelegramFS.downloadFile password (Path.basename filepath) w0)
        as [[data|e] wd] eqn:Hdl.
      * unfold TelegramFS.setCache, modify. intros [= <- <-] _.
        exists (World.mkEntry data (World.clock wd)).
        assert (Hin : World.fileCache
                        (World.set_fileCache
                           (<[Path.basename filepath :=
                                World.mkEntry data (World.clock wd)]>
                              (World.fileCache wd)) wd)
                      !! Path.basename filepath
                      = Some (World.mkEntry data (World.clock wd)))
          by apply lookup_insert_eq.
        split; [exact Hin|].
        split; [cbn; unfold TelegramFS.CACHE_TTL; lia|].
        split; [reflexivity|]. apply Hagain, Hin.
      * intros [= <- <-] Hne. contradiction.
    + intros [= <- <-] _. exists entry.
      split; [exact Hentry|]. split; [exact Hlive|]. split; [reflexivity|].
      apply Hagain, Hentry.
  - destruct (TelegramFS.downloadFile password (Path.basename filepath) w)
      as [[data|e] wd] eqn:Hdl.
    + unfold TelegramFS.setCache, modify. intros [= <- <-] _.
      exists (World.mkEntry data (World.clock wd)).
      assert (Hin : World.fileCache
                      (World.set_fileCache
                         (<[Path.basename filepath :=
                              World.mkEntry data (World.clock wd)]>
                            (World.fileCache wd)) wd)
                    !! Path.basename filepath
                    = Some (World.mkEntry data (World.clock wd)))
        by apply lookup_insert_eq.
      split; [exact Hin|].
      split; [cbn; unfold TelegramFS.CACHE_TTL; lia|].
      split; [reflexivity|]. apply Hagain, Hin.
    + intros [= <- <-] Hne. contradiction.
Qed.

End ReadCache.

(** [a.txt] read through the mount, and read again four minutes later. *)
Lemma read_then_read_witness :
  let first := TelegramFS.read (H := Model.crypto) (H0 := Model.zlib)
                 (H1 := Model.telegram) (jsstr "pw") (jsstr "/a.txt") 5 0
                 Spec.after_upload in
  fst first = Ok (5, Model.bytes_of "hello")
  /\ TelegramFS.read (H := Model.crypto) (H0 := Model.zlib)
       (H1 := Model.telegram) (jsstr "pw") (jsstr "/a.txt") 5 6
       (Spec.at_clock 240000 (snd first))
     = (Ok (5, Model.bytes_of "world"), Spec.at_clock 240000 (snd first)).
Proof.
  intros first. split; [vm_compute; reflexivity|].
  assert (Hrun : TelegramFS.read (H := Model.crypto) (H0 := Model.zlib)
                   (H1 := Model.telegram) (jsstr "pw") (jsstr "/a.txt") 5 0
                   Spec.after_upload
                 = (Ok (5, Model.bytes_of "hello"), snd first))
    by (vm_compute; reflexivity).
  assert (Hne : fst (5, Model.bytes_of "hello") <> TelegramFS.EIO)
    by (vm_compute; discriminate).
  destruct (read_then_read (H := Model.crypto) (H0 := Model.zlib)
              (H1 := Model.telegram) _ _ _ _ _ _ _ Hrun Hne)
    as (entry & Hentry & _ & _ & Hagain).
  assert (He : entry = World.mkEntry Spec.hello 0).
  { vm_compute in Hentry. vm_compute. congruence. }
  subst entry. rewrite Hagain; [vm_compute; reflexivity|vm_compute; discriminate].
Defined.

(** ** The mounted filesystem: a flush that fails, a read after a removal *)

Section FailedFlush.
Context `{Crypto} `{Zlib} `{Telegram}.
Variable password : jsstring.
Variable cfg : config.
Import Monad Spec.

#[local] Abbreviation uploadFile := (TelegramFS.uploadFile password cfg).
#[local] Abbreviation release := (TelegramFS.release password cfg).
#[local] Abbreviation read := (TelegramFS.read password).
#[local] Abbreviation unlink := (@TelegramFS.unlink _).

Lemma findByHash_exists d h :
  FileIndex.findByHash d h = None -> FileIndex.exists_ d h = false.
Proof.
  unfold FileIndex.findByHash, FileIndex.exists_. intros Hnone.
  apply not_true_iff_false. intros Hex.
  apply existsb_exists in Hex as (f & Hf & Hh).
  eapply find_none in Hnone; [|exact Hf]. cbv beta in Hnone.
  rewrite Hh in Hnone. discriminate.
Qed.

Lemma has_chunk_fresh d fileId i :
  consistent d -> FileIndex.seq_files d < fileId ->
  FileIndex.has_chunk d fileId i = false.
Proof.
  intros Hc Hlt. pose proof (filter_fresh d fileId Hc Hlt) as Hnil.
  unfold FileIndex.has_chunk. apply not_true_iff_false. intros Hex.
  apply existsb_exists in Hex as (c & Hin & Hc0).
  apply andb_true_iff in Hc0 as [Hid _].
  assert (Hc1 : In c (List.filter (fun c => FileIndex.file_id c =? fileId)
                        (FileIndex.tbl_chunks d)))
    by (apply filter_In; auto).
  rewrite Hnil in Hc1. destruct Hc1.
Qed.

(** An upload to a name and a content that the index does not know fails
    before it writes to the index. *)
Lemma uploadFile_fresh_Throw name data w e w1 :
  consistent (World.db w) ->
  FileIndex.findByName (World.db w) name = None ->
  uploadFile name data w = (Throw e, w1) ->
  World.db w1 = World.db w
  /\ World.fileCache w1 = World.fileCache w
  /\ World.writeBuffers w1 = World.writeBuffers w.
Proof.
  intros Hcons Hname.
  unfold TelegramFS.uploadFile, TelegramClient.sendFile.
  cbv [mbind M_bind mret M_ret lift db_get gets throw].
  rewrite Hname.
  destruct (FileIndex.findByHash (World.db w) (Encryption.hashData data))
    eqn:Hhash; [discriminate|].
  destruct (Compressor.compress data name) as [compressedData compressed].
  unfold Pipeline.encrypt.
  destruct (Encryption.encrypt password (World.rng w) compressedData)
    as [enc g].
  destruct (Chunker.createHeader name (Buffer.len data) 0 1
              (if compressed then 1 else 0)) as [h|e0];
    [|intros [= <- <-]; auto].
  destruct (chatId cfg) as [cid|]; [|intros [= <- <-]; auto].
  destruct (cid =? 0); [intros [= <- <-]; auto|].
  cbv [mbind M_bind mret M_ret bot db_try db_run].
  cbn [World.set_rng World.remote].
  destruct (sendDocument cid (Buffer.concat [h; enc]) (World.remote w))
    as [[[mid fid]|e0] c']; [|intros [= <- <-]; auto].
  cbn [World.set_remote World.set_rng World.db TelegramClient.messageId
       TelegramClient.fileId].
  unfold FileIndex.addFile.
  cbn [FileIndex.fd_hash FileIndex.fd_filename FileIndex.fd_originalSize
       FileIndex.fd_storedSize FileIndex.fd_chunks FileIndex.fd_compressed].
  rewrite (findByHash_exists _ _ Hhash). cbv beta iota zeta.
  set (fileId := FileIndex.seq_files (World.db w) + 1).
  set (newrow := FileIndex.mkFile fileId _ _ _ _ _ _).
  cbn [World.set_db World.db].
  unfold FileIndex.addChunk.
  assert (Hhas : FileIndex.has_chunk
            {| FileIndex.tbl_files := FileIndex.tbl_files (World.db w) ++ [newrow];
               FileIndex.tbl_chunks := FileIndex.tbl_chunks (World.db w);
               FileIndex.tbl_sync_folders := FileIndex.tbl_sync_folders (World.db w);
               FileIndex.tbl_sync_state := FileIndex.tbl_sync_state (World.db w);
               FileIndex.seq_files := fileId |} fileId 0 = false).
  { pose proof (has_chunk_fresh (World.db w) fileId 0 Hcons) as Hf.
    unfold FileIndex.has_chunk in *. cbn [FileIndex.tbl_chunks].
    apply Hf. unfold fileId. lia. }
  rewrite Hhas. cbv beta iota zeta.
  assert (Hfile : FileIndex.has_file
            {| FileIndex.tbl_files := FileIndex.tbl_files (World.db w) ++ [newrow];
               FileIndex.tbl_chunks := FileIndex.tbl_chunks (World.db w);
               FileIndex.tbl_sync_folders := FileIndex.tbl_sync_folders (World.db w);
               FileIndex.tbl_sync_state := FileIndex.tbl_sync_state (World.db w);
               FileIndex.seq_files := fileId |} fileId = true).
  { unfold FileIndex.has_file. cbn [FileIndex.tbl_files].
    rewrite existsb_app. cbn [existsb newrow FileIndex.id].
    rewrite Z.eqb_refl. apply orb_true_iff. right. reflexivity. }
  rewrite Hfile. cbv beta iota zeta. cbn [negb]. discriminate.
Qed.

Lemma uploadFile_Throw name data w e w1 :
  consistent (World.db w) ->
  FileIndex.findByName (without_found (World.db w) name) name = None ->
  uploadFile name data w = (Throw e, w1) ->
  World.db w1 = without_found (World.db w) name
  /\ World.fileCache w1 = World.fileCache w
  /\ World.writeBuffers w1 = World.writeBuffers w.
Proof.
  intros Hcons. unfold without_found.
  destruct (FileIndex.findByName (World.db w) name) as [old|] eqn:Hfind.
  - intros Hname.
    destruct (deleteOld_run (FileIndex.getChunks (World.db w) (FileIndex.id old))
                w) as (c & Hdel).
    set (w0 := World.set_db (FileIndex.delete (World.db w) (FileIndex.id old))
                 (World.set_remote c w)).
    assert (Hsame : uploadFile name data w = uploadFile name data w0).
    { unfold TelegramFS.uploadFile.
      cbv [mbind M_bind mret M_ret db_get gets db_run].
      rewrite Hfind, Hdel.
      cbn [World.db World.set_remote World.set_db w0]. rewrite Hname.
      reflexivity. }
    rewrite Hsame. intros Hup.
    apply uploadFile_fresh_Throw in Hup; [exact Hup| |exact Hname].
    apply delete_consistent, Hcons.
  - intros _. apply uploadFile_fresh_Throw; assumption.
Qed.

(** X25.  A flush that fails.  On a consistent index where no row other
    than the one found answers to the name: when [release] returns the I/O
    error, the write buffers and the read cache are as before, so that the
    bytes written are kept for a later flush, and nothing was added to the
    index; but the row that the lookup by name found, the previous version
    of the file, is already deleted with its chunk rows. *)
Theorem release_failure filepath w w1 :
  let name := Path.basename filepath in
  consistent (World.db w) ->
  FileIndex.findByName (without_found (World.db w) name) name = None ->
  release filepath w = (Ok TelegramFS.EIO, w1) ->
  World.db w1 = without_found (World.db w) name
  /\ World.writeBuffers w1 = World.writeBuffers w
  /\ World.fileCache w1 = World.fileCache w.
Proof.
  intros name Hcons Hname. unfold TelegramFS.release. fold name.
  unfold TelegramFS.get_buffer. cbv [mbind M_bind mret M_ret gets].
  destruct (World.writeBuffers w !! name) as [wb|]; [|discriminate].
  destruct (World.wb_modified wb); cbn [negb]; [|discriminate].
  unfold try_catch. cbv [mbind M_bind mret M_ret modify TelegramFS.invalidateCache].
  destruct (uploadFile name (World.wb_data wb) w) as [[[]|e] w'] eqn:Hup;
    [discriminate|].
  intros [= <-].
  destruct (uploadFile_Throw _ _ _ _ _ Hcons Hname Hup) as (Hdb & Hc & Hwb).
  auto.
Qed.

(** X24.  Removal, then read.  When the lookup by name finds a row and,
    once that row is deleted, nothing more, [unlink] returns 0 and a [read]
    of the name that follows returns the I/O error and no byte, whatever the
    read cache held for the name before and whatever the chat answered to
    the deletion of the messages. *)
Theorem read_after_unlink filepath w old length position :
  let name := Path.basename filepath in
  let w1 := snd (unlink filepath w) in
  FileIndex.findByName (World.db w) name = Some old ->
  FileIndex.findByName (FileIndex.delete (World.db w) (FileIndex.id old)) name
  = None ->
  fst (unlink filepath w) = Ok 0
  /\ read filepath length position w1 = (Ok (TelegramFS.EIO, []), w1).
Proof.
  intros name w1 Hfind Hnone. subst w1.
  unfold TelegramFS.unlink. fold name.
  cbv [mbind M_bind mret M_ret db_get gets]. rewrite Hfind.
  destruct (unlink_loop_run
              (FileIndex.getChunks (World.db w) (FileIndex.id old)) w)
    as (c & Hrun).
  unfold try_catch. cbv [mbind M_bind mret M_ret db_get gets db_run modify
                         TelegramFS.invalidateCache].
  cbv [mbind M_bind mret M_ret] in Hrun. rewrite Hrun.
  cbn [fst snd]. split; [reflexivity|].
  unfold TelegramFS.read, try_catch, TelegramFS.getCached. fold name.
  cbv [mbind M_bind mret M_ret].
  cbn [World.set_fileCache World.fileCache].
  rewrite lookup_delete_eq.
  unfold TelegramFS.downloadFile.
  cbv [mbind M_bind mret M_ret db_get gets throw].
  cbn [World.set_fileCache World.set_db World.set_remote World.db].
  rewrite Hnone. reflexivity.
Qed.

End FailedFlush.

Lemma read_after_unlink_witness :
  let w1 := snd (TelegramFS.unlink (H1 := Model.telegram) (jsstr "/a.txt")
                   Spec.after_upload) in
  fst (TelegramFS.unlink (H1 := Model.telegram) (jsstr "/a.txt")
         Spec.after_upload) = Ok 0
  /\ TelegramFS.read (H := Model.crypto) (H0 := Model.zlib)
       (H1 := Model.telegram) (jsstr "pw") (jsstr "/a.txt") 5 0 w1
     = (Ok (TelegramFS.EIO, []), w1).
Proof.
  intros w1.
  assert (Hf : exists old,
    FileIndex.findByName (World.db Spec.after_upload)
      (Path.basename (jsstr "/a.txt")) = Some old
    /\ FileIndex.findByName
         (FileIndex.delete (World.db Spec.after_upload) (FileIndex.id old))
         (Path.basename (jsstr "/a.txt")) = None).
  { eexists. split; vm_compute; reflexivity. }
  destruct Hf as (old & Hfind & Hnone).
  exact (read_after_unlink (H := Model.crypto) (H0 := Model.zlib)
           (H1 := Model.telegram) (jsstr "pw") (jsstr "/a.txt")
           Spec.after_upload old 5 0 Hfind Hnone).
Defined.

(** ** The invariant of the index, over the mount and the folder scan *)

Section StaysSound.
Context `{Crypto} `{Zlib} `{Telegram}.
Import Monad Spec.

Lemma keeps_db_sound {A} (m : M World.t A) : keeps_db m -> keeps_sound m.
Proof. intros Hk w Hs. rewrite keeps_db_states by exact Hk. exact Hs. Qed.

Lemma sound_bind {A B} (m : M World.t A) (k : A -> M World.t B) :
  keeps_sound m -> (forall a, keeps_sound (k a)) -> keeps_sound (m ≫= k).
Proof.
  intros Hm Hk w Hs. cbv [mbind M_bind]. specialize (Hm w Hs).
  destruct (m w) as [[a|e] w1]; cbn [snd] in *; [|exact Hm].
  apply Hk, Hm.
Qed.

Lemma sound_try_catch {A} (m : M World.t A) (h : exn -> M World.t A) :
  keeps_sound m -> (forall e, keeps_sound (h e)) -> keeps_sound (try_catch m h).
Proof.
  intros Hm Hh w Hs. unfold try_catch. specialize (Hm w Hs).
  destruct (m w) as [[a|e] w1]; cbn [snd] in *; [exact Hm|].
  apply Hh, Hm.
Qed.

Lemma sound_ret {A} (a : A) : keeps_sound (mret a).
Proof. intros w Hs. exact Hs. Qed.

Lemma sound_throw {A} (e : exn) : keeps_sound (throw (A := A) e).
Proof. intros w Hs. exact Hs. Qed.

Lemma sound_lift {A} (r : result A) : keeps_sound (lift r).
Proof. intros w Hs. exact Hs. Qed.

Lemma sound_db_get {A} (q : FileIndex.t -> A) : keeps_sound (db_get q).
Proof. intros w Hs. exact Hs. Qed.

Lemma sound_for_each {A} (l : list A) (body : A -> M World.t ()) :
  (forall x, keeps_sound (body x)) -> keeps_sound (for_each l body).
Proof.
  intros Hb. induction l as [|x l IH]; cbn [for_each]; [apply sound_ret|].
  apply sound_bind; [apply Hb|]. intros _. exact IH.
Qed.

Lemma sound_set_db d w :
  sound d -> Forall sound (states w) -> Forall sound (states (World.set_db d w)).
Proof.
  intros Hd Hs. unfold states in *. cbn [World.set_db World.db World.history].
  apply Forall_cons in Hs as [_ Hs]. repeat (constructor; [exact Hd|]). exact Hs.
Qed.

Lemma sound_now w : Forall sound (states w) -> sound (World.db w).
Proof. intros Hs. apply Forall_cons in Hs as [Hd _]. exact Hd. Qed.

Lemma sound_db_run (stmt : FileIndex.t -> FileIndex.t) :
  (forall d, sound d -> sound (stmt d)) -> keeps_sound (db_run stmt).
Proof.
  intros Hstmt w Hs. unfold db_run. cbn [snd].
  apply sound_set_db; [apply Hstmt, sound_now, Hs|exact Hs].
Qed.

Lemma sound_modify (f : World.t -> World.t) :
  (forall w, states (f w) = states w) -> keeps_sound (modify f).
Proof. intros Hf w Hs. unfold modify. cbn [snd]. rewrite Hf. exact Hs. Qed.

Lemma sound_encrypt password data : keeps_sound (Pipeline.encrypt password data).
Proof. apply keeps_db_sound, encrypt_keeps_db. Qed.

Lemma sound_sendFile chatId file : keeps_sound (TelegramClient.sendFile chatId file).
Proof. apply keeps_db_sound, sendFile_keeps_db. Qed.

Lemma sound_deleteMessage messageId :
  keeps_sound (TelegramClient.deleteMessage messageId).
Proof.
  apply sound_try_catch; [|intros e; apply sound_ret].
  apply sound_bind; [apply keeps_db_sound, bot_keeps_db|].
  intros _. apply sound_ret.
Qed.

(** *** The statements on the index *)

Lemma chunk_count_delete d fileId j :
  chunk_count (FileIndex.delete d fileId) j <= chunk_count d j.
Proof.
  unfold chunk_count, FileIndex.delete. cbn [FileIndex.tbl_chunks].
  apply inj_le. induction (FileIndex.tbl_chunks d) as [|c l IH]; [reflexivity|].
  cbn [List.filter].
  destruct (negb (FileIndex.file_id c =? fileId)); cbn [List.filter];
    destruct (FileIndex.file_id c =? j); cbn [length]; lia.
Qed.

Lemma delete_sound d fileId : sound d -> sound (FileIndex.delete d fileId).
Proof.
  intros [Hc Hb]. split; [apply delete_consistent, Hc|].
  intros f Hf. etrans; [apply chunk_count_delete|]. apply Hb.
  unfold FileIndex.delete in Hf. cbn [FileIndex.tbl_files] in Hf.
  apply list_elem_of_In, filter_In in Hf as [Hf _]. apply list_elem_of_In, Hf.
Qed.

Lemma setFilename_sound d newName fileId :
  sound d -> sound (FileIndex.setFilename d newName fileId).
Proof.
  intros [(Hnd & Hseq & Hfk) Hb].
  set (g := fun f : FileIndex.file_row =>
              if FileIndex.id f =? fileId
              then FileIndex.mkFile (FileIndex.id f) newName (FileIndex.hash f)
                     (FileIndex.original_size f) (FileIndex.stored_size f)
                     (FileIndex.chunks f) (FileIndex.compressed f)
              else f).
  assert (Hid : forall f, FileIndex.id (g f) = FileIndex.id f)
    by (intros f; unfold g; destruct (FileIndex.id f =? fileId); reflexivity).
  assert (Hch : forall f, FileIndex.chunks (g f) = FileIndex.chunks f)
    by (intros f; unfold g; destruct (FileIndex.id f =? fileId); reflexivity).
  assert (Hfiles : FileIndex.tbl_files (FileIndex.setFilename d newName fileId)
                   = map g (FileIndex.tbl_files d)) by reflexivity.
  assert (Hids : map FileIndex.id (map g (FileIndex.tbl_files d))
                 = map FileIndex.id (FileIndex.tbl_files d)).
  { rewrite map_map. apply map_ext. exact Hid. }
  split; [split; [|split]|].
  - rewrite Hfiles, Hids. exact Hnd.
  - intros f Hf. rewrite Hfiles in Hf.
    apply list_elem_of_In, in_map_iff in Hf as (f0 & <- & Hf0).
    rewrite Hid. apply (Hseq f0), list_elem_of_In, Hf0.
  - intros c Hc. specialize (Hfk c Hc).
    unfold FileIndex.has_file in *. rewrite Hfiles.
    rewrite existsb_exists in *. destruct Hfk as (f & Hf & Hfid).
    exists (g f). split; [apply in_map, Hf|]. rewrite Hid. exact Hfid.
  - intros f Hf. rewrite Hfiles in Hf.
    apply list_elem_of_In, in_map_iff in Hf as (f0 & <- & Hf0).
    rewrite Hid, Hch. apply (Hb f0), list_elem_of_In, Hf0.
Qed.

Lemma updateSyncState_sound d folderId path hash mtime :
  sound d -> sound (FileIndex.updateSyncState d folderId path hash mtime).
Proof. intros Hs. exact Hs. Qed.

(** *** The upload pipeline *)

Lemma sound_uploadChunks chatId f l w :
  Forall sound (states w) -> f ∈ FileIndex.tbl_files (World.db w) ->
  chunk_count (World.db w) (FileIndex.id f) + Z.of_nat (length l)
    <= FileIndex.chunks f ->
  Forall sound
    (states (snd (for_each l (Pipeline.uploadChunk chatId (FileIndex.id f)) w))).
Proof.
  intros Hs Hf Hle.
  pose proof (uploadChunks_sound chatId f l w Hs Hf Hle) as Hloop.
  destruct (for_each l (Pipeline.uploadChunk chatId (FileIndex.id f)) w)
    as [r w']. apply Hloop.
Qed.

Lemma sound_processFile fs filePath opts :
  keeps_sound (Pipeline.processFile fs filePath opts).
Proof.
  unfold Pipeline.processFile.
  apply sound_bind; [apply sound_lift|]. intros fileData.
  apply sound_bind; [apply sound_lift|]. intros hash.
  apply sound_bind; [apply sound_db_get|].
  intros [|]; [apply sound_throw|].
  destruct (Compressor.compress _ _) as [compressedData compressed].
  apply sound_bind; [apply sound_encrypt|]. intros encryptedData.
  intros w Hs. cbv [mbind M_bind lift].
  destruct (Pipeline.frames _ _ _ _) as [chunkFiles|e] eqn:Hframes;
    [|exact Hs].
  apply frames_length in Hframes.
  pose proof (keeps_db_states _ w
                (initialize_keeps_db (botToken (Pipeline.cfg opts)))) as Hst.
  destruct (TelegramClient.initialize (botToken (Pipeline.cfg opts)) w)
    as [[[]|e] w2]; cbn [snd] in Hst |- *; [|rewrite Hst; exact Hs].
  rewrite <- Hst in Hs. unfold db_try.
  destruct (FileIndex.addFile (World.db w2) _) as [[fileId|e] d3] eqn:Hadd;
    [|exact Hs].
  apply addFile_sound in Hadd as (Hs3 & _ & Hc3 & f & Hf & <- & _ & Hn);
    [|apply sound_now, Hs|cbn [FileIndex.fd_chunks]; lia].
  cbn [FileIndex.fd_chunks] in Hn.
  pose proof (sound_uploadChunks (chatId (Pipeline.cfg opts)) f chunkFiles
                (World.set_db d3 w2)) as Hloop.
  cbn [World.set_db World.db] in Hloop.
  destruct (for_each chunkFiles
              (Pipeline.uploadChunk (chatId (Pipeline.cfg opts)) (FileIndex.id f))
              (World.set_db d3 w2)) as [[[]|e] w4]; cbn [snd] in *;
    apply Hloop; try (apply sound_set_db; assumption); try exact Hf;
    rewrite Hc3, Hn, Hframes; lia.
Qed.

(** *** The mount *)

Lemma sound_index_new fd messageId size_ tg :
  FileIndex.fd_chunks fd = 1 ->
  keeps_sound
    (fileId ← db_try (fun d => FileIndex.addFile d fd);
     db_try (fun d => FileIndex.addChunk d fileId 0 messageId size_) ;;
     db_run (fun d => FileIndex.setChunkTelegramId d tg fileId 0)).
Proof.
  intros Hone w Hs. cbv [mbind M_bind db_try db_run].
  destruct (FileIndex.addFile (World.db w) fd) as [[fileId|e] d1] eqn:Hadd;
    [|exact Hs].
  apply addFile_sound in Hadd as (Hs1 & _ & Hc1 & f & Hf & <- & _ & Hn);
    [|apply sound_now, Hs|lia].
  cbn [World.set_db World.db].
  pose proof (sound_set_db d1 w Hs1 Hs) as Hs1'.
  destruct (FileIndex.addChunk d1 (FileIndex.id f) 0 messageId size_)
    as [[[]|e] d2] eqn:Hchunk; [|exact Hs1'].
  apply addChunk_sound in Hchunk as (Hs2 & _ & _);
    [|exact Hs1|exact Hf|lia].
  cbn [snd World.set_db World.db].
  apply sound_set_db.
  - apply setChunkTelegramId_sound, Hs2.
  - apply sound_set_db; assumption.
Qed.

Variables (password : jsstring) (cfg : config).

Lemma sound_uploadFile name data :
  keeps_sound (TelegramFS.uploadFile password cfg name data).
Proof.
  unfold TelegramFS.uploadFile.
  apply sound_bind; [apply sound_db_get|]. intros existingByName.
  apply sound_bind.
  { destruct existingByName as [old|]; [|apply sound_ret].
    apply sound_bind; [apply sound_db_get|]. intros chunks.
    apply sound_bind.
    - apply sound_for_each. intros chunk.
      apply sound_try_catch; [|intros e; apply sound_ret].
      apply sound_bind; [apply sound_deleteMessage|]. intros _. apply sound_ret.
    - intros _. apply sound_db_run. intros d. apply delete_sound. }
  intros _. apply sound_bind; [apply sound_db_get|].
  intros [found|]; [apply sound_ret|].
  destruct (Compressor.compress data name) as [compressedData compressed].
  apply sound_bind; [apply sound_encrypt|]. intros encryptedData.
  apply sound_bind; [apply sound_lift|]. intros header.
  apply sound_bind; [apply sound_sendFile|]. intros result.
  apply sound_index_new. reflexivity.
Qed.

(** X26.  The index under the mount.  From a database whose states so far
    are all sound (ids unique and under the counter, every chunk row with
    its file row, no file with more chunk rows than it declares), every
    state the database goes through during [release], [unlink] and
    [rename] is sound, whatever the chat answers and whether the operation
    fails or not; [read], [write], [create] and [truncate] do not write to
    the database at all. *)
Theorem mount_keeps_sound (w : World.t) :
  Forall sound (states w) ->
  (forall filepath,
     Forall sound (states (snd (TelegramFS.release password cfg filepath w))))
  /\ (forall filepath,
        Forall sound (states (snd (TelegramFS.unlink filepath w))))
  /\ (forall src dest,
        Forall sound (states (snd (TelegramFS.rename src dest w))))
  /\ (forall filepath length position,
        states (snd (TelegramFS.read password filepath length position w))
        = states w)
  /\ (forall filepath buffer length position,
        states (snd (TelegramFS.write filepath buffer length position w))
        = states w)
  /\ (forall filepath, states (snd (TelegramFS.create filepath w)) = states w)
  /\ (forall filepath size,
        states (snd (TelegramFS.truncate filepath size w)) = states w).
Proof.
  intros Hs. refine (conj _ (conj _ (conj _ (conj _ (conj _ (conj _ _)))))).
  - intros filepath. revert w Hs. change (keeps_sound
      (TelegramFS.release password cfg filepath)).
    unfold TelegramFS.release.
    apply sound_bind; [intros w Hs; exact Hs|]. intros [wb|]; [|apply sound_ret].
    destruct (negb (World.wb_modified wb)); [apply sound_ret|].
    apply sound_try_catch; [|intros e; apply sound_ret].
    apply sound_bind; [apply sound_uploadFile|]. intros _.
    apply sound_bind; [apply sound_modify; reflexivity|]. intros _.
    apply sound_bind; [apply sound_modify; reflexivity|]. intros _.
    apply sound_ret.
  - intros filepath. revert w Hs.
    change (keeps_sound (TelegramFS.unlink filepath)).
    unfold TelegramFS.unlink.
    apply sound_bind; [apply sound_db_get|]. intros [file|]; [|apply sound_ret].
    apply sound_try_catch; [|intros e; apply sound_ret].
    apply sound_bind; [apply sound_db_get|]. intros chunks.
    apply sound_bind.
    { apply sound_for_each. intros chunk.
      apply sound_bind; [apply sound_deleteMessage|]. intros _. apply sound_ret. }
    intros _. apply sound_bind.
    { apply sound_db_run. intros d. apply delete_sound. }
    intros _. apply sound_bind; [apply sound_modify; reflexivity|]. intros _.
    apply sound_ret.
  - intros src dest. revert w Hs.
    change (keeps_sound (TelegramFS.rename src dest)).
    unfold TelegramFS.rename.
    apply sound_bind; [apply sound_db_get|]. intros [file|]; [|apply sound_ret].
    apply sound_bind.
    { apply sound_db_run. intros d. apply setFilename_sound. }
    intros _. apply sound_bind; [|intros _; apply sound_ret].
    apply sound_modify. intros w.
    destruct (World.fileCache w !! Path.basename src); reflexivity.
  - intros filepath length position.
    unfold TelegramFS.read, try_catch, TelegramFS.getCached.
    cbv [mbind M_bind mret M_ret].
    assert (Hdl : forall name w0,
      states (snd (TelegramFS.downloadFile password name w0)) = states w0).
    { intros name w0. apply keeps_db_states. clear.
      intros w. unfold TelegramFS.downloadFile.
      cbv [mbind M_bind mret M_ret db_get gets throw lift].
      destruct (FileIndex.findByName (World.db w) name) as [file|]; [|auto].
      destruct (FileIndex.getChunks (World.db w) (FileIndex.id file))
        as [|c l]; [auto|].
      assert (Hk : keeps_db (map_each (c :: l) Pipeline.downloadChunk)).
      { generalize (c :: l). intros l0.
        induction l0 as [|x l0 IH]; intros w0; cbn [map_each]; [auto|].
        cbv [mbind M_bind mret M_ret].
        assert (Hx : keeps_db (Pipeline.downloadChunk x)).
        { intros w1. unfold Pipeline.downloadChunk, TelegramClient.downloadFile.
          cbv [mbind M_bind mret M_ret lift].
          pose proof (bot_keeps_db (getFileStream (FileIndex.file_telegram_id x))
                        w1) as Hb.
          destruct (bot (getFileStream (FileIndex.file_telegram_id x)) w1)
            as [[data|e] w2]; cbn [snd] in *; [|exact Hb].
          destruct (Chunker.parseHeader data); exact Hb. }
        specialize (Hx w0).
        destruct (Pipeline.downloadChunk x w0) as [[y|e] w1]; cbn [snd] in *;
          [|exact Hx].
        specialize (IH w1).
        destruct (map_each l0 Pipeline.downloadChunk w1) as [[ys|e] w2];
          cbn [snd] in *; destruct Hx as [<- <-]; exact IH. }
      specialize (Hk w).
      destruct (map_each (c :: l) Pipeline.downloadChunk w) as [[ds|e] w1];
        cbn [snd] in *; [|exact Hk].
      destruct (Pipeline.decode password ds); exact Hk. }
    destruct (World.fileCache w !! Path.basename filepath) as [entry|].
    + destruct (TelegramFS.CACHE_TTL <? World.clock w - World.timestamp entry);
        [|reflexivity].
      set (w0 := World.set_fileCache _ w).
      specialize (Hdl (Path.basename filepath) w0).
      destruct (TelegramFS.downloadFile password (Path.basename filepath) w0)
        as [[data|e] wd]; cbn [snd] in *; exact Hdl.
    + specialize (Hdl (Path.basename filepath) w).
      destruct (TelegramFS.downloadFile password (Path.basename filepath) w)
        as [[data|e] wd]; cbn [snd] in *; exact Hdl.
  - intros filepath buffer length position. reflexivity.
  - intros filepath. reflexivity.
  - intros filepath size. unfold TelegramFS.truncate, TelegramFS.get_buffer,
      TelegramFS.getCached.
    cbv [mbind M_bind mret M_ret gets].
    destruct (World.writeBuffers w !! Path.basename filepath); [reflexivity|].
    destruct (World.fileCache w !! Path.basename filepath) as [entry|];
      [|reflexivity].
    destruct (TelegramFS.CACHE_TTL <? World.clock w - World.timestamp entry);
      reflexivity.
Qed.

(** *** The folder scan *)

Variable fs : localfs.

Lemma sound_updateSyncState folderId path hash mtime :
  keeps_sound (SyncEngine.updateSyncState folderId path hash mtime).
Proof. apply sound_db_run. intros d. apply updateSyncState_sound. Qed.

Lemma sound_emit e : keeps_sound (SyncEngine.emit e).
Proof. apply sound_modify. reflexivity. Qed.

Lemma sound_syncFile folderId stateMap c file :
  keeps_sound (SyncEngine.syncFile password cfg fs folderId stateMap c file).
Proof.
  destruct c as [u s]. unfold SyncEngine.syncFile.
  destruct (match stateMap !! sc_relativePath file with
            | Some existing => sc_mtime file <=? FileIndex.mtime existing
            | None => false
            end); [apply sound_ret|].
  apply sound_bind; [apply sound_lift|]. intros hash.
  destruct (match stateMap !! sc_relativePath file with
            | Some existing => bool_decide (FileIndex.file_hash existing = hash)
            | None => false
            end).
  { apply sound_bind; [apply sound_updateSyncState|]. intros _. apply sound_ret. }
  apply sound_try_catch.
  - apply sound_bind; [apply sound_emit|]. intros _.
    apply sound_bind; [apply sound_processFile|]. intros _.
    apply sound_bind; [apply sound_updateSyncState|]. intros _.
    apply sound_bind; [apply sound_emit|]. intros _. apply sound_ret.
  - intros e. destruct (includes _ _).
    + apply sound_bind; [apply sound_updateSyncState|]. intros _. apply sound_ret.
    + apply sound_bind; [apply sound_emit|]. intros _. apply sound_ret.
Qed.

(** X27.  The index under the folder scan.  From a database whose states
    so far are all sound, every state the database goes through during
    [syncFolder] is sound, whatever the files scanned, the states persisted
    and the answers of the chat, uploads that fail midway included. *)
Theorem syncFolder_keeps_sound folderPath (w : World.t) :
  Forall sound (states w) ->
  Forall sound
    (states (snd (SyncEngine.syncFolder password cfg fs folderPath w))).
Proof.
  revert w. change (keeps_sound
    (SyncEngine.syncFolder password cfg fs folderPath)).
  unfold SyncEngine.syncFolder.
  apply sound_bind; [apply sound_db_get|]. intros [folder|]; [|apply sound_throw].
  apply sound_bind; [apply sound_emit|]. intros _.
  apply sound_bind; [apply sound_db_get|]. intros existingStates.
  apply sound_bind.
  - generalize (0, 0). induction (scanDirectory fs folderPath) as [|file files IH];
      intros c; cbn [SyncEngine.syncFiles]; [apply sound_ret|].
    apply sound_bind; [apply sound_syncFile|]. intros c'. apply IH.
  - intros [uploaded skipped].
    apply sound_bind; [apply sound_emit|]. intros _. apply sound_ret.
Qed.

End StaysSound.

(** A flush of [a.txt] on an empty index. *)
Lemma mount_keeps_sound_witness :
  Forall Spec.sound
    (Spec.states
       (snd (TelegramFS.release (H := Model.crypto) (H0 := Model.zlib)
               (H1 := Model.telegram) (jsstr "pw") Model.the_config
               (jsstr "/a.txt") (Spec.flushing [] "a.txt")))).
Proof.
  destruct (mount_keeps_sound (H := Model.crypto) (H0 := Model.zlib)
              (H1 := Model.telegram) (jsstr "pw") Model.the_config
              (Spec.flushing [] "a.txt")) as [Hrelease _].
  - repeat constructor; apply sound_empty.
  - apply Hrelease.
Defined.

(** The scan of the folder with one note. *)
Lemma syncFolder_keeps_sound_witness :
  Forall Spec.sound (Spec.states (snd (Spec.sync (Spec.registered [])))).
Proof.
  apply (syncFolder_keeps_sound (H := Model.crypto) (H0 := Model.zlib)
           (H1 := Model.telegram) (jsstr "pw") Model.the_config Spec.one_note
           Spec.docs (Spec.registered [])).
  assert (Hs : Spec.sound (World.db (Spec.registered []))).
  { split; [split; [constructor|split]|]; intros x Hx; inversion Hx. }
  change (Forall Spec.sound [World.db (Spec.registered []);
                             World.db (Spec.registered [])]).
  repeat (constructor; [exact Hs|]). constructor.
Defined.

(** [a.txt] rewritten through the mount, the network going down when the new
    version is sent. *)
Lemma release_failure_witness :
  let w1 := snd (TelegramFS.release (H := Model.crypto) (H0 := Model.zlib)
                   (H1 := Model.telegram) (jsstr "pw") Model.the_config
                   (jsstr "/a.txt") Spec.overwriting) in
  FileIndex.tbl_files (World.db w1) = []
  /\ World.writeBuffers w1 = World.writeBuffers Spec.overwriting.
Proof.
  intros w1.
  assert (Hrun : TelegramFS.release (H := Model.crypto) (H0 := Model.zlib)
                   (H1 := Model.telegram) (jsstr "pw") Model.the_config
                   (jsstr "/a.txt") Spec.overwriting
                 = (Ok TelegramFS.EIO, w1)) by (vm_compute; reflexivity).
  assert (Hcons : Spec.consistent (World.db Spec.overwriting)).
  { apply (sound_now (H1 := Model.telegram) Spec.after_upload).
    apply (sound_processFile (H := Model.crypto) (H0 := Model.zlib)
             (H1 := Model.telegram)).
    repeat constructor; apply sound_empty. }
  assert (Hname : FileIndex.findByName
                    (Spec.without_found (World.db Spec.overwriting)
                       (Path.basename (jsstr "/a.txt")))
                    (Path.basename (jsstr "/a.txt")) = None)
    by (vm_compute; reflexivity).
  destruct (release_failure (H := Model.crypto) (H0 := Model.zlib)
              (H1 := Model.telegram) (jsstr "pw") Model.the_config
              (jsstr "/a.txt") Spec.overwriting w1 Hcons Hname Hrun)
    as (Hdb & Hwb & _).
  split; [rewrite Hdb; vm_compute; reflexivity|exact Hwb].
Defined.
